(** * Semantic routing: a shallow embedding of the Phase 2 routing algorithms

    The routing engine is given as pseudocode (PHASE2-ALGO-001: [SemanticRoute],
    the eight experts, [VALIDATE_BYZANTINE], [CALIBRATE_CONFIDENCE],
    [APPLY_FALLBACK_STRATEGY] and their helpers).  Every function below is
    transcribed from that pseudocode and keeps its name.

    Conventions of the embedding:
    - a pseudocode [number] is an exact rational ([Q]); equality of numbers
      is [Qeq] (written [==]);
    - [NULL] is [None];
    - a function that may [THROW], or that calls a collaborator that may,
      returns [Exc A]; [TRY ... CATCH] is [try_catch];
    - dictionaries (metadata, score tables, the decision cache) are [gmap]s;
    - helpers that the pseudocode calls but never defines (the profile
      store, the vector index, the embedding service, ...) are the fields of
      one record of collaborators, [Services];
    - the clock, the UUID generator and the decision cache are the mutable
      [World] threaded through the pipeline by the monad [M];
    - [LOG_*] calls have no effect on any returned value and are dropped;
    - a string of the pseudocode is the sequence of its bytes in UTF-8.

    The pattern embedding script ([scripts/embed-daxiom-patterns.js]) is
    embedded in the module [EmbedScript]: the process environment, the pattern
    file and the embedding API are the fields of one record, [Host], and a run
    returns what the script builds together with the requests and pauses it
    made.  What the script reads from the pattern file and from the API is a
    [Value], any value that [JSON.parse] can build, with strings as
    sequences of UTF-16 code units; an operation that JavaScript ends with a
    [TypeError] on such a value ends with one here.  The index search and the profile update of the routing
    specification ([PHASE2_ROUTING_SPEC.md], sections 2.7 and 2.8) are in the
    module [RoutingSpec], with the same conventions as the routing engine. *)

From Stdlib Require Import QArith Qabs Lqa ZArith List Ascii String Lia.
From Stdlib Require Import Sorted Permutation.
From stdpp Require Import gmap strings list pretty.

Import ListNotations.

(** ** Numbers *)

Definition Qltb (x y : Q) : bool := negb (Qle_bool y x).

(** FUNCTION: CLAMP(value, min, max) *)
Definition CLAMP (value min max : Q) : Q :=
  if Qltb value min then min
  else if Qltb max value then max
  else value.

(** SIZE(...) used as a number. *)
Definition of_nat (n : nat) : Q := inject_Z (Z.of_nat n).

(** ** Exceptions

    [Error] lists the exception classes the pseudocode names; [RuntimeError]
    stands for any other [Exception] (a missing dictionary key, an index out
    of range, a division by zero, a failed collaborator). *)

Inductive Error : Type :=
  | ValidationError
  | HttpError (status : Z) (message : string)
  | EmbeddingError
  | HnsError
  | DatabaseError
  | RoutingServiceError (message : string)
  | NoAgentsAvailableError (message : string)
  | RoutingError (message : string)
  | ScoringError
  | ConsensusError
  | ConfidenceError
  | PersistError
  | TimeoutError
  | RuntimeError.

Inductive Exc (A : Type) : Type :=
  | Ok (a : A)
  | Throw (e : Error).

Arguments Ok {A} a.
Arguments Throw {A} e.

Module ExcMonad.

Definition bind {A B} (c : Exc A) (k : A -> Exc B) : Exc B :=
  match c with
  | Ok a => k a
  | Throw e => Throw e
  end.

(** TRY c CATCH Exception => handler *)
Definition try_catch {A} (c : Exc A) (handler : A) : A :=
  match c with
  | Ok a => a
  | Throw _ => handler
  end.

End ExcMonad.

Declare Scope exc_scope.
Delimit Scope exc_scope with exc.
Notation "x <- c ;; k" := (ExcMonad.bind c (fun x => k))
  (at level 100, c at next level, right associativity) : exc_scope.

(** ** Data model *)

(** One entry of the nearest-neighbour result: [(agentId, similarity)]. *)
Record Candidate : Type := {
  c_agent_id : string;
  similarity : Q
}.

Record LatencyProfile : Type := {
  p50 : Q;
  p95 : Q;
  p99 : Q;
  max : Q
}.

(** An element of [agent.recent_wins]; timestamps are seconds. *)
Record Win : Type := {
  win_pattern_type : string;
  win_timestamp : Z;
  win_success : bool
}.

(** AgentCapabilityProfile *)
Record Agent : Type := {
  agent_id : string;
  name : string;
  is_available : bool;
  skills : list string;
  specializations : list string;
  success_rate_by_type : gmap string Q;
  success_rate_default : Q;
  recent_wins : list Win;
  latency_profile : LatencyProfile;
  team_assignments : Q;
  team_capacity : Q
}.

Record RoutingConstraints : Type := {
  max_latency_ms : option Q;
  required_security_level : option string;
  require_consensus : bool;
  skill_constraints : option (list string)
}.

(** PatternRoutingRequest *)
Record Request : Type := {
  request_id : string;
  req_user_id : string;
  pattern_id : string;
  pattern_query : string;
  metadata : gmap string string;
  pattern_embedding : option (list Q);
  preferred_agents : list string;
  excluded_agents : list string;
  constraints : option RoutingConstraints;
  explain_reasoning : bool
}.

Record UserPreferences : Type := {
  up_preferred_agents : list string;
  up_excluded_agents : list string
}.

Record EnvironmentalFactors : Type := {
  time_of_day : string;
  day_of_week : string;
  system_load : Q
}.

Record Context : Type := {
  user_id : string;
  session_id : string;
  current_agent_id : string;
  prior_executions : list string;
  prior_routing_decisions : list string;
  environmental : EnvironmentalFactors;
  user_preferences : UserPreferences
}.

(** An entry of [decision.alternatives]. *)
Record Alternative : Type := {
  alt_agent_id : string;
  alt_score : Q;
  alt_rank : nat
}.

Inductive ConsensusResult : Type :=
  | NONE
  | APPROVE
  | ESCALATE
  | TIMEOUT
  | ERROR.

#[export] Instance ConsensusResult_eq_dec : EqDecision ConsensusResult.
Proof. solve_decision. Defined.

Record ConsensusRecord : Type := {
  cr_required : bool;
  cr_validators : nat;
  validators_agreed : nat;
  consensus_result : ConsensusResult;
  validation_latency_ms : Z
}.

(** RoutingDecision.  The presentation-only fields of the primary path
    ([confidence_rationale], [scoring_breakdown], the context snapshot)
    are not represented; [reasoning] is kept because the fallback builders
    store their reason string in it. *)
Record RoutingDecision : Type := {
  decision_id : string;
  timestamp : option Z;
  primary_agent_id : string;
  primary_agent_name : option string;
  primary_score : Q;
  alternatives : list Alternative;
  confidence_score : Q;
  consensus : option ConsensusRecord;
  reasoning : string;
  fallback_applied : option string
}.

(** What a routing function hands back: a decision, or the error variant
    built by [BUILD_ERROR_DECISION]. *)
Inductive RoutingResult : Type :=
  | Routed (d : RoutingDecision)
  | ErrorDecision (code message : string).

(** ** Collaborators

    Every helper the pseudocode calls without defining it.  Each one that
    touches a store, an index or a remote service may raise, hence [Exc]. *)

Record Services : Type := {
  (* system clock and identifiers: the n-th reading / the n-th identifier *)
  SYSTEM_CLOCK_MILLISECONDS : nat -> Z;
  UUID_V4 : nat -> string;
  (* request validation and cache key *)
  VALIDATE_PATTERN_REQUEST : Request -> Exc unit;
  VALIDATE_EXECUTION_CONTEXT : Context -> Exc unit;
  COMPUTE_CACHE_KEY : Request -> Context -> string;
  (* embedding service and vector index *)
  EMBED_PATTERN : string -> gmap string string -> Exc (list Q);
  HNSW_SEARCH : list Q -> nat -> nat -> Exc (list Candidate);
  METADATA_FALLBACK_SEARCH : Request -> nat -> Exc (list Candidate);
  (* profile store *)
  BATCH_GET_PROFILES : list string -> bool -> Exc (list Agent);
  FILTER_AGENTS :
    list Agent -> RoutingConstraints -> list string -> list string -> list Agent;
  GET_SUCCESS_RATE : string -> string -> Exc Q;
  GET_AGENT_RECENT_ACCURACY : string -> nat -> Exc (option Q);
  GET_PATTERN_EXECUTION_SUCCESS_RATE : string -> bool -> Exc (option Q);
  GET_USER_AGENT_SUCCESS_RATE : string -> string -> nat -> Exc (option Q);
  GET_AGENT_LAST_EXECUTION_TIME : string -> Exc (option Z);
  GET_AGENT_SIMILARITY_SCORE : string -> Exc Q;
  AGENT_ALREADY_ASSIGNED : string -> Context -> Exc bool;
  AGENT_ACTIVE_AT_TIME_OF_DAY : string -> string -> Exc bool;
  COUNT_SIMILAR_AGENTS_ASSIGNED : string -> Context -> Q -> Exc nat;
  EXTRACT_SPECIALIZATIONS : gmap string string -> Exc (list string);
  EXTRACT_CATEGORY : gmap string string -> Exc string;
  IS_CRITICAL_PATTERN : Request -> bool;
  (* entropy of a score list, and the natural logarithm of a count *)
  EXTRACT_SORTED_SCORES : gmap string Q -> list Q;
  EXTRACT_SCORES : gmap string Q -> list Q;
  COMPUTE_ENTROPY : list Q -> Exc Q;
  LOG : nat -> Q;
  (* consensus tasks: does the n-th spawned validator finish within the
     timeout (ms) given to WAIT_FOR_TASK *)
  TASK_COMPLETES : nat -> Z -> bool;
  (* persistence *)
  LOG_ROUTING_DECISION : RoutingDecision -> Exc unit;
  CACHE_WRITE : string -> Exc unit;
  (* fallback manager *)
  GET_CACHED_ALTERNATIVES : Request -> Exc (option (list Agent));
  IS_AVAILABLE : Agent -> Exc bool;
  FIND_AGENTS_BY_SKILLS : list string -> string -> Exc (list Agent);
  SORT_BY_SUCCESS_RATE : list Agent -> Exc (list Agent);
  GET_BEST_AGENT_FOR_PATTERN_TYPE : string -> bool -> Exc (option Agent);
  GET_AVAILABLE_AGENTS : string -> Exc (list Agent);
  ROUND_ROBIN_SELECT : list Agent -> Exc Agent;
  GET_DEFAULT_FALLBACK_AGENT : Exc (option Agent)
}.

(** ** The mutable world and the pipeline monad *)

Record World : Type := {
  tick : nat;                                      (* clock readings taken so far *)
  uuids_issued : nat;                              (* identifiers generated so far *)
  decision_cache : gmap string (RoutingDecision * Z);  (* value, expiry in ms *)
  validatorResults : list (option bool)            (* votes of the last consensus run *)
}.

Definition M (A : Type) : Type := World -> Exc A * World.

Module StateMonad.

Definition ret {A} (a : A) : M A := fun w => (Ok a, w).

Definition bind {A B} (c : M A) (k : A -> M B) : M B :=
  fun w =>
    match c w with
    | (Ok a, w') => k a w'
    | (Throw e, w') => (Throw e, w')
    end.

Definition throw {A} (e : Error) : M A := fun w => (Throw e, w).

(** lift a store call into the pipeline *)
Definition lift {A} (c : Exc A) : M A := fun w => (c, w).

(** TRY c CATCH e => handler e *)
Definition try_catch {A} (c : M A) (handler : Error -> M A) : M A :=
  fun w =>
    match c w with
    | (Ok a, w') => (Ok a, w')
    | (Throw e, w') => handler e w'
    end.

End StateMonad.

Declare Scope m_scope.
Delimit Scope m_scope with M.
Notation "x <- c ;; k" := (StateMonad.bind c (fun x => k))
  (at level 100, c at next level, right associativity) : m_scope.
Notation "c ;;; k" := (StateMonad.bind c (fun _ => k))
  (at level 100, right associativity) : m_scope.

(** ** Helper functions (section 7 of the algorithms document) *)

(** The code points that [trim] removes: the WhiteSpace and LineTerminator
    characters of ECMAScript (tab, line feed, vertical tab, form feed,
    carriage return, space, no-break space, the space separators, line and
    paragraph separator, byte order mark). *)
Definition is_space (codePoint : N) : bool :=
  ((9 <=? codePoint) && (codePoint <=? 13)
   || (codePoint =? 32) || (codePoint =? 160) || (codePoint =? 5760)
   || (8192 <=? codePoint) && (codePoint <=? 8202)
   || (codePoint =? 8232) || (codePoint =? 8233) || (codePoint =? 8239)
   || (codePoint =? 8287) || (codePoint =? 12288) || (codePoint =? 65279))%N%bool.

(** A byte that continues a character of more than one byte. *)
Definition continuation (b : N) : bool := ((128 <=? b) && (b <=? 191))%N%bool.

(** Strings are held in UTF-8.  [white_space s] is the number of bytes of the
    white space character that [s] starts with, and 0 when it starts with
    none; such a character takes at most three bytes. *)
Definition white_space (s : string) : nat :=
  match s with
  | EmptyString => 0
  | String c1 rest =>
      let b1 := N_of_ascii c1 in
      if (b1 <? 128)%N then (if is_space b1 then 1 else 0)
      else
        match rest with
        | EmptyString => 0
        | String c2 rest =>
            let b2 := N_of_ascii c2 in
            if ((194 <=? b1) && (b1 <=? 223) && continuation b2)%N%bool then
              (if is_space ((b1 - 192) * 64 + (b2 - 128))%N then 2 else 0)
            else
              match rest with
              | EmptyString => 0
              | String c3 _ =>
                  let b3 := N_of_ascii c3 in
                  if ((224 <=? b1) && (b1 <=? 239) && continuation b2 && continuation b3)%N%bool
                  then
                    (if is_space ((b1 - 224) * 4096 + (b2 - 128) * 64 + (b3 - 128))%N
                     then 3 else 0)
                  else 0
              end
        end
  end.

(** [s.split(sep)] *)
Fixpoint split (sep : ascii) (s : string) : list string :=
  match s with
  | EmptyString => [EmptyString]
  | String c rest =>
      if Ascii.eqb c sep then EmptyString :: split sep rest
      else match split sep rest with
           | [] => [String c EmptyString]
           | piece :: pieces => String c piece :: pieces
           end
  end.

(** [s.trimStart()], once [skip] more bytes of a white space character have
    been dropped. *)
Fixpoint trim_start_from (skip : nat) (s : string) : string :=
  match s with
  | EmptyString => EmptyString
  | String c rest =>
      match skip with
      | S more => trim_start_from more rest
      | O =>
          match white_space s with
          | O => s
          | S more => trim_start_from more rest
          end
      end
  end.

Definition trim_start (s : string) : string := trim_start_from 0 s.

(** [s] holds nothing but white space, once [skip] more bytes of a white
    space character have been passed. *)
Fixpoint blank_from (skip : nat) (s : string) : bool :=
  match s with
  | EmptyString => true
  | String c rest =>
      match skip with
      | S more => blank_from more rest
      | O =>
          match white_space s with
          | O => false
          | S more => blank_from more rest
          end
      end
  end.

(** [s.trimEnd()]: [s] up to the point from which only white space follows. *)
Fixpoint trim_end (s : string) : string :=
  match s with
  | EmptyString => EmptyString
  | String c rest => if blank_from 0 s then EmptyString else String c (trim_end rest)
  end.

(** [s.trim()] *)
Definition trim (s : string) : string := trim_end (trim_start s).

(** [x IN list] *)
Definition mem (x : string) (l : list string) : bool := bool_decide (x ∈ l).

Definition INTERSECTION (a b : list string) : list string :=
  List.filter (fun s => mem s b) a.

(** FUNCTION: EXTRACT_SKILLS(metadata).  The metadata is a
    [Record<string, string>], so only the comma-separated branch applies. *)
Definition EXTRACT_SKILLS (metadata : gmap string string) : list string :=
  match metadata !! "skills"%string with
  | Some skillsStr => List.map trim (split "," skillsStr)
  | None => []
  end.

(** FUNCTION: EXTRACT_PATTERN_TYPE(metadata) *)
Definition EXTRACT_PATTERN_TYPE (metadata : gmap string string) : string :=
  match metadata !! "type"%string with
  | Some t => t
  | None =>
      match metadata !! "category"%string with
      | Some c => c
      | None => "unknown"%string
      end
  end.

(** FUNCTION: EXTRACT_PRIORITY(metadata) *)
Definition EXTRACT_PRIORITY (metadata : gmap string string) : string :=
  match metadata !! "priority"%string with
  | Some p => p
  | None => "medium"%string
  end.

(** FUNCTION: EXTRACT_AGENT_IDS(candidates) *)
Definition EXTRACT_AGENT_IDS (candidates : list Candidate) : list string :=
  List.map c_agent_id candidates.

(** [EXTRACT_SIMILARITY_SCORES(candidates)]: the similarity column. *)
Definition EXTRACT_SIMILARITY_SCORES (candidates : list Candidate) : list Q :=
  List.map similarity candidates.

(** [MAX(list)]; the maximum of no numbers is an error. *)
Definition Qmaxb (a b : Q) : Q := if Qltb a b then b else a.

Definition MAX (l : list Q) : Exc Q :=
  match l with
  | [] => Throw RuntimeError
  | x :: rest => Ok (fold_left Qmaxb rest x)
  end.

(** Division as the pseudocode writes it; a zero divisor is an error. *)
Definition DIVIDE (x y : Q) : Exc Q :=
  if Qeq_bool y 0 then Throw RuntimeError else Ok (x / y)%Q.

(** [SORT pairs BY score DESC / ASC].  The pseudocode names no algorithm;
    an insertion sort stands for it: a pair is placed before the first pair
    it does not have to follow. *)
Definition goes_before (descending : bool) (p q : Agent * Q) : bool :=
  if descending then Qle_bool (snd q) (snd p) else Qle_bool (snd p) (snd q).

Fixpoint insert_pair (descending : bool) (p : Agent * Q) (sorted : list (Agent * Q))
  : list (Agent * Q) :=
  match sorted with
  | [] => [p]
  | q :: rest =>
      if goes_before descending p q then p :: q :: rest
      else q :: insert_pair descending p rest
  end.

Fixpoint SORT_BY (descending : bool) (pairs : list (Agent * Q)) : list (Agent * Q) :=
  match pairs with
  | [] => []
  | p :: rest => insert_pair descending p (SORT_BY descending rest)
  end.

(** [scores[agent.agent_id]]; a missing key is an error. *)
Definition score_of (scores : gmap string Q) (a : Agent) : Exc Q :=
  match scores !! agent_id a with
  | Some s => Ok s
  | None => Throw RuntimeError
  end.

Fixpoint make_pairs (agents : list Agent) (scores : gmap string Q) : Exc (list (Agent * Q)) :=
  match agents with
  | [] => Ok []
  | a :: rest =>
      (s <- score_of scores a ;;
       pairs <- make_pairs rest scores ;;
       Ok ((a, s) :: pairs))%exc
  end.

(** FUNCTION: SORT_BY_SCORE(agents, scores, descending=true) *)
Definition SORT_BY_SCORE (agents : list Agent) (scores : gmap string Q) (descending : bool)
  : Exc (list Agent) :=
  (pairs <- make_pairs agents scores ;;
   Ok (List.map fst (SORT_BY descending pairs)))%exc.

(** [TAKE(list, from, count)]: [count] elements starting at index [from];
    [TAKE(rankedAgents, 1, 3)] is ranks 2 to 4, the three alternatives that
    [BUILD_ALTERNATIVES] expects. *)
Definition TAKE {A} (l : list A) (from count : nat) : list A :=
  firstn count (skipn from l).

(** In a descending list of pairs, [q] may follow [p]. *)
Definition score_ge (p q : Agent * Q) : Prop := (snd q <= snd p)%Q.

(** [b] does not outrank [a]: both have a score and [b]'s is not larger. *)
Definition ranks_before (scores : gmap string Q) (a b : Agent) : Prop :=
  exists sa sb,
    scores !! agent_id a = Some sa /\ scores !! agent_id b = Some sb /\ (sb <= sa)%Q.

(** No agent is listed twice and no two listed agents have equal scores. *)
Definition tie_free (scores : gmap string Q) (agents : list Agent) : Prop :=
  List.NoDup agents
  /\ forall a b sa sb,
       In a agents -> In b agents -> a <> b ->
       scores !! agent_id a = Some sa -> scores !! agent_id b = Some sb -> ~ (sa == sb)%Q.

(** ** World primitives *)

Definition advance_clock (w : World) : World :=
  {| tick := S (tick w);
     uuids_issued := uuids_issued w;
     decision_cache := decision_cache w;
     validatorResults := validatorResults w |}.

Definition issue_uuid (w : World) : World :=
  {| tick := tick w;
     uuids_issued := S (uuids_issued w);
     decision_cache := decision_cache w;
     validatorResults := validatorResults w |}.

Definition store_decision (key : string) (d : RoutingDecision) (expiry : Z) (w : World) : World :=
  {| tick := tick w;
     uuids_issued := uuids_issued w;
     decision_cache := <[key := (d, expiry)]> (decision_cache w);
     validatorResults := validatorResults w |}.

Definition record_votes (votes : list (option bool)) (w : World) : World :=
  {| tick := tick w;
     uuids_issued := uuids_issued w;
     decision_cache := decision_cache w;
     validatorResults := votes |}.

Section Routing.

Variable sv : Services.

Local Open Scope Q_scope.

(** FUNCTION: CURRENT_TIME_MS().  Each call takes the next clock reading. *)
Definition CURRENT_TIME_MS : M Z :=
  fun w => (Ok (SYSTEM_CLOCK_MILLISECONDS sv (tick w)), advance_clock w).

(** [CURRENT_TIMESTAMP()]: the clock in whole seconds. *)
Definition CURRENT_TIMESTAMP : M Z :=
  (ms <- CURRENT_TIME_MS ;; StateMonad.ret (ms / 1000)%Z)%M.

(** FUNCTION: CURRENT_ISO8601_TIMESTAMP().  The formatted string is
    represented by the reading it formats. *)
Definition CURRENT_ISO8601_TIMESTAMP : M Z := CURRENT_TIME_MS.

(** FUNCTION: GENERATE_UUID() *)
Definition GENERATE_UUID : M string :=
  fun w => (Ok (UUID_V4 sv (uuids_issued w)), issue_uuid w).

Definition TIMESTAMP_DIFF_SECONDS (later earlier : Z) : Z := (later - earlier)%Z.

Definition TIMESTAMP_DIFF_HOURS (later earlier : Z) : Q :=
  inject_Z (later - earlier) / 3600.

(** The assignment [validatorResults = results] of VALIDATE_BYZANTINE. *)
Definition SET_VALIDATOR_RESULTS (results : list (option bool)) : M unit :=
  fun w => (Ok tt, record_votes results w).

(** [CACHE_GET(key)]: the stored decision unless its time-to-live is over. *)
Definition CACHE_GET (key : string) : M (option RoutingDecision) :=
  fun w =>
    match decision_cache w !! key with
    | Some (d, expiry) =>
        if (SYSTEM_CLOCK_MILLISECONDS sv (tick w) <? expiry)%Z then (Ok (Some d), w)
        else (Ok None, w)
    | None => (Ok None, w)
    end.

(** [CACHE_SET(key, value, ttl)], [ttl] in seconds; the write may fail. *)
Definition CACHE_SET (key : string) (value : RoutingDecision) (ttl : Z) : M unit :=
  fun w =>
    match CACHE_WRITE sv key with
    | Ok _ =>
        (Ok tt,
         store_decision key value (SYSTEM_CLOCK_MILLISECONDS sv (tick w) + ttl * 1000)%Z w)
    | Throw e => (Throw e, w)
    end.

(** ** The eight experts (section 3) *)

(** The search loop of EXPERT_SIMILARITY: rank and similarity of the first
    candidate carrying [agentId]. *)
Fixpoint find_candidate (agentId : string) (candidates : list Candidate) (i : nat)
  : option (nat * Q) :=
  match candidates with
  | [] => None
  | c :: rest =>
      if bool_decide (c_agent_id c = agentId) then Some (i, similarity c)
      else find_candidate agentId rest (S i)
  end.

(** FUNCTION: EXPERT_SIMILARITY(agentId, candidates, allSimilarities) *)
Definition EXPERT_SIMILARITY (agentId : string) (candidates : list Candidate)
    (allSimilarities : list Q) : Exc Q :=
  match find_candidate agentId candidates 0 with
  | None => Ok 0
  | Some (agentRank, similarityScore) =>
      (maxSimilarity <- MAX allSimilarities ;;
       let normalizedScore :=
         if Qeq_bool maxSimilarity 0 then 0 else similarityScore / maxSimilarity in
       let rankDiscount := 1 - of_nat agentRank * 0.02 in
       let finalScore := normalizedScore * rankDiscount in
       Ok (CLAMP finalScore 0 1))%exc
  end.

(** FUNCTION: EXPERT_METADATA(agent, pattern, requiredSkills) *)
Definition EXPERT_METADATA (agent : Agent) (pattern : Request)
    (requiredSkills : option (list string)) : Exc Q :=
  (let patternSkills := EXTRACT_SKILLS (metadata pattern) in
   patternSpecializations <- EXTRACT_SPECIALIZATIONS sv (metadata pattern) ;;
   patternCategory <- EXTRACT_CATEGORY sv (metadata pattern) ;;
   let '(score, maxScore) := (0, 0) in
   let '(score, maxScore) :=
     if (0 <? length patternSkills)%nat then
       let matchedSkills := INTERSECTION patternSkills (skills agent) in
       let skillMatchRatio := of_nat (length matchedSkills) / of_nat (length patternSkills) in
       (score + skillMatchRatio * 0.5, maxScore + 0.5)
     else (score, maxScore) in
   let '(score, maxScore) :=
     if (0 <? length patternSpecializations)%nat then
       let matchedSpecs := INTERSECTION patternSpecializations (specializations agent) in
       let specMatchRatio :=
         of_nat (length matchedSpecs) / of_nat (length patternSpecializations) in
       (score + specMatchRatio * 0.3, maxScore + 0.3)
     else (score, maxScore) in
   let '(score, maxScore) :=
     match requiredSkills with
     | Some required =>
         if (0 <? length required)%nat then
           let hasAllRequired := forallb (fun s => mem s (skills agent)) required in
           if hasAllRequired then (score + 0.2, maxScore + 0.2)
           else
             let matchCount := length (List.filter (fun s => mem s (skills agent)) required) in
             let partialCredit := of_nat matchCount / of_nat (length required) * 0.15 in
             (score + partialCredit, maxScore + 0.2)
         else (score, maxScore)
     | None => (score, maxScore)
     end in
   let normalizedScore := if Qltb 0 maxScore then score / maxScore else 0.5 in
   Ok (CLAMP normalizedScore 0 1))%exc.

(** FUNCTION: EXPERT_SUCCESS_RATE(agent, patternType) *)
Definition EXPERT_SUCCESS_RATE (agent : Agent) (patternType : string) : Exc Q :=
  let successRate :=
    match success_rate_by_type agent !! patternType with
    | Some r => r
    | None => success_rate_default agent
    end in
  Ok (CLAMP successRate 0 1).

(** The loop body of EXPERT_RECENCY over [agent.recent_wins]; the
    accumulator is [(recentWinsInWindow, recentSuccessesInWindow)]. *)
Definition recency_step (patternType : string) (currentTime timeWindowSeconds : Z)
    (acc : nat * nat) (win : Win) : nat * nat :=
  let '(recentWinsInWindow, recentSuccessesInWindow) := acc in
  if bool_decide (win_pattern_type win = patternType) then
    let timeSinceWin := TIMESTAMP_DIFF_SECONDS currentTime (win_timestamp win) in
    if (timeSinceWin <=? timeWindowSeconds)%Z then
      (S recentWinsInWindow,
       if win_success win then S recentSuccessesInWindow else recentSuccessesInWindow)
    else acc
  else acc.

(** FUNCTION: EXPERT_RECENCY(agent, patternType, timeWindowMinutes) *)
Definition EXPERT_RECENCY (agent : Agent) (patternType : string) (timeWindowMinutes : Z)
  : M Q :=
  (baseScore <- StateMonad.lift (GET_SUCCESS_RATE sv (agent_id agent) patternType) ;;
   let boostAmount := 0 in
   let maxBoost := 0.2 in
   if (length (recent_wins agent) =? 0)%nat then StateMonad.ret baseScore
   else
     currentTime <- CURRENT_TIMESTAMP ;;
     let timeWindowSeconds := (timeWindowMinutes * 60)%Z in
     let '(recentWinsInWindow, recentSuccessesInWindow) :=
       fold_left (recency_step patternType currentTime timeWindowSeconds)
                 (recent_wins agent) (0%nat, 0%nat) in
     let boostAmount :=
       if (0 <? recentWinsInWindow)%nat then
         let recentSuccessRatio := of_nat recentSuccessesInWindow / of_nat recentWinsInWindow in
         recentSuccessRatio * maxBoost
       else boostAmount in
     let finalScore := baseScore + boostAmount in
     StateMonad.ret (CLAMP finalScore 0 1))%M.

(** FUNCTION: EXPERT_TEAM_DIVERSITY(agent, context, allEligibleAgents) *)
Definition EXPERT_TEAM_DIVERSITY (agent : Agent) (context : Context)
    (allEligibleAgents : list Agent) : Exc Q :=
  (let baseScore := 1 in
   let penalties := 0 in
   alreadyAssigned <- AGENT_ALREADY_ASSIGNED sv (agent_id agent) context ;;
   let penalties := if alreadyAssigned : bool then penalties + 0.2 else penalties in
   loadPercentage <- DIVIDE (team_assignments agent) (team_capacity agent) ;;
   let penalties :=
     if Qltb 0.8 loadPercentage then
       let overloadPenalty := (loadPercentage - 0.8) * 0.5 in
       penalties + overloadPenalty
     else penalties in
   let penalties :=
     if Qltb loadPercentage 0.3 then
       let loadBonus := (0.3 - loadPercentage) * 0.1 in
       penalties - loadBonus
     else penalties in
   similarAgentsAssigned <- COUNT_SIMILAR_AGENTS_ASSIGNED sv (agent_id agent) context 0.7 ;;
   let penalties :=
     if (2 <? similarAgentsAssigned)%nat then
       let diversityPenalty := (of_nat similarAgentsAssigned - 2) * 0.05 in
       penalties + diversityPenalty
     else penalties in
   let finalScore := baseScore - penalties in
   Ok (CLAMP finalScore 0 1))%exc.

Record LatencyTier : Type := {
  acceptable : Q;
  target : Q
}.

Definition priorityLatencies : list (string * LatencyTier) :=
  [ ("low"%string, {| acceptable := 1000; target := 500 |});
    ("medium"%string, {| acceptable := 500; target := 200 |});
    ("high"%string, {| acceptable := 200; target := 100 |});
    ("critical"%string, {| acceptable := 100; target := 50 |}) ].

(** [table[key]] on a dictionary literal. *)
Fixpoint assoc {A} (key : string) (table : list (string * A)) : option A :=
  match table with
  | [] => None
  | (k, v) :: rest => if bool_decide (k = key) then Some v else assoc key rest
  end.

(** FUNCTION: EXPERT_LATENCY_FIT(agent, patternPriority, maxLatency).
    Reading [.target] of a priority that is not in the table is an error. *)
Definition EXPERT_LATENCY_FIT (agent : Agent) (patternPriority : string)
    (maxLatency : option Q) : Exc Q :=
  let agentLatencyP99 := p99 (latency_profile agent) in
  let agentLatencyMax := max (latency_profile agent) in
  match assoc patternPriority priorityLatencies with
  | None => Throw RuntimeError
  | Some tier =>
      let latencyTarget := target tier in
      let latencyAcceptable := acceptable tier in
      if match maxLatency with
         | Some ceiling => Qltb ceiling agentLatencyMax
         | None => false
         end
      then Ok 0
      else
        let score :=
          if Qle_bool agentLatencyP99 latencyTarget then 1
          else if Qle_bool agentLatencyP99 latencyAcceptable then
            let scoreRange := latencyAcceptable - latencyTarget in
            let scoreDistance := agentLatencyP99 - latencyTarget in
            1 - (scoreDistance / scoreRange) * 0.4
          else 0.1 in
        Ok (CLAMP score 0 1)
  end.

(** FUNCTION: EXPERT_CONTEXT_RELEVANCE(agent, context, pattern) *)
Definition EXPERT_CONTEXT_RELEVANCE (agent : Agent) (context : Context) (pattern : Request)
  : M Q :=
  (let baseScore := 0.5 in
   let baseScore :=
     if mem (agent_id agent) (up_preferred_agents (user_preferences context))
     then baseScore + 0.3 else baseScore in
   if mem (agent_id agent) (up_excluded_agents (user_preferences context))
   then StateMonad.ret 0
   else
     userSuccessRate <-
       StateMonad.lift (GET_USER_AGENT_SUCCESS_RATE sv (user_id context) (agent_id agent) 30) ;;
     let baseScore :=
       match userSuccessRate with
       | Some rate => let userBoost := (rate - 0.5) * 0.2 in baseScore + userBoost
       | None => baseScore
       end in
     let timeOfDay := time_of_day (environmental context) in
     active <- StateMonad.lift (AGENT_ACTIVE_AT_TIME_OF_DAY sv (agent_id agent) timeOfDay) ;;
     let baseScore := if active : bool then baseScore + 0.05 else baseScore in
     lastExecutionTime <- StateMonad.lift (GET_AGENT_LAST_EXECUTION_TIME sv (agent_id agent)) ;;
     baseScore <-
       match lastExecutionTime with
       | Some lastTime =>
           currentTime <- CURRENT_TIMESTAMP ;;
           let timeSinceLastExecution := TIMESTAMP_DIFF_HOURS currentTime lastTime in
           StateMonad.ret
             (if Qltb timeSinceLastExecution 24 then baseScore + 0.1 else baseScore)
       | None => StateMonad.ret baseScore
       end ;;
     StateMonad.ret (CLAMP baseScore 0 1))%M.

(** FUNCTION: EXPERT_CONFIDENCE_CALIBRATION(agent) *)
Definition EXPERT_CONFIDENCE_CALIBRATION (agent : Agent) : Exc Q :=
  (recentAccuracy <- GET_AGENT_RECENT_ACCURACY sv (agent_id agent) 7 ;;
   match recentAccuracy with
   | None => Ok 0.5
   | Some accuracy =>
       let calibrationFactor :=
         if Qle_bool 0.95 accuracy then 0.5 + (accuracy - 0.95) / 0.05
         else if Qle_bool 0.90 accuracy then 0.5
         else 0.5 - ((0.90 - accuracy) / 0.10) * 0.05 in
       Ok (CLAMP calibrationFactor 0 1)
   end)%exc.

(** ** Multi-criteria scoring (section 2) *)

(** The [weights] dictionary of COMPUTE_EXPERT_SCORE, in the order written. *)
Definition weights : list (string * Q) :=
  [ ("similarity"%string, 0.25);
    ("metadata"%string, 0.15);
    ("success_rate"%string, 0.20);
    ("recency"%string, 0.10);
    ("team_diversity"%string, 0.10);
    ("latency_fit"%string, 0.10);
    ("context_relevance"%string, 0.07);
    ("confidence_calibration"%string, 0.03) ].

Definition SUM (values : list Q) : Q := fold_left Qplus values 0.

(** [ASSERT condition] *)
Definition ASSERT (condition : bool) : Exc unit :=
  if condition then Ok tt else Throw RuntimeError.

(** The first half of COMPUTE_EXPERT_SCORE: the eight guarded expert calls
    followed by the normalisation loop.  The result is the [expertScores]
    dictionary that the function caches under ["expert_scores:<agent_id>"]. *)
Definition EXPERT_SCORES (agent : Agent) (pattern : Request) (context : Context)
    (candidates : list Candidate) (allCandidateSimilarities : list Q)
  : M (gmap string Q) :=
  (let s_similarity :=
     ExcMonad.try_catch
       (EXPERT_SIMILARITY (agent_id agent) candidates allCandidateSimilarities) 0.5 in
   let s_metadata :=
     ExcMonad.try_catch
       (EXPERT_METADATA agent pattern
          (match constraints pattern with
           | Some c => skill_constraints c
           | None => None
           end)) 0.5 in
   let patternType := EXTRACT_PATTERN_TYPE (metadata pattern) in
   let s_success_rate := ExcMonad.try_catch (EXPERT_SUCCESS_RATE agent patternType) 0.5 in
   s_recency <-
     StateMonad.try_catch (EXPERT_RECENCY agent patternType 60)
                          (fun _ => StateMonad.ret 0.5) ;;
   let s_team_diversity :=
     ExcMonad.try_catch (EXPERT_TEAM_DIVERSITY agent context []) 0.5 in
   let patternPriority := EXTRACT_PRIORITY (metadata pattern) in
   let s_latency_fit :=
     ExcMonad.try_catch
       (EXPERT_LATENCY_FIT agent patternPriority
          (match constraints pattern with
           | Some c => max_latency_ms c
           | None => None
           end)) 0.5 in
   s_context_relevance <-
     StateMonad.try_catch (EXPERT_CONTEXT_RELEVANCE agent context pattern)
                          (fun _ => StateMonad.ret 0.5) ;;
   let s_confidence_calibration :=
     ExcMonad.try_catch (EXPERT_CONFIDENCE_CALIBRATION agent) 0.5 in
   let expertScores : gmap string Q :=
     <["confidence_calibration"%string := s_confidence_calibration]>
     (<["context_relevance"%string := s_context_relevance]>
     (<["latency_fit"%string := s_latency_fit]>
     (<["team_diversity"%string := s_team_diversity]>
     (<["recency"%string := s_recency]>
     (<["success_rate"%string := s_success_rate]>
     (<["metadata"%string := s_metadata]>
     (<["similarity"%string := s_similarity]> ∅))))))) in
   StateMonad.ret ((fun value => CLAMP value 0 1) <$> expertScores))%M.

(** The weighted-sum loop: [finalScore = finalScore + expertScores[name] * weight]. *)
Fixpoint weighted_sum (expertScores : gmap string Q) (ws : list (string * Q))
    (finalScore : Q) : Exc Q :=
  match ws with
  | [] => Ok finalScore
  | (expertName, weight) :: rest =>
      match expertScores !! expertName with
      | Some score =>
          let contribution := score * weight in
          weighted_sum expertScores rest (finalScore + contribution)
      | None => Throw RuntimeError
      end
  end.

(** FUNCTION: COMPUTE_EXPERT_SCORE(agent, pattern, context, candidates,
    allCandidateSimilarities) *)
Definition COMPUTE_EXPERT_SCORE (agent : Agent) (pattern : Request) (context : Context)
    (candidates : list Candidate) (allCandidateSimilarities : list Q) : M Q :=
  (expertScores <- EXPERT_SCORES agent pattern context candidates allCandidateSimilarities ;;
   let weightSum := SUM (List.map snd weights) in
   StateMonad.lift (ASSERT (Qltb (Qabs (weightSum - 1)) 0.0001)) ;;;
   finalScore <- StateMonad.lift (weighted_sum expertScores weights 0) ;;
   let finalScore := CLAMP finalScore 0 1 in
   let cacheKey := ("expert_scores:" ++ agent_id agent)%string in
   StateMonad.lift (CACHE_WRITE sv cacheKey) ;;;
   StateMonad.ret finalScore)%M.

(** ** Byzantine consensus validation (section 4) *)

(** [list[0]]; an empty list has no first element. *)
Definition first_of {A} (l : list A) : Exc A :=
  match l with
  | x :: _ => Ok x
  | [] => Throw RuntimeError
  end.

(** FUNCTION: VALIDATE_SEMANTIC_SIMILARITY(primaryAgent, alternatives, pattern) *)
Definition VALIDATE_SEMANTIC_SIMILARITY (primaryAgent : Agent) (alternatives : list Agent)
    (pattern : Request) : Exc bool :=
  (primaryScore <- GET_AGENT_SIMILARITY_SCORE sv (agent_id primaryAgent) ;;
   runnerUp <- first_of alternatives ;;
   secondaryScore <- GET_AGENT_SIMILARITY_SCORE sv (agent_id runnerUp) ;;
   if Qltb 0.1 (primaryScore - secondaryScore) then Ok true
   else if Qltb 0.5 primaryScore then Ok true
   else Ok false)%exc.

(** FUNCTION: VALIDATE_SUCCESS_RATE(primaryAgent, pattern) *)
Definition VALIDATE_SUCCESS_RATE (primaryAgent : Agent) (pattern : Request) : Exc bool :=
  (let patternType := EXTRACT_PATTERN_TYPE (metadata pattern) in
   successRate <- GET_SUCCESS_RATE sv (agent_id primaryAgent) patternType ;;
   Ok (Qltb 0.70 successRate))%exc.

(** FUNCTION: VALIDATE_CAPABILITY_MATCH(primaryAgent, pattern) *)
Definition VALIDATE_CAPABILITY_MATCH (primaryAgent : Agent) (pattern : Request) : Exc bool :=
  let requiredSkills := EXTRACT_SKILLS (metadata pattern) in
  Ok (forallb (fun skill => mem skill (skills primaryAgent)) requiredSkills).

(** FUNCTION: VALIDATE_CONTEXT_RELEVANCE(primaryAgent, context, pattern) *)
Definition VALIDATE_CONTEXT_RELEVANCE (primaryAgent : Agent) (context : Context)
    (pattern : Request) : Exc bool :=
  if mem (agent_id primaryAgent) (up_excluded_agents (user_preferences context)) then Ok false
  else if negb (is_available primaryAgent) then Ok false
  else Ok true.

(** FUNCTION: VALIDATE_TEAM_DIVERSITY(primaryAgent, context) *)
Definition VALIDATE_TEAM_DIVERSITY (primaryAgent : Agent) (context : Context) : Exc bool :=
  (loadPercentage <- DIVIDE (team_assignments primaryAgent) (team_capacity primaryAgent) ;;
   if Qltb 0.8 loadPercentage then Ok false else Ok true)%exc.

(** The five tasks spawned by VALIDATE_BYZANTINE, in spawning order. *)
Definition validatorTasks (primaryAgent : Agent) (alternatives : list Agent)
    (pattern : Request) (context : Context) : list (Exc bool) :=
  [ VALIDATE_SEMANTIC_SIMILARITY primaryAgent alternatives pattern;
    VALIDATE_SUCCESS_RATE primaryAgent pattern;
    VALIDATE_CAPABILITY_MATCH primaryAgent pattern;
    VALIDATE_CONTEXT_RELEVANCE primaryAgent context pattern;
    VALIDATE_TEAM_DIVERSITY primaryAgent context ].

(** [WAIT_FOR_TASK(task, timeout)]: the task's own result or exception, or
    [TimeoutError] when it does not finish in time. *)
Definition WAIT_FOR_TASK (validatorId : nat) (task : Exc bool) (timeout : Z) : Exc bool :=
  if TASK_COMPLETES sv validatorId timeout then task else Throw TimeoutError.

(** What the collection loop stores in [validatorResults[validatorId]]:
    the boolean, or NULL (an abstention) on a timeout or an exception. *)
Definition vote_of (validatorId : nat) (task : Exc bool) : option bool :=
  match WAIT_FOR_TASK validatorId task 50 with
  | Ok result => Some result
  | Throw _ => None
  end.

Definition COUNT_TRUE (results : list (option bool)) : nat :=
  length (List.filter (fun r => match r with Some true => true | _ => false end) results).

Definition COUNT_NULL (results : list (option bool)) : nat :=
  length (List.filter (fun r => match r with None => true | _ => false end) results).

(** The collection loop of VALIDATE_BYZANTINE.  [None] is the early
    [RETURN "TIMEOUT"] of the total-timeout check; [Some results] is the
    completed [validatorResults]. *)
Fixpoint collect_votes (consensusStartTime : Z) (tasks : list (Exc bool)) (validatorId : nat)
    (results : list (option bool)) : M (option (list (option bool))) :=
  match tasks with
  | [] => StateMonad.ret (Some results)
  | task :: rest =>
      (let results := results ++ [vote_of validatorId task] in
       SET_VALIDATOR_RESULTS results ;;;
       now <- CURRENT_TIME_MS ;;
       if (50 <? now - consensusStartTime)%Z then StateMonad.ret None
       else collect_votes consensusStartTime rest (S validatorId) results)%M
  end.

(** FUNCTION: VALIDATE_BYZANTINE(primaryAgent, alternatives, validators,
    requiredAgreement, pattern, context) *)
Definition VALIDATE_BYZANTINE (primaryAgent : Agent) (alternatives : list Agent)
    (validators requiredAgreement : Z) (pattern : Request) (context : Context)
  : M ConsensusResult :=
  (consensusStartTime <- CURRENT_TIME_MS ;;
   SET_VALIDATOR_RESULTS [] ;;;
   collected <-
     collect_votes consensusStartTime
       (validatorTasks primaryAgent alternatives pattern context) 0 [] ;;
   match collected with
   | None => StateMonad.ret TIMEOUT
   | Some results =>
       let agreements := Z.of_nat (COUNT_TRUE results) in
       let abstentions := Z.of_nat (COUNT_NULL results) in
       if (requiredAgreement <=? agreements)%Z then StateMonad.ret APPROVE
       else if ((agreements <? requiredAgreement)%Z
                && (abstentions <? validators - requiredAgreement)%Z)%bool
       then StateMonad.ret ESCALATE
       else StateMonad.ret TIMEOUT
   end)%M.

(** [GET_VALIDATOR_AGREEMENT_COUNT()]: the number of [true] votes among the
    [validatorResults] of the consensus run that has just ended. *)
Definition GET_VALIDATOR_AGREEMENT_COUNT : M nat :=
  fun w => (Ok (COUNT_TRUE (validatorResults w)), w).

(** ** Confidence calibration (section 5) *)

(** STEP 5 of CALIBRATE_CONFIDENCE: the pattern-uncertainty penalty for a
    (defaulted) recent execution success rate. *)
Definition patternUncertaintyPenalty (patternSuccessRate : Q) : Q :=
  if Qltb patternSuccessRate 0.8 then (1 - patternSuccessRate) * 0.15 else 0.

(** STEP 4 of CALIBRATE_CONFIDENCE: the calibration factor for a
    (defaulted) recent accuracy. *)
Definition calibrationFactor (agentRecentAccuracy : Q) : Q :=
  CLAMP (1 + (agentRecentAccuracy - 0.925) / 7.5) 0.9 1.1.

(** [value] unless it is NULL. *)
Definition or_default (value : option Q) (fallback : Q) : Q :=
  match value with
  | Some v => v
  | None => fallback
  end.

(** FUNCTION: CALIBRATE_CONFIDENCE(primaryScore, secondaryScore,
    consensusValidatorsAgreed, consensusRequired, pattern, context, agentScores) *)
Definition CALIBRATE_CONFIDENCE (primaryScore secondaryScore : Q)
    (consensusValidatorsAgreed : nat) (consensusRequired : bool)
    (pattern : Request) (context : Context) (agentScores : gmap string Q) : Exc Q :=
  (let scoreGap := primaryScore - secondaryScore in
   let baseConfidence := scoreGap in
   let allScores := EXTRACT_SORTED_SCORES sv agentScores in
   entropy <- COMPUTE_ENTROPY sv allScores ;;
   let numAgents := size agentScores in
   let normalizedEntropy :=
     if (1 <? numAgents)%nat then entropy / LOG sv numAgents else 0 in
   let uncertaintyPenalty := normalizedEntropy / 2 in
   let consensusBonus :=
     if consensusRequired then
       let consensusRatio := of_nat consensusValidatorsAgreed / 5 in
       consensusRatio * 0.2
     else 0 in
   agentRecentAccuracy <- GET_AGENT_RECENT_ACCURACY sv (current_agent_id context) 7 ;;
   let agentRecentAccuracy := or_default agentRecentAccuracy 0.85 in
   patternSuccessRate <- GET_PATTERN_EXECUTION_SUCCESS_RATE sv (pattern_id pattern) true ;;
   let patternSuccessRate := or_default patternSuccessRate 0.85 in
   let finalConfidence :=
     baseConfidence * 0.6
     + (1 - uncertaintyPenalty) * 0.2
     + consensusBonus
     + - patternUncertaintyPenalty patternSuccessRate in
   let finalConfidence := finalConfidence * calibrationFactor agentRecentAccuracy in
   Ok (CLAMP finalConfidence 0 1))%exc.

(** ** Data transformation (section 8) and error responses (section 9) *)

(** FUNCTION: BUILD_ALTERNATIVES(agents, scores) *)
Fixpoint build_alternatives_from (i : nat) (agents : list Agent) (scores : gmap string Q)
  : Exc (list Alternative) :=
  match agents with
  | [] => Ok []
  | agent :: rest =>
      (score <- score_of scores agent ;;
       more <- build_alternatives_from (S i) rest scores ;;
       Ok ({| alt_agent_id := agent_id agent; alt_score := score; alt_rank := i |} :: more))%exc
  end.

Definition BUILD_ALTERNATIVES (agents : list Agent) (scores : gmap string Q)
  : Exc (list Alternative) :=
  build_alternatives_from 0 (firstn (Nat.min 3 (length agents)) agents) scores.

(** FUNCTION: BUILD_FALLBACK_DECISION(agent, strategy, confidenceScore, fallbackReason) *)
Definition BUILD_FALLBACK_DECISION (agent : Agent) (strategy : string)
    (confidenceScore : Q) (fallbackReason : string) : M RoutingDecision :=
  (id <- GENERATE_UUID ;;
   score <- StateMonad.lift (GET_SUCCESS_RATE sv (agent_id agent) "unknown") ;;
   now <- CURRENT_ISO8601_TIMESTAMP ;;
   StateMonad.ret
     {| decision_id := id;
        timestamp := Some now;
        primary_agent_id := agent_id agent;
        primary_agent_name := Some (name agent);
        primary_score := score;
        alternatives := [];
        confidence_score := confidenceScore;
        consensus := None;
        reasoning := fallbackReason;
        fallback_applied := Some strategy |})%M.

(** FUNCTION: BUILD_ERROR_DECISION(errorMessage) *)
Definition BUILD_ERROR_DECISION (errorMessage : string) : M RoutingResult :=
  (now <- CURRENT_ISO8601_TIMESTAMP ;;
   StateMonad.ret (ErrorDecision "ROUTING_FAILED" errorMessage))%M.

(** ** Fallback strategy execution (section 6) *)

Definition fallbackChain : list (string * nat) :=
  [ ("alternatives"%string, 1%nat);
    ("skill_match"%string, 2%nat);
    ("success_history"%string, 3%nat);
    ("round_robin"%string, 4%nat);
    ("default_agent"%string, 5%nat);
    ("error"%string, 6%nat) ].

(** The inner loop of strategy 1: the first alternative that is available. *)
Fixpoint first_available (alternatives : list Agent) : M (option Agent) :=
  match alternatives with
  | [] => StateMonad.ret None
  | alternativeAgent :: rest =>
      (available <- StateMonad.lift (IS_AVAILABLE sv alternativeAgent) ;;
       if available : bool then StateMonad.ret (Some alternativeAgent)
       else first_available rest)%M
  end.

(** One iteration of the FOR EACH loop of APPLY_FALLBACK_STRATEGY: the
    branch selected by the strategy name.  [Some d] is [RETURN d]; [None]
    falls through to the next item of the chain. *)
Definition attempt_strategy (strategy : string) (pattern : Request) (failureReason : string)
  : M (option RoutingDecision) :=
  (if bool_decide (strategy = "alternatives"%string) then
     StateMonad.try_catch
       (alternatives <- StateMonad.lift (GET_CACHED_ALTERNATIVES sv pattern) ;;
        match alternatives with
        | Some alts =>
            if (0 <? length alts)%nat then
              found <- first_available alts ;;
              match found with
              | Some alternativeAgent =>
                  d <- BUILD_FALLBACK_DECISION alternativeAgent "alternatives" 0.7
                         "Primary unavailable, using alternative" ;;
                  StateMonad.ret (Some d)
              | None => StateMonad.ret None
              end
            else StateMonad.ret None
        | None => StateMonad.ret None
        end)
       (fun _ => StateMonad.ret None)
   else if bool_decide (strategy = "skill_match"%string) then
     StateMonad.try_catch
       (let requiredSkills := EXTRACT_SKILLS (metadata pattern) in
        if (0 <? length requiredSkills)%nat then
          candidateAgents <-
            StateMonad.lift (FIND_AGENTS_BY_SKILLS sv requiredSkills "availableOnly") ;;
          if (0 <? length candidateAgents)%nat then
            sorted <- StateMonad.lift (SORT_BY_SUCCESS_RATE sv candidateAgents) ;;
            selectedAgent <- StateMonad.lift (first_of sorted) ;;
            d <- BUILD_FALLBACK_DECISION selectedAgent "skill_match" 0.6
                   "Matched agent by required skills" ;;
            StateMonad.ret (Some d)
          else StateMonad.ret None
        else StateMonad.ret None)
       (fun _ => StateMonad.ret None)
   else if bool_decide (strategy = "success_history"%string) then
     StateMonad.try_catch
       (let patternType := EXTRACT_PATTERN_TYPE (metadata pattern) in
        bestAgent <- StateMonad.lift (GET_BEST_AGENT_FOR_PATTERN_TYPE sv patternType true) ;;
        match bestAgent with
        | Some agent =>
            d <- BUILD_FALLBACK_DECISION agent "success_history" 0.55
                   "Selected by best historical success rate" ;;
            StateMonad.ret (Some d)
        | None => StateMonad.ret None
        end)
       (fun _ => StateMonad.ret None)
   else if bool_decide (strategy = "round_robin"%string) then
     StateMonad.try_catch
       (availableAgents <- StateMonad.lift (GET_AVAILABLE_AGENTS sv "active") ;;
        if (0 <? length availableAgents)%nat then
          selectedAgent <- StateMonad.lift (ROUND_ROBIN_SELECT sv availableAgents) ;;
          d <- BUILD_FALLBACK_DECISION selectedAgent "round_robin" 0.4
                 "Selected by round-robin load balancing" ;;
          StateMonad.ret (Some d)
        else StateMonad.ret None)
       (fun _ => StateMonad.ret None)
   else if bool_decide (strategy = "default_agent"%string) then
     StateMonad.try_catch
       (defaultAgent <- StateMonad.lift (GET_DEFAULT_FALLBACK_AGENT sv) ;;
        match defaultAgent with
        | Some agent =>
            available <- StateMonad.lift (IS_AVAILABLE sv agent) ;;
            if available : bool then
              d <- BUILD_FALLBACK_DECISION agent "default_agent" 0.3
                     "Using designated default fallback agent" ;;
              StateMonad.ret (Some d)
            else StateMonad.ret None
        | None => StateMonad.ret None
        end)
       (fun _ => StateMonad.ret None)
   else if bool_decide (strategy = "error"%string) then
     StateMonad.throw
       (NoAgentsAvailableError
          ("Cannot route pattern after exhausting fallback strategies. Reason: "
             ++ failureReason))
   else StateMonad.ret None)%M.

Fixpoint run_chain (chain : list (string * nat)) (pattern : Request) (failureReason : string)
  : M RoutingDecision :=
  match chain with
  | [] =>
      StateMonad.throw (RoutingError "Fallback strategy execution completed without result")
  | fallbackItem :: rest =>
      (let strategy := fst fallbackItem in
       outcome <- attempt_strategy strategy pattern failureReason ;;
       match outcome with
       | Some decision => StateMonad.ret decision
       | None => run_chain rest pattern failureReason
       end)%M
  end.

(** FUNCTION: APPLY_FALLBACK_STRATEGY(pattern, context, failureReason, latencySoFar) *)
Definition APPLY_FALLBACK_STRATEGY (pattern : Request) (context : Context)
    (failureReason : string) (latencySoFar : Z) : M RoutingDecision :=
  run_chain fallbackChain pattern failureReason.

(** ** Core routing algorithm (section 1) *)

(** FUNCTION: ROUTE_BY_METADATA(pattern, context, previousLatency) *)
Fixpoint success_rate_scores (candidates : list Agent) (patternType : string)
    (agentScores : gmap string Q) : Exc (gmap string Q) :=
  match candidates with
  | [] => Ok agentScores
  | agent :: rest =>
      (rate <- GET_SUCCESS_RATE sv (agent_id agent) patternType ;;
       success_rate_scores rest patternType (<[agent_id agent := rate]> agentScores))%exc
  end.

Definition ROUTE_BY_METADATA (pattern : Request) (context : Context) (previousLatency : Z)
  : M RoutingResult :=
  (let requiredSkills := EXTRACT_SKILLS (metadata pattern) in
   let patternType := EXTRACT_PATTERN_TYPE (metadata pattern) in
   candidates <- StateMonad.lift (FIND_AGENTS_BY_SKILLS sv requiredSkills "active") ;;
   if (length candidates =? 0)%nat then
     BUILD_ERROR_DECISION "No agents match required skills"
   else
     agentScores <- StateMonad.lift (success_rate_scores candidates patternType ∅) ;;
     ranked <- StateMonad.lift (SORT_BY_SCORE candidates agentScores true) ;;
     primaryAgent <- StateMonad.lift (first_of ranked) ;;
     id <- GENERATE_UUID ;;
     primaryScore <- StateMonad.lift (score_of agentScores primaryAgent) ;;
     StateMonad.ret
       (Routed
          {| decision_id := id;
             timestamp := None;
             primary_agent_id := agent_id primaryAgent;
             primary_agent_name := None;
             primary_score := primaryScore;
             alternatives := [];
             confidence_score := 0.5;
             consensus := None;
             reasoning := "Routing by metadata matching (embedding unavailable)";
             fallback_applied := Some "metadata_routing"%string |}))%M.

(** PHASE 7: the scoring loop over the eligible agents. *)
Fixpoint score_agents (eligibleAgents : list Agent) (pattern : Request) (context : Context)
    (candidates : list Candidate) (agentScores : gmap string Q) : M (gmap string Q) :=
  match eligibleAgents with
  | [] => StateMonad.ret agentScores
  | agent :: rest =>
      (score <-
         StateMonad.try_catch
           (COMPUTE_EXPERT_SCORE agent pattern context candidates
              (EXTRACT_SIMILARITY_SCORES candidates))
           (fun e =>
              match e with
              | ScoringError => StateMonad.ret 0.5
              | _ => StateMonad.throw e
              end) ;;
       score_agents rest pattern context candidates (<[agent_id agent := score]> agentScores))%M
  end.

Definition consensus_name (r : ConsensusResult) : string :=
  match r with
  | NONE => "NONE"
  | APPROVE => "APPROVE"
  | ESCALATE => "ESCALATE"
  | TIMEOUT => "TIMEOUT"
  | ERROR => "ERROR"
  end.

(** PHASE 3: the pattern embedding, or [None] when the embedding service
    failed and the request is to be routed by metadata. *)
Definition obtain_embedding (patternRequest : Request) : M (option (list Q)) :=
  StateMonad.try_catch
    (patternEmbedding <-
       match pattern_embedding patternRequest with
       | Some provided => StateMonad.ret provided
       | None =>
           embeddingStartTime <- CURRENT_TIME_MS ;;
           generated <-
             StateMonad.lift
               (EMBED_PATTERN sv (pattern_query patternRequest) (metadata patternRequest)) ;;
           embeddingEnd <- CURRENT_TIME_MS ;;
           StateMonad.ret generated
       end ;;
     StateMonad.lift (ASSERT (length patternEmbedding =? 1536)%nat) ;;;
     StateMonad.ret (Some patternEmbedding))%M
    (fun e =>
       match e with
       | EmbeddingError => StateMonad.ret None
       | _ => StateMonad.throw e
       end).

(** PHASE 4: the candidate search with its metadata fallback. *)
Definition search_candidates (patternRequest : Request) (patternEmbedding : list Q)
  : M (list Candidate) :=
  StateMonad.try_catch
    (candidates <- StateMonad.lift (HNSW_SEARCH sv patternEmbedding 10 40) ;;
     hnsEnd <- CURRENT_TIME_MS ;;
     if (length candidates =? 0)%nat
     then StateMonad.lift (METADATA_FALLBACK_SEARCH sv patternRequest 10)
     else StateMonad.ret candidates)%M
    (fun e =>
       match e with
       | HnsError =>
           (candidates <- StateMonad.lift (METADATA_FALLBACK_SEARCH sv patternRequest 10) ;;
            hnsEnd <- CURRENT_TIME_MS ;;
            StateMonad.ret candidates)%M
       | _ => StateMonad.throw e
       end).

(** PHASE 9: the consensus step.  The result is
    [(consensusResult, consensusValidatorsAgreed, consensusLatency)]. *)
Definition run_consensus (primaryAgent : Agent) (alternativeAgents : list Agent)
    (patternRequest : Request) (executionContext : Context)
  : M (ConsensusResult * nat * Z) :=
  (consensusStart <- CURRENT_TIME_MS ;;
   StateMonad.try_catch
     (consensusResult <-
        VALIDATE_BYZANTINE primaryAgent alternativeAgents 5 3 patternRequest executionContext ;;
      consensusEnd <- CURRENT_TIME_MS ;;
      consensusValidatorsAgreed <- GET_VALIDATOR_AGREEMENT_COUNT ;;
      StateMonad.ret (consensusResult, consensusValidatorsAgreed, (consensusEnd - consensusStart)%Z))
     (fun e =>
        match e with
        | ConsensusError => StateMonad.ret (ERROR, 0%nat, 0%Z)
        | _ => StateMonad.throw e
        end))%M.

(** PHASES 10 to 15: calibrate, build the decision, persist, return. *)
Definition finish_primary (startTime : Z) (decisionId cacheKey : string)
    (patternRequest : Request) (executionContext : Context)
    (primaryAgent : Agent) (primaryScore : Q) (alternativeAgents : list Agent)
    (agentScores : gmap string Q) (consensusRequired : bool)
    (consensusResult : ConsensusResult) (consensusValidatorsAgreed : nat)
    (consensusLatency : Z) : M (RoutingResult * option Z) :=
  (confidenceStart <- CURRENT_TIME_MS ;;
   secondaryScore <-
     match alternativeAgents with
     | runnerUp :: _ => StateMonad.lift (score_of agentScores runnerUp)
     | [] => StateMonad.ret 0
     end ;;
   confidenceScore <-
     StateMonad.try_catch
       (c <- StateMonad.lift
               (CALIBRATE_CONFIDENCE primaryScore secondaryScore consensusValidatorsAgreed
                  consensusRequired patternRequest executionContext agentScores) ;;
        confidenceEnd <- CURRENT_TIME_MS ;;
        StateMonad.ret c)
       (fun e =>
          match e with
          | ConfidenceError =>
              confidenceEnd <- CURRENT_TIME_MS ;;
              StateMonad.ret 0.5
          | _ => StateMonad.throw e
          end) ;;
   now <- CURRENT_ISO8601_TIMESTAMP ;;
   alternatives <- StateMonad.lift (BUILD_ALTERNATIVES alternativeAgents agentScores) ;;
   rationaleEntropy <- StateMonad.lift (COMPUTE_ENTROPY sv (EXTRACT_SCORES sv agentScores)) ;;
   snapshotTime <- CURRENT_ISO8601_TIMESTAMP ;;
   let decision :=
     {| decision_id := decisionId;
        timestamp := Some now;
        primary_agent_id := agent_id primaryAgent;
        primary_agent_name := Some (name primaryAgent);
        primary_score := primaryScore;
        alternatives := alternatives;
        confidence_score := confidenceScore;
        consensus :=
          if consensusRequired then
            Some {| cr_required := true;
                    cr_validators := 5;
                    validators_agreed := consensusValidatorsAgreed;
                    consensus_result := consensusResult;
                    validation_latency_ms := consensusLatency |}
          else None;
        reasoning := EmptyString;
        fallback_applied := None |} in
   persistStart <- CURRENT_TIME_MS ;;
   StateMonad.try_catch
     (StateMonad.lift (LOG_ROUTING_DECISION sv decision) ;;;
      CACHE_SET cacheKey decision 300 ;;;
      persistEnd <- CURRENT_TIME_MS ;;
      StateMonad.ret tt)
     (fun e =>
        match e with
        | PersistError => StateMonad.ret tt
        | _ => StateMonad.throw e
        end) ;;;
   endTime <- CURRENT_TIME_MS ;;
   let totalLatency := (endTime - startTime)%Z in
   StateMonad.ret (Routed decision, Some totalLatency))%M.

(** ALGORITHM: SemanticRoute(patternRequest, executionContext, routingConstraints).
    The result is the decision and, on the paths that report one, the
    latency in milliseconds. *)
Definition SemanticRoute (patternRequest : Request) (executionContext : Context)
    (routingConstraints : RoutingConstraints) : M (RoutingResult * option Z) :=
  ((* PHASE 1 *)
   startTime <- CURRENT_TIME_MS ;;
   decisionId <- GENERATE_UUID ;;
   StateMonad.try_catch
     (StateMonad.lift (VALIDATE_PATTERN_REQUEST sv patternRequest) ;;;
      StateMonad.lift (VALIDATE_EXECUTION_CONTEXT sv executionContext))
     (fun e =>
        match e with
        | ValidationError => StateMonad.throw (HttpError 400 "Invalid routing request")
        | _ => StateMonad.throw e
        end) ;;;
   (* PHASE 2 *)
   let cacheKey := COMPUTE_CACHE_KEY sv patternRequest executionContext in
   cachedDecision <- CACHE_GET cacheKey ;;
   match cachedDecision with
   | Some cached =>
       hitTime <- CURRENT_TIME_MS ;;
       StateMonad.ret (Routed cached, Some (hitTime - startTime)%Z)
   | None =>
   (* PHASE 3 *)
   embedded <- obtain_embedding patternRequest ;;
   match embedded with
   | None =>
       failTime <- CURRENT_TIME_MS ;;
       d <- ROUTE_BY_METADATA patternRequest executionContext (failTime - startTime)%Z ;;
       StateMonad.ret (d, None)
   | Some patternEmbedding =>
   (* PHASE 4 *)
   hnsStart <- CURRENT_TIME_MS ;;
   candidates <- search_candidates patternRequest patternEmbedding ;;
   if (length candidates =? 0)%nat then
     StateMonad.throw (NoAgentsAvailableError "Cannot route pattern - no candidates found")
   else
   (* PHASE 5 *)
   profileStart <- CURRENT_TIME_MS ;;
   let candidateAgentIds := EXTRACT_AGENT_IDS candidates in
   agentProfiles <-
     StateMonad.try_catch
       (profiles <- StateMonad.lift (BATCH_GET_PROFILES sv candidateAgentIds true) ;;
        profileEnd <- CURRENT_TIME_MS ;;
        StateMonad.ret profiles)
       (fun e =>
          match e with
          | DatabaseError => StateMonad.throw (RoutingServiceError "Cannot load agent profiles")
          | _ => StateMonad.throw e
          end) ;;
   if (length agentProfiles =? 0)%nat then
     StateMonad.throw (NoAgentsAvailableError "No agent profiles found")
   else
   (* PHASE 6 *)
   filterStart <- CURRENT_TIME_MS ;;
   let eligibleAgents :=
     FILTER_AGENTS sv agentProfiles routingConstraints
       (excluded_agents patternRequest) (preferred_agents patternRequest) in
   filterEnd <- CURRENT_TIME_MS ;;
   if (length eligibleAgents =? 0)%nat then
     soFar <- CURRENT_TIME_MS ;;
     d <- APPLY_FALLBACK_STRATEGY patternRequest executionContext
            "No agents match constraints" (soFar - startTime)%Z ;;
     StateMonad.ret (Routed d, None)
   else
   (* PHASE 7 *)
   scoringStart <- CURRENT_TIME_MS ;;
   agentScores <- score_agents eligibleAgents patternRequest executionContext candidates ∅ ;;
   scoringEnd <- CURRENT_TIME_MS ;;
   (* PHASE 8 *)
   rankedAgents <- StateMonad.lift (SORT_BY_SCORE eligibleAgents agentScores true) ;;
   match rankedAgents with
   | [] => StateMonad.throw (RoutingError "No agents could be ranked")
   | primaryAgent :: _ =>
   primaryScore <- StateMonad.lift (score_of agentScores primaryAgent) ;;
   let alternativeAgents := TAKE rankedAgents 1 3 in
   (* PHASE 9 *)
   let consensusRequired :=
     (require_consensus routingConstraints || IS_CRITICAL_PATTERN sv patternRequest)%bool in
   if consensusRequired then
     verdict <-
        run_consensus primaryAgent alternativeAgents patternRequest executionContext ;;
     let '(consensusResult, consensusValidatorsAgreed, consensusLatency) := verdict in
     if (bool_decide (consensusResult = ESCALATE) || bool_decide (consensusResult = ERROR))%bool
     then
       soFar <- CURRENT_TIME_MS ;;
       d <- APPLY_FALLBACK_STRATEGY patternRequest executionContext
              ("Consensus failed: " ++ consensus_name consensusResult) (soFar - startTime)%Z ;;
       StateMonad.ret (Routed d, None)
     else
       finish_primary startTime decisionId cacheKey patternRequest executionContext
         primaryAgent primaryScore alternativeAgents agentScores consensusRequired
         consensusResult consensusValidatorsAgreed consensusLatency
   else
     finish_primary startTime decisionId cacheKey patternRequest executionContext
       primaryAgent primaryScore alternativeAgents agentScores consensusRequired
       NONE 0%nat 0%Z
   end
   end
   end)%M.

End Routing.

(** * The pattern embedding script ([scripts/embed-daxiom-patterns.js]) *)

Module EmbedScript.

Definition RATE_LIMIT_MS : nat := 200.
Definition GEMINI_MODEL : string := "models/text-embedding-004".
Definition EMBEDDING_DIMS : nat := 1536.

(** A settled promise: resolved with a value, or rejected with an error
    whose [message] is kept. *)
Inductive Settled (A : Type) : Type :=
  | Resolved (value : A)
  | Rejected (message : string).

Arguments Resolved {A} value.
Arguments Rejected {A} message.

(** A JavaScript string: its UTF-16 code units. *)
Abbreviation JsString := (list N).

(** The JavaScript string of an ASCII literal. *)
Definition js (literal : string) : JsString :=
  List.map N_of_ascii (list_ascii_of_string literal).

(** A JavaScript number. *)
Inductive Num : Type :=
  | Finite (q : Q)
  | Infinity (negative : bool)
  | NaN.

(** A value as [JSON.parse] builds it, or [undefined].  The properties of an
    object are listed as the text has them; of two with the same name the
    later one counts. *)
#[local] Unset Elimination Schemes.
Inductive Value : Type :=
  | Undefined
  | Null
  | Bool (b : bool)
  | Number (x : Num)
  | Str (s : JsString)
  | Arr (elements : list Value)
  | Obj (properties : list (JsString * Value)).
#[local] Set Elimination Schemes.

Definition number_of_nat (n : nat) : Value := Number (Finite (inject_Z (Z.of_nat n))).

(** [value == null] *)
Definition nullish (value : Value) : bool :=
  match value with
  | Undefined | Null => true
  | _ => false
  end.

(** ToBoolean *)
Definition ToBoolean (value : Value) : bool :=
  match value with
  | Undefined | Null => false
  | Bool b => b
  | Number (Finite q) => negb (Qeq_bool q 0)
  | Number (Infinity _) => true
  | Number NaN => false
  | Str s => negb (length s =? 0)%nat
  | Arr _ | Obj _ => true
  end.

(** [a || b] *)
Definition or_value (a b : Value) : Value := if ToBoolean a then a else b.

(** The own property [name] of an object with these properties. *)
Fixpoint own (name : JsString) (properties : list (JsString * Value)) : option Value :=
  match properties with
  | [] => None
  | (key, value) :: rest =>
      match own name rest with
      | Some later => Some later
      | None => if bool_decide (key = name) then Some value else None
      end
  end.

(** [value.name], for a value that is neither [null] nor [undefined] and a
    name that no prototype defines. *)
Definition get (value : Value) (name : string) : Value :=
  match value with
  | Obj properties =>
      match own (js name) properties with
      | Some v => v
      | None => Undefined
      end
  | _ => Undefined
  end.

(** [value[i]], for a value that is neither [null] nor [undefined]. *)
Definition at_index (value : Value) (i : nat) : Value :=
  match value with
  | Arr elements =>
      match elements !! i with
      | Some v => v
      | None => Undefined
      end
  | Str s =>
      match s !! i with
      | Some unit => Str [unit]
      | None => Undefined
      end
  | Obj properties =>
      match own (js (pretty i)) properties with
      | Some v => v
      | None => Undefined
      end
  | _ => Undefined
  end.

(** [value.length], for a value that is neither [null] nor [undefined]. *)
Definition length_of (value : Value) : Value :=
  match value with
  | Arr elements => number_of_nat (length elements)
  | Str s => number_of_nat (length s)
  | Obj _ => get value "length"
  | _ => Undefined
  end.

(** The code points of a string, each as a string of one or two units. *)
Definition high_surrogate (unit : N) : bool := ((55296 <=? unit) && (unit <=? 56319))%N.
Definition low_surrogate (unit : N) : bool := ((56320 <=? unit) && (unit <=? 57343))%N.

Fixpoint code_points (s : JsString) : list JsString :=
  match s with
  | [] => []
  | unit :: rest =>
      match rest with
      | next :: others =>
          if (high_surrogate unit && low_surrogate next)%bool
          then [unit; next] :: code_points others
          else [unit] :: code_points rest
      | [] => [[unit]]
      end
  end.

(** [[...value]]: the elements of an array, the code points of a string;
    nothing else that [JSON.parse] builds can be iterated. *)
Definition spread (value : Value) : option (list Value) :=
  match value with
  | Arr elements => Some elements
  | Str s => Some (List.map Str (code_points s))
  | _ => None
  end.

(** ToString and ToNumber end without a TypeError: an object built by
    [JSON.parse] converts unless it has a property [toString], which is not
    a function then; an array converts when its elements do. *)
Fixpoint converts (value : Value) : bool :=
  match value with
  | Arr elements => forallb converts elements
  | Obj properties =>
      match own (js "toString") properties with
      | Some _ => false
      | None => true
      end
  | _ => true
  end.

Record Metadata : Type := {
  task_type : string;
  source_repo : string;
  source_file : Value;
  original_id : Value;
  metadata_key_concepts : Value;
  extracted_at : string;
  test_frameworks : list string;
  applicable_domains : list string
}.

(** An element of [results.embedded]. *)
Record EmbeddedPattern : Type := {
  pattern_name : string;
  stored_description : JsString;
  dimensions : Value;
  metadata : Metadata;
  stored_tags : list Value
}.

(** An element of [results.failed]. *)
Record FailedPattern : Type := {
  failed_pattern_name : string;
  error : string
}.

Record Results : Type := {
  embedded : list EmbeddedPattern;
  failed : list FailedPattern;
  total : Value
}.

(** [process.env], as far as the script reads it. *)
Record ProcessEnv : Type := {
  DATABASE_URL : option string;
  DAXIOM_DATABASE_URL : option string;
  GOOGLE_API_KEY : option string;
  GEMINI_API_KEY : option string
}.

(** The properties of a [URL] object that parseEnv reads. *)
Record URL : Type := {
  hostname : string;
  port : string;
  pathname : string;
  username : string;
  password : string
}.

Record Database : Type := {
  db_host : string;
  db_port : option N;         (* [None] is NaN *)
  db_database : string;
  db_user : string;
  db_password : string
}.

Record Config : Type := {
  db : Database;
  apiKey : string
}.

(** What reading and parsing the pattern file gives: no such file; an
    exception (the file cannot be read or [JSON.parse] fails); or the parsed
    value. *)
Inductive PatternFile : Type :=
  | Missing
  | Unparsable
  | Parsed (data : Value).

(** What the HTTPS request of [embedText] ends with: an error (of the
    network, or raised when the request is made), the timeout, or a
    response. *)
Inductive Exchange : Type :=
  | NetworkError (message : string)
  | TimedOut
  | Response (statusCode : nat) (data : string).

(** What the script talks to: the environment variables, the [URL]
    constructor, the pattern file, the [n]-th HTTPS exchange for a text and an
    API key, the reading of [result.embedding.values] out of a response body
    ([Rejected] when [JSON.parse] or the property access throws), the [n]-th
    [new Date().toISOString()], the number that a string, or the text of an
    array, stands for, and the message the engine gives the [TypeError] of an
    expression about a value. *)
Record Host : Type := {
  env : ProcessEnv;
  new_URL : string -> option URL;        (* [None]: the constructor throws *)
  PATTERNS_FILE : PatternFile;
  https_request : nat -> Value -> string -> Exchange;
  embedding_values : string -> Settled Value;
  toISOString : nat -> string;
  StringToNumber : Value -> Num;
  type_error : string -> Value -> string
}.

(** What the loop does besides filling [results]. *)
Inductive Event : Type :=
  | Requested (patternIndex : nat)
  | Waited (milliseconds : nat).

(** [value] is truthy: a non-empty string. *)
Definition truthy (value : option string) : bool :=
  match value with
  | Some (String _ _) => true
  | _ => false
  end.

(** [a || b] *)
Definition or_else (a b : option string) : option string :=
  if truthy a then a else b.

(** [a || fallback] with a string literal as fallback. *)
Definition or_string (a : option string) (fallback : string) : string :=
  match or_else a (Some fallback) with
  | Some s => s
  | None => fallback
  end.

(** [parseInt(s, 10)] of a string without sign or leading blanks: the value
    of its leading decimal digits, NaN ([None]) when it has none. *)
Definition digit_value (c : ascii) : option N :=
  let n := N_of_ascii c in
  if ((48 <=? n) && (n <=? 57))%N then Some (n - 48)%N else None.

Fixpoint leading_digits (s : string) (value : option N) : option N :=
  match s with
  | EmptyString => value
  | String c rest =>
      match digit_value c with
      | Some d =>
          leading_digits rest
            (Some (match value with Some v => 10 * v + d | None => d end)%N)
      | None => value
      end
  end.

Definition parseInt (s : string) : option N := leading_digits s None.

(** [s.slice(1)] *)
Definition slice1 (s : string) : string :=
  match s with
  | EmptyString => EmptyString
  | String _ rest => rest
  end.

(** How a run of the script ends before it gets to the patterns, if it
    does: [process.exit(1)], or an exception that reaches [main().catch]. *)
Inductive Stop : Type :=
  | Exit (code : nat)
  | Thrown.

(** [s.padStart(targetLength, "0")] *)
Definition padStart (targetLength : nat) (s : string) : string :=
  (string_of_list_ascii (repeat "0"%char (targetLength - String.length s)) ++ s)%string.

(** [i < x] for an index [i]. *)
Definition below (i : nat) (x : Num) : bool :=
  match x with
  | Finite q => Qltb (inject_Z (Z.of_nat i)) q
  | Infinity negative => negb negative
  | NaN => false
  end.

(** [x - 1] *)
Definition minus_one (x : Num) : Num :=
  match x with
  | Finite q => Finite (q - 1)
  | _ => x
  end.

Section WithHost.

Variable host : Host.

(** function parseEnv() *)
Definition parseEnv : Stop + Config :=
  let dbUrl := or_string (or_else (DATABASE_URL (env host)) (DAXIOM_DATABASE_URL (env host)))
                         EmptyString in
  let apiKey := or_string (or_else (GOOGLE_API_KEY (env host)) (GEMINI_API_KEY (env host)))
                          EmptyString in
  if negb (truthy (Some dbUrl)) then inl (Exit 1)
  else if negb (truthy (Some apiKey)) then inl (Exit 1)
  else
    match new_URL host dbUrl with
    | None => inl Thrown
    | Some url =>
        inr {| db := {| db_host := hostname url;
                        db_port := parseInt (or_string (Some (port url)) "5432");
                        db_database := slice1 (pathname url);
                        db_user := username url;
                        db_password := password url |};
               apiKey := apiKey |}
    end.

(** function loadPatterns() *)
Definition loadPatterns : Stop + Value :=
  match PATTERNS_FILE host with
  | Missing => inl (Exit 1)
  | Unparsable => inl Thrown
  | Parsed data =>
      if nullish data then inl Thrown
      else inr (or_value (get data "patterns") (Arr []))
  end.

(** async function embedText(text, apiKey); [n] numbers the request. *)
Definition embedText (n : nat) (text : Value) (apiKey : string) : Settled Value :=
  match https_request host n text apiKey with
  | NetworkError message => Rejected message
  | TimedOut => Rejected "Embedding request timeout"
  | Response statusCode data =>
      if (statusCode =? 429)%nat then
        Rejected "Rate limited (429) — please retry in 60 seconds"
      else if negb (statusCode =? 200)%nat then
        Rejected ("Gemini API error " ++ pretty statusCode)
      else
        match embedding_values host data with
        | Resolved values => Resolved values
        | Rejected message => Rejected ("Failed to parse embedding: " ++ message)
        end
  end.

(** ToNumber; [None] when it ends with a TypeError. *)
Definition ToNumber (value : Value) : option Num :=
  match value with
  | Undefined => Some NaN
  | Null => Some (Finite 0)
  | Bool b => Some (Finite (if b then 1 else 0))
  | Number x => Some x
  | Str _ => Some (StringToNumber host value)
  | Arr _ => if converts value then Some (StringToNumber host value) else None
  | Obj _ => if converts value then Some NaN else None
  end.

(** The body of the [try] block for pattern [i] up to the [push] on
    [results.embedded]: the element pushed, or the message of the error that
    was thrown. *)
Definition embed_pattern (i : nat) (p : Value) (name : string) (description : Value)
    (apiKey : string) : Settled EmbeddedPattern :=
  match embedText i description apiKey with
  | Rejected message => Rejected message
  | Resolved embedding =>
      let relatedFiles := get p "related_files" in
      let metadata :=
        {| task_type := "test_pattern_extraction";
           source_repo := "openclaw/openclaw";
           source_file :=
             or_value (if nullish relatedFiles then Undefined else at_index relatedFiles 0)
                      (Str (js "unknown"));
           original_id := get p "id";
           metadata_key_concepts := or_value (get p "key_concepts") (Arr []);
           extracted_at := toISOString host i;
           test_frameworks := ["vitest"%string];
           applicable_domains := ["openclaw"; "claude-flow"; "testing"]%string |} in
      match spread (get p "tags") with
      | None => Rejected (type_error host "p.tags" (get p "tags"))
      | Some patternTags =>
          let tags := patternTags ++ [Str (js "openclaw"); Str (js "mission-control-source")] in
          match description with
          | Str text =>
              if nullish embedding then Rejected (type_error host "embedding.length" embedding)
              else
                Resolved
                  {| pattern_name := name;
                     stored_description := firstn 100 text;
                     dimensions := length_of embedding;
                     metadata := metadata;
                     stored_tags := tags |}
          | _ => Rejected (type_error host "description.substring" description)
          end
      end
  end.

(** The [for] loop of insertPatterns from index [i] on; [fuel] bounds the
    number of iterations. *)
Fixpoint insert_from (fuel : nat) (patterns : Value) (i : nat) (apiKey : string)
    (results : Results) (events : list Event) : option (Settled Results * list Event) :=
  match fuel with
  | O => None
  | S fuel =>
      match ToNumber (length_of patterns) with
      | None => Some (Rejected (type_error host "patterns.length" (length_of patterns)), events)
      | Some patternCount =>
          if negb (below i patternCount) then Some (Resolved results, events)
          else
            let p := at_index patterns i in
            let name := ("test-strategy-" ++ padStart 3 (pretty (i + 1)%nat))%string in
            if nullish p then Some (Rejected (type_error host "p.description" p), events)
            else
              let description := or_value (get p "description") (get p "title") in
              let events := events ++ [Requested i] in
              match embed_pattern i p name description apiKey with
              | Resolved entry =>
                  let results :=
                    {| embedded := embedded results ++ [entry];
                       failed := failed results;
                       total := total results |} in
                  if converts (dimensions entry) then
                    (* console.log(`... ${embedding.length}D`) *)
                    let events :=
                      if below i (minus_one patternCount)
                      then events ++ [Waited RATE_LIMIT_MS] else events in
                    insert_from fuel patterns (S i) apiKey results events
                  else
                    let message := type_error host "${embedding.length}" (dimensions entry) in
                    let results :=
                      {| embedded := embedded results;
                         failed := failed results
                                   ++ [ {| failed_pattern_name := name; error := message |} ];
                         total := total results |} in
                    insert_from fuel patterns (S i) apiKey results events
              | Rejected message =>
                  let results :=
                    {| embedded := embedded results;
                       failed := failed results
                                 ++ [ {| failed_pattern_name := name; error := message |} ];
                       total := total results |} in
                  insert_from fuel patterns (S i) apiKey results events
              end
      end
  end.

(** The loop ends by itself within this many iterations: it stops at an
    element that is [undefined]. *)
Definition enough (patterns : Value) : nat :=
  match patterns with
  | Arr elements => S (length elements)
  | Str s => S (length s)
  | Obj properties => S (length properties)
  | _ => 1
  end.

(** async function insertPatterns(patterns, apiKey): the settled promise and
    what the loop did.  [None] stands for a loop that does not end. *)
Definition insertPatterns (patterns : Value) (apiKey : string)
  : option (Settled Results * list Event) :=
  if nullish patterns then Some (Rejected (type_error host "patterns.length" patterns), [])
  else
    insert_from (enough patterns) patterns 0 apiKey
      {| embedded := []; failed := []; total := length_of patterns |} [].

(** [p.tags.join(', ')] ends without a TypeError. *)
Definition joins (entry : EmbeddedPattern) : bool := forallb converts (stored_tags entry).

(** async function main(), with the [catch] attached to its call: the exit
    code of the process and what the embedding loop did. *)
Definition main : option (nat * list Event) :=
  match parseEnv with
  | inl (Exit code) => Some (code, [])
  | inl Thrown => Some (1%nat, [])
  | inr env =>
      match loadPatterns with
      | inl (Exit code) => Some (code, [])
      | inl Thrown => Some (1%nat, [])
      | inr patterns =>
          (* console.log(`Loaded ${patterns.length} ...`) *)
          if negb (converts (length_of patterns)) then Some (1%nat, [])
          else
            match insertPatterns patterns (apiKey env) with
            | None => None
            | Some (Rejected _, events) => Some (1%nat, events)
            | Some (Resolved results, events) =>
                (* [results.total], printed next, is [patterns.length] *)
                if negb (forallb joins (firstn 3 (embedded results)))
                then Some (1%nat, events)
                else if ((0 <? length (failed results))%nat
                         && (length (embedded results) =? 0)%nat)%bool
                then Some (1%nat, events)
                else Some (0%nat, events)
            end
      end
  end.

End WithHost.

End EmbedScript.

(** ** Index search and profile update of the routing specification
       ([apps/web/docs/PHASE2_ROUTING_SPEC.md], sections 2.7 and 2.8) *)

Module RoutingSpec.

(** What [SQL_QUERY] on the index comes to: the rows, one of the three
    errors HNSW_SEARCH catches, or any other exception. *)
Inductive QueryOutcome : Type :=
  | Rows (results : list Candidate)
  | IndexNotFoundError
  | IndexCorruptionError
  | QueryTimeoutError
  | QueryError (e : Error).

(** The collaborators of HNSW_SEARCH; [SQL_QUERY n] is the n-th query of a
    run and [REBUILD_HNSW_INDEX n] its n-th rebuild. *)
Record Index : Type := {
  SQL_QUERY : nat -> list Q -> nat -> QueryOutcome;
  METADATA_FALLBACK_SEARCH : list Q -> nat -> Exc (list Candidate);
  REBUILD_HNSW_INDEX : nat -> Exc unit;
  CACHE_GET_TOP_K_RESULTS : list Q -> nat -> Exc (option (list Candidate))
}.

(** FUNCTION: HNSW_SEARCH(query_vector, top_k=10, ef_search=40)

    [RETRY] is a recursive call, bounded here by [fuel]; [queries] counts the
    queries made so far, each but the current one followed by a rebuild, and
    the result comes with that number. *)
Fixpoint HNSW_SEARCH (fuel : nat) (ix : Index) (queries : nat)
    (query_vector : list Q) (top_k ef_search : nat) : option (Exc (list Candidate) * nat) :=
  match fuel with
  | O => None
  | S fuel =>
      match ASSERT (length query_vector =? 1536)%nat with
      | Throw e => Some (Throw e, queries)
      | Ok _ =>
          match SQL_QUERY ix queries query_vector top_k with
          | Rows results =>
              let results := List.filter (fun r => Qltb 0.1 (similarity r)) results in
              Some (Ok (firstn top_k results), queries)
          | IndexNotFoundError =>
              Some (METADATA_FALLBACK_SEARCH ix query_vector top_k, queries)
          | IndexCorruptionError =>
              match REBUILD_HNSW_INDEX ix queries with
              | Throw e => Some (Throw e, queries)
              | Ok _ => HNSW_SEARCH fuel ix (S queries) query_vector top_k ef_search
              end
          | QueryTimeoutError =>
              match CACHE_GET_TOP_K_RESULTS ix query_vector top_k with
              | Throw e => Some (Throw e, queries)
              | Ok (Some FALLBACK_RETURN) => Some (Ok FALLBACK_RETURN, queries)
              | Ok None => Some (Ok [], queries)
              end
          | QueryError e => Some (Throw e, queries)
          end
      end
  end.

(** One entry of [profile.recent_wins]. *)
Record WinRecord : Type := {
  win_pattern_id : string;
  win_pattern_type : string;
  win_timestamp : Z;
  win_success : bool
}.

(** An agent profile, as far as the update reads or writes it; times are in
    seconds. *)
Record Profile : Type := {
  agent_id : string;
  success_rate_by_type : gmap string Q;
  recent_wins : list WinRecord;
  latency_profile : LatencyProfile;
  is_available : bool;
  unavailable_until : option Z;
  unavailability_reason : option string;
  updated_at : option Z;
  last_executed_at : option Z
}.

(** The collaborators of the profile update; [CURRENT_TIMESTAMP n] is the
    n-th reading of the clock. *)
Record ProfileStore : Type := {
  CURRENT_TIMESTAMP : nat -> Z;
  GET_AGENT_PROFILE : string -> Exc Profile;
  COMPUTE_NEW_SUCCESS_RATE : string -> option Q -> bool -> nat -> Exc Q;
  UPDATE_PERCENTILES : LatencyProfile -> Q -> nat -> Exc LatencyProfile;
  CONSECUTIVE_FAILURES : string -> Exc nat;
  UPSERT_AGENT_PROFILE : Profile -> Exc unit;
  CACHE_INVALIDATE : string -> Exc unit
}.

(** What a run has written. *)
Inductive Effect : Type :=
  | Upserted (profile : Profile)
  | Invalidated (key : string).

(** FUNCTION: UPDATE_AGENT_PROFILE_ON_EXECUTION(agent_id, pattern_id,
    pattern_type, success, latency_ms)

    The result comes with what was written before the function returned or
    failed.  [tick] is the number of clock readings made before the call. *)
Definition UPDATE_AGENT_PROFILE_ON_EXECUTION (st : ProfileStore)
    (agent_id pattern_id pattern_type : string) (success : bool) (latency_ms : Q)
    (tick : nat) : Exc unit * list Effect :=
  match GET_AGENT_PROFILE st agent_id with
  | Throw e => (Throw e, [])
  | Ok profile =>
  match COMPUTE_NEW_SUCCESS_RATE st pattern_type
          (success_rate_by_type profile !! pattern_type) success 30 with
  | Throw e => (Throw e, [])
  | Ok new_rate =>
  let rates := <[pattern_type := new_rate]> (success_rate_by_type profile) in
  let wins :=
    {| win_pattern_id := pattern_id;
       win_pattern_type := pattern_type;
       win_timestamp := CURRENT_TIMESTAMP st tick;
       win_success := success |} :: recent_wins profile in
  let wins := firstn 10 wins in
  let tick := S tick in
  match UPDATE_PERCENTILES st (latency_profile profile) latency_ms 100 with
  | Throw e => (Throw e, [])
  | Ok latencies =>
  match CONSECUTIVE_FAILURES st agent_id with
  | Throw e => (Throw e, [])
  | Ok failures =>
  let '(available, until, reason, tick) :=
    if (negb success && (3 <? failures)%nat)%bool then
      (false, Some (CURRENT_TIMESTAMP st tick + 300)%Z,
       Some "Consecutive failures threshold exceeded"%string, S tick)
    else if (failures <=? 3)%nat then
      (true, None, unavailability_reason profile, tick)
    else
      (is_available profile, unavailable_until profile, unavailability_reason profile, tick) in
  let profile :=
    {| agent_id := RoutingSpec.agent_id profile;
       success_rate_by_type := rates;
       recent_wins := wins;
       latency_profile := latencies;
       is_available := available;
       unavailable_until := until;
       unavailability_reason := reason;
       updated_at := Some (CURRENT_TIMESTAMP st tick);
       last_executed_at := Some (CURRENT_TIMESTAMP st (S tick)) |} in
  match UPSERT_AGENT_PROFILE st profile with
  | Throw e => (Throw e, [])
  | Ok _ =>
  match CACHE_INVALIDATE st ("profile:" ++ agent_id) with
  | Throw e => (Throw e, [Upserted profile])
  | Ok _ => (Ok tt, [Upserted profile; Invalidated ("profile:" ++ agent_id)%string])
  end
  end
  end
  end
  end
  end.

End RoutingSpec.

(** ** Vocabulary for stating the properties *)

(** The votes of the validators, had every one of them been collected:
    [validatorResults] at the end of a run that is not cut short. *)
Fixpoint all_votes (sv : Services) (validatorId : nat) (tasks : list (Exc bool))
  : list (option bool) :=
  match tasks with
  | [] => []
  | task :: rest => vote_of sv validatorId task :: all_votes sv (S validatorId) rest
  end.

(** One of the [n] clock readings taken from tick [t] on is more than 50 ms
    after [start]: the total-timeout check of VALIDATE_BYZANTINE fires. *)
Fixpoint any_late (clock : nat -> Z) (start : Z) (t n : nat) : bool :=
  match n with
  | O => false
  | S k => ((50 <? clock t - start)%Z || any_late clock start (S t) k)%bool
  end.

(** The confidence of a decision is a number of the unit interval. *)
Definition confidence_in_range (d : RoutingDecision) : Prop :=
  (0 <= confidence_score d <= 1)%Q.

(** Every decision held by the cache satisfies [Good]. *)
Definition cache_all (Good : RoutingDecision -> Prop) (w : World) : Prop :=
  forall key d expiry, decision_cache w !! key = Some (d, expiry) -> Good d.

(** Every decision held by the cache has its confidence in range. *)
Definition cache_ok (w : World) : Prop := cache_all confidence_in_range w.

(** Every entry of a score table is a number of the unit interval. *)
Definition scores_in_range (scores : gmap string Q) : Prop :=
  forall id s, scores !! id = Some s -> (0 <= s <= 1)%Q.

(** A routing result that is a decision has its confidence in range. *)
Definition decision_in_range (r : RoutingResult) : Prop :=
  match r with
  | Routed d => confidence_in_range d
  | ErrorDecision _ _ => True
  end.

(** [hoare I c Q]: started in a world satisfying the invariant [I], the
    computation [c] ends in a world satisfying [I], and its result, when it
    returns one, satisfies [Q]. *)
Definition hoare (I : World -> Prop) {A} (c : M A) (Q : A -> Prop) : Prop :=
  forall w, I w ->
    match c w with
    | (Ok a, w') => Q a /\ I w'
    | (Throw _, w') => I w'
    end.

(** The decision with its generated identifier blanked. *)
Definition erase_id (d : RoutingDecision) : RoutingDecision :=
  {| decision_id := EmptyString;
     timestamp := timestamp d;
     primary_agent_id := primary_agent_id d;
     primary_agent_name := primary_agent_name d;
     primary_score := primary_score d;
     alternatives := alternatives d;
     confidence_score := confidence_score d;
     consensus := consensus d;
     reasoning := reasoning d;
     fallback_applied := fallback_applied d |}.

(** Two decisions agree in every field other than [decision_id]. *)
Definition same_decision (d1 d2 : RoutingDecision) : Prop := erase_id d1 = erase_id d2.

Definition same_result (r1 r2 : RoutingResult) : Prop :=
  match r1, r2 with
  | Routed d1, Routed d2 => same_decision d1 d2
  | ErrorDecision c1 m1, ErrorDecision c2 m2 => c1 = c2 /\ m1 = m2
  | _, _ => False
  end.

Definition same_option {A} (R : A -> A -> Prop) (o1 o2 : option A) : Prop :=
  match o1, o2 with
  | Some a1, Some a2 => R a1 a2
  | None, None => True
  | _, _ => False
  end.

Definition same_outcome (o1 o2 : RoutingResult * option Z) : Prop :=
  same_result (fst o1) (fst o2) /\ snd o1 = snd o2.

(** Two worlds from which the same clock readings follow, and that differ
    otherwise at most in the identifiers issued so far and in the
    identifiers of the decisions they cache. *)
Definition same_view (sv : Services) (w1 w2 : World) : Prop :=
  (forall k, SYSTEM_CLOCK_MILLISECONDS sv (tick w1 + k)
             = SYSTEM_CLOCK_MILLISECONDS sv (tick w2 + k))
  /\ validatorResults w1 = validatorResults w2
  /\ forall key,
       same_option (fun e1 e2 => same_decision (fst e1) (fst e2) /\ snd e1 = snd e2)
                   (decision_cache w1 !! key) (decision_cache w2 !! key).

(** [related sv R c1 c2]: run from two worlds with the same view, [c1] and
    [c2] both return, with results related by [R], or both raise the same
    error; and the worlds they end in have the same view. *)
Definition related (sv : Services) {A} (R : A -> A -> Prop) (c1 c2 : M A) : Prop :=
  forall w1 w2, same_view sv w1 w2 ->
    match c1 w1, c2 w2 with
    | (Ok a1, w1'), (Ok a2, w2') => R a1 a2 /\ same_view sv w1' w2'
    | (Throw e1, w1'), (Throw e2, w2') => e1 = e2 /\ same_view sv w1' w2'
    | _, _ => False
    end.

(** [triple P c Q]: started in a world satisfying [P], the computation [c]
    raises an error or returns a result [a] in a world [w'] with [Q a w']. *)
Definition triple {A} (P : World -> Prop) (c : M A) (Q : A -> World -> Prop) : Prop :=
  forall w, P w ->
    match c w with
    | (Ok a, w') => Q a w'
    | (Throw _, _) => True
    end.

(** The world after a cache hit: two clock readings, one identifier. *)
Definition after_cache_hit (w : World) : World :=
  {| tick := S (S (tick w));
     uuids_issued := S (uuids_issued w);
     decision_cache := decision_cache w;
     validatorResults := validatorResults w |}.

(** The outcome of one fallback strategy is a decision. *)
Definition yields (outcome : Exc (option RoutingDecision)) : bool :=
  match outcome with
  | Ok (Some _) => true
  | _ => false
  end.

(** The confidence attached to each agent-selecting strategy, in chain order. *)
Definition fallbackConfidence : list Q := [0.7; 0.6; 0.55; 0.4; 0.3]%Q.

(** What BUILD_FALLBACK_DECISION puts in a decision for [strategy]. *)
Definition fallback_decision_of (sv : Services) (strategy : string) (confidence : Q)
    (d : RoutingDecision) : Prop :=
  fallback_applied d = Some strategy
  /\ confidence_score d = confidence
  /\ alternatives d = []
  /\ GET_SUCCESS_RATE sv (primary_agent_id d) "unknown" = Ok (primary_score d).

(** The group deadline of the consensus run started in world [w] elapses
    at one of its five checks. *)
Definition deadline_elapsed (sv : Services) (w : World) : bool :=
  any_late (SYSTEM_CLOCK_MILLISECONDS sv)
           (SYSTEM_CLOCK_MILLISECONDS sv (tick w)) (S (tick w)) 5.

(** [pieces.join(sep)] *)
Fixpoint join (sep : string) (pieces : list string) : string :=
  match pieces with
  | [] => EmptyString
  | [piece] => piece
  | piece :: rest => (piece ++ sep ++ join sep rest)%string
  end.

(** No character of [s] satisfies [p]. *)
Fixpoint free_of (p : ascii -> bool) (s : string) : bool :=
  match s with
  | EmptyString => true
  | String c rest => (negb (p c) && free_of p rest)%bool
  end.

(** A skill name as it is written in a comma-separated list: it holds no
    comma and neither starts nor ends with white space. *)
Definition plain_name (s : string) : bool :=
  (free_of (fun c => Ascii.eqb c ",") s && String.eqb (trim s) s)%bool.

(** Number of occurrences of [sep] in [s]. *)
Fixpoint occurrences (sep : ascii) (s : string) : nat :=
  match s with
  | EmptyString => 0
  | String c rest => if Ascii.eqb c sep then S (occurrences sep rest) else occurrences sep rest
  end.

(** [have] holds every entry of [wanted]. *)
Definition holds_all (have wanted : list string) : bool :=
  forallb (fun s => mem s have) wanted.

(** [have] holds no entry of [wanted]. *)
Definition holds_none (have wanted : list string) : bool :=
  forallb (fun s => negb (mem s have)) wanted.

(** A win counts for the recency boost: it is of the pattern type and lies
    no more than the window (in seconds) before [currentTime]. *)
Definition counts_as_recent (patternType : string) (currentTime timeWindowSeconds : Z)
    (win : Win) : bool :=
  (bool_decide (win_pattern_type win = patternType)
   && (TIMESTAMP_DIFF_SECONDS currentTime (win_timestamp win) <=? timeWindowSeconds)%Z)%bool.

(** The [skill_constraints] and [max_latency_ms] of a request's optional
    constraints ([pattern.constraints?.field]). *)
Definition requested_skills (pattern : Request) : option (list string) :=
  match constraints pattern with
  | Some c => skill_constraints c
  | None => None
  end.

Definition requested_ceiling (pattern : Request) : option Q :=
  match constraints pattern with
  | Some c => max_latency_ms c
  | None => None
  end.

(** The request passes validation, no decision is cached for it and it
    brings its own embedding of the right dimension: SemanticRoute reaches
    the candidate search of phase 4. *)
Definition reaches_search (sv : Services) (patternRequest : Request)
    (executionContext : Context) (w : World) (patternEmbedding : list Q) : Prop :=
  VALIDATE_PATTERN_REQUEST sv patternRequest = Ok tt
  /\ VALIDATE_EXECUTION_CONTEXT sv executionContext = Ok tt
  /\ decision_cache w !! COMPUTE_CACHE_KEY sv patternRequest executionContext = None
  /\ pattern_embedding patternRequest = Some patternEmbedding
  /\ length patternEmbedding = 1536%nat.

(** The world after [n] more clock readings. *)
Definition later (n : nat) (w : World) : World :=
  {| tick := n + tick w;
     uuids_issued := uuids_issued w;
     decision_cache := decision_cache w;
     validatorResults := validatorResults w |}.

(** The decision object assembled in phase 13 of SemanticRoute. *)
Definition primary_decision (decisionId : string) (now : Z) (primaryAgent : Agent)
    (primaryScore : Q) (alternatives : list Alternative) (confidenceScore : Q)
    (consensusRequired : bool) (consensusResult : ConsensusResult)
    (consensusValidatorsAgreed : nat) (consensusLatency : Z) : RoutingDecision :=
  {| decision_id := decisionId;
     timestamp := Some now;
     primary_agent_id := agent_id primaryAgent;
     primary_agent_name := Some (name primaryAgent);
     primary_score := primaryScore;
     alternatives := alternatives;
     confidence_score := confidenceScore;
     consensus :=
       if consensusRequired then
         Some {| cr_required := true;
                 cr_validators := 5;
                 validators_agreed := consensusValidatorsAgreed;
                 consensus_result := consensusResult;
                 validation_latency_ms := consensusLatency |}
       else None;
     reasoning := EmptyString;
     fallback_applied := None |}.

(** [agentScores[alternativeAgents[0].agent_id]], or 0.0 without alternatives. *)
Definition runner_up_score (agentScores : gmap string Q) (alternativeAgents : list Agent)
  : Exc Q :=
  match alternativeAgents with
  | runnerUp :: _ => score_of agentScores runnerUp
  | [] => Ok 0%Q
  end.

(** The consensus record of a decision that went through phase 9 without
    being handed to the fallback manager. *)
Definition settled_consensus (r : ConsensusRecord) : Prop :=
  cr_required r = true
  /\ cr_validators r = 5%nat
  /\ (consensus_result r = APPROVE \/ consensus_result r = TIMEOUT)
  /\ (validators_agreed r <= 5)%nat
  /\ (consensus_result r = APPROVE -> (3 <= validators_agreed r)%nat).

(** The shape of every decision the router hands out: at most three
    alternatives, none scoring above the primary agent and each ranked by
    its position; a confidence in [0, 1]; a consensus record, if any, that
    is settled; and, for a decision of the fallback manager or of metadata
    routing, no alternatives, no consensus record and a confidence of at
    most 0.7. *)
Definition well_formed (d : RoutingDecision) : Prop :=
  (length (alternatives d) <= 3)%nat
  /\ (forall i alt, alternatives d !! i = Some alt ->
        alt_rank alt = i /\ (alt_score alt <= primary_score d)%Q)
  /\ (0 <= confidence_score d <= 1)%Q
  /\ (forall r, consensus d = Some r -> settled_consensus r)
  /\ (forall strategy, fallback_applied d = Some strategy ->
        alternatives d = [] /\ consensus d = None /\ (confidence_score d <= 0.7)%Q).

(** A decision built outside the primary path. *)
Definition degraded (d : RoutingDecision) : Prop :=
  alternatives d = []
  /\ consensus d = None
  /\ (0 <= confidence_score d <= 0.7)%Q.

(** The name insertPatterns gives the pattern at index [i]. *)
Definition pattern_name_at (i : nat) : string :=
  ("test-strategy-" ++ EmbedScript.padStart 3 (pretty (i + 1)%nat))%string.

(** The text insertPatterns asks the embedding of: the description of the
    pattern when it is truthy, its title otherwise. *)
Definition embedded_text (p : EmbedScript.Value) : EmbedScript.Value :=
  EmbedScript.or_value (EmbedScript.get p "description") (EmbedScript.get p "title").

(** What the [try] block of insertPatterns comes to for the pattern at
    index [i], up to the [push] on [results.embedded]. *)
Definition attempt_at (host : EmbedScript.Host) (apiKey : string) (i : nat)
    (p : EmbedScript.Value) : EmbedScript.Settled EmbedScript.EmbeddedPattern :=
  EmbedScript.embed_pattern host i p (pattern_name_at i) (embedded_text p) apiKey.

Definition resolves {A} (outcome : EmbedScript.Settled A) : bool :=
  match outcome with
  | EmbedScript.Resolved _ => true
  | EmbedScript.Rejected _ => false
  end.

(** The [try] block gets to its end: an entry was pushed and its dimension
    could be printed. *)
Definition completes (host : EmbedScript.Host) (apiKey : string) (i : nat)
    (p : EmbedScript.Value) : bool :=
  match attempt_at host apiKey i p with
  | EmbedScript.Resolved e => EmbedScript.converts (EmbedScript.dimensions e)
  | EmbedScript.Rejected _ => false
  end.

(** The element of [results.embedded], resp. of [results.failed], that the
    pattern at index [i] leaves. *)
Definition embedded_at (host : EmbedScript.Host) (apiKey : string)
    (entry : nat * EmbedScript.Value) : option EmbedScript.EmbeddedPattern :=
  match attempt_at host apiKey (fst entry) (snd entry) with
  | EmbedScript.Resolved e => Some e
  | EmbedScript.Rejected _ => None
  end.

Definition failed_at (host : EmbedScript.Host) (apiKey : string)
    (entry : nat * EmbedScript.Value) : option EmbedScript.FailedPattern :=
  match attempt_at host apiKey (fst entry) (snd entry) with
  | EmbedScript.Resolved e =>
      if EmbedScript.converts (EmbedScript.dimensions e) then None
      else
        Some {| EmbedScript.failed_pattern_name := pattern_name_at (fst entry);
                EmbedScript.error :=
                  EmbedScript.type_error host "${embedding.length}" (EmbedScript.dimensions e) |}
  | EmbedScript.Rejected message =>
      Some {| EmbedScript.failed_pattern_name := pattern_name_at (fst entry);
              EmbedScript.error := message |}
  end.

(** The elements with their indices, counted from [i]. *)
Definition indexed_from (i : nat) (patterns : list EmbedScript.Value)
  : list (nat * EmbedScript.Value) :=
  zip (seq i (length patterns)) patterns.

(** The elements in front of the first one that is [null] or [undefined]. *)
Fixpoint reached (patterns : list EmbedScript.Value) : list EmbedScript.Value :=
  match patterns with
  | [] => []
  | p :: rest => if EmbedScript.nullish p then [] else p :: reached rest
  end.

(** The events of one iteration of the loop over [patternCount] patterns. *)
Definition events_at (host : EmbedScript.Host) (apiKey : string) (patternCount i : nat)
    (p : EmbedScript.Value) : list EmbedScript.Event :=
  EmbedScript.Requested i
  :: (if (completes host apiKey i p && (i <? patternCount - 1)%nat)%bool
      then [EmbedScript.Waited EmbedScript.RATE_LIMIT_MS] else []).

Definition is_wait (e : EmbedScript.Event) : bool :=
  match e with
  | EmbedScript.Waited _ => true
  | EmbedScript.Requested _ => false
  end.

Definition requested_index (e : EmbedScript.Event) : option nat :=
  match e with
  | EmbedScript.Requested i => Some i
  | EmbedScript.Waited _ => None
  end.

(** The pauses among the events. *)
Definition waits (events : list EmbedScript.Event) : list EmbedScript.Event :=
  List.filter is_wait events.

(** What insertPatterns has collected and done when it is through with the
    elements [patterns] of an array of [patternCount] elements, the first of
    them at index [i]. *)
Definition collected (host : EmbedScript.Host) (apiKey : string) (patternCount i : nat)
    (patterns : list EmbedScript.Value) : EmbedScript.Results * list EmbedScript.Event :=
  ({| EmbedScript.embedded := omap (embedded_at host apiKey) (indexed_from i patterns);
      EmbedScript.failed := omap (failed_at host apiKey) (indexed_from i patterns);
      EmbedScript.total := EmbedScript.number_of_nat patternCount |},
   flat_map (fun entry => events_at host apiKey patternCount (fst entry) (snd entry))
            (indexed_from i patterns)).

(** The first of two environment variables that is set to a non-empty
    string. *)
Definition first_nonempty (a b : option string) : option string :=
  match a, b with
  | Some (String c s), _ => Some (String c s)
  | _, Some (String c s) => Some (String c s)
  | _, _ => None
  end.

(** The rows HNSW_SEARCH keeps: those with a similarity above 0.1. *)
Definition above_threshold (r : Candidate) : bool := Qltb 0.1 (similarity r).

(** An agent that is marked unavailable has a time at which it is to come
    back. *)
Definition unavailability_dated (profile : RoutingSpec.Profile) : Prop :=
  RoutingSpec.is_available profile = false -> is_Some (RoutingSpec.unavailable_until profile).

(** * Sample data

    Small concrete inputs on which the functions above are evaluated. *)

Definition demo_candidates : list Candidate :=
  [ {| c_agent_id := "agent1"; similarity := 0.95 |};
    {| c_agent_id := "agent2"; similarity := 0.85 |} ].

Definition tied_candidates : list Candidate :=
  [ {| c_agent_id := "agent1"; similarity := 0.9 |};
    {| c_agent_id := "agent2"; similarity := 0.9 |} ].

(** An available agent with the given identifier, skills, default success
    rate, p99 and worst-case latency, and load. *)
Definition sample_agent (id : string) (agentSkills : list string) (rate : Q)
    (latencyP99 latencyMax : Q) (assignments capacity : Q) : Agent :=
  {| agent_id := id;
     name := id;
     is_available := true;
     skills := agentSkills;
     specializations := [];
     success_rate_by_type := ∅;
     success_rate_default := rate;
     recent_wins := [];
     latency_profile := {| p50 := latencyP99; p95 := latencyP99; p99 := latencyP99; max := latencyMax |};
     team_assignments := assignments;
     team_capacity := capacity |}.

(** Decimal digit of a small number, for sample identifiers. *)
Definition digit (n : nat) : string :=
  String (ascii_of_nat (48 + n mod 10)) EmptyString.

Definition find_agent (agents : list Agent) (id : string) : option Agent :=
  List.find (fun a => bool_decide (agent_id a = id)) agents.

(** A sample deployment: a fixed pool of agents and a fixed search result,
    an embedding service and stores that never fail, no recorded accuracy,
    no execution history for any pattern, validators that always finish.
    [clock] is the sequence of clock readings and [lastExecution] the time
    (in seconds) each agent last ran. *)
Definition sample_services (clock : nat -> Z) (agents : list Agent)
    (searchResult : list Candidate) (lastExecution : string -> option Z) : Services :=
  {| SYSTEM_CLOCK_MILLISECONDS := clock;
     UUID_V4 := fun n => ("uuid-" ++ digit n)%string;
     VALIDATE_PATTERN_REQUEST := fun _ => Ok tt;
     VALIDATE_EXECUTION_CONTEXT := fun _ => Ok tt;
     COMPUTE_CACHE_KEY := fun request _ => pattern_id request;
     EMBED_PATTERN := fun _ _ => Ok (repeat 0%Q 1536);
     HNSW_SEARCH := fun _ _ _ => Ok searchResult;
     METADATA_FALLBACK_SEARCH := fun _ _ => Ok searchResult;
     BATCH_GET_PROFILES :=
       fun ids _ => Ok (List.filter (fun a => mem (agent_id a) ids) agents);
     FILTER_AGENTS :=
       fun profiles _ excluded _ =>
         List.filter (fun a => negb (mem (agent_id a) excluded)) profiles;
     GET_SUCCESS_RATE :=
       fun id patternType =>
         match find_agent agents id with
         | Some a => EXPERT_SUCCESS_RATE a patternType
         | None => Throw RuntimeError
         end;
     GET_AGENT_RECENT_ACCURACY := fun _ _ => Ok None;
     GET_PATTERN_EXECUTION_SUCCESS_RATE := fun _ _ => Ok None;
     GET_USER_AGENT_SUCCESS_RATE := fun _ _ _ => Ok None;
     GET_AGENT_LAST_EXECUTION_TIME := fun id => Ok (lastExecution id);
     GET_AGENT_SIMILARITY_SCORE :=
       fun id =>
         match find_candidate id searchResult 0 with
         | Some (_, s) => Ok s
         | None => Throw RuntimeError
         end;
     AGENT_ALREADY_ASSIGNED := fun _ _ => Ok false;
     AGENT_ACTIVE_AT_TIME_OF_DAY := fun _ _ => Ok false;
     COUNT_SIMILAR_AGENTS_ASSIGNED := fun _ _ _ => Ok 0%nat;
     EXTRACT_SPECIALIZATIONS := fun _ => Ok [];
     EXTRACT_CATEGORY := fun _ => Ok EmptyString;
     IS_CRITICAL_PATTERN := fun _ => false;
     EXTRACT_SORTED_SCORES := fun scores => List.map snd (map_to_list scores);
     EXTRACT_SCORES := fun scores => List.map snd (map_to_list scores);
     COMPUTE_ENTROPY := fun _ => Ok 0.5%Q;
     LOG := fun _ => 1%Q;
     TASK_COMPLETES := fun _ _ => true;
     LOG_ROUTING_DECISION := fun _ => Ok tt;
     CACHE_WRITE := fun _ => Ok tt;
     GET_CACHED_ALTERNATIVES := fun _ => Ok None;
     IS_AVAILABLE := fun a => Ok (is_available a);
     FIND_AGENTS_BY_SKILLS :=
       fun required _ =>
         Ok (List.filter
               (fun a => (is_available a && forallb (fun s => mem s (skills a)) required)%bool)
               agents);
     SORT_BY_SUCCESS_RATE := fun l => Ok l;
     GET_BEST_AGENT_FOR_PATTERN_TYPE := fun _ _ => Ok (List.find is_available agents);
     GET_AVAILABLE_AGENTS := fun _ => Ok (List.filter is_available agents);
     ROUND_ROBIN_SELECT := first_of;
     GET_DEFAULT_FALLBACK_AGENT := Ok None |}.

Definition sample_request (id : string) (meta : gmap string string) : Request :=
  {| request_id := "req-1";
     req_user_id := "user-1";
     pattern_id := id;
     pattern_query := "route this pattern";
     metadata := meta;
     pattern_embedding := None;
     preferred_agents := [];
     excluded_agents := [];
     constraints := None;
     explain_reasoning := false |}.

Definition sample_context : Context :=
  {| user_id := "user-1";
     session_id := "session-1";
     current_agent_id := "agent1";
     prior_executions := [];
     prior_routing_decisions := [];
     environmental := {| time_of_day := "morning"; day_of_week := "monday"; system_load := 0.2 |};
     user_preferences := {| up_preferred_agents := []; up_excluded_agents := [] |} |}.

Definition no_constraints : RoutingConstraints :=
  {| max_latency_ms := None;
     required_security_level := None;
     require_consensus := false;
     skill_constraints := None |}.

Definition initial_world : World :=
  {| tick := 0; uuids_issued := 0; decision_cache := ∅; validatorResults := [] |}.

Definition tie_scores : gmap string Q :=
  <["agent-a"%string := 0.5%Q]> (<["agent-b"%string := 0.5%Q]> ∅).

Definition agent_a : Agent := sample_agent "agent-a" [] 0.9 100 200 1 10.
Definition agent_b : Agent := sample_agent "agent-b" [] 0.9 100 200 1 10.

Definition unavailable (a : Agent) : Agent :=
  {| agent_id := agent_id a;
     name := name a;
     is_available := false;
     skills := skills a;
     specializations := specializations a;
     success_rate_by_type := success_rate_by_type a;
     success_rate_default := success_rate_default a;
     recent_wins := recent_wins a;
     latency_profile := latency_profile a;
     team_assignments := team_assignments a;
     team_capacity := team_capacity a |}.

(** A primary agent with a poor success rate, no skills, not available and
    with no capacity recorded; it has no runner-up. *)
Definition weak_agent : Agent := unavailable (sample_agent "agent1" [] 0.5 100 200 0 0).

(** A primary agent with a good success rate, not available and loaded at
    90% of its capacity; it has no runner-up. *)
Definition busy_agent : Agent := unavailable (sample_agent "agent1" [] 0.9 100 200 9 10).

Definition consensus_services (primary : Agent) : Services :=
  sample_services (fun _ => 0%Z) [primary] [ {| c_agent_id := "agent1"; similarity := 0.9 |} ]
    (fun _ => None).

Definition auth_request : Request :=
  sample_request "p1" (<["skills"%string := "auth"%string]> ∅).

(** A pool with one available agent that has the skill [auth]. *)
Definition auth_agent : Agent := sample_agent "agent1" ["auth"%string] 0.95 100 200 1 10.

Definition auth_services : Services :=
  sample_services (fun _ => 0%Z) [auth_agent]
    [ {| c_agent_id := "agent1"; similarity := 0.9 |} ] (fun _ => None).

(** Two agents tied on similarity.  [agent-b] has the better success rate;
    [agent-a] last ran at time 0 and [agent-b] never ran.  The clock shows
    86000 s (23 h 53 min) for its first [readings] readings and 86500 s
    (just over 24 h) afterwards. *)
Definition slow_agent : Agent := sample_agent "agent-a" [] 0.90 100 200 1 10.
Definition fast_agent : Agent := sample_agent "agent-b" [] 0.93 100 200 1 10.

Definition day_clock (readings : nat) (n : nat) : Z :=
  if (n <? readings)%nat then 86000000%Z else 86500000%Z.

Definition two_agent_services (readings : nat) : Services :=
  sample_services (day_clock readings) [slow_agent; fast_agent]
    [ {| c_agent_id := "agent-a"; similarity := 0.9 |};
      {| c_agent_id := "agent-b"; similarity := 0.9 |} ]
    (fun id => if bool_decide (id = "agent-a"%string) then Some 0%Z else None).

Definition new_pattern : Request := sample_request "never-seen" ∅.

(** An agent with four recorded wins: two logins a few minutes before
    second 7200 (one of them a success), a login long before, and a deploy. *)
Definition seasoned_agent : Agent :=
  {| agent_id := "agent1";
     name := "agent1";
     is_available := true;
     skills := [];
     specializations := [];
     success_rate_by_type := ∅;
     success_rate_default := 0.6;
     recent_wins :=
       [ {| win_pattern_type := "login"; win_timestamp := 7000; win_success := true |};
         {| win_pattern_type := "login"; win_timestamp := 6900; win_success := false |};
         {| win_pattern_type := "login"; win_timestamp := 100; win_success := true |};
         {| win_pattern_type := "deploy"; win_timestamp := 7100; win_success := true |} ];
     latency_profile := {| p50 := 100; p95 := 100; p99 := 100; max := 200 |};
     team_assignments := 1;
     team_capacity := 10 |}.

Definition seasoned_services : Services :=
  sample_services (fun _ => 7200000%Z) [seasoned_agent]
    [ {| c_agent_id := "agent1"; similarity := 0.9 |} ] (fun _ => None).

(** The deployment [sv] with another store of recent accuracies. *)
Definition with_recent_accuracy (sv : Services) (replacement : string -> nat -> Exc (option Q)) : Services :=
  {| SYSTEM_CLOCK_MILLISECONDS := SYSTEM_CLOCK_MILLISECONDS sv;
     UUID_V4 := UUID_V4 sv;
     VALIDATE_PATTERN_REQUEST := VALIDATE_PATTERN_REQUEST sv;
     VALIDATE_EXECUTION_CONTEXT := VALIDATE_EXECUTION_CONTEXT sv;
     COMPUTE_CACHE_KEY := COMPUTE_CACHE_KEY sv;
     EMBED_PATTERN := EMBED_PATTERN sv;
     HNSW_SEARCH := HNSW_SEARCH sv;
     METADATA_FALLBACK_SEARCH := METADATA_FALLBACK_SEARCH sv;
     BATCH_GET_PROFILES := BATCH_GET_PROFILES sv;
     FILTER_AGENTS := FILTER_AGENTS sv;
     GET_SUCCESS_RATE := GET_SUCCESS_RATE sv;
     GET_AGENT_RECENT_ACCURACY := replacement;
     GET_PATTERN_EXECUTION_SUCCESS_RATE := GET_PATTERN_EXECUTION_SUCCESS_RATE sv;
     GET_USER_AGENT_SUCCESS_RATE := GET_USER_AGENT_SUCCESS_RATE sv;
     GET_AGENT_LAST_EXECUTION_TIME := GET_AGENT_LAST_EXECUTION_TIME sv;
     GET_AGENT_SIMILARITY_SCORE := GET_AGENT_SIMILARITY_SCORE sv;
     AGENT_ALREADY_ASSIGNED := AGENT_ALREADY_ASSIGNED sv;
     AGENT_ACTIVE_AT_TIME_OF_DAY := AGENT_ACTIVE_AT_TIME_OF_DAY sv;
     COUNT_SIMILAR_AGENTS_ASSIGNED := COUNT_SIMILAR_AGENTS_ASSIGNED sv;
     EXTRACT_SPECIALIZATIONS := EXTRACT_SPECIALIZATIONS sv;
     EXTRACT_CATEGORY := EXTRACT_CATEGORY sv;
     IS_CRITICAL_PATTERN := IS_CRITICAL_PATTERN sv;
     EXTRACT_SORTED_SCORES := EXTRACT_SORTED_SCORES sv;
     EXTRACT_SCORES := EXTRACT_SCORES sv;
     COMPUTE_ENTROPY := COMPUTE_ENTROPY sv;
     LOG := LOG sv;
     TASK_COMPLETES := TASK_COMPLETES sv;
     LOG_ROUTING_DECISION := LOG_ROUTING_DECISION sv;
     CACHE_WRITE := CACHE_WRITE sv;
     GET_CACHED_ALTERNATIVES := GET_CACHED_ALTERNATIVES sv;
     IS_AVAILABLE := IS_AVAILABLE sv;
     FIND_AGENTS_BY_SKILLS := FIND_AGENTS_BY_SKILLS sv;
     SORT_BY_SUCCESS_RATE := SORT_BY_SUCCESS_RATE sv;
     GET_BEST_AGENT_FOR_PATTERN_TYPE := GET_BEST_AGENT_FOR_PATTERN_TYPE sv;
     GET_AVAILABLE_AGENTS := GET_AVAILABLE_AGENTS sv;
     ROUND_ROBIN_SELECT := ROUND_ROBIN_SELECT sv;
     GET_DEFAULT_FALLBACK_AGENT := GET_DEFAULT_FALLBACK_AGENT sv |}.

(** The deployment [sv] with another embedding service. *)
Definition with_embed_pattern (sv : Services) (replacement : string -> gmap string string -> Exc (list Q)) : Services :=
  {| SYSTEM_CLOCK_MILLISECONDS := SYSTEM_CLOCK_MILLISECONDS sv;
     UUID_V4 := UUID_V4 sv;
     VALIDATE_PATTERN_REQUEST := VALIDATE_PATTERN_REQUEST sv;
     VALIDATE_EXECUTION_CONTEXT := VALIDATE_EXECUTION_CONTEXT sv;
     COMPUTE_CACHE_KEY := COMPUTE_CACHE_KEY sv;
     EMBED_PATTERN := replacement;
     HNSW_SEARCH := HNSW_SEARCH sv;
     METADATA_FALLBACK_SEARCH := METADATA_FALLBACK_SEARCH sv;
     BATCH_GET_PROFILES := BATCH_GET_PROFILES sv;
     FILTER_AGENTS := FILTER_AGENTS sv;
     GET_SUCCESS_RATE := GET_SUCCESS_RATE sv;
     GET_AGENT_RECENT_ACCURACY := GET_AGENT_RECENT_ACCURACY sv;
     GET_PATTERN_EXECUTION_SUCCESS_RATE := GET_PATTERN_EXECUTION_SUCCESS_RATE sv;
     GET_USER_AGENT_SUCCESS_RATE := GET_USER_AGENT_SUCCESS_RATE sv;
     GET_AGENT_LAST_EXECUTION_TIME := GET_AGENT_LAST_EXECUTION_TIME sv;
     GET_AGENT_SIMILARITY_SCORE := GET_AGENT_SIMILARITY_SCORE sv;
     AGENT_ALREADY_ASSIGNED := AGENT_ALREADY_ASSIGNED sv;
     AGENT_ACTIVE_AT_TIME_OF_DAY := AGENT_ACTIVE_AT_TIME_OF_DAY sv;
     COUNT_SIMILAR_AGENTS_ASSIGNED := COUNT_SIMILAR_AGENTS_ASSIGNED sv;
     EXTRACT_SPECIALIZATIONS := EXTRACT_SPECIALIZATIONS sv;
     EXTRACT_CATEGORY := EXTRACT_CATEGORY sv;
     IS_CRITICAL_PATTERN := IS_CRITICAL_PATTERN sv;
     EXTRACT_SORTED_SCORES := EXTRACT_SORTED_SCORES sv;
     EXTRACT_SCORES := EXTRACT_SCORES sv;
     COMPUTE_ENTROPY := COMPUTE_ENTROPY sv;
     LOG := LOG sv;
     TASK_COMPLETES := TASK_COMPLETES sv;
     LOG_ROUTING_DECISION := LOG_ROUTING_DECISION sv;
     CACHE_WRITE := CACHE_WRITE sv;
     GET_CACHED_ALTERNATIVES := GET_CACHED_ALTERNATIVES sv;
     IS_AVAILABLE := IS_AVAILABLE sv;
     FIND_AGENTS_BY_SKILLS := FIND_AGENTS_BY_SKILLS sv;
     SORT_BY_SUCCESS_RATE := SORT_BY_SUCCESS_RATE sv;
     GET_BEST_AGENT_FOR_PATTERN_TYPE := GET_BEST_AGENT_FOR_PATTERN_TYPE sv;
     GET_AVAILABLE_AGENTS := GET_AVAILABLE_AGENTS sv;
     ROUND_ROBIN_SELECT := ROUND_ROBIN_SELECT sv;
     GET_DEFAULT_FALLBACK_AGENT := GET_DEFAULT_FALLBACK_AGENT sv |}.

(** The agent of [auth_services] loaded at 90% of its capacity. *)
Definition loaded_agent : Agent := sample_agent "agent1" ["auth"%string] 0.95 100 200 9 10.

(** [agent-a] answered 80% of its routings of the last week correctly,
    [agent-b] 96%. *)
Definition accuracy_services : Services :=
  with_recent_accuracy (two_agent_services 0)
    (fun id _ => Ok (Some (if bool_decide (id = "agent-a"%string) then 0.80 else 0.96)%Q)).

(** A deployment whose embedding service is down. *)
Definition embedding_down_services : Services :=
  with_embed_pattern auth_services (fun _ _ => Throw EmbeddingError).

(** A deployment whose index and profile store know no agent. *)
Definition empty_services : Services :=
  sample_services (fun _ => 0%Z) [] [] (fun _ => None).

(** A request that brings its own embedding. *)
Definition embedded_request : Request :=
  {| request_id := "req-1";
     req_user_id := "user-1";
     pattern_id := "p1";
     pattern_query := "route this pattern";
     metadata := ∅;
     pattern_embedding := Some (repeat 0%Q 1536);
     preferred_agents := [];
     excluded_agents := [];
     constraints := None;
     explain_reasoning := false |}.

Definition single_score : gmap string Q := <["agent1"%string := 0.9%Q]> ∅.

Definition tagged_pattern : EmbedScript.Value :=
  EmbedScript.Obj
    [ (EmbedScript.js "id", EmbedScript.Str (EmbedScript.js "vitest-mocks"));
      (EmbedScript.js "title", EmbedScript.Str (EmbedScript.js "Mocking with vitest"));
      (EmbedScript.js "description", EmbedScript.Str []);
      (EmbedScript.js "related_files", EmbedScript.Arr []);
      (EmbedScript.js "tags",
       EmbedScript.Arr [ EmbedScript.Str (EmbedScript.js "vitest");
                         EmbedScript.Str (EmbedScript.js "mocking") ]) ].

Definition untagged_pattern : EmbedScript.Value :=
  EmbedScript.Obj
    [ (EmbedScript.js "title", EmbedScript.Str (EmbedScript.js "Fixtures"));
      (EmbedScript.js "description", EmbedScript.Str (EmbedScript.js "Shared fixtures"));
      (EmbedScript.js "related_files",
       EmbedScript.Arr [EmbedScript.Str (EmbedScript.js "test/fixtures.ts")]);
      (EmbedScript.js "key_concepts",
       EmbedScript.Arr [EmbedScript.Str (EmbedScript.js "fixtures")]) ].

(** A host whose pattern file holds [{"patterns": patterns}] and whose every
    request is answered with an embedding of two numbers. *)
Definition host_with (patterns : list EmbedScript.Value) : EmbedScript.Host :=
  {| EmbedScript.env :=
       {| EmbedScript.DATABASE_URL := Some ""%string;
          EmbedScript.DAXIOM_DATABASE_URL := Some "postgresql://u:p@db/daxiom"%string;
          EmbedScript.GOOGLE_API_KEY := None;
          EmbedScript.GEMINI_API_KEY := Some "key"%string |};
     EmbedScript.new_URL := fun _ =>
       Some {| EmbedScript.hostname := "db";
               EmbedScript.port := "";
               EmbedScript.pathname := "/daxiom";
               EmbedScript.username := "u";
               EmbedScript.password := "p" |};
     EmbedScript.PATTERNS_FILE :=
       EmbedScript.Parsed
         (EmbedScript.Obj [(EmbedScript.js "patterns", EmbedScript.Arr patterns)]);
     EmbedScript.https_request := fun _ _ _ => EmbedScript.Response 200 "{}";
     EmbedScript.embedding_values := fun _ =>
       EmbedScript.Resolved
         (EmbedScript.Arr [ EmbedScript.Number (EmbedScript.Finite (1 # 2));
                            EmbedScript.Number (EmbedScript.Finite (1 # 4)) ]);
     EmbedScript.toISOString := fun _ => "2026-01-01T00:00:00.000Z"%string;
     EmbedScript.StringToNumber := fun _ => EmbedScript.NaN;
     EmbedScript.type_error := fun expression _ => (expression ++ " cannot be used")%string |}.

Definition sample_host : EmbedScript.Host := host_with [tagged_pattern; untagged_pattern].

(** The pattern file lists a pattern and then [null]. *)
Definition interrupted_host : EmbedScript.Host := host_with [tagged_pattern; EmbedScript.Null].

(** An index whose first two queries report corruption; the third returns
    three rows, one of them below the threshold. *)
Definition recovering_index : RoutingSpec.Index :=
  {| RoutingSpec.SQL_QUERY := fun n _ _ =>
       if (n <? 2)%nat then RoutingSpec.IndexCorruptionError
       else RoutingSpec.Rows [ {| c_agent_id := "agent1"; similarity := 0.9 |};
                               {| c_agent_id := "agent2"; similarity := 0.05 |};
                               {| c_agent_id := "agent3"; similarity := 0.4 |} ];
     RoutingSpec.METADATA_FALLBACK_SEARCH := fun _ _ => Ok [];
     RoutingSpec.REBUILD_HNSW_INDEX := fun _ => Ok tt;
     RoutingSpec.CACHE_GET_TOP_K_RESULTS := fun _ _ => Ok None |}.

Definition login_win (timestamp : Z) : RoutingSpec.WinRecord :=
  {| RoutingSpec.win_pattern_id := "p1";
     RoutingSpec.win_pattern_type := "login";
     RoutingSpec.win_timestamp := timestamp;
     RoutingSpec.win_success := true |}.

(** A profile with ten recorded wins, marked unavailable. *)
Definition full_profile : RoutingSpec.Profile :=
  {| RoutingSpec.agent_id := "agent1";
     RoutingSpec.success_rate_by_type := <["deploy"%string := 0.8%Q]> ∅;
     RoutingSpec.recent_wins := List.map login_win [10; 9; 8; 7; 6; 5; 4; 3; 2; 1]%Z;
     RoutingSpec.latency_profile := {| p50 := 100; p95 := 100; p99 := 100; max := 200 |};
     RoutingSpec.is_available := false;
     RoutingSpec.unavailable_until := Some 400%Z;
     RoutingSpec.unavailability_reason := Some "maintenance"%string;
     RoutingSpec.updated_at := Some 10%Z;
     RoutingSpec.last_executed_at := Some 10%Z |}.

(** A store that holds [full_profile] for every agent and never fails; the
    clock shows second 1000, the agent has [failures] consecutive failures and
    success rates move by an exponential average. *)
Definition sample_store (failures : nat) : RoutingSpec.ProfileStore :=
  {| RoutingSpec.CURRENT_TIMESTAMP := fun _ => 1000%Z;
     RoutingSpec.GET_AGENT_PROFILE := fun _ => Ok full_profile;
     RoutingSpec.COMPUTE_NEW_SUCCESS_RATE := fun _ current success _ =>
       Ok (0.9 * match current with Some r => r | None => 0.5 end
           + 0.1 * (if success then 1 else 0))%Q;
     RoutingSpec.UPDATE_PERCENTILES := fun current _ _ => Ok current;
     RoutingSpec.CONSECUTIVE_FAILURES := fun _ => Ok failures;
     RoutingSpec.UPSERT_AGENT_PROFILE := fun _ => Ok tt;
     RoutingSpec.CACHE_INVALIDATE := fun _ => Ok tt |}.


(** A request of a priority that is not one of the four tiers, with a
    latency ceiling of 100 ms. *)
Definition urgent_request : Request :=
  {| request_id := "req-1";
     req_user_id := "user-1";
     pattern_id := "urgent-pattern";
     pattern_query := "route this pattern";
     metadata := {[ "priority"%string := "urgent"%string ]};
     pattern_embedding := None;
     preferred_agents := [];
     excluded_agents := [];
     constraints := Some {| max_latency_ms := Some 100%Q;
                            required_security_level := None;
                            require_consensus := false;
                            skill_constraints := None |};
     explain_reasoning := false |}.

(** [sv] with another cache store. *)
Definition with_cache_write (sv : Services) (replacement : string -> Exc unit) : Services :=
  {| SYSTEM_CLOCK_MILLISECONDS := SYSTEM_CLOCK_MILLISECONDS sv;
     UUID_V4 := UUID_V4 sv;
     VALIDATE_PATTERN_REQUEST := VALIDATE_PATTERN_REQUEST sv;
     VALIDATE_EXECUTION_CONTEXT := VALIDATE_EXECUTION_CONTEXT sv;
     COMPUTE_CACHE_KEY := COMPUTE_CACHE_KEY sv;
     EMBED_PATTERN := EMBED_PATTERN sv;
     HNSW_SEARCH := HNSW_SEARCH sv;
     METADATA_FALLBACK_SEARCH := METADATA_FALLBACK_SEARCH sv;
     BATCH_GET_PROFILES := BATCH_GET_PROFILES sv;
     FILTER_AGENTS := FILTER_AGENTS sv;
     GET_SUCCESS_RATE := GET_SUCCESS_RATE sv;
     GET_AGENT_RECENT_ACCURACY := GET_AGENT_RECENT_ACCURACY sv;
     GET_PATTERN_EXECUTION_SUCCESS_RATE := GET_PATTERN_EXECUTION_SUCCESS_RATE sv;
     GET_USER_AGENT_SUCCESS_RATE := GET_USER_AGENT_SUCCESS_RATE sv;
     GET_AGENT_LAST_EXECUTION_TIME := GET_AGENT_LAST_EXECUTION_TIME sv;
     GET_AGENT_SIMILARITY_SCORE := GET_AGENT_SIMILARITY_SCORE sv;
     AGENT_ALREADY_ASSIGNED := AGENT_ALREADY_ASSIGNED sv;
     AGENT_ACTIVE_AT_TIME_OF_DAY := AGENT_ACTIVE_AT_TIME_OF_DAY sv;
     COUNT_SIMILAR_AGENTS_ASSIGNED := COUNT_SIMILAR_AGENTS_ASSIGNED sv;
     EXTRACT_SPECIALIZATIONS := EXTRACT_SPECIALIZATIONS sv;
     EXTRACT_CATEGORY := EXTRACT_CATEGORY sv;
     IS_CRITICAL_PATTERN := IS_CRITICAL_PATTERN sv;
     EXTRACT_SORTED_SCORES := EXTRACT_SORTED_SCORES sv;
     EXTRACT_SCORES := EXTRACT_SCORES sv;
     COMPUTE_ENTROPY := COMPUTE_ENTROPY sv;
     LOG := LOG sv;
     TASK_COMPLETES := TASK_COMPLETES sv;
     LOG_ROUTING_DECISION := LOG_ROUTING_DECISION sv;
     CACHE_WRITE := replacement;
     GET_CACHED_ALTERNATIVES := GET_CACHED_ALTERNATIVES sv;
     IS_AVAILABLE := IS_AVAILABLE sv;
     FIND_AGENTS_BY_SKILLS := FIND_AGENTS_BY_SKILLS sv;
     SORT_BY_SUCCESS_RATE := SORT_BY_SUCCESS_RATE sv;
     GET_BEST_AGENT_FOR_PATTERN_TYPE := GET_BEST_AGENT_FOR_PATTERN_TYPE sv;
     GET_AVAILABLE_AGENTS := GET_AVAILABLE_AGENTS sv;
     ROUND_ROBIN_SELECT := ROUND_ROBIN_SELECT sv;
     GET_DEFAULT_FALLBACK_AGENT := GET_DEFAULT_FALLBACK_AGENT sv |}.


(** A deployment whose clock stands still and whose cache store refuses
    the decision of [new_pattern]. *)
Definition unstored_services : Services :=
  with_cache_write
    (sample_services (fun _ => 86000000%Z) [slow_agent; fast_agent]
       [ {| c_agent_id := "agent-a"; similarity := 0.9 |};
         {| c_agent_id := "agent-b"; similarity := 0.9 |} ]
       (fun id => if bool_decide (id = "agent-a"%string) then Some 0%Z else None))
    (fun key => if bool_decide (key = "never-seen"%string) then Throw PersistError else Ok tt).

(** * Properties *)

(** ** Comparison and clamping *)

Section NumFacts.

Local Open Scope Q_scope.

Lemma Qltb_lt x y : Qltb x y = true <-> x < y.
Proof.
  unfold Qltb. rewrite negb_true_iff.
  destruct (Qle_bool y x) eqn:E.
  - apply Qle_bool_iff in E. split; [discriminate | lra].
  - split; [intros _ | reflexivity].
    destruct (Qlt_le_dec x y) as [H | H]; [exact H |].
    apply Qle_bool_iff in H. congruence.
Qed.

Lemma Qltb_ge x y : Qltb x y = false <-> y <= x.
Proof. unfold Qltb. rewrite negb_false_iff. apply Qle_bool_iff. Qed.

Lemma Qle_bool_gt x y : Qle_bool x y = false <-> y < x.
Proof.
  rewrite <- Qltb_lt. unfold Qltb. destruct (Qle_bool x y); simpl; intuition congruence.
Qed.

Lemma CLAMP_range value lo hi : lo <= hi -> lo <= CLAMP value lo hi <= hi.
Proof.
  intros Hle. unfold CLAMP.
  destruct (Qltb value lo) eqn:E1; [lra |].
  apply Qltb_ge in E1.
  destruct (Qltb hi value) eqn:E2; [lra |].
  apply Qltb_ge in E2. lra.
Qed.

Lemma CLAMP_unit value : 0 <= CLAMP value 0 1 <= 1.
Proof. apply CLAMP_range. lra. Qed.

Lemma CLAMP_id value lo hi : lo <= value <= hi -> CLAMP value lo hi == value.
Proof.
  intros [H1 H2]. unfold CLAMP.
  destruct (Qltb value lo) eqn:E1.
  - apply Qltb_lt in E1. lra.
  - destruct (Qltb hi value) eqn:E2; [| reflexivity].
    apply Qltb_lt in E2. lra.
Qed.

Lemma CLAMP_compat v v' lo hi : v == v' -> CLAMP v lo hi == CLAMP v' lo hi.
Proof.
  intros Hv. unfold CLAMP.
  destruct (Qltb v lo) eqn:A; destruct (Qltb v' lo) eqn:A';
    destruct (Qltb hi v) eqn:B; destruct (Qltb hi v') eqn:B';
    rewrite ?Qltb_lt, ?Qltb_ge in *; lra.
Qed.

Lemma of_nat_nonneg n : 0 <= of_nat n.
Proof. unfold of_nat. change 0 with (inject_Z 0). rewrite <- Zle_Qle. lia. Qed.

End NumFacts.

(** ** The weight vector *)

Lemma weights_assertion_holds :
  ASSERT (Qltb (Qabs (SUM (List.map snd weights) - 1)) 0.0001) = Ok tt.
Proof. reflexivity. Qed.

(** C8: the eight expert weights of COMPUTE_EXPERT_SCORE are
    0.25, 0.15, 0.20, 0.10, 0.10, 0.10, 0.07, 0.03; their sum is exactly 1,
    hence within the asserted tolerance of 0.0001 of 1.0. *)
Theorem weights_sum_to_one :
  List.map snd weights = [0.25; 0.15; 0.20; 0.10; 0.10; 0.10; 0.07; 0.03]%Q
  /\ (SUM (List.map snd weights) == 1)%Q
  /\ (Qabs (SUM (List.map snd weights) - 1) < 0.0001)%Q.
Proof.
  split; [reflexivity |].
  split; [reflexivity |].
  reflexivity.
Qed.

(** ** Expert 1: semantic similarity *)

Section SimilarityFacts.

Local Open Scope Q_scope.

Lemma Qmaxb_cases a b : (Qmaxb a b = a /\ b <= a) \/ (Qmaxb a b = b /\ a < b).
Proof.
  unfold Qmaxb. destruct (Qltb a b) eqn:E.
  - right. split; [reflexivity | now apply Qltb_lt].
  - left. split; [reflexivity | now apply Qltb_ge].
Qed.

Lemma fold_Qmaxb_upper l : forall x,
  x <= fold_left Qmaxb l x /\ (forall y, In y l -> y <= fold_left Qmaxb l x).
Proof.
  induction l as [| z l IH]; intros x; simpl.
  - split; [lra | intros y []].
  - destruct (IH (Qmaxb x z)) as [H1 H2].
    destruct (Qmaxb_cases x z) as [[E Hle] | [E Hlt]]; rewrite E in *.
    + split; [exact H1 |]. intros y [<- | Hy]; [lra | now apply H2].
    + split; [lra |]. intros y [<- | Hy]; [exact H1 | now apply H2].
Qed.

Lemma fold_Qmaxb_member l : forall x,
  fold_left Qmaxb l x = x \/ In (fold_left Qmaxb l x) l.
Proof.
  induction l as [| z l IH]; intros x; simpl.
  - now left.
  - destruct (IH (Qmaxb x z)) as [H | H].
    + rewrite H. destruct (Qmaxb_cases x z) as [[E _] | [E _]]; rewrite E; auto.
    + right. now right.
Qed.

(** [MAX] returns an element of the list that bounds all the others. *)
Lemma MAX_spec l m :
  MAX l = Ok m -> In m l /\ forall y, In y l -> y <= m.
Proof.
  destruct l as [| x l]; simpl; [discriminate |].
  intros [= <-]. destruct (fold_Qmaxb_upper l x) as [H1 H2]. split.
  - destruct (fold_Qmaxb_member l x) as [-> | H]; auto.
  - intros y [<- | Hy]; auto.
Qed.

Lemma MAX_nonempty (l : list Q) : l <> [] -> exists m, MAX l = Ok m.
Proof. destruct l; [congruence | intros _; eexists; reflexivity]. Qed.

Lemma find_candidate_absent agentId candidates : forall i,
  (forall c, In c candidates -> c_agent_id c <> agentId) ->
  find_candidate agentId candidates i = None.
Proof.
  induction candidates as [| c rest IH]; intros i Habs; simpl; [reflexivity |].
  case_bool_decide as E.
  - exfalso. apply (Habs c); [now left | exact E].
  - apply IH. intros c' Hc'. apply Habs. now right.
Qed.

Lemma find_candidate_first agentId candidates : forall i k c,
  candidates !! k = Some c ->
  c_agent_id c = agentId ->
  (forall j c', (j < k)%nat -> candidates !! j = Some c' -> c_agent_id c' <> agentId) ->
  find_candidate agentId candidates i = Some ((i + k)%nat, similarity c).
Proof.
  induction candidates as [| c0 rest IH]; intros i k c Hk Hid Hfirst; [discriminate |].
  simpl. destruct k as [| k]; simpl in Hk.
  - injection Hk as ->. rewrite bool_decide_eq_true_2 by exact Hid.
    now rewrite Nat.add_0_r.
  - rewrite bool_decide_eq_false_2.
    + rewrite (IH (S i) k c Hk Hid).
      * f_equal. f_equal. lia.
      * intros j c' Hj Hc'. apply (Hfirst (S j) c'); [lia | exact Hc'].
    + apply (Hfirst 0%nat c0); [lia | reflexivity].
Qed.

End SimilarityFacts.

Section SimilarityTheorems.

Local Open Scope Q_scope.

Lemma similarity_in_scores candidates k c :
  candidates !! k = Some c -> In (similarity c) (EXTRACT_SIMILARITY_SCORES candidates).
Proof.
  intros Hk. unfold EXTRACT_SIMILARITY_SCORES. apply in_map.
  apply list_elem_of_In. eapply list_elem_of_lookup_2. exact Hk.
Qed.

(** C5 (amended): an agent absent from the candidate set scores 0.  An agent
    first found at rank [k] with similarity [s] scores
    [CLAMP((s / m) * (1 - 0.02 k))], where [m] is the maximum candidate
    similarity, unless [m] is 0, in which case it scores 0.  When all the
    candidates have the same non-zero similarity the candidate at rank [k]
    therefore scores [CLAMP(1 - 0.02 k)]: 1.0 at rank 0 (in particular for
    a sole candidate) and less for every later rank. *)
Theorem expert_similarity_spec (agentId : string) (candidates : list Candidate) :
  let allSimilarities := EXTRACT_SIMILARITY_SCORES candidates in
  ((forall c, In c candidates -> c_agent_id c <> agentId) ->
   EXPERT_SIMILARITY agentId candidates allSimilarities = Ok 0)
  /\
  (forall k c,
     candidates !! k = Some c ->
     c_agent_id c = agentId ->
     (forall j c', (j < k)%nat -> candidates !! j = Some c' -> c_agent_id c' <> agentId) ->
     exists m score,
       MAX allSimilarities = Ok m
       /\ In m allSimilarities
       /\ (forall y, In y allSimilarities -> y <= m)
       /\ EXPERT_SIMILARITY agentId candidates allSimilarities = Ok score
       /\ (m == 0 -> score == 0)
       /\ (~ m == 0 -> score == CLAMP (similarity c / m * (1 - of_nat k * 0.02)) 0 1)
       /\ ((forall c', In c' candidates -> similarity c' == similarity c) ->
           ~ similarity c == 0 ->
           score == CLAMP (1 - of_nat k * 0.02) 0 1 /\ (k = 0%nat -> score == 1))).
Proof.
  intros allSimilarities. split.
  - intros Habs. unfold EXPERT_SIMILARITY.
    now rewrite (find_candidate_absent agentId candidates 0 Habs).
  - intros k c Hk Hid Hfirst.
    assert (Hin : In (similarity c) allSimilarities) by (eapply similarity_in_scores; eauto).
    destruct (MAX_nonempty allSimilarities) as [m Hm].
    { intros E. rewrite E in Hin. destruct Hin. }
    destruct (MAX_spec _ _ Hm) as [Hmem Hub].
    unfold EXPERT_SIMILARITY.
    rewrite (find_candidate_first agentId candidates 0 k c Hk Hid Hfirst).
    rewrite Hm. simpl.
    eexists m, _. split; [reflexivity |]. split; [exact Hmem |]. split; [exact Hub |].
    split; [reflexivity |].
    destruct (Qeq_bool m 0) eqn:Ez.
    + apply Qeq_bool_iff in Ez. split; [| split].
      * intros _. transitivity (CLAMP 0 0 1).
        -- apply CLAMP_compat. ring.
        -- reflexivity.
      * intros Hnz. contradiction.
      * intros Hall Hnz. exfalso. apply Hnz.
        unfold allSimilarities, EXTRACT_SIMILARITY_SCORES in Hmem.
        apply in_map_iff in Hmem as (c' & Hc' & Hin').
        rewrite <- (Hall c' Hin'). now rewrite Hc'.
    + apply Qeq_bool_neq in Ez. split; [| split].
      * intros Hz. contradiction.
      * intros _. reflexivity.
      * intros Hall Hnz.
        assert (Hms : m == similarity c).
        { unfold allSimilarities, EXTRACT_SIMILARITY_SCORES in Hmem.
          apply in_map_iff in Hmem as (c' & Hc' & Hin').
          rewrite <- Hc'. now apply Hall. }
        assert (Hscore :
          CLAMP (similarity c / m * (1 - of_nat k * 0.02)) 0 1
          == CLAMP (1 - of_nat k * 0.02) 0 1).
        { apply CLAMP_compat. rewrite Hms. field. exact Hnz. }
        split; [exact Hscore |].
        intros ->. rewrite Hscore. reflexivity.
Qed.

Lemma expert_similarity_spec_witness :
  EXPERT_SIMILARITY "agent3" demo_candidates (EXTRACT_SIMILARITY_SCORES demo_candidates) = Ok 0
  /\ exists m score,
       MAX (EXTRACT_SIMILARITY_SCORES demo_candidates) = Ok m
       /\ EXPERT_SIMILARITY "agent2" demo_candidates
            (EXTRACT_SIMILARITY_SCORES demo_candidates) = Ok score
       /\ (~ m == 0 -> score == CLAMP (0.85 / m * (1 - of_nat 1 * 0.02)) 0 1).
Proof.
  split.
  - apply (expert_similarity_spec "agent3" demo_candidates).
    intros c [<- | [<- | []]]; simpl; discriminate.
  - destruct (expert_similarity_spec "agent2" demo_candidates) as [_ H].
    destruct (H 1%nat {| c_agent_id := "agent2"; similarity := 0.85 |})
      as (m & score & Hm & _ & _ & Hs & _ & Hnz & _).
    + reflexivity.
    + reflexivity.
    + intros j c' Hj Hc'. destruct j as [| j]; [| lia].
      simpl in Hc'. injection Hc' as <-. simpl. discriminate.
    + exists m, score. split; [exact Hm |]. split; [exact Hs |]. exact Hnz.
Defined.

(** C5 as stated fails: with two candidates tied at 0.9 the second one
    scores 0.98, not 1.0; and a sole candidate whose similarity is 0 scores
    0, not 1.0. *)
Lemma expert_similarity_tied_counterexample :
  (exists score,
     EXPERT_SIMILARITY "agent2" tied_candidates
       (EXTRACT_SIMILARITY_SCORES tied_candidates) = Ok score
     /\ score == 0.98 /\ ~ score == 1)
  /\
  (exists score,
     EXPERT_SIMILARITY "agent1" [ {| c_agent_id := "agent1"; similarity := 0 |} ] [0]
     = Ok score
     /\ score == 0 /\ ~ score == 1).
Proof.
  split.
  - eexists. split; [reflexivity |]. split; [reflexivity | discriminate].
  - eexists. split; [reflexivity |]. split; [reflexivity | discriminate].
Qed.

End SimilarityTheorems.

(** ** Expert 6: latency fit *)

Section LatencyFacts.

Local Open Scope Q_scope.

Lemma priority_table patternPriority tier :
  assoc patternPriority priorityLatencies = Some tier ->
  (patternPriority = "low"%string /\ tier = {| acceptable := 1000; target := 500 |})
  \/ (patternPriority = "medium"%string /\ tier = {| acceptable := 500; target := 200 |})
  \/ (patternPriority = "high"%string /\ tier = {| acceptable := 200; target := 100 |})
  \/ (patternPriority = "critical"%string /\ tier = {| acceptable := 100; target := 50 |}).
Proof.
  unfold priorityLatencies. simpl.
  repeat case_bool_decide; intros [= <-]; subst; auto 10.
Qed.

Lemma tier_ordered patternPriority tier :
  assoc patternPriority priorityLatencies = Some tier ->
  0 < target tier /\ target tier < acceptable tier.
Proof.
  intros H. apply priority_table in H.
  destruct H as [[_ ->] | [[_ ->] | [[_ ->] | [_ ->]]]]; simpl; split; reflexivity.
Qed.

(** A priority outside the table makes the expert raise; the scoring
    engine then records the neutral 0.5. *)
Lemma expert_latency_fit_unknown_priority agent patternPriority maxLatency :
  assoc patternPriority priorityLatencies = None ->
  EXPERT_LATENCY_FIT agent patternPriority maxLatency = Throw RuntimeError.
Proof. intros H. unfold EXPERT_LATENCY_FIT. now rewrite H. Qed.

(** The score of EXPERT_LATENCY_FIT once the hard constraint has passed. *)
Lemma latency_band (t a p : Q) :
  0 < t -> t < a ->
  let score :=
    CLAMP (if Qle_bool p t then 1
           else if Qle_bool p a then 1 - ((p - t) / (a - t)) * 0.4
           else 0.1) 0 1 in
  (p <= t -> score == 1)
  /\ (t < p <= a -> score == 1 - 0.4 * ((p - t) / (a - t)) /\ 0.6 <= score < 1)
  /\ (p == a -> score == 0.6)
  /\ (a < p -> score == 0.1 /\ score <= 0.1).
Proof.
  intros Hpos Hord score. unfold score. clear score.
  destruct (Qle_bool p t) eqn:Et.
  - apply Qle_bool_iff in Et.
    assert (Hs : CLAMP 1 0 1 == 1) by reflexivity.
    split; [intros _; exact Hs |].
    split; [intros [H _]; lra |].
    split; [intros H; rewrite H in Et; lra | intros H; lra].
  - apply Qle_bool_gt in Et.
    destruct (Qle_bool p a) eqn:Ea.
    + apply Qle_bool_iff in Ea.
      assert (Hfrac : 0 < (p - t) / (a - t) <= 1).
      { split.
        - apply Qlt_shift_div_l; lra.
        - apply Qle_shift_div_r; lra. }
      set (frac := (p - t) / (a - t)) in *.
      assert (Hs : CLAMP (1 - frac * 0.4) 0 1 == 1 - 0.4 * frac).
      { rewrite CLAMP_id by lra. ring. }
      split; [intros H; lra |].
      split; [intros _; split; [exact Hs | rewrite Hs; lra] |].
      split; [| intros H; lra].
      intros Hpa. rewrite Hs.
      assert (Hone : frac == 1).
      { unfold frac. rewrite Hpa. field. lra. }
      rewrite Hone. reflexivity.
    + apply Qle_bool_gt in Ea.
      assert (Hs : CLAMP 0.1 0 1 == 0.1) by reflexivity.
      split; [intros H; lra |].
      split; [intros [_ H]; lra |].
      split; [intros H; rewrite H in Ea; lra |].
      intros _. split; [exact Hs | rewrite Hs; lra].
Qed.

(** C7 (amended): for a request whose priority is one of the tiers low,
    medium, high and critical, the latency-fit expert returns 0 when the
    agent's maximum latency exceeds the caller's ceiling; otherwise 1.0 when
    p99 is within the tier's target,
    [1 - 0.4 * (p99 - target) / (acceptable - target)] (between 0.6 and 1,
    reaching 0.6 at the acceptable bound) when p99 lies between target and
    acceptable, and 0.1 beyond the acceptable bound.  For any other priority
    the expert raises, whatever the ceiling, and the guarded call of the
    scoring engine takes the neutral 0.5 instead. *)
Theorem expert_latency_fit_spec (agent : Agent) (patternPriority : string)
    (maxLatency : option Q) :
  let agentP99 := p99 (latency_profile agent) in
  let agentMax := max (latency_profile agent) in
  let exceeds := exists ceiling, maxLatency = Some ceiling /\ ceiling < agentMax in
  ((exists tier, assoc patternPriority priorityLatencies = Some tier)
   <-> In patternPriority ["low"; "medium"; "high"; "critical"]%string)
  /\ (forall tier,
        assoc patternPriority priorityLatencies = Some tier ->
        exists score,
          EXPERT_LATENCY_FIT agent patternPriority maxLatency = Ok score
          /\ (exceeds -> score == 0)
          /\ (~ exceeds ->
              (agentP99 <= target tier -> score == 1)
              /\ (target tier < agentP99 <= acceptable tier ->
                  score
                  == 1 - 0.4 * ((agentP99 - target tier) / (acceptable tier - target tier))
                  /\ 0.6 <= score < 1)
              /\ (agentP99 == acceptable tier -> score == 0.6)
              /\ (acceptable tier < agentP99 -> score == 0.1 /\ score <= 0.1)))
  /\ (assoc patternPriority priorityLatencies = None ->
      EXPERT_LATENCY_FIT agent patternPriority maxLatency = Throw RuntimeError
      /\ ExcMonad.try_catch (EXPERT_LATENCY_FIT agent patternPriority maxLatency) 0.5 = 0.5).
Proof.
  intros agentP99 agentMax exceeds. split; [| split].
  - split.
    + intros [tier Htier]. apply priority_table in Htier.
      destruct Htier as [[-> _] | [[-> _] | [[-> _] | [-> _]]]]; simpl; auto.
    + intros [<- | [<- | [<- | [<- | []]]]]; eexists; reflexivity.
  - intros tier Htier.
    destruct (tier_ordered _ _ Htier) as [Hpos Hord].
    unfold EXPERT_LATENCY_FIT. rewrite Htier.
    fold agentP99 agentMax.
    destruct maxLatency as [ceiling |].
    + destruct (Qltb ceiling agentMax) eqn:Ec.
      * eexists. split; [reflexivity |]. split; [reflexivity |].
        intros Hn. exfalso. apply Hn. exists ceiling. split; [reflexivity |].
        now apply Qltb_lt.
      * apply Qltb_ge in Ec.
        eexists. split; [reflexivity |]. split.
        -- intros (c & [= <-] & Hc). lra.
        -- intros _. apply (latency_band (target tier) (acceptable tier) agentP99 Hpos Hord).
    + eexists. split; [reflexivity |]. split.
      * intros (c & Hc & _). discriminate.
      * intros _. apply (latency_band (target tier) (acceptable tier) agentP99 Hpos Hord).
  - intros Hnone. rewrite (expert_latency_fit_unknown_priority agent _ maxLatency Hnone).
    split; reflexivity.
Qed.

Lemma expert_latency_fit_spec_witness :
  exists score,
    EXPERT_LATENCY_FIT (sample_agent "agent1" [] 0.9 300 400 1 10) "medium" (Some 1000)
    = Ok score
    /\ score == 1 - 0.4 * ((300 - 200) / (500 - 200)).
Proof.
  destruct (expert_latency_fit_spec (sample_agent "agent1" [] 0.9 300 400 1 10)
              "medium" (Some 1000)) as (_ & Hknown & _).
  destruct (Hknown {| acceptable := 500; target := 200 |} eq_refl)
    as (score & Hrun & _ & Hfit).
  exists score. split; [exact Hrun |].
  destruct Hfit as (_ & Hband & _).
  - intros (c & [= <-] & Hc). simpl in Hc. vm_compute in Hc. discriminate.
  - apply Hband. simpl. split; [reflexivity | unfold Qle; simpl; lia].
Defined.

End LatencyFacts.

(** ** Confidence calibration *)

Section CalibrationFacts.

Local Open Scope Q_scope.









End CalibrationFacts.

(** ** Ranking *)

Section SortFacts.

Local Open Scope Q_scope.

Lemma insert_pair_perm p l : Permutation (p :: l) (insert_pair true p l).
Proof.
  induction l as [| q l IH]; simpl; [reflexivity |].
  destruct (Qle_bool (snd q) (snd p)); [reflexivity |].
  rewrite perm_swap. now apply perm_skip.
Qed.

Lemma SORT_BY_perm l : Permutation l (SORT_BY true l).
Proof.
  induction l as [| p l IH]; simpl; [reflexivity |].
  rewrite <- insert_pair_perm. now apply perm_skip.
Qed.

Lemma insert_pair_sorted p l :
  StronglySorted score_ge l -> StronglySorted score_ge (insert_pair true p l).
Proof.
  induction l as [| q l IH]; intros Hs; simpl.
  - constructor; constructor.
  - inversion Hs as [| ? ? Hs' Hall]; subst.
    destruct (Qle_bool (snd q) (snd p)) eqn:E.
    + apply Qle_bool_iff in E. constructor; [exact Hs |].
      constructor; [exact E |].
      rewrite List.Forall_forall in Hall |- *. intros r Hr.
      specialize (Hall r Hr). unfold score_ge in *. lra.
    + apply Qle_bool_gt in E. constructor; [now apply IH |].
      rewrite List.Forall_forall in Hall |- *. intros r Hr.
      apply (Permutation_in _ (Permutation_sym (insert_pair_perm p l))) in Hr.
      destruct Hr as [<- | Hr]; [unfold score_ge; lra | now apply Hall].
Qed.

Lemma SORT_BY_sorted l : StronglySorted score_ge (SORT_BY true l).
Proof.
  induction l as [| p l IH]; simpl; [constructor | now apply insert_pair_sorted].
Qed.

Lemma make_pairs_spec scores agents : forall pairs,
  make_pairs agents scores = Ok pairs ->
  List.map fst pairs = agents
  /\ Forall (fun p => scores !! agent_id (fst p) = Some (snd p)) pairs.
Proof.
  induction agents as [| a rest IH]; intros pairs; simpl.
  - intros [= <-]. split; [reflexivity | constructor].
  - unfold score_of. destruct (scores !! agent_id a) as [s |] eqn:Es; simpl; [| discriminate].
    destruct (make_pairs rest scores) as [more |]; simpl; [| discriminate].
    intros [= <-]. destruct (IH more eq_refl) as [Hm Hf].
    simpl. split; [now rewrite Hm | constructor; [exact Es | exact Hf]].
Qed.

Lemma make_pairs_total scores agents :
  (forall a, In a agents -> is_Some (scores !! agent_id a)) ->
  exists pairs, make_pairs agents scores = Ok pairs.
Proof.
  induction agents as [| a rest IH]; intros Hall; simpl.
  - eexists; reflexivity.
  - destruct (Hall a (or_introl eq_refl)) as [s Hs].
    unfold score_of. rewrite Hs. simpl.
    destruct IH as [more Hmore]; [intros b Hb; apply Hall; now right |].
    rewrite Hmore. simpl. eexists; reflexivity.
Qed.

Lemma sorted_map_fst scores pairs :
  Forall (fun p => scores !! agent_id (fst p) = Some (snd p)) pairs ->
  StronglySorted score_ge pairs ->
  StronglySorted (ranks_before scores) (List.map fst pairs).
Proof.
  intros Hf Hs. induction Hs as [| p l Hs IH Hall]; simpl; [constructor |].
  inversion Hf as [| ? ? Hp Hl]; subst.
  constructor; [now apply IH |].
  rewrite List.Forall_forall in *. intros b Hb.
  apply in_map_iff in Hb as (q & <- & Hq).
  exists (snd p), (snd q). split; [exact Hp |]. split; [now apply Hl | now apply Hall].
Qed.

Lemma tie_free_tail scores a l : tie_free scores (a :: l) -> tie_free scores l.
Proof.
  intros [Hnodup Hties]. split; [now inversion Hnodup |].
  intros b c sb sc Hb Hc. apply Hties; now right.
Qed.

(** Without ties there is one descending order only. *)
Lemma descending_order_unique scores : forall l1 l2,
  tie_free scores l1 -> Permutation l1 l2 ->
  StronglySorted (ranks_before scores) l1 -> StronglySorted (ranks_before scores) l2 ->
  l1 = l2.
Proof.
  induction l1 as [| a l1 IH]; intros l2 Hfree Hperm Hs1 Hs2.
  - apply Permutation_nil in Hperm. now subst.
  - destruct l2 as [| b l2]; [apply Permutation_sym, Permutation_nil in Hperm; discriminate |].
    assert (Hab : a = b).
    { assert (Ha : In a (b :: l2)) by (apply (Permutation_in _ Hperm); now left).
      assert (Hb : In b (a :: l1))
        by (apply (Permutation_in _ (Permutation_sym Hperm)); now left).
      destruct Ha as [E | Ha]; [now symmetry |].
      destruct Hb as [E | Hb]; [exact E | exfalso].
      assert (Hne : a <> b).
      { intros ->. destruct Hfree as [Hnodup _]. now inversion Hnodup. }
      inversion Hs1 as [| ? ? _ Hall1]; subst. inversion Hs2 as [| ? ? _ Hall2]; subst.
      rewrite List.Forall_forall in Hall1, Hall2.
      destruct (Hall1 b Hb) as (sa & sb & Hsa & Hsb & Hle1).
      destruct (Hall2 a Ha) as (sb' & sa' & Hsb' & Hsa' & Hle2).
      rewrite Hsa in Hsa'. injection Hsa' as <-. rewrite Hsb in Hsb'. injection Hsb' as <-.
      destruct Hfree as [_ Hties].
      apply (Hties a b sa sb); [now left | now right | exact Hne | exact Hsa | exact Hsb |].
      lra. }
    subst b. f_equal. apply IH.
    + now apply tie_free_tail with a.
    + now apply Permutation_cons_inv with a.
    + now inversion Hs1.
    + now inversion Hs2.
Qed.

End SortFacts.

(** C6 (amended): when every eligible agent has a score, SORT_BY_SCORE
    returns a permutation of the agents in descending score order, whatever
    their identifiers.  When no two of the agents have equal scores this is
    the only such order, so that the ranking is determined by the scores;
    among agents with equal scores the comparison decides nothing. *)
Theorem sort_by_score_spec (agents : list Agent) (scores : gmap string Q) :
  (forall a, In a agents -> is_Some (scores !! agent_id a)) ->
  exists ranked,
    SORT_BY_SCORE agents scores true = Ok ranked
    /\ Permutation agents ranked
    /\ StronglySorted (ranks_before scores) ranked
    /\ (tie_free scores agents ->
        forall other,
          Permutation agents other -> StronglySorted (ranks_before scores) other ->
          other = ranked).
Proof.
  intros Hall.
  destruct (make_pairs_total scores agents Hall) as [pairs Hpairs].
  destruct (make_pairs_spec scores agents pairs Hpairs) as [Hfst Hlook].
  unfold SORT_BY_SCORE. rewrite Hpairs. simpl.
  eexists. split; [reflexivity |].
  assert (Hlook' : Forall (fun p => scores !! agent_id (fst p) = Some (snd p))
                          (SORT_BY true pairs)).
  { rewrite List.Forall_forall in *. intros p Hp. apply Hlook.
    eapply Permutation_in; [symmetry; apply SORT_BY_perm | exact Hp]. }
  assert (Hperm : Permutation agents (List.map fst (SORT_BY true pairs))).
  { rewrite <- Hfst. apply Permutation_map. apply SORT_BY_perm. }
  assert (Hsorted : StronglySorted (ranks_before scores) (List.map fst (SORT_BY true pairs))).
  { apply sorted_map_fst; [exact Hlook' | apply SORT_BY_sorted]. }
  split; [exact Hperm |]. split; [exact Hsorted |].
  intros Hfree other Hother Hsorted'. symmetry.
  apply (descending_order_unique scores); [| | exact Hsorted | exact Hsorted'].
  - destruct Hfree as [Hnodup Hties]. split.
    + now apply (Permutation_NoDup Hperm).
    + intros a b sa sb Ha Hb. apply Hties;
        eapply Permutation_in; try (symmetry; exact Hperm); assumption.
  - now rewrite <- Hperm.
Qed.

Lemma sort_by_score_spec_witness :
  exists ranked,
    SORT_BY_SCORE [agent_b; agent_a] tie_scores true = Ok ranked
    /\ Permutation [agent_b; agent_a] ranked.
Proof.
  destruct (sort_by_score_spec [agent_b; agent_a] tie_scores) as (ranked & Hrun & Hperm & _).
  - intros a [<- | [<- | []]]; eexists; reflexivity.
  - exists ranked. split; [exact Hrun | exact Hperm].
Defined.

(** C6 as stated fails: two agents with equal scores are ranked in the
    order they were supplied, whichever their identifiers, so the same
    scores and identifiers give two different rankings; and both rankings are
    in descending score order, so that sorting by score cannot tell them
    apart. *)
Lemma tie_not_broken_by_identifier :
  SORT_BY_SCORE [agent_b; agent_a] tie_scores true = Ok [agent_b; agent_a]
  /\ SORT_BY_SCORE [agent_a; agent_b] tie_scores true = Ok [agent_a; agent_b]
  /\ Permutation [agent_b; agent_a] [agent_a; agent_b]
  /\ [agent_b; agent_a] <> [agent_a; agent_b]
  /\ StronglySorted (ranks_before tie_scores) [agent_b; agent_a]
  /\ StronglySorted (ranks_before tie_scores) [agent_a; agent_b].
Proof.
  split; [reflexivity |]. split; [reflexivity |].
  split; [apply perm_swap |]. split; [discriminate |].
  split; repeat constructor; exists 0.5%Q, 0.5%Q; repeat split; discriminate.
Qed.

(** ** Byzantine consensus *)

Section ConsensusFacts.

Variable sv : Services.

Lemma collect_votes_spec (start : Z) (tasks : list (Exc bool)) :
  forall validatorId results w,
    fst (collect_votes sv start tasks validatorId results w)
    = Ok (if any_late (SYSTEM_CLOCK_MILLISECONDS sv) start (tick w) (length tasks)
          then None
          else Some (results ++ all_votes sv validatorId tasks)).
Proof.
  induction tasks as [| task rest IH]; intros validatorId results w.
  - simpl. now rewrite app_nil_r.
  - cbn [collect_votes length any_late all_votes].
    unfold StateMonad.bind at 1. cbn [fst snd].
    unfold StateMonad.bind at 1. unfold SET_VALIDATOR_RESULTS, CURRENT_TIME_MS at 1.
    cbn [tick record_votes].
    destruct (50 <? SYSTEM_CLOCK_MILLISECONDS sv (tick w) - start)%Z eqn:Elate.
    + reflexivity.
    + cbn [orb]. rewrite IH. cbn [tick advance_clock record_votes].
      now rewrite <- app_assoc.
Qed.

End ConsensusFacts.

(** C1 (amended): for every run of the five validators, with [agreements]
    the number of true votes and [abstentions] the number of validators
    that raised or timed out, VALIDATE_BYZANTINE returns
    - APPROVE iff the 50 ms group deadline did not elapse at any of the
      five checks and [agreements >= 3];
    - ESCALATE iff the deadline did not elapse, [agreements < 3] and
      [abstentions < 2];
    - TIMEOUT iff the deadline elapsed, or [agreements < 3] with
      [abstentions >= 2]. *)
Theorem validate_byzantine_outcome (sv : Services) (primaryAgent : Agent)
    (alternatives : list Agent) (pattern : Request) (context : Context) (w : World) :
  let votes := all_votes sv 0 (validatorTasks sv primaryAgent alternatives pattern context) in
  let agreements := COUNT_TRUE votes in
  let abstentions := COUNT_NULL votes in
  let late := deadline_elapsed sv w = true in
  exists result,
    fst (VALIDATE_BYZANTINE sv primaryAgent alternatives 5 3 pattern context w) = Ok result
    /\ length votes = 5%nat
    /\ (result = APPROVE <-> ~ late /\ (3 <= agreements)%nat)
    /\ (result = ESCALATE <-> ~ late /\ (agreements < 3)%nat /\ (abstentions < 2)%nat)
    /\ (result = TIMEOUT <-> late \/ ((agreements < 3)%nat /\ (2 <= abstentions)%nat)).
Proof.
  intros votes agreements abstentions late.
  unfold VALIDATE_BYZANTINE.
  unfold StateMonad.bind at 1. unfold CURRENT_TIME_MS at 1. cbn iota.
  unfold StateMonad.bind at 1. unfold SET_VALIDATOR_RESULTS at 1. cbn iota.
  unfold StateMonad.bind at 1.
  pose proof (collect_votes_spec sv (SYSTEM_CLOCK_MILLISECONDS sv (tick w))
                (validatorTasks sv primaryAgent alternatives pattern context)
                0 [] (record_votes [] (advance_clock w))) as Hloop.
  destruct (collect_votes sv (SYSTEM_CLOCK_MILLISECONDS sv (tick w))
              (validatorTasks sv primaryAgent alternatives pattern context)
              0 [] (record_votes [] (advance_clock w))) as [collected w'].
  cbn [fst] in Hloop. subst collected.
  cbn [tick record_votes advance_clock length validatorTasks] in *.
  change (any_late (SYSTEM_CLOCK_MILLISECONDS sv) (SYSTEM_CLOCK_MILLISECONDS sv (tick w))
            (S (tick w)) 5) with (deadline_elapsed sv w).
  unfold late. destruct (deadline_elapsed sv w).
  - exists TIMEOUT. split; [reflexivity |]. split; [reflexivity |].
    split; [| split].
    + split; [discriminate | intros [H _]; now contradiction H].
    + split; [discriminate | intros [H _]; now contradiction H].
    + split; [now left | reflexivity].
  - cbn [app]. fold votes. fold agreements. fold abstentions.
    destruct (3 <=? Z.of_nat agreements)%Z eqn:E3.
    + apply Z.leb_le in E3.
      exists APPROVE. split; [reflexivity |]. split; [reflexivity |].
      split; [| split].
      * split; [intros _; split; [discriminate | lia] | reflexivity].
      * split; [discriminate | intros (_ & H & _); lia].
      * split; [discriminate | intros [H | [H _]]; [discriminate | lia]].
    + apply Z.leb_gt in E3.
      assert (Hlt : (Z.of_nat agreements <? 3)%Z = true) by (apply Z.ltb_lt; lia).
      rewrite Hlt. cbn [andb].
      destruct (Z.of_nat abstentions <? 5 - 3)%Z eqn:E2.
      * apply Z.ltb_lt in E2.
        exists ESCALATE. split; [reflexivity |]. split; [reflexivity |].
        split; [| split].
        -- split; [discriminate | intros [_ H]; lia].
        -- split; [intros _; repeat split; [discriminate | lia | lia] | reflexivity].
        -- split; [discriminate | intros [H | [_ H]]; [discriminate | lia]].
      * apply Z.ltb_ge in E2.
        exists TIMEOUT. split; [reflexivity |]. split; [reflexivity |].
        split; [| split].
        -- split; [discriminate | intros [_ H]; lia].
        -- split; [discriminate | intros (_ & _ & H); lia].
        -- split; [intros _; right; lia | reflexivity].
Qed.

(** C1 as stated fails.  With no true vote, two abstentions (validators
    that raised) and three false votes, and a clock that never moves, the
    result is TIMEOUT although the deadline did not elapse and
    [agreements + abstentions < 3].  With two true votes and one
    abstention the result is ESCALATE although the abstention could still
    raise agreement to 3. *)
Lemma consensus_abstentions_counterexample :
  (all_votes (consensus_services weak_agent) 0
     (validatorTasks (consensus_services weak_agent) weak_agent [] auth_request sample_context)
   = [None; Some false; Some false; Some false; None]
   /\ deadline_elapsed (consensus_services weak_agent) initial_world = false
   /\ fst (VALIDATE_BYZANTINE (consensus_services weak_agent) weak_agent [] 5 3
             auth_request sample_context initial_world) = Ok TIMEOUT)
  /\
  (all_votes (consensus_services busy_agent) 0
     (validatorTasks (consensus_services busy_agent) busy_agent []
        (sample_request "p1" ∅) sample_context)
   = [None; Some true; Some true; Some false; Some false]
   /\ deadline_elapsed (consensus_services busy_agent) initial_world = false
   /\ fst (VALIDATE_BYZANTINE (consensus_services busy_agent) busy_agent [] 5 3
             (sample_request "p1" ∅) sample_context initial_world) = Ok ESCALATE).
Proof.
  split; (split; [vm_compute; reflexivity |]); (split; [reflexivity |]);
    vm_compute; reflexivity.
Qed.

(** ** Fallback manager *)

Section FallbackFacts.

Variable sv : Services.

Lemma build_fallback_run agent strategy confidence reason w :
  BUILD_FALLBACK_DECISION sv agent strategy confidence reason w
  = match GET_SUCCESS_RATE sv (agent_id agent) "unknown" with
    | Ok score =>
        (Ok {| decision_id := UUID_V4 sv (uuids_issued w);
               timestamp := Some (SYSTEM_CLOCK_MILLISECONDS sv (tick w));
               primary_agent_id := agent_id agent;
               primary_agent_name := Some (name agent);
               primary_score := score;
               alternatives := [];
               confidence_score := confidence;
               consensus := None;
               reasoning := reason;
               fallback_applied := Some strategy |},
         advance_clock (issue_uuid w))
    | Throw e => (Throw e, issue_uuid w)
    end.
Proof.
  unfold BUILD_FALLBACK_DECISION, StateMonad.bind, GENERATE_UUID, StateMonad.lift,
    CURRENT_ISO8601_TIMESTAMP, CURRENT_TIME_MS, StateMonad.ret.
  destruct (GET_SUCCESS_RATE sv (agent_id agent) "unknown"); reflexivity.
Qed.

Lemma first_available_pure alternatives : forall w,
  snd (first_available sv alternatives w) = w
  /\ forall w', fst (first_available sv alternatives w') = fst (first_available sv alternatives w).
Proof.
  induction alternatives as [| a rest IH]; intros w; simpl.
  - split; reflexivity.
  - unfold StateMonad.bind, StateMonad.lift.
    destruct (IS_AVAILABLE sv a) as [[|] | e]; simpl.
    + split; reflexivity.
    + destruct (IH w) as [Hs Hf]. split; [exact Hs | exact Hf].
    + split; reflexivity.
Qed.

Ltac run_monad :=
  unfold StateMonad.try_catch, StateMonad.bind, StateMonad.lift, StateMonad.ret,
    StateMonad.throw; cbn beta iota.

Ltac decide_strategy :=
  repeat match goal with
  | |- context [bool_decide (?a = ?b)] =>
      let v := eval vm_compute in (bool_decide (a = b)) in
      change (bool_decide (a = b)) with v
  end; cbn iota.

Ltac split_oracles :=
  repeat match goal with
  | |- context [BUILD_FALLBACK_DECISION sv ?a ?s ?c ?r ?w] =>
      rewrite (build_fallback_run a s c r w)
  | |- context [first_available sv ?l ?w] =>
      destruct (first_available sv l w) as [[[?|]|?] ?] eqn:?
  | |- context [match ?o with Ok _ => _ | Throw _ => _ end] => destruct o eqn:?
  | |- context [match ?o with Some _ => _ | None => _ end] => destruct o eqn:?
  | |- context [if ?b then _ else _] => destruct b eqn:?
  end; cbn beta iota.

(** Each of the five agent-selecting strategies either falls through or
    yields a decision carrying its own tag and confidence. *)
Lemma attempt_shape pattern reason k strategy confidence w :
  List.map fst fallbackChain !! k = Some strategy ->
  fallbackConfidence !! k = Some confidence ->
  fst (attempt_strategy sv strategy pattern reason w) = Ok None
  \/ exists d, fst (attempt_strategy sv strategy pattern reason w) = Ok (Some d)
               /\ fallback_decision_of sv strategy confidence d.
Proof.
  intros Hs Hc.
  destruct k as [| [| [| [| [| k]]]]]; simpl in Hs, Hc; try discriminate;
    injection Hs as <-; injection Hc as <-;
    unfold attempt_strategy; decide_strategy; run_monad; split_oracles;
    cbn [fst]; auto;
    right; eexists; (split; [reflexivity |]);
    unfold fallback_decision_of; cbn; auto.
Qed.

Lemma attempt_error pattern reason w :
  yields (fst (attempt_strategy sv "error" pattern reason w)) = false.
Proof. reflexivity. Qed.

(** Whether a strategy yields depends on the collaborators only, not on
    the clock, the identifiers issued or the cache. *)
Lemma attempt_world_independent pattern reason strategy w w' :
  yields (fst (attempt_strategy sv strategy pattern reason w))
  = yields (fst (attempt_strategy sv strategy pattern reason w')).
Proof.
  unfold attempt_strategy.
  repeat case_bool_decide; run_monad; try reflexivity.
  - destruct (GET_CACHED_ALTERNATIVES sv pattern) as [[alts |] | e]; try reflexivity.
    destruct (0 <? length alts)%nat; try reflexivity.
    destruct (first_available_pure alts w) as [_ Hf]. specialize (Hf w').
    destruct (first_available sv alts w) as [r1 w1].
    destruct (first_available sv alts w') as [r2 w2].
    cbn [fst] in Hf. subst r2.
    destruct r1 as [[a |] | e]; try reflexivity.
    rewrite !build_fallback_run.
    destruct (GET_SUCCESS_RATE sv (agent_id a) "unknown"); reflexivity.
  - split_oracles; reflexivity.
  - split_oracles; reflexivity.
  - split_oracles; reflexivity.
  - split_oracles; reflexivity.
Qed.

(** The chain returns the decision of the first strategy that yields. *)
Lemma run_chain_spec pattern reason chain : forall w d w',
  run_chain sv chain pattern reason w = (Ok d, w') ->
  exists k strategy w0,
    List.map fst chain !! k = Some strategy
    /\ fst (attempt_strategy sv strategy pattern reason w0) = Ok (Some d)
    /\ forall j earlier w1,
         (j < k)%nat -> List.map fst chain !! j = Some earlier ->
         yields (fst (attempt_strategy sv earlier pattern reason w1)) = false.
Proof.
  induction chain as [| item rest IH]; intros w d w' Hrun.
  - discriminate.
  - cbn [run_chain] in Hrun. unfold StateMonad.bind in Hrun.
    destruct (attempt_strategy sv (fst item) pattern reason w) as [[[d0 |] | e] w1] eqn:Hfirst.
    + injection Hrun as <- <-.
      exists 0%nat, (fst item), w. split; [reflexivity |].
      split; [now rewrite Hfirst | intros j earlier w2 Hj; lia].
    + destruct (IH w1 d w' Hrun) as (k & strategy & w0 & Hk & Hyield & Hskip).
      exists (S k), strategy, w0. split; [exact Hk |]. split; [exact Hyield |].
      intros j earlier w2 Hj Hearlier. destruct j as [| j].
      * cbn in Hearlier. assert (He : earlier = fst item) by congruence. subst earlier.
        rewrite (attempt_world_independent pattern reason (fst item) w2 w).
        now rewrite Hfirst.
      * apply (Hskip j earlier w2); [lia | exact Hearlier].
    + discriminate.
Qed.

Lemma fallback_result_shape pattern context reason latencySoFar w d w' :
  APPLY_FALLBACK_STRATEGY sv pattern context reason latencySoFar w = (Ok d, w') ->
  exists k strategy confidence,
    (k < 5)%nat
    /\ List.map fst fallbackChain !! k = Some strategy
    /\ fallbackConfidence !! k = Some confidence
    /\ fallback_decision_of sv strategy confidence d
    /\ forall j earlier w1,
         (j < k)%nat -> List.map fst fallbackChain !! j = Some earlier ->
         yields (fst (attempt_strategy sv earlier pattern reason w1)) = false.
Proof.
  intros Hrun. unfold APPLY_FALLBACK_STRATEGY in Hrun.
  destruct (run_chain_spec pattern reason fallbackChain w d w' Hrun)
    as (k & strategy & w0 & Hk & Hyield & Hskip).
  assert (Hk5 : (k < 5)%nat).
  { destruct k as [| [| [| [| [| [| k]]]]]]; try lia.
    - vm_compute in Hk. assert (Hs : strategy = "error"%string) by congruence.
      subst strategy.
      pose proof (attempt_error pattern reason w0) as He.
      rewrite Hyield in He. discriminate.
    - vm_compute in Hk. discriminate. }
  assert (Hc : exists confidence, fallbackConfidence !! k = Some confidence).
  { destruct k as [| [| [| [| [| k]]]]]; try lia; eexists; reflexivity. }
  destruct Hc as [confidence Hc].
  exists k, strategy, confidence.
  split; [exact Hk5 |]. split; [exact Hk |]. split; [exact Hc |]. split; [| exact Hskip].
  destruct (attempt_shape pattern reason k strategy confidence w0 Hk Hc) as [Hn | (d' & Hd' & Hok)].
  - rewrite Hyield in Hn. discriminate.
  - rewrite Hyield in Hd'. injection Hd' as <-. exact Hok.
Qed.

Lemma fallbackConfidence_decreasing i j ci cj :
  (i < j)%nat -> fallbackConfidence !! i = Some ci -> fallbackConfidence !! j = Some cj ->
  (cj < ci)%Q /\ (ci <= 0.7)%Q.
Proof.
  intros Hij Hi Hj.
  destruct i as [| [| [| [| [| i]]]]]; simpl in Hi; try discriminate; injection Hi as <-;
    destruct j as [| [| [| [| [| j]]]]]; simpl in Hj; try discriminate; try lia;
    injection Hj as <-; split; try reflexivity; unfold Qle; simpl; lia.
Qed.

End FallbackFacts.

Section FallbackTheorems.

Variable sv : Services.

Lemma run_chain_step pattern reason item rest k confidence w :
  List.map fst fallbackChain !! k = Some (fst item) ->
  fallbackConfidence !! k = Some confidence ->
  (exists d w', run_chain sv (item :: rest) pattern reason w = (Ok d, w'))
  \/ (exists w', run_chain sv (item :: rest) pattern reason w
                 = run_chain sv rest pattern reason w').
Proof.
  intros Hk Hc. cbn [run_chain]. unfold StateMonad.bind.
  destruct (attempt_shape sv pattern reason k (fst item) confidence w Hk Hc)
    as [Hn | (d & Hd & _)];
    destruct (attempt_strategy sv (fst item) pattern reason w) as [r w1];
    cbn [fst] in *; subst r.
  - right. exists w1. reflexivity.
  - left. exists d, w1. reflexivity.
Qed.

(** If the strategy at position [j] can yield and the earlier ones do not
    raise, the chain returns the decision of a strategy at position [j] or
    before. *)
Lemma run_chain_reaches pattern reason chain : forall j strategy w0 w,
  List.map fst chain !! j = Some strategy ->
  (forall i earlier w1,
     (i < j)%nat -> List.map fst chain !! i = Some earlier ->
     exists r, fst (attempt_strategy sv earlier pattern reason w1) = Ok r) ->
  yields (fst (attempt_strategy sv strategy pattern reason w0)) = true ->
  exists d w' k chosen wk,
    (k <= j)%nat
    /\ run_chain sv chain pattern reason w = (Ok d, w')
    /\ List.map fst chain !! k = Some chosen
    /\ fst (attempt_strategy sv chosen pattern reason wk) = Ok (Some d).
Proof.
  induction chain as [| item rest IH]; intros j strategy w0 w Hj Hearlier Hyield.
  - discriminate.
  - cbn [run_chain]. unfold StateMonad.bind.
    destruct j as [| j].
    + cbn in Hj. assert (Hs : strategy = fst item) by congruence. subst strategy.
      rewrite (attempt_world_independent sv pattern reason (fst item) w0 w) in Hyield.
      destruct (attempt_strategy sv (fst item) pattern reason w) as [[[d |] | e] w1] eqn:E;
        try discriminate.
      exists d, w1, 0%nat, (fst item), w.
      split; [lia |]. split; [reflexivity |]. split; [reflexivity | now rewrite E].
    + destruct (Hearlier 0%nat (fst item) w ltac:(lia) eq_refl) as [r Hr].
      destruct (attempt_strategy sv (fst item) pattern reason w) as [[[d |] | e] w1] eqn:E;
        cbn [fst] in Hr; try discriminate.
      * exists d, w1, 0%nat, (fst item), w.
        split; [lia |]. split; [reflexivity |]. split; [reflexivity | now rewrite E].
      * destruct (IH j strategy w0 w1 Hj) as (d & w' & k & chosen & wk & Hk & Hrun & Hc & Hd).
        -- intros i earlier w2 Hi He. apply (Hearlier (S i) earlier w2); [lia | exact He].
        -- exact Hyield.
        -- exists d, w', (S k), chosen, wk.
           split; [lia |]. split; [exact Hrun |]. split; [exact Hc | exact Hd].
Qed.

Lemma fallback_reaches pattern context reason latencySoFar j strategy w0 w :
  (j < 5)%nat ->
  List.map fst fallbackChain !! j = Some strategy ->
  yields (fst (attempt_strategy sv strategy pattern reason w0)) = true ->
  exists d w' k chosen,
    (k <= j)%nat
    /\ APPLY_FALLBACK_STRATEGY sv pattern context reason latencySoFar w = (Ok d, w')
    /\ List.map fst fallbackChain !! k = Some chosen
    /\ fallback_applied d = Some chosen.
Proof.
  intros Hj5 Hj Hyield.
  destruct (run_chain_reaches pattern reason fallbackChain j strategy w0 w Hj)
    as (d & w' & k & chosen & wk & Hk & Hrun & Hc & Hd).
  - intros i earlier w1 Hi He.
    assert (Hconf : exists confidence, fallbackConfidence !! i = Some confidence).
    { destruct i as [| [| [| [| [| i]]]]]; try lia; eexists; reflexivity. }
    destruct Hconf as [confidence Hconf].
    destruct (attempt_shape sv pattern reason i earlier confidence w1 He Hconf)
      as [Hn | (d & Hd & _)]; eexists; eassumption.
  - exact Hyield.
  - exists d, w', k, chosen. split; [exact Hk |]. split; [exact Hrun |]. split; [exact Hc |].
    assert (Hconf : exists confidence, fallbackConfidence !! k = Some confidence).
    { destruct k as [| [| [| [| [| k]]]]]; try lia; eexists; reflexivity. }
    destruct Hconf as [confidence Hconf].
    destruct (attempt_shape sv pattern reason k chosen confidence wk Hc Hconf)
      as [Hn | (d' & Hd' & Htag & _)].
    + rewrite Hd in Hn. discriminate.
    + rewrite Hd in Hd'. injection Hd' as <-. exact Htag.
Qed.

Ltac chain_step k c :=
  match goal with
  | |- context [run_chain _ (?item :: ?rest) ?pattern ?reason ?w] =>
      let H := fresh "H" in
      let w' := fresh "w" in
      destruct (run_chain_step pattern reason item rest k c w eq_refl eq_refl)
        as [H | [w' ->]]; [now left |]
  end.

(** The manager always ends: with a decision, or with the terminal
    "no agents available" error of the sixth strategy. *)
Lemma fallback_total pattern context reason latencySoFar w :
  (exists d w',
     APPLY_FALLBACK_STRATEGY sv pattern context reason latencySoFar w = (Ok d, w'))
  \/ (exists w',
        APPLY_FALLBACK_STRATEGY sv pattern context reason latencySoFar w
        = (Throw (NoAgentsAvailableError
                    ("Cannot route pattern after exhausting fallback strategies. Reason: "
                       ++ reason)), w')).
Proof.
  unfold APPLY_FALLBACK_STRATEGY, fallbackChain.
  chain_step 0%nat 0.7%Q.
  chain_step 1%nat 0.6%Q.
  chain_step 2%nat 0.55%Q.
  chain_step 3%nat 0.4%Q.
  chain_step 4%nat 0.3%Q.
  right. eexists. reflexivity.
Qed.

(** C3: the fallback chain is alternatives, skill match, success history,
    round robin, default agent, error, in that order.  A run of the manager
    ends with a decision or with the terminal error.  A returned decision
    carries the tag of some strategy [k] among the first five, with that
    strategy's confidence, and no earlier strategy could have yielded a
    decision in any state; conversely, when strategy [j] can yield a
    decision the manager returns one, tagged with strategy [j] or an
    earlier one.  The confidences 0.7, 0.6, 0.55, 0.4, 0.3 are strictly
    decreasing along the chain and none exceeds 0.7. *)
Theorem fallback_chain_order (pattern : Request) (context : Context)
    (failureReason : string) (latencySoFar : Z) (w : World) :
  List.map fst fallbackChain
  = [ "alternatives"; "skill_match"; "success_history"; "round_robin";
      "default_agent"; "error" ]%string
  /\ ((exists d w',
         APPLY_FALLBACK_STRATEGY sv pattern context failureReason latencySoFar w = (Ok d, w'))
      \/ (exists w',
            APPLY_FALLBACK_STRATEGY sv pattern context failureReason latencySoFar w
            = (Throw (NoAgentsAvailableError
                        ("Cannot route pattern after exhausting fallback strategies. Reason: "
                           ++ failureReason)), w')))
  /\ (forall d w',
        APPLY_FALLBACK_STRATEGY sv pattern context failureReason latencySoFar w = (Ok d, w') ->
        exists k strategy confidence,
          (k < 5)%nat
          /\ List.map fst fallbackChain !! k = Some strategy
          /\ fallbackConfidence !! k = Some confidence
          /\ fallback_applied d = Some strategy
          /\ confidence_score d = confidence
          /\ forall j earlier w1,
               (j < k)%nat -> List.map fst fallbackChain !! j = Some earlier ->
               yields (fst (attempt_strategy sv earlier pattern failureReason w1)) = false)
  /\ (forall j strategy w0,
        (j < 5)%nat ->
        List.map fst fallbackChain !! j = Some strategy ->
        yields (fst (attempt_strategy sv strategy pattern failureReason w0)) = true ->
        exists d w' k chosen,
          (k <= j)%nat
          /\ APPLY_FALLBACK_STRATEGY sv pattern context failureReason latencySoFar w = (Ok d, w')
          /\ List.map fst fallbackChain !! k = Some chosen
          /\ fallback_applied d = Some chosen)
  /\ (forall i j ci cj,
        (i < j)%nat -> fallbackConfidence !! i = Some ci -> fallbackConfidence !! j = Some cj ->
        (cj < ci)%Q /\ (ci <= 0.7)%Q).
Proof.
  split; [reflexivity |].
  split; [apply fallback_total |].
  split; [| split; [intros j strategy w0; apply fallback_reaches
                   | apply fallbackConfidence_decreasing]].
  intros d w' Hrun.
  destruct (fallback_result_shape sv pattern context failureReason latencySoFar w d w' Hrun)
    as (k & strategy & confidence & Hk5 & Hk & Hc & (Htag & Hconf & _) & Hskip).
  exists k, strategy, confidence. auto 10.
Qed.

(** C10: a decision built by the fallback manager has no alternatives, and
    its primary score is the agent's success rate for pattern type
    "unknown" as read from the store. *)
Theorem fallback_decision_score (pattern : Request) (context : Context)
    (failureReason : string) (latencySoFar : Z) (w w' : World) (d : RoutingDecision) :
  APPLY_FALLBACK_STRATEGY sv pattern context failureReason latencySoFar w = (Ok d, w') ->
  alternatives d = []
  /\ GET_SUCCESS_RATE sv (primary_agent_id d) "unknown" = Ok (primary_score d).
Proof.
  intros Hrun.
  destruct (fallback_result_shape sv pattern context failureReason latencySoFar w d w' Hrun)
    as (k & strategy & confidence & _ & _ & _ & (_ & _ & Halt & Hscore) & _).
  split; [exact Halt | exact Hscore].
Qed.

End FallbackTheorems.

Lemma fallback_chain_order_witness :
  exists d w',
    APPLY_FALLBACK_STRATEGY auth_services auth_request sample_context
      "No agents match constraints" 0 initial_world = (Ok d, w')
    /\ exists k strategy confidence,
         (k < 5)%nat
         /\ List.map fst fallbackChain !! k = Some strategy
         /\ fallbackConfidence !! k = Some confidence
         /\ fallback_applied d = Some strategy
         /\ confidence_score d = confidence.
Proof.
  eexists _, _. split; [vm_compute; reflexivity |].
  destruct (fallback_chain_order auth_services auth_request sample_context
              "No agents match constraints" 0 initial_world) as (_ & _ & H & _ & _).
  destruct (H _ _ ltac:(vm_compute; reflexivity))
    as (k & strategy & confidence & H1 & H2 & H3 & H4 & H5 & _).
  exists k, strategy, confidence. auto.
Defined.

Lemma fallback_decision_score_witness :
  exists d w',
    APPLY_FALLBACK_STRATEGY auth_services auth_request sample_context
      "No agents match constraints" 0 initial_world = (Ok d, w')
    /\ alternatives d = []
    /\ GET_SUCCESS_RATE auth_services (primary_agent_id d) "unknown" = Ok (primary_score d).
Proof.
  eexists _, _. split; [vm_compute; reflexivity |].
  apply (fallback_decision_score auth_services auth_request sample_context
           "No agents match constraints" 0 initial_world _ _
           ltac:(vm_compute; reflexivity)).
Defined.
(** ** A program logic for the pipeline monad *)

Section HoareRules.

Context {I : World -> Prop}.

Lemma hoare_ret {A} (a : A) (Q : A -> Prop) : Q a -> hoare I (StateMonad.ret a) Q.
Proof. intros HQ w Hw. simpl. auto. Qed.

Lemma hoare_throw {A} (e : Error) (Q : A -> Prop) : hoare I (StateMonad.throw e) Q.
Proof. intros w Hw. exact Hw. Qed.

Lemma hoare_lift {A} (c : Exc A) (Q : A -> Prop) :
  (forall a, c = Ok a -> Q a) -> hoare I (StateMonad.lift c) Q.
Proof. intros HQ w Hw. unfold StateMonad.lift. destruct c; auto. Qed.

Lemma hoare_bind {A B} (c : M A) (k : A -> M B) (P : A -> Prop) (Q : B -> Prop) :
  hoare I c P -> (forall a, P a -> hoare I (k a) Q) -> hoare I (StateMonad.bind c k) Q.
Proof.
  intros Hc Hk w Hw. unfold StateMonad.bind.
  specialize (Hc w Hw). destruct (c w) as [[a | e] w1].
  - destruct Hc as [HP Hw1]. exact (Hk a HP w1 Hw1).
  - exact Hc.
Qed.

Lemma hoare_try {A} (c : M A) (h : Error -> M A) (Q : A -> Prop) :
  hoare I c Q -> (forall e, hoare I (h e) Q) -> hoare I (StateMonad.try_catch c h) Q.
Proof.
  intros Hc Hh w Hw. unfold StateMonad.try_catch.
  specialize (Hc w Hw). destruct (c w) as [[a | e] w1].
  - exact Hc.
  - exact (Hh e w1 Hc).
Qed.

Lemma hoare_weaken {A} (c : M A) (P Q : A -> Prop) :
  hoare I c P -> (forall a, P a -> Q a) -> hoare I c Q.
Proof.
  intros Hc HPQ w Hw. specialize (Hc w Hw).
  destruct (c w) as [[a | e] w1]; [destruct Hc; auto | exact Hc].
Qed.

End HoareRules.

(** ** The cache invariant along the pipeline

    [Good] is any property of decisions that holds of every decision whose
    confidence is in range; the invariant is that the cache holds only
    [Good] decisions. *)

Section CacheInvariant.

Variable sv : Services.
Variable Good : RoutingDecision -> Prop.
Hypothesis Good_of_range : forall d, confidence_in_range d -> Good d.

Lemma hoare_clock : hoare (cache_all Good) (CURRENT_TIME_MS sv) (fun _ => True).
Proof. intros w Hw. simpl. split; [exact I | exact Hw]. Qed.

Lemma hoare_timestamp : hoare (cache_all Good) (CURRENT_TIMESTAMP sv) (fun _ => True).
Proof. intros w Hw. simpl. split; [exact I | exact Hw]. Qed.

Lemma hoare_iso : hoare (cache_all Good) (CURRENT_ISO8601_TIMESTAMP sv) (fun _ => True).
Proof. apply hoare_clock. Qed.

Lemma hoare_uuid : hoare (cache_all Good) (GENERATE_UUID sv) (fun _ => True).
Proof. intros w Hw. simpl. split; [exact I | exact Hw]. Qed.

Lemma hoare_set_votes results : hoare (cache_all Good) (SET_VALIDATOR_RESULTS results) (fun _ => True).
Proof. intros w Hw. simpl. split; [exact I | exact Hw]. Qed.

Lemma hoare_agreement : hoare (cache_all Good) GET_VALIDATOR_AGREEMENT_COUNT (fun _ => True).
Proof. intros w Hw. simpl. split; [exact I | exact Hw]. Qed.

Lemma hoare_cache_get key :
  hoare (cache_all Good) (CACHE_GET sv key)
        (fun r => forall d, r = Some d -> Good d).
Proof.
  intros w Hw. unfold CACHE_GET.
  destruct (decision_cache w !! key) as [[d expiry] |] eqn:E.
  - destruct (_ <? _)%Z; (split; [| exact Hw]).
    + intros d' [= <-]. exact (Hw key d expiry E).
    + discriminate.
  - split; [discriminate | exact Hw].
Qed.

Lemma hoare_cache_set key d ttl :
  Good d -> hoare (cache_all Good) (CACHE_SET sv key d ttl) (fun _ => True).
Proof.
  intros Hd w Hw. unfold CACHE_SET. destruct (CACHE_WRITE sv key); [| exact Hw].
  split; [exact I |]. intros k d' expiry. cbn [decision_cache store_decision].
  destruct (decide (key = k)) as [-> | Hne].
  - rewrite lookup_insert_eq. intros [= <- _]. exact Hd.
  - rewrite lookup_insert_ne by exact Hne. apply Hw.
Qed.

Create HintDb hoare_db.

Ltac hoare_triv :=
  repeat first
    [ solve [auto 1 with hoare_db nocore]
    | apply hoare_ret; exact Logic.I
    | apply hoare_throw
    | apply hoare_lift; intros; exact Logic.I
    | apply hoare_clock | apply hoare_timestamp | apply hoare_iso | apply hoare_uuid
    | apply hoare_set_votes | apply hoare_agreement
    | (eapply hoare_weaken; [apply hoare_cache_get | intros; exact Logic.I])
    | apply hoare_bind with (P := fun _ => True); [ | intros ? _ ]
    | apply hoare_try; [ | intros ? ]
    | match goal with |- hoare _ (match ?x with _ => _ end) _ => destruct x end ].

Lemma hoare_expert_scores agent pattern context candidates sims :
  hoare (cache_all Good) (EXPERT_SCORES sv agent pattern context candidates sims) (fun _ => True).
Proof.
  unfold EXPERT_SCORES, EXPERT_RECENCY, EXPERT_CONTEXT_RELEVANCE. hoare_triv.
Qed.

Lemma hoare_compute_expert_score agent pattern context candidates sims :
  hoare (cache_all Good) (COMPUTE_EXPERT_SCORE sv agent pattern context candidates sims)
        (fun s => (0 <= s <= 1)%Q).
Proof.
  unfold COMPUTE_EXPERT_SCORE.
  apply hoare_bind with (P := fun _ => True); [apply hoare_expert_scores | intros es _].
  apply hoare_bind with (P := fun _ => True); [hoare_triv | intros _ _].
  apply hoare_bind with (P := fun _ => True); [hoare_triv | intros s _].
  apply hoare_bind with (P := fun _ => True); [hoare_triv | intros _ _].
  apply hoare_ret. apply CLAMP_unit.
Qed.

Lemma hoare_with_run {A} (c : M A) (Q : A -> Prop) :
  hoare (cache_all Good) c (fun _ => True) ->
  (forall w a w', c w = (Ok a, w') -> Q a) ->
  hoare (cache_all Good) c Q.
Proof.
  intros Hc HQ w Hw. specialize (Hc w Hw).
  destruct (c w) as [[a | e] w1] eqn:E; [| exact Hc].
  destruct Hc as [_ Hw1]. split; [exact (HQ w a w1 E) | exact Hw1].
Qed.

Lemma hoare_score_agents pattern context candidates eligible : forall agentScores,
  scores_in_range agentScores ->
  hoare (cache_all Good) (score_agents sv eligible pattern context candidates agentScores)
        scores_in_range.
Proof.
  induction eligible as [| agent rest IH]; intros agentScores Hin; cbn [score_agents].
  - apply hoare_ret. exact Hin.
  - apply hoare_bind with (P := fun s => (0 <= s <= 1)%Q).
    + apply hoare_try; [apply hoare_compute_expert_score |].
      intros e. destruct e; try apply hoare_throw.
      apply hoare_ret. split; [unfold Qle; simpl; lia | unfold Qle; simpl; lia].
    + intros s Hs. apply IH. intros id s'.
      destruct (decide (agent_id agent = id)) as [-> | Hne].
      * rewrite lookup_insert_eq. intros [= <-]. exact Hs.
      * rewrite lookup_insert_ne by exact Hne. apply Hin.
Qed.

Lemma hoare_first_available alternatives :
  hoare (cache_all Good) (first_available sv alternatives) (fun _ => True).
Proof.
  induction alternatives as [| a rest IH]; cbn [first_available]; hoare_triv.
Qed.

Lemma hoare_build_fallback agent strategy confidence reason :
  hoare (cache_all Good) (BUILD_FALLBACK_DECISION sv agent strategy confidence reason) (fun _ => True).
Proof. unfold BUILD_FALLBACK_DECISION. hoare_triv. Qed.

Hint Resolve hoare_first_available hoare_build_fallback : hoare_db.

Lemma hoare_attempt strategy pattern reason :
  hoare (cache_all Good) (attempt_strategy sv strategy pattern reason) (fun _ => True).
Proof.
  unfold attempt_strategy.
  repeat case_bool_decide; hoare_triv.
Qed.

Hint Resolve hoare_attempt : hoare_db.

Lemma hoare_run_chain pattern reason chain :
  hoare (cache_all Good) (run_chain sv chain pattern reason) (fun _ => True).
Proof.
  induction chain as [| item rest IH]; cbn [run_chain]; hoare_triv.
Qed.

Lemma fallbackConfidence_in_range k confidence :
  fallbackConfidence !! k = Some confidence -> (0 <= confidence <= 1)%Q.
Proof.
  destruct k as [| [| [| [| [| k]]]]]; simpl; intros [= <-];
    split; unfold Qle; simpl; lia.
Qed.

Lemma hoare_apply_fallback pattern context reason latencySoFar :
  hoare (cache_all Good) (APPLY_FALLBACK_STRATEGY sv pattern context reason latencySoFar)
        confidence_in_range.
Proof.
  apply hoare_with_run; [apply hoare_run_chain |].
  intros w d w' Hrun.
  destruct (fallback_result_shape sv pattern context reason latencySoFar w d w' Hrun)
    as (k & strategy & confidence & _ & _ & Hc & (_ & Hconf & _) & _).
  unfold confidence_in_range. rewrite Hconf.
  exact (fallbackConfidence_in_range k confidence Hc).
Qed.

Lemma hoare_route_by_metadata pattern context previousLatency :
  hoare (cache_all Good) (ROUTE_BY_METADATA sv pattern context previousLatency) decision_in_range.
Proof.
  unfold ROUTE_BY_METADATA, BUILD_ERROR_DECISION.
  apply hoare_bind with (P := fun _ => True); [hoare_triv | intros candidates _].
  destruct (length candidates =? 0)%nat.
  - apply hoare_bind with (P := fun _ => True); [hoare_triv | intros ? _].
    apply hoare_ret. exact Logic.I.
  - do 5 (apply hoare_bind with (P := fun _ => True); [hoare_triv | intros ? _]).
    apply hoare_ret. simpl. split; unfold Qle; simpl; lia.
Qed.

Lemma hoare_collect_votes start tasks : forall validatorId results,
  hoare (cache_all Good) (collect_votes sv start tasks validatorId results) (fun _ => True).
Proof.
  induction tasks as [| task rest IH]; intros validatorId results; cbn [collect_votes].
  - hoare_triv.
  - apply hoare_bind with (P := fun _ => True); [hoare_triv | intros _ _].
    apply hoare_bind with (P := fun _ => True); [hoare_triv | intros now _].
    destruct (50 <? now - start)%Z; [hoare_triv | apply IH].
Qed.

Hint Resolve hoare_collect_votes : hoare_db.

Lemma hoare_validate_byzantine primary alternatives validators required pattern context :
  hoare (cache_all Good)
        (VALIDATE_BYZANTINE sv primary alternatives validators required pattern context)
        (fun _ => True).
Proof.
  unfold VALIDATE_BYZANTINE. hoare_triv.
Qed.

Hint Resolve hoare_validate_byzantine : hoare_db.

Lemma hoare_run_consensus primary alternatives pattern context :
  hoare (cache_all Good) (run_consensus sv primary alternatives pattern context) (fun _ => True).
Proof.
  unfold run_consensus. hoare_triv.
Qed.

Lemma hoare_obtain_embedding pattern :
  hoare (cache_all Good) (obtain_embedding sv pattern) (fun _ => True).
Proof. unfold obtain_embedding. hoare_triv. Qed.

Lemma hoare_search_candidates pattern embedding :
  hoare (cache_all Good) (search_candidates sv pattern embedding) (fun _ => True).
Proof. unfold search_candidates. hoare_triv. Qed.

Lemma calibrate_in_range p s agreed required pattern context scores c :
  CALIBRATE_CONFIDENCE sv p s agreed required pattern context scores = Ok c ->
  (0 <= c <= 1)%Q.
Proof.
  unfold CALIBRATE_CONFIDENCE.
  destruct (COMPUTE_ENTROPY sv _); simpl; [| discriminate].
  destruct (GET_AGENT_RECENT_ACCURACY sv _ _); simpl; [| discriminate].
  destruct (GET_PATTERN_EXECUTION_SUCCESS_RATE sv _ _); simpl; [| discriminate].
  intros [= <-]. apply CLAMP_unit.
Qed.

Hint Resolve hoare_run_consensus hoare_obtain_embedding hoare_search_candidates : hoare_db.

Lemma hoare_finish_primary startTime decisionId cacheKey pattern context primary primaryScore
    alternativeAgents agentScores consensusRequired consensusResult agreed latency :
  hoare (cache_all Good)
        (finish_primary sv startTime decisionId cacheKey pattern context primary primaryScore
           alternativeAgents agentScores consensusRequired consensusResult agreed latency)
        (fun r => decision_in_range (fst r)).
Proof.
  unfold finish_primary.
  apply hoare_bind with (P := fun _ => True); [hoare_triv | intros confidenceStart _].
  apply hoare_bind with (P := fun _ => True); [hoare_triv | intros secondaryScore _].
  apply hoare_bind with (P := fun c => (0 <= c <= 1)%Q).
  { apply hoare_try.
    - apply hoare_bind with (P := fun c => (0 <= c <= 1)%Q).
      + apply hoare_lift. intros c Hc. exact (calibrate_in_range _ _ _ _ _ _ _ _ Hc).
      + intros c Hc. apply hoare_bind with (P := fun _ => True); [hoare_triv | intros ? _].
        apply hoare_ret. exact Hc.
    - intros e. destruct e; try apply hoare_throw.
      apply hoare_bind with (P := fun _ => True); [hoare_triv | intros ? _].
      apply hoare_ret. split; unfold Qle; simpl; lia. }
  intros confidenceScore Hconf.
  do 5 (apply hoare_bind with (P := fun _ => True); [hoare_triv | intros ? _]).
  apply hoare_bind with (P := fun _ => True).
  { apply hoare_try.
    - apply hoare_bind with (P := fun _ => True); [hoare_triv | intros ? _].
      apply hoare_bind with (P := fun _ => True); [| intros ? _; hoare_triv].
      apply hoare_cache_set. apply Good_of_range. exact Hconf.
    - intros e. destruct e; hoare_triv. }
  intros _ _.
  apply hoare_bind with (P := fun _ => True); [hoare_triv | intros ? _].
  apply hoare_ret. exact Hconf.
Qed.

Lemma hoare_semantic_route pattern context routingConstraints :
  hoare (cache_all Good) (SemanticRoute sv pattern context routingConstraints)
        (fun r => match fst r with Routed d => Good d | ErrorDecision _ _ => True end).
Proof.
  assert (Hfinish : forall startTime decisionId cacheKey primary primaryScore
                      alternativeAgents agentScores consensusRequired consensusResult
                      agreed latency,
    hoare (cache_all Good)
      (finish_primary sv startTime decisionId cacheKey pattern context primary primaryScore
         alternativeAgents agentScores consensusRequired consensusResult agreed latency)
      (fun r => match fst r with Routed d => Good d | ErrorDecision _ _ => True end)).
  { intros. eapply hoare_weaken; [apply hoare_finish_primary |].
    intros [[d | code message] latency']; simpl; auto. }
  unfold SemanticRoute.
  apply hoare_bind with (P := fun _ => True); [hoare_triv | intros startTime _].
  apply hoare_bind with (P := fun _ => True); [hoare_triv | intros decisionId _].
  apply hoare_bind with (P := fun _ => True).
  { apply hoare_try; [hoare_triv | intros e; destruct e; hoare_triv]. }
  intros _ _.
  apply hoare_bind with (P := fun r => forall d, r = Some d -> Good d);
    [apply hoare_cache_get | intros cached Hcached].
  destruct cached as [d |].
  { apply hoare_bind with (P := fun _ => True); [hoare_triv | intros ? _].
    apply hoare_ret. exact (Hcached d eq_refl). }
  apply hoare_bind with (P := fun _ => True); [hoare_triv | intros embedded _].
  destruct embedded as [patternEmbedding |].
  2:{ apply hoare_bind with (P := fun _ => True); [hoare_triv | intros ? _].
      apply hoare_bind with (P := decision_in_range);
        [apply hoare_route_by_metadata | intros d Hd].
      apply hoare_ret. destruct d; simpl in *; auto. }
  apply hoare_bind with (P := fun _ => True); [hoare_triv | intros hnsStart _].
  apply hoare_bind with (P := fun _ => True); [hoare_triv | intros candidates _].
  destruct (length candidates =? 0)%nat; [apply hoare_throw |].
  apply hoare_bind with (P := fun _ => True); [hoare_triv | intros profileStart _].
  apply hoare_bind with (P := fun _ => True).
  { apply hoare_try; [hoare_triv | intros e; destruct e; hoare_triv]. }
  intros agentProfiles _.
  destruct (length agentProfiles =? 0)%nat; [apply hoare_throw |].
  apply hoare_bind with (P := fun _ => True); [hoare_triv | intros filterStart _].
  apply hoare_bind with (P := fun _ => True); [hoare_triv | intros filterEnd _].
  destruct (length _ =? 0)%nat.
  { apply hoare_bind with (P := fun _ => True); [hoare_triv | intros ? _].
    apply hoare_bind with (P := confidence_in_range);
      [apply hoare_apply_fallback | intros d Hd].
    apply hoare_ret. simpl. auto. }
  apply hoare_bind with (P := fun _ => True); [hoare_triv | intros scoringStart _].
  apply hoare_bind with (P := fun _ => True).
  { eapply hoare_weaken; [apply hoare_score_agents | intros; exact Logic.I].
    intros id s Hs. rewrite lookup_empty in Hs. discriminate. }
  intros agentScores _.
  apply hoare_bind with (P := fun _ => True); [hoare_triv | intros scoringEnd _].
  apply hoare_bind with (P := fun _ => True); [hoare_triv | intros rankedAgents _].
  destruct rankedAgents as [| primaryAgent others]; [apply hoare_throw |].
  apply hoare_bind with (P := fun _ => True); [hoare_triv | intros primaryScore _].
  destruct (require_consensus routingConstraints || IS_CRITICAL_PATTERN sv pattern)%bool.
  - apply hoare_bind with (P := fun _ => True); [hoare_triv | intros verdict _].
    destruct verdict as [[consensusResult agreed] latency].
    destruct (_ || _)%bool.
    + apply hoare_bind with (P := fun _ => True); [hoare_triv | intros ? _].
      apply hoare_bind with (P := confidence_in_range);
        [apply hoare_apply_fallback | intros d Hd].
      apply hoare_ret. simpl. auto.
    + apply Hfinish.
  - apply Hfinish.
Qed.

End CacheInvariant.

(** With the trivial property the invariant holds of every world, so a
    triple speaks about every run. *)
Lemma hoare_every_run {A} (c : M A) (Q : A -> Prop) :
  hoare (cache_all (fun _ => True)) c Q ->
  forall w a w', c w = (Ok a, w') -> Q a.
Proof.
  intros Hc w a w' Hrun.
  assert (Hw : cache_all (fun _ => True) w) by (intros key d expiry _; exact I).
  specialize (Hc w Hw). rewrite Hrun in Hc. apply Hc.
Qed.

Lemma hoare_from_cache_ok {A} (c : M A) (Q : A -> Prop) :
  hoare cache_ok c Q ->
  forall w a w', cache_ok w -> c w = (Ok a, w') -> Q a /\ cache_ok w'.
Proof. intros Hc w a w' Hw Hrun. specialize (Hc w Hw). now rewrite Hrun in Hc. Qed.

Section ScoreRange.

Variable sv : Services.

Local Open Scope Q_scope.

Lemma try_catch_default_returns {A} (c : M A) (a : A) w :
  exists v w', StateMonad.try_catch c (fun _ => StateMonad.ret a) w = (Ok v, w').
Proof.
  unfold StateMonad.try_catch, StateMonad.ret.
  destruct (c w) as [[v | e] w']; eexists _, _; reflexivity.
Qed.

(** The expert-score dictionary always comes out, holds the eight experts
    named by the weight table, and every score in it is in [0, 1]. *)
Lemma expert_scores_in_range agent pattern context candidates sims w :
  exists expertScores w',
    EXPERT_SCORES sv agent pattern context candidates sims w = (Ok expertScores, w')
    /\ forall expertName, In expertName (List.map fst weights) ->
         exists score, expertScores !! expertName = Some score /\ 0 <= score <= 1.
Proof.
  unfold EXPERT_SCORES. unfold StateMonad.bind at 1.
  destruct (try_catch_default_returns
              (EXPERT_RECENCY sv agent (EXTRACT_PATTERN_TYPE (metadata pattern)) 60) 0.5 w)
    as (recency & w1 & ->).
  unfold StateMonad.bind at 1.
  destruct (try_catch_default_returns (EXPERT_CONTEXT_RELEVANCE sv agent context pattern) 0.5 w1)
    as (relevance & w2 & ->).
  unfold StateMonad.ret. eexists _, _. split; [reflexivity |].
  intros expertName Hin. simpl in Hin.
  rewrite lookup_fmap.
  repeat (destruct Hin as [<- | Hin];
          [ repeat (rewrite lookup_insert_ne by discriminate);
            rewrite lookup_insert_eq; simpl;
            eexists; split; [reflexivity | apply CLAMP_unit] | ]).
  destruct Hin.
Qed.

End ScoreRange.

(** C9: whatever the agent, request, context and candidate set, the eight
    expert scores recorded by the scoring engine and the final weighted
    score lie in [0, 1], as does every entry of the pipeline's score table;
    the confidence of every decision built by the fallback manager or by
    metadata routing lies in [0, 1]; and, the cache holding only decisions
    with confidence in [0, 1], so does the confidence of every decision
    returned by SemanticRoute, which leaves the cache in that state. *)
Theorem scores_and_confidence_in_unit_interval (sv : Services) (agent : Agent)
    (pattern : Request) (context : Context) (candidates : list Candidate)
    (allCandidateSimilarities : list Q) (eligibleAgents : list Agent)
    (routingConstraints : RoutingConstraints) (failureReason : string)
    (latencySoFar : Z) (w : World) :
  (exists expertScores w',
     EXPERT_SCORES sv agent pattern context candidates allCandidateSimilarities w
     = (Ok expertScores, w')
     /\ forall expertName, In expertName (List.map fst weights) ->
          exists score, expertScores !! expertName = Some score /\ (0 <= score <= 1)%Q)
  /\ (forall score w',
        COMPUTE_EXPERT_SCORE sv agent pattern context candidates allCandidateSimilarities w
        = (Ok score, w') ->
        (0 <= score <= 1)%Q)
  /\ (forall agentScores w',
        score_agents sv eligibleAgents pattern context candidates ∅ w = (Ok agentScores, w') ->
        scores_in_range agentScores)
  /\ (forall d w',
        APPLY_FALLBACK_STRATEGY sv pattern context failureReason latencySoFar w = (Ok d, w') ->
        confidence_in_range d)
  /\ (forall r w',
        ROUTE_BY_METADATA sv pattern context latencySoFar w = (Ok r, w') ->
        decision_in_range r)
  /\ (cache_ok w ->
      forall r latency w',
        SemanticRoute sv pattern context routingConstraints w = (Ok (r, latency), w') ->
        decision_in_range r /\ cache_ok w').
Proof.
  assert (Htriv : forall d, confidence_in_range d -> (fun _ : RoutingDecision => True) d)
    by (intros; exact I).
  split; [apply expert_scores_in_range |].
  split.
  { intros score w'.
    apply (hoare_every_run _ _ (hoare_compute_expert_score sv _ _ _ _ _ _)). }
  split.
  { intros agentScores w'.
    apply (hoare_every_run _ _ (hoare_score_agents sv _ _ _ _ _ ∅
             ltac:(intros id s Hs; rewrite lookup_empty in Hs; discriminate))). }
  split.
  { intros d w'.
    apply (hoare_every_run _ _ (hoare_apply_fallback sv _ _ _ _ _)). }
  split.
  { intros r w'.
    apply (hoare_every_run _ _ (hoare_route_by_metadata sv _ _ _ _)). }
  intros Hw r latency w' Hrun.
  destruct (hoare_from_cache_ok _ _
              (hoare_semantic_route sv confidence_in_range (fun d H => H)
                 pattern context routingConstraints) w (r, latency) w' Hw Hrun)
    as [Hr Hw'].
  split; [| exact Hw'].
  destruct r; [exact Hr | exact I].
Qed.
Lemma scores_and_confidence_witness :
  exists d latency w',
    SemanticRoute (two_agent_services 19) new_pattern sample_context no_constraints
      initial_world = (Ok (Routed d, latency), w')
    /\ confidence_in_range d
    /\ cache_ok w'.
Proof.
  assert (E : exists d latency w',
             SemanticRoute (two_agent_services 19) new_pattern sample_context no_constraints
               initial_world = (Ok (Routed d, latency), w'))
    by (eexists _, _, _; vm_compute; reflexivity).
  destruct E as (d & latency & w' & E).
  exists d, latency, w'. split; [exact E |].
  destruct (scores_and_confidence_in_unit_interval (two_agent_services 19) slow_agent
              new_pattern sample_context [] [] [] no_constraints EmptyString 0 initial_world)
    as (_ & _ & _ & _ & _ & H).
  assert (Hinit : cache_ok initial_world).
  { intros key d0 expiry Hk. simpl in Hk. rewrite lookup_empty in Hk. discriminate. }
  exact (H Hinit (Routed d) latency w' E).
Defined.

(** ** A relational program logic: two runs with the same view *)

Section RelationalRules.

Variable sv : Services.

Lemma related_ret {A} (R : A -> A -> Prop) a1 a2 :
  R a1 a2 -> related sv R (StateMonad.ret a1) (StateMonad.ret a2).
Proof. intros HR w1 w2 Hw. simpl. auto. Qed.

Lemma related_throw {A} (R : A -> A -> Prop) e :
  related sv R (StateMonad.throw e) (StateMonad.throw e).
Proof. intros w1 w2 Hw. simpl. auto. Qed.

Lemma related_lift {A} (c : Exc A) : related sv eq (StateMonad.lift c) (StateMonad.lift c).
Proof. intros w1 w2 Hw. unfold StateMonad.lift. destruct c; auto. Qed.

Lemma related_bind {A B} (P : A -> A -> Prop) (R : B -> B -> Prop)
    (c1 c2 : M A) (k1 k2 : A -> M B) :
  related sv P c1 c2 ->
  (forall a1 a2, P a1 a2 -> related sv R (k1 a1) (k2 a2)) ->
  related sv R (StateMonad.bind c1 k1) (StateMonad.bind c2 k2).
Proof.
  intros Hc Hk w1 w2 Hw. unfold StateMonad.bind.
  specialize (Hc w1 w2 Hw).
  destruct (c1 w1) as [[a1 | e1] w1'], (c2 w2) as [[a2 | e2] w2']; try contradiction.
  - destruct Hc as [HP Hw']. exact (Hk a1 a2 HP w1' w2' Hw').
  - exact Hc.
Qed.

Lemma related_try {A} (R : A -> A -> Prop) (c1 c2 : M A) (h1 h2 : Error -> M A) :
  related sv R c1 c2 ->
  (forall e, related sv R (h1 e) (h2 e)) ->
  related sv R (StateMonad.try_catch c1 h1) (StateMonad.try_catch c2 h2).
Proof.
  intros Hc Hh w1 w2 Hw. unfold StateMonad.try_catch.
  specialize (Hc w1 w2 Hw).
  destruct (c1 w1) as [[a1 | e1] w1'], (c2 w2) as [[a2 | e2] w2']; try contradiction.
  - exact Hc.
  - destruct Hc as [<- Hw']. exact (Hh e1 w1' w2' Hw').
Qed.

End RelationalRules.

Section SameView.

Variable sv : Services.

Lemma related_clock : related sv eq (CURRENT_TIME_MS sv) (CURRENT_TIME_MS sv).
Proof.
  intros w1 w2 (Ht & Hv & Hc). unfold CURRENT_TIME_MS.
  split; [rewrite <- (Nat.add_0_r (tick w1)), <- (Nat.add_0_r (tick w2)); apply Ht |].
  unfold same_view. cbn [tick advance_clock validatorResults decision_cache].
  split; [| auto]. intros k. rewrite !Nat.add_succ_comm. apply Ht.
Qed.

Lemma related_timestamp : related sv eq (CURRENT_TIMESTAMP sv) (CURRENT_TIMESTAMP sv).
Proof.
  unfold CURRENT_TIMESTAMP. eapply related_bind; [apply related_clock |].
  intros a1 a2 <-. now apply related_ret.
Qed.

Lemma related_iso : related sv eq (CURRENT_ISO8601_TIMESTAMP sv) (CURRENT_ISO8601_TIMESTAMP sv).
Proof. apply related_clock. Qed.

Lemma related_uuid : related sv (fun _ _ => True) (GENERATE_UUID sv) (GENERATE_UUID sv).
Proof. intros w1 w2 (Ht & Hv & Hc). unfold GENERATE_UUID, same_view. simpl. auto. Qed.

Lemma related_set_votes results :
  related sv eq (SET_VALIDATOR_RESULTS results) (SET_VALIDATOR_RESULTS results).
Proof. intros w1 w2 (Ht & Hv & Hc). unfold SET_VALIDATOR_RESULTS, same_view. simpl. auto. Qed.

Lemma related_agreement :
  related sv eq GET_VALIDATOR_AGREEMENT_COUNT GET_VALIDATOR_AGREEMENT_COUNT.
Proof.
  intros w1 w2 (Ht & Hv & Hc). unfold GET_VALIDATOR_AGREEMENT_COUNT, same_view.
  rewrite Hv. auto.
Qed.

Lemma related_cache_get key :
  related sv (same_option same_decision) (CACHE_GET sv key) (CACHE_GET sv key).
Proof.
  intros w1 w2 Hw. pose proof Hw as (Ht & Hv & Hc). unfold CACHE_GET.
  specialize (Hc key).
  destruct (decision_cache w1 !! key) as [[d1 x1] |],
           (decision_cache w2 !! key) as [[d2 x2] |]; simpl in Hc; try contradiction.
  - destruct Hc as [Hd <-].
    rewrite <- (Nat.add_0_r (tick w1)), (Ht 0%nat), (Nat.add_0_r (tick w2)).
    destruct (_ <? _)%Z; simpl; auto.
  - simpl. auto.
Qed.

Lemma related_cache_set key d1 d2 ttl :
  same_decision d1 d2 -> related sv eq (CACHE_SET sv key d1 ttl) (CACHE_SET sv key d2 ttl).
Proof.
  intros Hd w1 w2 (Ht & Hv & Hc). unfold CACHE_SET.
  destruct (CACHE_WRITE sv key); [| unfold same_view; auto].
  split; [reflexivity |]. unfold same_view. cbn [tick validatorResults decision_cache store_decision].
  split; [exact Ht |]. split; [exact Hv |].
  intros k. destruct (decide (key = k)) as [-> | Hne].
  - rewrite !lookup_insert_eq. simpl.
    rewrite <- (Nat.add_0_r (tick w1)), (Ht 0%nat), (Nat.add_0_r (tick w2)). auto.
  - rewrite !lookup_insert_ne by exact Hne. apply Hc.
Qed.

Create HintDb related_db.

Ltac related_same :=
  repeat first
    [ solve [auto 1 with related_db nocore]
    | apply related_ret; reflexivity
    | apply related_throw
    | apply related_lift
    | apply related_clock | apply related_timestamp | apply related_iso
    | apply related_set_votes | apply related_agreement
    | apply related_bind with (P := eq); [ | intros ? ? <- ]
    | apply related_try; [ | intros ? ]
    | match goal with
      | |- related _ _ (match ?x with _ => _ end) (match ?x with _ => _ end) => destruct x
      end ].

Lemma related_expert_scores agent pattern context candidates sims :
  related sv eq (EXPERT_SCORES sv agent pattern context candidates sims)
             (EXPERT_SCORES sv agent pattern context candidates sims).
Proof. unfold EXPERT_SCORES, EXPERT_RECENCY, EXPERT_CONTEXT_RELEVANCE. related_same. Qed.

Hint Resolve related_expert_scores : related_db.

Lemma related_compute_expert_score agent pattern context candidates sims :
  related sv eq (COMPUTE_EXPERT_SCORE sv agent pattern context candidates sims)
             (COMPUTE_EXPERT_SCORE sv agent pattern context candidates sims).
Proof. unfold COMPUTE_EXPERT_SCORE. related_same. Qed.

Hint Resolve related_compute_expert_score : related_db.

Lemma related_score_agents pattern context candidates eligible : forall agentScores,
  related sv eq (score_agents sv eligible pattern context candidates agentScores)
             (score_agents sv eligible pattern context candidates agentScores).
Proof.
  induction eligible as [| agent rest IH]; intros agentScores; cbn [score_agents];
    related_same.
Qed.

Lemma related_first_available alternatives :
  related sv eq (first_available sv alternatives) (first_available sv alternatives).
Proof.
  induction alternatives as [| a rest IH]; cbn [first_available]; related_same.
Qed.

Lemma related_collect_votes start tasks : forall validatorId results,
  related sv eq (collect_votes sv start tasks validatorId results)
             (collect_votes sv start tasks validatorId results).
Proof.
  induction tasks as [| task rest IH]; intros validatorId results; cbn [collect_votes];
    related_same.
Qed.

Hint Resolve related_score_agents related_first_available related_collect_votes : related_db.

Lemma related_validate_byzantine primary alternatives validators required pattern context :
  related sv eq
    (VALIDATE_BYZANTINE sv primary alternatives validators required pattern context)
    (VALIDATE_BYZANTINE sv primary alternatives validators required pattern context).
Proof. unfold VALIDATE_BYZANTINE. related_same. Qed.

Hint Resolve related_validate_byzantine : related_db.

Lemma related_run_consensus primary alternatives pattern context :
  related sv eq (run_consensus sv primary alternatives pattern context)
             (run_consensus sv primary alternatives pattern context).
Proof. unfold run_consensus. related_same. Qed.

Lemma related_obtain_embedding pattern :
  related sv eq (obtain_embedding sv pattern) (obtain_embedding sv pattern).
Proof. unfold obtain_embedding. related_same. Qed.

Lemma related_search_candidates pattern embedding :
  related sv eq (search_candidates sv pattern embedding) (search_candidates sv pattern embedding).
Proof. unfold search_candidates. related_same. Qed.

Hint Resolve related_run_consensus related_obtain_embedding related_search_candidates
  : related_db.

Lemma related_build_fallback agent strategy confidence reason :
  related sv same_decision (BUILD_FALLBACK_DECISION sv agent strategy confidence reason)
                        (BUILD_FALLBACK_DECISION sv agent strategy confidence reason).
Proof.
  unfold BUILD_FALLBACK_DECISION.
  apply related_bind with (P := fun _ _ => True); [apply related_uuid | intros id1 id2 _].
  apply related_bind with (P := eq); [related_same | intros score ? <-].
  apply related_bind with (P := eq); [related_same | intros now ? <-].
  apply related_ret. reflexivity.
Qed.

Lemma related_build_some agent strategy confidence reason :
  related sv (same_option same_decision)
    (StateMonad.bind (BUILD_FALLBACK_DECISION sv agent strategy confidence reason)
                     (fun d => StateMonad.ret (Some d)))
    (StateMonad.bind (BUILD_FALLBACK_DECISION sv agent strategy confidence reason)
                     (fun d => StateMonad.ret (Some d))).
Proof.
  apply related_bind with (P := same_decision); [apply related_build_fallback |].
  intros d1 d2 Hd. apply related_ret. exact Hd.
Qed.

Ltac related_option :=
  repeat first
    [ apply related_build_some
    | apply related_ret; exact Logic.I
    | apply related_throw
    | apply related_bind with (P := eq); [related_same | intros ? ? <- ]
    | apply related_try; [ | intros ? ]
    | match goal with
      | |- related _ _ (match ?x with _ => _ end) (match ?x with _ => _ end) => destruct x
      end ].

Lemma related_attempt strategy pattern reason :
  related sv (same_option same_decision)
          (attempt_strategy sv strategy pattern reason)
          (attempt_strategy sv strategy pattern reason).
Proof. unfold attempt_strategy. repeat case_bool_decide; related_option. Qed.

Lemma related_run_chain pattern reason chain :
  related sv same_decision (run_chain sv chain pattern reason) (run_chain sv chain pattern reason).
Proof.
  induction chain as [| item rest IH]; cbn [run_chain]; [apply related_throw |].
  apply related_bind with (P := same_option same_decision); [apply related_attempt |].
  intros [d1 |] [d2 |] Hd; simpl in Hd; try contradiction.
  - apply related_ret. exact Hd.
  - exact IH.
Qed.

Lemma related_apply_fallback pattern context reason l1 l2 :
  related sv same_decision (APPLY_FALLBACK_STRATEGY sv pattern context reason l1)
                        (APPLY_FALLBACK_STRATEGY sv pattern context reason l2).
Proof. apply related_run_chain. Qed.

Lemma related_route_by_metadata pattern context l1 l2 :
  related sv same_result (ROUTE_BY_METADATA sv pattern context l1)
                      (ROUTE_BY_METADATA sv pattern context l2).
Proof.
  unfold ROUTE_BY_METADATA, BUILD_ERROR_DECISION.
  apply related_bind with (P := eq); [related_same | intros candidates ? <-].
  destruct (length candidates =? 0)%nat.
  - apply related_bind with (P := eq); [related_same | intros ? ? <-].
    apply related_ret. simpl. auto.
  - do 3 (apply related_bind with (P := eq); [related_same | intros ? ? <-]).
    apply related_bind with (P := fun _ _ => True); [apply related_uuid | intros id1 id2 _].
    apply related_bind with (P := eq); [related_same | intros ? ? <-].
    apply related_ret. reflexivity.
Qed.

(** The audit log answers alike for decisions that differ only in their
    identifier. *)
Hypothesis log_ignores_id :
  forall d1 d2, same_decision d1 d2 -> LOG_ROUTING_DECISION sv d1 = LOG_ROUTING_DECISION sv d2.

Lemma related_finish_primary startTime id1 id2 cacheKey pattern context primary primaryScore
    alternativeAgents agentScores consensusRequired consensusResult agreed latency :
  related sv same_outcome
    (finish_primary sv startTime id1 cacheKey pattern context primary primaryScore
       alternativeAgents agentScores consensusRequired consensusResult agreed latency)
    (finish_primary sv startTime id2 cacheKey pattern context primary primaryScore
       alternativeAgents agentScores consensusRequired consensusResult agreed latency).
Proof.
  unfold finish_primary.
  do 8 (apply related_bind with (P := eq); [related_same | intros ? ? <-]).
  apply related_bind with (P := eq).
  { apply related_try; [| intros e; destruct e; related_same].
    apply related_bind with (P := eq).
    { match goal with
      | |- related _ _ (StateMonad.lift (LOG_ROUTING_DECISION sv ?d1))
                     (StateMonad.lift (LOG_ROUTING_DECISION sv ?d2)) =>
          rewrite (log_ignores_id d1 d2) by reflexivity
      end.
      apply related_lift. }
    intros ? ? <-.
    apply related_bind with (P := eq); [| intros ? ? <-; related_same].
    apply related_cache_set. reflexivity. }
  intros ? ? <-.
  apply related_bind with (P := eq); [related_same | intros ? ? <-].
  apply related_ret. split; reflexivity.
Qed.

Lemma related_semantic_route pattern context routingConstraints :
  related sv same_outcome (SemanticRoute sv pattern context routingConstraints)
                       (SemanticRoute sv pattern context routingConstraints).
Proof.
  unfold SemanticRoute.
  apply related_bind with (P := eq); [related_same | intros startTime ? <-].
  apply related_bind with (P := fun _ _ => True); [apply related_uuid | intros id1 id2 _].
  apply related_bind with (P := eq).
  { apply related_try; [related_same | intros e; destruct e; related_same]. }
  intros ? ? <-.
  apply related_bind with (P := same_option same_decision);
    [apply related_cache_get | intros [c1 |] [c2 |] Hc; simpl in Hc; try contradiction].
  { apply related_bind with (P := eq); [related_same | intros ? ? <-].
    apply related_ret. split; [exact Hc | reflexivity]. }
  apply related_bind with (P := eq); [related_same | intros embedded ? <-].
  destruct embedded as [patternEmbedding |].
  2:{ apply related_bind with (P := eq); [related_same | intros ? ? <-].
      apply related_bind with (P := same_result);
        [apply related_route_by_metadata | intros d1 d2 Hd].
      apply related_ret. split; [exact Hd | reflexivity]. }
  apply related_bind with (P := eq); [related_same | intros hnsStart ? <-].
  apply related_bind with (P := eq); [related_same | intros candidates ? <-].
  destruct (length candidates =? 0)%nat; [apply related_throw |].
  apply related_bind with (P := eq); [related_same | intros profileStart ? <-].
  apply related_bind with (P := eq).
  { apply related_try; [related_same | intros e; destruct e; related_same]. }
  intros agentProfiles ? <-.
  destruct (length agentProfiles =? 0)%nat; [apply related_throw |].
  apply related_bind with (P := eq); [related_same | intros filterStart ? <-].
  apply related_bind with (P := eq); [related_same | intros filterEnd ? <-].
  destruct (length _ =? 0)%nat.
  { apply related_bind with (P := eq); [related_same | intros ? ? <-].
    apply related_bind with (P := same_decision);
      [apply related_apply_fallback | intros d1 d2 Hd].
    apply related_ret. split; [exact Hd | reflexivity]. }
  apply related_bind with (P := eq); [related_same | intros scoringStart ? <-].
  apply related_bind with (P := eq); [related_same | intros agentScores ? <-].
  apply related_bind with (P := eq); [related_same | intros scoringEnd ? <-].
  apply related_bind with (P := eq); [related_same | intros rankedAgents ? <-].
  destruct rankedAgents as [| primaryAgent others]; [apply related_throw |].
  apply related_bind with (P := eq); [related_same | intros primaryScore ? <-].
  destruct (require_consensus routingConstraints || IS_CRITICAL_PATTERN sv pattern)%bool.
  - apply related_bind with (P := eq); [related_same | intros verdict ? <-].
    destruct verdict as [[consensusResult agreed] latency].
    destruct (_ || _)%bool.
    + apply related_bind with (P := eq); [related_same | intros ? ? <-].
      apply related_bind with (P := same_decision);
        [apply related_apply_fallback | intros d1 d2 Hd].
      apply related_ret. split; [exact Hd | reflexivity].
    + apply related_finish_primary.
  - apply related_finish_primary.
Qed.

End SameView.

(** ** The same request routed twice in a row *)

Section RoutedTwice.

Variable sv : Services.

Lemma triple_ret {A} (P : World -> Prop) (a : A) (Q : A -> World -> Prop) :
  (forall w, Q a w) -> triple P (StateMonad.ret a) Q.
Proof. intros HQ w _. apply HQ. Qed.

Lemma triple_throw {A} (P : World -> Prop) (e : Error) (Q : A -> World -> Prop) :
  triple P (StateMonad.throw e) Q.
Proof. intros w _. exact I. Qed.

Lemma triple_bind {A B} (P : World -> Prop) (R : A -> World -> Prop)
    (Q : B -> World -> Prop) (c : M A) (k : A -> M B) :
  triple P c R -> (forall a, triple (R a) (k a) Q) -> triple P (StateMonad.bind c k) Q.
Proof.
  intros Hc Hk w Hw. unfold StateMonad.bind. specialize (Hc w Hw).
  destruct (c w) as [[a | e] w']; [exact (Hk a w' Hc) | exact I].
Qed.

(** Whatever [c] does, what follows it decides on the outcome. *)
Lemma triple_skip {A B} (P : World -> Prop) (Q : B -> World -> Prop) (c : M A)
    (k : A -> M B) :
  (forall a, triple (fun _ => True) (k a) Q) -> triple P (StateMonad.bind c k) Q.
Proof.
  intros Hk. apply triple_bind with (R := fun _ _ => True); [| exact Hk].
  intros w _. now destruct (c w) as [[a | e] w'].
Qed.

(** The decision that comes with a latency is held by the cache: it has just
    been stored for 300 seconds, or it was found there, not yet expired. *)
Definition left_in_cache (cacheKey : string) (out : RoutingResult * option Z) (w : World)
  : Prop :=
  forall d latency,
    out = (Routed d, Some latency) ->
    exists expiry,
      decision_cache w !! cacheKey = Some (d, expiry)
      /\ ((SYSTEM_CLOCK_MILLISECONDS sv (tick w - 1) < expiry)%Z
          \/ expiry = (SYSTEM_CLOCK_MILLISECONDS sv (tick w - 2) + 300 * 1000)%Z).

Hypothesis log_kept : forall logged, LOG_ROUTING_DECISION sv logged <> Throw PersistError.

Lemma finish_primary_leaves_decision P startTime decisionId cacheKey pattern context primary
    primaryScore alternativeAgents agentScores consensusRequired consensusResult agreed
    latency :
  CACHE_WRITE sv cacheKey <> Throw PersistError ->
  triple P
    (finish_primary sv startTime decisionId cacheKey pattern context primary primaryScore
       alternativeAgents agentScores consensusRequired consensusResult agreed latency)
    (left_in_cache cacheKey).
Proof.
  intros Hwrite. unfold finish_primary.
  do 7 (apply triple_skip; intros ?). cbv zeta.
  apply triple_skip; intros persistStart.
  match goal with
  | |- triple _ (StateMonad.bind (StateMonad.try_catch _ _) (fun _ => StateMonad.bind _ (fun _ => StateMonad.ret (Routed ?d, _)))) _ =>
      set (decision := d)
  end.
  apply triple_bind
    with (R := fun _ w =>
                 decision_cache w !! cacheKey
                 = Some (decision,
                         (SYSTEM_CLOCK_MILLISECONDS sv (tick w - 1) + 300 * 1000)%Z)).
  - intros w _.
    cbv beta iota zeta delta
      [StateMonad.bind StateMonad.try_catch StateMonad.lift StateMonad.ret StateMonad.throw
       CURRENT_TIME_MS CACHE_SET].
    pose proof (log_kept decision) as Hlog.
    destruct (LOG_ROUTING_DECISION sv decision) as [[] | e];
      [| destruct e; try exact I; congruence].
    destruct (CACHE_WRITE sv cacheKey) as [[] | e];
      [| destruct e; try exact I; congruence].
    cbn [tick advance_clock store_decision decision_cache Nat.sub]. rewrite Nat.sub_0_r.
    apply lookup_insert_eq.
  - intros [] w Hw.
    cbv beta iota zeta delta [StateMonad.bind StateMonad.ret CURRENT_TIME_MS].
    intros d totalLatency [= <- _]. eexists. split.
    + cbn [tick advance_clock decision_cache]. exact Hw.
    + right. cbn [tick advance_clock Nat.sub]. reflexivity.
Qed.

Ltac skip_phases :=
  repeat first
    [ apply finish_primary_leaves_decision; assumption
    | apply triple_throw
    | apply triple_ret; intros ? ? ? [=]
    | apply triple_skip; intros ?
    | match goal with
      | |- triple _ (match ?x with _ => _ end) _ => destruct x
      | |- triple _ (if ?b then _ else _) _ => destruct b
      end ].

Lemma semantic_route_leaves_decision pattern context routingConstraints :
  CACHE_WRITE sv (COMPUTE_CACHE_KEY sv pattern context) <> Throw PersistError ->
  triple (fun _ => True) (SemanticRoute sv pattern context routingConstraints)
    (left_in_cache (COMPUTE_CACHE_KEY sv pattern context)).
Proof.
  intros Hwrite. unfold SemanticRoute.
  do 3 (apply triple_skip; intros ?).
  apply triple_bind
    with (R := fun cachedDecision w =>
                 match cachedDecision with
                 | Some cached =>
                     exists expiry,
                       decision_cache w !! COMPUTE_CACHE_KEY sv pattern context
                       = Some (cached, expiry)
                       /\ (SYSTEM_CLOCK_MILLISECONDS sv (tick w) < expiry)%Z
                 | None => True
                 end).
  - intros w _. unfold CACHE_GET.
    destruct (decision_cache w !! COMPUTE_CACHE_KEY sv pattern context) as [[d expiry] |]
      eqn:Ecached; [| exact I].
    destruct (_ <? _)%Z eqn:Efresh; [| exact I].
    exists expiry. split; [exact Ecached | now apply Z.ltb_lt].
  - intros [cached |].
    + intros w (expiry & Hcached & Hfresh).
      cbv beta iota zeta delta [StateMonad.bind StateMonad.ret CURRENT_TIME_MS].
      intros d latency [= <- _]. exists expiry. split; [exact Hcached |].
      left. cbn [tick advance_clock Nat.sub]. now rewrite Nat.sub_0_r.
    + skip_phases.
Qed.

(** A run that returns has passed the two validations. *)
Lemma semantic_route_validated pattern context routingConstraints w out w' :
  SemanticRoute sv pattern context routingConstraints w = (Ok out, w') ->
  VALIDATE_PATTERN_REQUEST sv pattern = Ok tt /\ VALIDATE_EXECUTION_CONTEXT sv context = Ok tt.
Proof.
  unfold SemanticRoute.
  cbv beta iota zeta delta
    [StateMonad.bind StateMonad.try_catch StateMonad.lift StateMonad.ret StateMonad.throw
     CURRENT_TIME_MS GENERATE_UUID].
  destruct (VALIDATE_PATTERN_REQUEST sv pattern) as [[] | e];
    [| destruct e; discriminate].
  destruct (VALIDATE_EXECUTION_CONTEXT sv context) as [[] | e];
    [| destruct e; discriminate].
  auto.
Qed.

(** A valid request whose cache entry has not expired at the second clock
    reading is answered from the cache. *)
Lemma semantic_route_cache_hit pattern context routingConstraints w cached expiry :
  VALIDATE_PATTERN_REQUEST sv pattern = Ok tt ->
  VALIDATE_EXECUTION_CONTEXT sv context = Ok tt ->
  decision_cache w !! COMPUTE_CACHE_KEY sv pattern context = Some (cached, expiry) ->
  (SYSTEM_CLOCK_MILLISECONDS sv (S (tick w)) < expiry)%Z ->
  SemanticRoute sv pattern context routingConstraints w
  = (Ok (Routed cached,
         Some (SYSTEM_CLOCK_MILLISECONDS sv (S (tick w))
               - SYSTEM_CLOCK_MILLISECONDS sv (tick w))%Z),
     after_cache_hit w).
Proof.
  intros H1 H2 Hcached Hfresh. unfold SemanticRoute.
  cbv beta iota zeta delta
    [StateMonad.bind StateMonad.try_catch StateMonad.lift StateMonad.ret StateMonad.throw
     CURRENT_TIME_MS GENERATE_UUID CACHE_GET].
  rewrite H1, H2. cbn [tick advance_clock issue_uuid decision_cache]. rewrite Hcached.
  apply Z.ltb_lt in Hfresh. rewrite Hfresh. reflexivity.
Qed.

End RoutedTwice.

(** C2 (amended).  Two invocations of the pipeline on the same request,
    context and constraints, with the same collaborator responses, from which
    the same clock readings follow and that find the same cache content up to
    decision identifiers, end alike: both raise the same error, or both
    return decisions that agree in every field except the freshly generated
    [decision_id] (in particular the same primary agent and the same
    confidence score) together with the same latency.  And a request routed
    twice in a row gets the very same decision, identifier included, when the
    first decision came with a latency (it was served from the cache, or it
    was built on the primary path and then stored for 300 seconds), the audit
    log and the cache write do not fail with PersistError, and the cache entry
    has not expired at the second clock reading of the second invocation. *)
Theorem semantic_route_deterministic (sv : Services) (patternRequest : Request)
    (executionContext : Context) (routingConstraints : RoutingConstraints) :
  let route := SemanticRoute sv patternRequest executionContext routingConstraints in
  let cacheKey := COMPUTE_CACHE_KEY sv patternRequest executionContext in
  let clock := SYSTEM_CLOCK_MILLISECONDS sv in
  ((forall d1 d2, same_decision d1 d2 ->
                  LOG_ROUTING_DECISION sv d1 = LOG_ROUTING_DECISION sv d2) ->
   forall w1 w2,
     same_view sv w1 w2 ->
     match fst (route w1), fst (route w2) with
     | Ok (Routed d1, latency1), Ok (Routed d2, latency2) =>
         same_decision d1 d2
         /\ primary_agent_id d1 = primary_agent_id d2
         /\ confidence_score d1 = confidence_score d2
         /\ latency1 = latency2
     | Ok (ErrorDecision code1 message1, latency1),
       Ok (ErrorDecision code2 message2, latency2) =>
         code1 = code2 /\ message1 = message2 /\ latency1 = latency2
     | Throw e1, Throw e2 => e1 = e2
     | _, _ => False
     end)
  /\ ((forall logged, LOG_ROUTING_DECISION sv logged <> Throw PersistError) ->
      CACHE_WRITE sv cacheKey <> Throw PersistError ->
      forall w d latency w',
        route w = (Ok (Routed d, Some latency), w') ->
        exists expiry,
          decision_cache w' !! cacheKey = Some (d, expiry)
          /\ ((clock (tick w' - 1)%nat < expiry)%Z
              \/ expiry = (clock (tick w' - 2)%nat + 300 * 1000)%Z)
          /\ ((clock (S (tick w')) < expiry)%Z ->
              route w'
              = (Ok (Routed d, Some (clock (S (tick w')) - clock (tick w'))%Z),
                 after_cache_hit w'))).
Proof.
  intros route cacheKey clock. split.
  - intros Hlog w1 w2 Hview.
    pose proof (related_semantic_route sv Hlog patternRequest executionContext
                  routingConstraints w1 w2 Hview) as H.
    unfold route.
    destruct (SemanticRoute sv patternRequest executionContext routingConstraints w1)
      as [[[r1 latency1] | e1] w1'],
             (SemanticRoute sv patternRequest executionContext routingConstraints w2)
      as [[[r2 latency2] | e2] w2']; cbn [fst]; try contradiction.
    + destruct H as [[Hr Hl] _]. cbn [fst snd] in Hr, Hl.
      destruct r1 as [d1 | c1 m1], r2 as [d2 | c2 m2]; simpl in Hr; try contradiction.
      * split; [exact Hr |]. unfold same_decision in Hr.
        split; [exact (f_equal primary_agent_id Hr) |].
        split; [exact (f_equal confidence_score Hr) | exact Hl].
      * destruct Hr. auto.
    + destruct H as [He _]. exact He.
  - intros Hlog Hwrite w d latency w' Hrun.
    destruct (semantic_route_validated sv _ _ _ _ _ _ Hrun) as [Hrequest Hcontext].
    pose proof (semantic_route_leaves_decision sv Hlog patternRequest executionContext
                  routingConstraints Hwrite w Logic.I) as Hleft.
    fold route in Hleft. rewrite Hrun in Hleft.
    destruct (Hleft d latency eq_refl) as (expiry & Hcached & Hexpiry).
    exists expiry. split; [exact Hcached |]. split; [exact Hexpiry |].
    intros Hfresh.
    exact (semantic_route_cache_hit sv patternRequest executionContext routingConstraints
             w' d expiry Hrequest Hcontext Hcached Hfresh).
Qed.

Lemma semantic_route_deterministic_witness :
  (let sv := two_agent_services 100 in
   let first := SemanticRoute sv new_pattern sample_context no_constraints initial_world in
   let second := SemanticRoute sv new_pattern sample_context no_constraints (snd first) in
   exists d latency1 latency2,
     fst first = Ok (Routed d, Some latency1) /\ fst second = Ok (Routed d, Some latency2))
  /\ (let sv := unstored_services in
      let first := SemanticRoute sv new_pattern sample_context no_constraints initial_world in
      let second := SemanticRoute sv new_pattern sample_context no_constraints (snd first) in
      exists d1 d2 latency1 latency2,
        fst first = Ok (Routed d1, latency1)
        /\ fst second = Ok (Routed d2, latency2)
        /\ decision_id d1 <> decision_id d2
        /\ primary_agent_id d1 = primary_agent_id d2
        /\ confidence_score d1 = confidence_score d2).
Proof.
  split.
  - intros sv first second.
    destruct (semantic_route_deterministic sv new_pattern sample_context no_constraints)
      as [_ Htwice].
    assert (E : exists d latency, first = (Ok (Routed d, Some latency), snd first))
      by (eexists _, _; vm_compute; reflexivity).
    destruct E as (d & latency & E).
    destruct (Htwice ltac:(discriminate) ltac:(discriminate) initial_world d latency
                (snd first) E) as (expiry & _ & Hexpiry & Hsecond).
    assert (Htick : tick (snd first) = 19%nat) by (vm_compute; reflexivity).
    rewrite Htick in Hexpiry, Hsecond.
    exists d, latency. eexists. split; [rewrite E; reflexivity |].
    unfold second. rewrite Hsecond; [reflexivity |].
    destruct Hexpiry as [Hfresh | ->]; [exact Hfresh | reflexivity].
  - intros sv first second.
    destruct (semantic_route_deterministic sv new_pattern sample_context no_constraints)
      as [Hsame _].
    assert (Hend : snd first
                   = {| tick := 18; uuids_issued := 1; decision_cache := ∅;
                        validatorResults := [] |}) by (vm_compute; reflexivity).
    assert (Hview : same_view sv initial_world (snd first)).
    { rewrite Hend. split; [reflexivity |]. split; [reflexivity |]. intros key.
      cbn [decision_cache initial_world]. rewrite lookup_empty. exact I. }
    specialize (Hsame (fun _ _ _ => eq_refl) initial_world (snd first) Hview).
    assert (E1 : exists d l, fst first = Ok (Routed d, l))
      by (eexists _, _; vm_compute; reflexivity).
    assert (E2 : exists d l, fst second = Ok (Routed d, l))
      by (eexists _, _; vm_compute; reflexivity).
    destruct E1 as (d1 & l1 & E1). destruct E2 as (d2 & l2 & E2).
    fold first in Hsame. fold second in Hsame. rewrite E1, E2 in Hsame.
    destruct Hsame as (_ & Hagent & Hconfidence & _).
    exists d1, d2, l1, l2. split; [exact E1 |]. split; [exact E2 |].
    split; [| auto].
    vm_compute in E1, E2. injection E1 as <- _. injection E2 as <- _. discriminate.
Defined.

(** C2 as stated fails.  The same request for a pattern that was never
    executed is routed twice, with the same context, candidate set and
    profiles; the second call comes more than five minutes after the first,
    so the cached decision has expired, and [agent-a]'s last execution is
    by then more than 24 hours old.  The first decision names [agent-a],
    the second [agent-b], with another confidence score. *)
Lemma repeated_routing_counterexample :
  let sv := two_agent_services 19 in
  let first := SemanticRoute sv new_pattern sample_context no_constraints initial_world in
  let second := SemanticRoute sv new_pattern sample_context no_constraints (snd first) in
  GET_PATTERN_EXECUTION_SUCCESS_RATE sv (pattern_id new_pattern) true = Ok None
  /\ exists d1 d2 latency1 latency2,
       fst first = Ok (Routed d1, latency1)
       /\ fst second = Ok (Routed d2, latency2)
       /\ primary_agent_id d1 = "agent-a"%string
       /\ primary_agent_id d2 = "agent-b"%string
       /\ (confidence_score d1 == 75141 # 500000)%Q
       /\ (confidence_score d2 == 37719 # 250000)%Q
       /\ ~ (confidence_score d1 == confidence_score d2)%Q
       /\ decision_id d1 <> decision_id d2.
Proof.
  intros sv first second. split; [reflexivity |].
  eexists _, _, _, _.
  split; [vm_compute; reflexivity |].
  split; [vm_compute; reflexivity |].
  split; [reflexivity |]. split; [reflexivity |].
  split; [vm_compute; reflexivity |]. split; [vm_compute; reflexivity |].
  split; [vm_compute; discriminate | vm_compute; discriminate].
Qed.

(** ** Clamping *)

Section ClampFacts.
Local Open Scope Q_scope.

(** X1: CLAMP.  With [min <= max] the result lies between the two bounds,
    a value already between them is returned as it is, clamping twice is
    clamping once, and a larger value never gives a smaller result. *)
Theorem clamp_bounds_idempotent_monotone (value value' lo hi : Q) :
  lo <= hi ->
  lo <= CLAMP value lo hi <= hi
  /\ (lo <= value <= hi -> CLAMP value lo hi = value)
  /\ CLAMP (CLAMP value lo hi) lo hi = CLAMP value lo hi
  /\ (value <= value' -> CLAMP value lo hi <= CLAMP value' lo hi).
Proof.
  intros Hle. split; [now apply CLAMP_range |]. split; [| split].
  - intros [H1 H2]. unfold CLAMP.
    destruct (Qltb value lo) eqn:E1; [apply Qltb_lt in E1; lra |].
    destruct (Qltb hi value) eqn:E2; [apply Qltb_lt in E2; lra | reflexivity].
  - unfold CLAMP at 2 3.
    destruct (Qltb value lo) eqn:E1.
    + unfold CLAMP.
      destruct (Qltb lo lo) eqn:A; [apply Qltb_lt in A; lra |].
      destruct (Qltb hi lo) eqn:B; [apply Qltb_lt in B; lra | reflexivity].
    + destruct (Qltb hi value) eqn:E2.
      * unfold CLAMP.
        destruct (Qltb hi lo) eqn:A; [apply Qltb_lt in A; lra |].
        destruct (Qltb hi hi) eqn:B; [apply Qltb_lt in B; lra | reflexivity].
      * unfold CLAMP. now rewrite E1, E2.
  - intros Hv. unfold CLAMP.
    destruct (Qltb value lo) eqn:A; destruct (Qltb value' lo) eqn:A';
      destruct (Qltb hi value) eqn:B; destruct (Qltb hi value') eqn:B';
      rewrite ?Qltb_lt, ?Qltb_ge in *; lra.
Qed.

Lemma clamp_bounds_idempotent_monotone_witness :
  (0 <= CLAMP 1.4 0 1 <= 1)%Q /\ CLAMP (CLAMP 1.4 0 1) 0 1 = CLAMP 1.4 0 1
  /\ (CLAMP 0.3 0 1 <= CLAMP 1.4 0 1)%Q.
Proof.
  destruct (clamp_bounds_idempotent_monotone 0.3 1.4 0 1 ltac:(lra)) as (_ & _ & _ & Hm).
  destruct (clamp_bounds_idempotent_monotone 1.4 1.4 0 1 ltac:(lra)) as (Hr & _ & Hi & _).
  split; [exact Hr |]. split; [exact Hi |]. apply Hm. lra.
Defined.

End ClampFacts.

(** ** Reading the skill list *)

Section SkillListFacts.

Lemma split_length sep s : length (split sep s) = S (occurrences sep s).
Proof.
  induction s as [| c rest IH]; simpl; [reflexivity |].
  destruct (Ascii.eqb c sep); simpl; [now rewrite IH |].
  destruct (split sep rest) as [| piece pieces]; simpl in *; lia.
Qed.

Lemma split_unsplit sep s : join (String sep EmptyString) (split sep s) = s.
Proof.
  induction s as [| c rest IH]; simpl; [reflexivity |].
  destruct (Ascii.eqb c sep) eqn:E.
  - apply Ascii.eqb_eq in E. subst c.
    pose proof (split_length sep rest) as Hlen.
    destruct (split sep rest) as [| piece pieces]; [discriminate |].
    simpl in *. now rewrite IH.
  - pose proof (split_length sep rest) as Hlen.
    destruct (split sep rest) as [| piece pieces]; [discriminate |].
    destruct pieces as [| p2 ps]; simpl in *; now rewrite <- IH.
Qed.

Lemma split_pieces_free sep s : Forall (fun piece => occurrences sep piece = 0%nat) (split sep s).
Proof.
  induction s as [| c rest IH]; simpl.
  - constructor; [reflexivity | constructor].
  - destruct (Ascii.eqb c sep) eqn:E.
    + constructor; [reflexivity | exact IH].
    + destruct (split sep rest) as [| piece pieces]; simpl.
      * constructor; [simpl; now rewrite E | constructor].
      * inversion IH as [| ? ? Hp Hps]; subst. constructor; [| exact Hps].
        simpl. now rewrite E.
Qed.

Lemma split_plain_piece x rest :
  free_of (fun c => Ascii.eqb c ",") x = true ->
  split "," (x ++ String "," rest) = x :: split "," rest.
Proof.
  induction x as [| c x IH]; simpl; [reflexivity |].
  rewrite andb_true_iff, negb_true_iff. intros [Hc Hx].
  rewrite Hc, (IH Hx). reflexivity.
Qed.

Lemma split_plain_last x :
  free_of (fun c => Ascii.eqb c ",") x = true -> split "," x = [x].
Proof.
  induction x as [| c x IH]; simpl; [reflexivity |].
  rewrite andb_true_iff, negb_true_iff. intros [Hc Hx].
  rewrite Hc, (IH Hx). reflexivity.
Qed.

Lemma plain_name_parts s :
  plain_name s = true -> free_of (fun c => Ascii.eqb c ",") s = true /\ trim s = s.
Proof.
  unfold plain_name. rewrite andb_true_iff, String.eqb_eq. auto.
Qed.

(** The blank after a comma goes with the white space in front of a name. *)
Lemma trim_blank s : trim (String " " s) = trim s.
Proof. reflexivity. Qed.

Lemma split_blank_joined y rest :
  Forall (fun s => plain_name s = true) (y :: rest) ->
  List.map trim (split "," (String " " (join ", " (y :: rest)))) = y :: rest.
Proof.
  revert y. induction rest as [| z rest IH]; intros y Hall.
  - inversion Hall as [| ? ? Hy _]; subst.
    destruct (plain_name_parts y Hy) as [Hc Hs].
    cbn [join]. cbn [split]. change (Ascii.eqb " " ",") with false. cbn iota.
    rewrite (split_plain_last y Hc). cbn [List.map].
    now rewrite trim_blank, Hs.
  - inversion Hall as [| ? ? Hy Hrest]; subst.
    destruct (plain_name_parts y Hy) as [Hc Hs].
    change (join ", " (y :: z :: rest))
      with (y ++ String "," (String " " (join ", " (z :: rest))))%string.
    cbn [split]. change (Ascii.eqb " " ",") with false. cbn iota.
    rewrite (split_plain_piece y _ Hc). cbn [List.map].
    rewrite trim_blank, Hs. f_equal. now apply IH.
Qed.

End SkillListFacts.

(** X2: EXTRACT_SKILLS.  Without a [skills] entry the result is the empty
    list.  With one, the value is cut at its commas and each piece is
    trimmed: the result has one entry more than the value has commas (so a
    blank value gives one empty skill, never the empty list), the pieces hold
    no comma and put back together with commas they give the value.  A list
    of names that hold no comma and have no white space at either end,
    written out with a comma and a blank between them, is read back
    unchanged. *)
Theorem extract_skills_reads_comma_list (metadata : gmap string string) :
  (metadata !! "skills"%string = None -> EXTRACT_SKILLS metadata = [])
  /\ (forall skillsStr, metadata !! "skills"%string = Some skillsStr ->
        EXTRACT_SKILLS metadata = List.map trim (split "," skillsStr)
        /\ length (EXTRACT_SKILLS metadata) = S (occurrences "," skillsStr)
        /\ join "," (split "," skillsStr) = skillsStr
        /\ Forall (fun piece => occurrences "," piece = 0%nat) (split "," skillsStr))
  /\ (forall names, names <> [] ->
        Forall (fun s => plain_name s = true) names ->
        EXTRACT_SKILLS (<["skills"%string := join ", " names]> metadata) = names).
Proof.
  split; [| split].
  - intros H. unfold EXTRACT_SKILLS. now rewrite H.
  - intros skillsStr H. unfold EXTRACT_SKILLS. rewrite H.
    split; [reflexivity |]. split; [| split].
    + rewrite length_map. apply split_length.
    + apply split_unsplit.
    + apply split_pieces_free.
  - intros names Hne Hall. unfold EXTRACT_SKILLS. rewrite lookup_insert_eq.
    destruct names as [| x rest]; [congruence |].
    destruct rest as [| y rest].
    + inversion Hall as [| ? ? Hx _]; subst.
      destruct (plain_name_parts x Hx) as [Hc Hs].
      cbn [join]. rewrite (split_plain_last x Hc). simpl. now rewrite Hs.
    + inversion Hall as [| ? ? Hx Hrest]; subst.
      destruct (plain_name_parts x Hx) as [Hc Hs].
      change (join ", " (x :: y :: rest))
        with (x ++ String "," (String " " (join ", " (y :: rest))))%string.
      rewrite (split_plain_piece x _ Hc). cbn [List.map].
      rewrite Hs. f_equal. now apply split_blank_joined.
Qed.

Lemma extract_skills_reads_comma_list_witness :
  EXTRACT_SKILLS (<["skills"%string := join ", " ["auth"; "oauth2"; "jwt"]%string]> ∅)
  = ["auth"; "oauth2"; "jwt"]%string
  /\ EXTRACT_SKILLS (<["skills"%string := EmptyString]> ∅) = [EmptyString]
  /\ EXTRACT_SKILLS
       (<["skills"%string
          := String "011" ("auth" ++ String "194" (String "160" ",")
                           ++ String "226" (String "128" (String "131" "jwt"))
                           ++ String "013" (String "010" EmptyString))]> ∅)
     = ["auth"; "jwt"]%string.
Proof.
  split; [| split].
  - destruct (extract_skills_reads_comma_list ∅) as (_ & _ & H).
    apply H; [discriminate |]. repeat constructor.
  - destruct (extract_skills_reads_comma_list (<["skills"%string := EmptyString]> ∅))
      as (_ & H & _).
    destruct (H EmptyString) as (E & _); [apply lookup_insert_eq |]. exact E.
  - match goal with
    | |- EXTRACT_SKILLS (<[_ := ?v]> ∅) = _ =>
        destruct (extract_skills_reads_comma_list (<["skills"%string := v]> ∅))
          as (_ & H & _);
        destruct (H v) as (E & _); [apply lookup_insert_eq |]; rewrite E
    end.
    reflexivity.
Defined.

(** ** Expert 2: metadata matching *)

Section RatioFacts.
Local Open Scope Q_scope.

Lemma CLAMP_unit_one x : CLAMP x 0 1 == 1 <-> 1 <= x.
Proof.
  unfold CLAMP. destruct (Qltb x 0) eqn:A; destruct (Qltb 1 x) eqn:B;
    rewrite ?Qltb_lt, ?Qltb_ge in *; split; intros; lra.
Qed.

Lemma CLAMP_unit_zero x : CLAMP x 0 1 == 0 <-> x <= 0.
Proof.
  unfold CLAMP. destruct (Qltb x 0) eqn:A; destruct (Qltb 1 x) eqn:B;
    rewrite ?Qltb_lt, ?Qltb_ge in *; split; intros; lra.
Qed.

Lemma div_ge_one x m : 0 < m -> (1 <= x / m <-> m <= x).
Proof.
  intros Hm. split; intros H.
  - apply (Qmult_le_compat_r _ _ m) in H; [| lra].
    rewrite Qmult_1_l in H. unfold Qdiv in H.
    rewrite <- Qmult_assoc, (Qmult_comm (/ m)), Qmult_inv_r, Qmult_1_r in H; lra.
  - apply Qle_shift_div_l; lra.
Qed.

Lemma div_le_zero x m : 0 < m -> (x / m <= 0 <-> x <= 0).
Proof.
  intros Hm. split; intros H.
  - apply (Qmult_le_compat_r _ _ m) in H; [| lra].
    rewrite Qmult_0_l in H. unfold Qdiv in H.
    rewrite <- Qmult_assoc, (Qmult_comm (/ m)), Qmult_inv_r, Qmult_1_r in H; lra.
  - apply Qle_shift_div_r; lra.
Qed.

Lemma of_nat_pos n : (0 < n)%nat -> 0 < of_nat n.
Proof. intros H. unfold of_nat. change 0 with (inject_Z 0). rewrite <- Zlt_Qlt. lia. Qed.

Lemma of_nat_le a b : (a <= b)%nat -> of_nat a <= of_nat b.
Proof. intros H. unfold of_nat. rewrite <- Zle_Qle. lia. Qed.

Lemma of_nat_eq a b : of_nat a == of_nat b <-> a = b.
Proof.
  unfold of_nat. rewrite inject_Z_injective. lia.
Qed.

(** The share [a / n] of a count [a <= n] in a positive total. *)
Lemma share_bounds a n :
  (0 < n)%nat -> (a <= n)%nat ->
  0 <= of_nat a / of_nat n <= 1
  /\ (of_nat a / of_nat n == 1 <-> a = n)
  /\ (of_nat a / of_nat n == 0 <-> a = 0%nat).
Proof.
  intros Hn Ha.
  pose proof (of_nat_pos n Hn) as Hpos.
  pose proof (of_nat_nonneg a) as Hnn.
  pose proof (of_nat_le a n Ha) as Hle.
  assert (Hlo : 0 <= of_nat a / of_nat n) by (apply Qle_shift_div_l; lra).
  assert (Hhi : of_nat a / of_nat n <= 1) by (apply Qle_shift_div_r; lra).
  split; [split; assumption |]. split.
  - rewrite <- of_nat_eq. split; intros H.
    + assert (H1 : 1 <= of_nat a / of_nat n) by lra.
      apply (proj1 (div_ge_one _ _ Hpos)) in H1. lra.
    + rewrite H. field. lra.
  - rewrite <- (of_nat_eq a 0). change (of_nat 0) with 0. split; intros H.
    + assert (H0 : of_nat a / of_nat n <= 0) by lra.
      apply (proj1 (div_le_zero _ _ Hpos)) in H0. lra.
    + rewrite H. field. lra.
Qed.

Lemma filter_all {A} (f : A -> bool) (l : list A) :
  length (List.filter f l) = length l <-> forallb f l = true.
Proof.
  induction l as [| x l IH]; simpl; [tauto |].
  pose proof (List.filter_length_le f l) as Hle.
  destruct (f x); simpl.
  - rewrite <- IH. lia.
  - split; [lia | discriminate].
Qed.

Lemma filter_none {A} (f : A -> bool) (l : list A) :
  length (List.filter f l) = 0%nat <-> forallb (fun x => negb (f x)) l = true.
Proof.
  induction l as [| x l IH]; simpl; [tauto |].
  destruct (f x); simpl; [split; [lia | discriminate] | exact IH].
Qed.

End RatioFacts.

Section MetadataExpert.

Variable sv : Services.
Local Open Scope Q_scope.

(** X3: EXPERT_METADATA.  With nothing to match (no pattern skills, no
    pattern specializations, no required skills) the score is the neutral
    0.5.  Otherwise the score is 1 exactly when the agent holds every pattern
    skill, every pattern specialization and every required skill, and 0
    exactly when it holds none of them. *)
Theorem expert_metadata_full_match (agent : Agent) (pattern : Request)
    (requiredSkills : option (list string)) (specs : list string) (category : string) :
  EXTRACT_SPECIALIZATIONS sv (metadata pattern) = Ok specs ->
  EXTRACT_CATEGORY sv (metadata pattern) = Ok category ->
  let patternSkills := EXTRACT_SKILLS (metadata pattern) in
  let required := match requiredSkills with Some r => r | None => [] end in
  exists score,
    EXPERT_METADATA sv agent pattern requiredSkills = Ok score
    /\ 0 <= score <= 1
    /\ (patternSkills = [] -> specs = [] -> required = [] -> score == 0.5)
    /\ (~ (patternSkills = [] /\ specs = [] /\ required = []) ->
        (score == 1 <->
           holds_all (skills agent) patternSkills = true
           /\ holds_all (specializations agent) specs = true
           /\ holds_all (skills agent) required = true)
        /\ (score == 0 <->
           holds_none (skills agent) patternSkills = true
           /\ holds_none (specializations agent) specs = true
           /\ holds_none (skills agent) required = true)).
Proof.
  intros Hspecs Hcat patternSkills required.
  unfold EXPERT_METADATA. rewrite Hspecs, Hcat. cbn [ExcMonad.bind].
  fold patternSkills.
  unfold holds_all, holds_none, INTERSECTION.
  assert (Hnil : forall l : list string, (0 <? length l)%nat = false -> l = []).
  { intros l H. apply Nat.ltb_ge in H. destruct l; [reflexivity | simpl in H; lia]. }
  assert (Hshare : forall (have l : list string), (0 < length l)%nat ->
            let r := of_nat (length (List.filter (fun s => mem s have) l)) / of_nat (length l) in
            0 <= r <= 1
            /\ (r == 1 <-> forallb (fun s => mem s have) l = true)
            /\ (r == 0 <-> forallb (fun s => negb (mem s have)) l = true)).
  { intros have l Hl r.
    destruct (share_bounds (length (List.filter (fun s => mem s have) l)) (length l) Hl
                (List.filter_length_le _ l)) as (Hb & H1 & H0).
    rewrite filter_all in H1. rewrite filter_none in H0. auto. }
  destruct (0 <? length patternSkills)%nat eqn:E1;
    [apply Nat.ltb_lt in E1;
     destruct (Hshare (skills agent) patternSkills E1) as (B1 & One1 & Zero1)
    | apply Hnil in E1; rewrite E1];
  (destruct (0 <? length specs)%nat eqn:E2;
    [apply Nat.ltb_lt in E2;
     destruct (Hshare (specializations agent) specs E2) as (B2 & One2 & Zero2)
    | apply Hnil in E2; rewrite E2]);
  (destruct requiredSkills as [required0 |] eqn:E3; subst required;
    [destruct (0 <? length required0)%nat eqn:E4;
      [apply Nat.ltb_lt in E4;
       destruct (Hshare (skills agent) required0 E4) as (B3 & One3 & Zero3);
       destruct (forallb (fun s => mem s (skills agent)) required0) eqn:Hall
      | apply Hnil in E4; rewrite E4] | ]);
  cbv beta iota zeta; clear Hshare Hnil.
  all: eexists; split; [reflexivity |]; split; [apply CLAMP_unit |].
  all: split;
    [ intros Z1 Z2 Z3;
      try (rewrite Z1 in E1; simpl in E1; lia);
      try (rewrite Z2 in E2; simpl in E2; lia);
      try (rewrite Z3 in E4; simpl in E4; lia);
      reflexivity
    | intros Hne; try (exfalso; apply Hne; repeat split; reflexivity); clear Hne ].
  all: match goal with
       | |- context [Qltb 0 ?m] =>
           let b := eval vm_compute in (Qltb 0 m) in change (Qltb 0 m) with b; cbv iota
       end.
  all: rewrite CLAMP_unit_one, CLAMP_unit_zero.
  all: rewrite div_ge_one, div_le_zero by reflexivity.
  all: cbn [forallb].
  all: rewrite <- ?One1, <- ?Zero1, <- ?One2, <- ?Zero2, <- ?Zero3.
  all: try (assert (T3 : of_nat (length (List.filter (fun s => mem s (skills agent)) required0))
                         / of_nat (length required0) == 1) by (apply One3; reflexivity)).
  all: try (assert (F3 : ~ of_nat (length (List.filter (fun s => mem s (skills agent)) required0))
                         / of_nat (length required0) == 1)
              by (intros T; apply One3 in T; discriminate)).
  all: repeat match goal with
       | |- context [of_nat (length (List.filter ?f ?l)) / of_nat (length ?l)] =>
           generalize dependent (of_nat (length (List.filter f l)) / of_nat (length l));
           intros
       end.
  all: split; (split; [intros H; repeat split; try reflexivity; try lra
                      | intros (Ha & Hb & Hc); try discriminate; try lra]).
Qed.

End MetadataExpert.

Lemma expert_metadata_full_match_witness :
  exists score,
    EXPERT_METADATA auth_services auth_agent auth_request None = Ok score
    /\ (score == 1)%Q.
Proof.
  destruct (expert_metadata_full_match auth_services auth_agent auth_request None
              [] EmptyString eq_refl eq_refl) as (score & Hrun & _ & _ & H).
  exists score. split; [exact Hrun |].
  destruct H as [H1 _].
  - intros (E & _). vm_compute in E. discriminate.
  - apply H1. repeat split; vm_compute; reflexivity.
Defined.

(** ** Expert 4: recency *)

Section RecencyExpert.

Variable sv : Services.
Local Open Scope Q_scope.

Lemma CLAMP_monotone v v' lo hi :
  lo <= hi -> v <= v' -> CLAMP v lo hi <= CLAMP v' lo hi.
Proof.
  intros Hle Hv. unfold CLAMP.
  destruct (Qltb v lo) eqn:A; destruct (Qltb v' lo) eqn:A';
    destruct (Qltb hi v) eqn:B; destruct (Qltb hi v') eqn:B';
    rewrite ?Qltb_lt, ?Qltb_ge in *; lra.
Qed.

Lemma recency_step_counts patternType currentTime timeWindowSeconds seen won win :
  recency_step patternType currentTime timeWindowSeconds (seen, won) win
  = if counts_as_recent patternType currentTime timeWindowSeconds win
    then (S seen, if win_success win then S won else won)
    else (seen, won).
Proof.
  unfold recency_step, counts_as_recent.
  destruct (bool_decide (win_pattern_type win = patternType)); cbn [andb]; [| reflexivity].
  destruct (_ <=? _)%Z; reflexivity.
Qed.

Lemma recency_fold patternType currentTime timeWindowSeconds wins : forall seen won,
  let recent := List.filter (counts_as_recent patternType currentTime timeWindowSeconds) wins in
  fold_left (recency_step patternType currentTime timeWindowSeconds) wins (seen, won)
  = ((seen + length recent)%nat, (won + length (List.filter win_success recent))%nat).
Proof.
  induction wins as [| win rest IH]; intros seen won; cbn [fold_left List.filter].
  - simpl. now rewrite !Nat.add_0_r.
  - rewrite recency_step_counts.
    destruct (counts_as_recent patternType currentTime timeWindowSeconds win).
    + rewrite IH. cbn [List.filter length].
      destruct (win_success win); cbn [length]; apply pair_equal_spec; split; lia.
    + apply IH.
Qed.

(** X4: EXPERT_RECENCY.  An agent with no recorded wins gets the stored
    success rate as it is, and the clock is not read.  Otherwise the clock is
    read once and only the wins of the requested pattern type dated no more
    than the window before that reading (wins dated after it included)
    count: the score is the stored rate plus 0.2 times the share of
    successes among them, clamped to [0, 1]; it is never below the clamped
    stored rate and exceeds it by at most 0.2. *)
Theorem expert_recency_counts_recent_wins (agent : Agent) (patternType : string)
    (timeWindowMinutes : Z) (base : Q) (w : World) :
  GET_SUCCESS_RATE sv (agent_id agent) patternType = Ok base ->
  let currentTime := (SYSTEM_CLOCK_MILLISECONDS sv (tick w) / 1000)%Z in
  let recent :=
    List.filter (counts_as_recent patternType currentTime (timeWindowMinutes * 60))
                (recent_wins agent) in
  let successes := List.filter win_success recent in
  (recent_wins agent = [] ->
   EXPERT_RECENCY sv agent patternType timeWindowMinutes w = (Ok base, w))
  /\ (recent_wins agent <> [] ->
      exists score,
        EXPERT_RECENCY sv agent patternType timeWindowMinutes w = (Ok score, advance_clock w)
        /\ (recent = [] -> score == CLAMP base 0 1)
        /\ (recent <> [] ->
            score == CLAMP (base + 0.2 * (of_nat (length successes) / of_nat (length recent))) 0 1)
        /\ CLAMP base 0 1 <= score <= CLAMP (base + 0.2) 0 1).
Proof.
  intros Hbase currentTime recent successes.
  unfold EXPERT_RECENCY, StateMonad.bind, StateMonad.lift. rewrite Hbase.
  split.
  - intros ->. reflexivity.
  - intros Hne.
    assert (Hlen : (length (recent_wins agent) =? 0)%nat = false)
      by (destruct (recent_wins agent); [congruence | reflexivity]).
    rewrite Hlen.
    unfold CURRENT_TIMESTAMP, StateMonad.bind, CURRENT_TIME_MS, StateMonad.ret.
    fold currentTime.
    rewrite (recency_fold patternType currentTime (timeWindowMinutes * 60) (recent_wins agent) 0 0).
    fold recent. fold successes. cbn [Nat.add].
    destruct (0 <? length recent)%nat eqn:Hpos.
    + apply Nat.ltb_lt in Hpos.
      destruct (share_bounds (length successes) (length recent) Hpos
                  (List.filter_length_le _ _)) as (Hb & _ & _).
      eexists. split; [reflexivity |].
      split; [intros E; rewrite E in Hpos; simpl in Hpos; lia |].
      split; [intros _; apply CLAMP_compat; ring |].
      split; apply CLAMP_monotone; lra.
    + apply Nat.ltb_ge in Hpos.
      eexists. split; [reflexivity |].
      split; [intros _; apply CLAMP_compat; ring |].
      split; [intros E; destruct recent; [congruence | simpl in Hpos; lia] |].
      split; apply CLAMP_monotone; lra.
Qed.

End RecencyExpert.

Lemma expert_recency_counts_recent_wins_witness :
  exists score,
    EXPERT_RECENCY seasoned_services seasoned_agent "login" 60 initial_world
    = (Ok score, advance_clock initial_world)
    /\ (score == 0.7)%Q.
Proof.
  destruct (expert_recency_counts_recent_wins seasoned_services seasoned_agent "login" 60 0.6
              initial_world) as [_ H].
  - vm_compute. reflexivity.
  - destruct H as (score & Hrun & _ & Hscore & _); [discriminate |].
    exists score. split; [exact Hrun |].
    rewrite Hscore by (vm_compute; discriminate).
    vm_compute. reflexivity.
Defined.

(** ** Experts 5 and 8: team diversity and confidence calibration *)

Section LoadAndCalibrationExperts.

Variable sv : Services.
Local Open Scope Q_scope.

Ltac name_quotient :=
  match goal with
  | |- context [?x / ?c] =>
      let q := fresh "q" in
      let Hq := fresh "Hq" in
      assert (Hq : x / c * c == x) by (field; try discriminate);
      set (q := x / c) in *; clearbody q
  end.

Lemma DIVIDE_nonzero x y : ~ y == 0 -> DIVIDE x y = Ok (x / y).
Proof.
  intros Hy. unfold DIVIDE. destruct (Qeq_bool y 0) eqn:E; [| reflexivity].
  apply Qeq_bool_iff in E. contradiction.
Qed.

(** X5: EXPERT_TEAM_DIVERSITY.  For one agent under two loads (assignments
    over capacity, the capacity not zero), with the same answers about its
    current assignment and its similar colleagues, the heavier load never gives
    the higher score.  An agent that is not assigned yet, with at most two
    similar colleagues and a load of at most 80%, scores 1; the same agent
    already assigned, with a load between 30% and 80%, scores 0.8. *)
Theorem expert_team_diversity_falls_with_load (a1 a2 : Agent) (context : Context)
    (eligible1 eligible2 : list Agent) (assigned : bool) (similar : nat) :
  agent_id a1 = agent_id a2 ->
  AGENT_ALREADY_ASSIGNED sv (agent_id a1) context = Ok assigned ->
  COUNT_SIMILAR_AGENTS_ASSIGNED sv (agent_id a1) context 0.7 = Ok similar ->
  ~ team_capacity a1 == 0 ->
  ~ team_capacity a2 == 0 ->
  team_assignments a1 / team_capacity a1 <= team_assignments a2 / team_capacity a2 ->
  exists s1 s2,
    EXPERT_TEAM_DIVERSITY sv a1 context eligible1 = Ok s1
    /\ EXPERT_TEAM_DIVERSITY sv a2 context eligible2 = Ok s2
    /\ s2 <= s1
    /\ (assigned = false -> (similar <= 2)%nat ->
        team_assignments a1 / team_capacity a1 <= 0.8 -> s1 == 1)
    /\ (assigned = true -> (similar <= 2)%nat ->
        0.3 <= team_assignments a1 / team_capacity a1 <= 0.8 -> s1 == 0.8).
Proof.
  intros Hid Hassigned Hsimilar Hc1 Hc2 Hload.
  unfold EXPERT_TEAM_DIVERSITY. rewrite <- Hid, Hassigned, Hsimilar.
  rewrite (DIVIDE_nonzero _ _ Hc1), (DIVIDE_nonzero _ _ Hc2).
  cbn [ExcMonad.bind].
  generalize dependent (team_assignments a1 / team_capacity a1).
  generalize dependent (team_assignments a2 / team_capacity a2).
  intros load2 load1 Hload.
  pose proof (of_nat_nonneg similar) as Hnn.
  assert (Hsim : (2 <? similar)%nat = true -> 2 < of_nat similar).
  { intros H. apply Nat.ltb_lt in H. unfold of_nat.
    change 2 with (inject_Z 2). rewrite <- Zlt_Qlt. lia. }
  assert (Hsim' : (similar <= 2)%nat -> (2 <? similar)%nat = false)
    by (intros H; apply Nat.ltb_ge; exact H).
  eexists _, _. split; [reflexivity |]. split; [reflexivity |].
  split; [| split].
  - apply CLAMP_monotone; [lra |].
    destruct assigned; destruct (2 <? similar)%nat;
      destruct (Qltb 0.8 load1) eqn:A1; destruct (Qltb load1 0.3) eqn:B1;
      destruct (Qltb 0.8 load2) eqn:A2; destruct (Qltb load2 0.3) eqn:B2;
      rewrite ?Qltb_lt, ?Qltb_ge in *; lra.
  - intros -> Hle Hl. rewrite (Hsim' Hle).
    apply CLAMP_unit_one.
    destruct (Qltb 0.8 load1) eqn:A1; destruct (Qltb load1 0.3) eqn:B1;
      rewrite ?Qltb_lt, ?Qltb_ge in *; lra.
  - intros -> Hle [Hl1 Hl2]. rewrite (Hsim' Hle).
    destruct (Qltb 0.8 load1) eqn:A1; destruct (Qltb load1 0.3) eqn:B1;
      rewrite ?Qltb_lt, ?Qltb_ge in *; try lra.
    rewrite CLAMP_id; lra.
Qed.

(** X6: EXPERT_CONFIDENCE_CALIBRATION.  With a recorded accuracy (not
    negative) for both agents, the more accurate agent never scores lower.  The
    score is at least 0.05; it is below 0.5 for an accuracy under 90%, exactly
    0.5 between 90% and 95%, and 1 from 97.5% on. *)
Theorem expert_confidence_calibration_rises_with_accuracy (a1 a2 : Agent)
    (accuracy1 accuracy2 : Q) :
  GET_AGENT_RECENT_ACCURACY sv (agent_id a1) 7 = Ok (Some accuracy1) ->
  GET_AGENT_RECENT_ACCURACY sv (agent_id a2) 7 = Ok (Some accuracy2) ->
  0 <= accuracy1 ->
  accuracy1 <= accuracy2 ->
  exists s1 s2,
    EXPERT_CONFIDENCE_CALIBRATION sv a1 = Ok s1
    /\ EXPERT_CONFIDENCE_CALIBRATION sv a2 = Ok s2
    /\ s1 <= s2
    /\ 0.05 <= s1
    /\ (accuracy1 < 0.90 -> s1 < 0.5)
    /\ (0.90 <= accuracy1 <= 0.95 -> s1 == 0.5)
    /\ (0.975 <= accuracy1 -> s1 == 1).
Proof.
  intros H1 H2 Hnn Hle.
  unfold EXPERT_CONFIDENCE_CALIBRATION. rewrite H1, H2. cbn [ExcMonad.bind].
  eexists _, _. split; [reflexivity |]. split; [reflexivity |].
  repeat name_quotient.
  split; [| split; [| split; [| split]]].
  - apply CLAMP_monotone; [lra |].
    destruct (Qle_bool 0.95 accuracy1) eqn:A1; destruct (Qle_bool 0.90 accuracy1) eqn:B1;
      destruct (Qle_bool 0.95 accuracy2) eqn:A2; destruct (Qle_bool 0.90 accuracy2) eqn:B2;
      rewrite ?Qle_bool_iff, ?Qle_bool_gt in *; lra.
  - unfold CLAMP.
    destruct (Qle_bool 0.95 accuracy1) eqn:A1; destruct (Qle_bool 0.90 accuracy1) eqn:B1;
      rewrite ?Qle_bool_iff, ?Qle_bool_gt in *;
      match goal with |- context [Qltb ?x 0] => destruct (Qltb x 0) eqn:C end;
      try match goal with |- context [Qltb 1 ?x] => destruct (Qltb 1 x) eqn:D end;
      rewrite ?Qltb_lt, ?Qltb_ge in *; lra.
  - intros Hlow.
    destruct (Qle_bool 0.95 accuracy1) eqn:A1; destruct (Qle_bool 0.90 accuracy1) eqn:B1;
      rewrite ?Qle_bool_iff, ?Qle_bool_gt in *; try lra.
    unfold CLAMP.
    match goal with |- context [Qltb ?x 0] => destruct (Qltb x 0) eqn:C end;
      try match goal with |- context [Qltb 1 ?x] => destruct (Qltb 1 x) eqn:D end;
      rewrite ?Qltb_lt, ?Qltb_ge in *; lra.
  - intros [Hlo Hhi].
    destruct (Qle_bool 0.95 accuracy1) eqn:A1; destruct (Qle_bool 0.90 accuracy1) eqn:B1;
      rewrite ?Qle_bool_iff, ?Qle_bool_gt in *; try lra.
    + rewrite CLAMP_id; lra.
    + reflexivity.
  - intros Hhigh. apply CLAMP_unit_one.
    destruct (Qle_bool 0.95 accuracy1) eqn:A1; destruct (Qle_bool 0.90 accuracy1) eqn:B1;
      rewrite ?Qle_bool_iff, ?Qle_bool_gt in *; lra.
Qed.

End LoadAndCalibrationExperts.

(** ** The scoring engine *)

Section ScoringEngine.

Variable sv : Services.
Local Open Scope Q_scope.

Lemma CLAMP_fixed value : 0 <= value <= 1 -> CLAMP value 0 1 = value.
Proof.
  intros [H0 H1]. unfold CLAMP.
  destruct (Qltb value 0) eqn:A; [apply Qltb_lt in A; lra |].
  destruct (Qltb 1 value) eqn:B; [apply Qltb_lt in B; lra | reflexivity].
Qed.

(** What the eight guarded expert calls and the normalisation loop leave in
    the dictionary. *)
Lemma expert_scores_entries agent pattern context candidates sims w :
  exists recency relevance w1 w',
    StateMonad.try_catch (EXPERT_RECENCY sv agent (EXTRACT_PATTERN_TYPE (metadata pattern)) 60)
      (fun _ => StateMonad.ret 0.5) w = (Ok recency, w1)
    /\ StateMonad.try_catch (EXPERT_CONTEXT_RELEVANCE sv agent context pattern)
         (fun _ => StateMonad.ret 0.5) w1 = (Ok relevance, w')
    /\ exists expertScores,
         EXPERT_SCORES sv agent pattern context candidates sims w = (Ok expertScores, w')
         /\ expertScores !! "similarity"%string
            = Some (CLAMP (ExcMonad.try_catch
                             (EXPERT_SIMILARITY (agent_id agent) candidates sims) 0.5) 0 1)
         /\ expertScores !! "metadata"%string
            = Some (CLAMP (ExcMonad.try_catch
                             (EXPERT_METADATA sv agent pattern (requested_skills pattern)) 0.5) 0 1)
         /\ expertScores !! "success_rate"%string
            = Some (CLAMP (ExcMonad.try_catch
                             (EXPERT_SUCCESS_RATE agent (EXTRACT_PATTERN_TYPE (metadata pattern)))
                             0.5) 0 1)
         /\ expertScores !! "recency"%string = Some (CLAMP recency 0 1)
         /\ expertScores !! "team_diversity"%string
            = Some (CLAMP (ExcMonad.try_catch (EXPERT_TEAM_DIVERSITY sv agent context []) 0.5) 0 1)
         /\ expertScores !! "latency_fit"%string
            = Some (CLAMP (ExcMonad.try_catch
                             (EXPERT_LATENCY_FIT agent (EXTRACT_PRIORITY (metadata pattern))
                                (requested_ceiling pattern)) 0.5) 0 1)
         /\ expertScores !! "context_relevance"%string = Some (CLAMP relevance 0 1)
         /\ expertScores !! "confidence_calibration"%string
            = Some (CLAMP (ExcMonad.try_catch (EXPERT_CONFIDENCE_CALIBRATION sv agent) 0.5) 0 1).
Proof.
  destruct (try_catch_default_returns
              (EXPERT_RECENCY sv agent (EXTRACT_PATTERN_TYPE (metadata pattern)) 60) 0.5 w)
    as (recency & w1 & Hrecency).
  destruct (try_catch_default_returns (EXPERT_CONTEXT_RELEVANCE sv agent context pattern) 0.5 w1)
    as (relevance & w' & Hrelevance).
  exists recency, relevance, w1, w'. split; [exact Hrecency |]. split; [exact Hrelevance |].
  unfold EXPERT_SCORES. unfold StateMonad.bind at 1. rewrite Hrecency.
  unfold StateMonad.bind at 1. rewrite Hrelevance.
  unfold StateMonad.ret. eexists. split; [reflexivity |].
  unfold requested_skills, requested_ceiling.
  repeat split; rewrite lookup_fmap;
    repeat (rewrite lookup_insert_ne by discriminate);
    rewrite lookup_insert_eq; reflexivity.
Qed.

Lemma weighted_sum_run (expertScores : gmap string Q) s1 s2 s3 s4 s5 s6 s7 s8 :
  expertScores !! "similarity"%string = Some s1 ->
  expertScores !! "metadata"%string = Some s2 ->
  expertScores !! "success_rate"%string = Some s3 ->
  expertScores !! "recency"%string = Some s4 ->
  expertScores !! "team_diversity"%string = Some s5 ->
  expertScores !! "latency_fit"%string = Some s6 ->
  expertScores !! "context_relevance"%string = Some s7 ->
  expertScores !! "confidence_calibration"%string = Some s8 ->
  weighted_sum expertScores weights 0
  = Ok (0 + s1 * 0.25 + s2 * 0.15 + s3 * 0.20 + s4 * 0.10 + s5 * 0.10 + s6 * 0.10
        + s7 * 0.07 + s8 * 0.03).
Proof.
  intros H1 H2 H3 H4 H5 H6 H7 H8. unfold weights. cbn [weighted_sum].
  rewrite H1, H2, H3, H4, H5, H6, H7, H8. reflexivity.
Qed.

Lemma compute_expert_score_run agent pattern context candidates sims w expertScores w' total :
  EXPERT_SCORES sv agent pattern context candidates sims w = (Ok expertScores, w') ->
  weighted_sum expertScores weights 0 = Ok total ->
  0 <= total <= 1 ->
  COMPUTE_EXPERT_SCORE sv agent pattern context candidates sims w
  = (match CACHE_WRITE sv ("expert_scores:" ++ agent_id agent) with
     | Ok _ => Ok total
     | Throw e => Throw e
     end, w').
Proof.
  intros Hscores Hsum Hrange.
  unfold COMPUTE_EXPERT_SCORE. unfold StateMonad.bind at 1. rewrite Hscores.
  unfold StateMonad.bind at 1. unfold StateMonad.lift at 1.
  rewrite weights_assertion_holds.
  unfold StateMonad.bind at 1. unfold StateMonad.lift at 1. rewrite Hsum.
  unfold StateMonad.bind, StateMonad.lift, StateMonad.ret.
  rewrite (CLAMP_fixed total Hrange).
  destruct (CACHE_WRITE sv _); reflexivity.
Qed.

(** X7: COMPUTE_EXPERT_SCORE.  The eight experts never fail: each leaves a
    score under its name, and the final score is
    0.25 s1 + 0.15 s2 + 0.20 s3 + 0.10 s4 + 0.10 s5 + 0.10 s6 + 0.07 s7 + 0.03 s8
    of these eight scores as they are, which lies in [0, 1].  The only way the
    function fails is the write of the score breakdown to the cache. *)
Theorem compute_expert_score_is_weighted_sum (agent : Agent) (pattern : Request)
    (context : Context) (candidates : list Candidate) (sims : list Q) (w : World) :
  exists expertScores w' s1 s2 s3 s4 s5 s6 s7 s8 total,
    EXPERT_SCORES sv agent pattern context candidates sims w = (Ok expertScores, w')
    /\ List.map (fun expertName => expertScores !! expertName) (List.map fst weights)
       = List.map Some [s1; s2; s3; s4; s5; s6; s7; s8]
    /\ weighted_sum expertScores weights 0 = Ok total
    /\ total == 0.25 * s1 + 0.15 * s2 + 0.20 * s3 + 0.10 * s4 + 0.10 * s5 + 0.10 * s6
                + 0.07 * s7 + 0.03 * s8
    /\ 0 <= total <= 1
    /\ COMPUTE_EXPERT_SCORE sv agent pattern context candidates sims w
       = (match CACHE_WRITE sv ("expert_scores:" ++ agent_id agent) with
          | Ok _ => Ok total
          | Throw e => Throw e
          end, w').
Proof.
  destruct (expert_scores_entries agent pattern context candidates sims w)
    as (recency & relevance & w1 & w' & _ & _ & es & Hrun
        & E1 & E2 & E3 & E4 & E5 & E6 & E7 & E8).
  pose proof (weighted_sum_run es _ _ _ _ _ _ _ _ E1 E2 E3 E4 E5 E6 E7 E8) as Hsum.
  repeat match type of Hsum with
  | context [CLAMP ?v 0 1] =>
      let s := fresh "s" in
      pose proof (CLAMP_unit v);
      set (s := CLAMP v 0 1) in *; clearbody s
  end.
  match type of Hsum with _ = Ok ?t => set (total := t) in * end.
  assert (Hrange : 0 <= total <= 1) by (unfold total; lra).
  eexists es, w', _, _, _, _, _, _, _, _, total.
  split; [exact Hrun |].
  split; [cbn [List.map weights fst]; rewrite E1, E2, E3, E4, E5, E6, E7, E8; reflexivity |].
  split; [exact Hsum |].
  split; [unfold total; ring |].
  split; [exact Hrange |].
  exact (compute_expert_score_run _ _ _ _ _ _ _ _ _ Hrun Hsum Hrange).
Qed.

End ScoringEngine.

(** C7 as stated fails for a request whose priority is none of the four
    tiers.  The tier is read before the ceiling is compared, so the expert
    raises instead of returning 0, although the agent's maximum latency of
    400 ms exceeds the ceiling of 100 ms; the scoring engine then records
    the neutral 0.5 for latency fit. *)
Lemma latency_fit_unknown_priority_counterexample :
  let agent := sample_agent "agent1" [] 0.9 300 400 1 10 in
  EXTRACT_PRIORITY (metadata urgent_request) = "urgent"%string
  /\ requested_ceiling urgent_request = Some 100%Q
  /\ (100 < max (latency_profile agent))%Q
  /\ EXPERT_LATENCY_FIT agent (EXTRACT_PRIORITY (metadata urgent_request))
       (requested_ceiling urgent_request) = Throw RuntimeError
  /\ exists expertScores w',
       EXPERT_SCORES (two_agent_services 0) agent urgent_request sample_context
         demo_candidates [0.95%Q; 0.85%Q] initial_world = (Ok expertScores, w')
       /\ expertScores !! "latency_fit"%string = Some 0.5%Q.
Proof.
  intros agent. split; [reflexivity |]. split; [reflexivity |].
  split; [reflexivity |]. split; [reflexivity |].
  destruct (expert_scores_entries (two_agent_services 0) agent urgent_request sample_context
              demo_candidates [0.95%Q; 0.85%Q] initial_world)
    as (recency & relevance & w1 & w' & _ & _ & expertScores & Hrun & _ & _ & _ & _ & _
        & Hlatency & _).
  exists expertScores, w'. split; [exact Hrun |]. rewrite Hlatency. reflexivity.
Qed.

Section ScoreCaps.

Variable sv : Services.
Local Open Scope Q_scope.

Lemma context_relevance_excluded agent context pattern w :
  mem (agent_id agent) (up_excluded_agents (user_preferences context)) = true ->
  EXPERT_CONTEXT_RELEVANCE sv agent context pattern w = (Ok 0, w).
Proof.
  intros H. unfold EXPERT_CONTEXT_RELEVANCE. rewrite H. reflexivity.
Qed.

Lemma latency_fit_over_ceiling agent priority tier ceiling :
  assoc priority priorityLatencies = Some tier ->
  ceiling < max (latency_profile agent) ->
  EXPERT_LATENCY_FIT agent priority (Some ceiling) = Ok 0.
Proof.
  intros Htier Hover. unfold EXPERT_LATENCY_FIT. rewrite Htier.
  apply Qltb_lt in Hover. now rewrite Hover.
Qed.

(** X8: what single experts can cost.  When the breakdown can be cached the
    score is returned and lies in [0, 1].  It is at most 0.75 for an agent that
    is not among the candidates of the search, at most 0.93 for an agent the
    user has excluded, at most 0.90 for an agent whose worst latency exceeds
    the ceiling that a request of a known priority asks for, and at most 0.58
    with all three. *)
Theorem expert_score_caps (agent : Agent) (pattern : Request) (context : Context)
    (candidates : list Candidate) (sims : list Q) (w : World) :
  CACHE_WRITE sv ("expert_scores:" ++ agent_id agent) = Ok tt ->
  let absent := forall c, In c candidates -> c_agent_id c <> agent_id agent in
  let excluded :=
    mem (agent_id agent) (up_excluded_agents (user_preferences context)) = true in
  let too_slow :=
    exists tier ceiling,
      assoc (EXTRACT_PRIORITY (metadata pattern)) priorityLatencies = Some tier
      /\ requested_ceiling pattern = Some ceiling
      /\ ceiling < max (latency_profile agent) in
  exists score w',
    COMPUTE_EXPERT_SCORE sv agent pattern context candidates sims w = (Ok score, w')
    /\ 0 <= score <= 1
    /\ (absent -> score <= 0.75)
    /\ (excluded -> score <= 0.93)
    /\ (too_slow -> score <= 0.90)
    /\ (absent -> excluded -> too_slow -> score <= 0.58).
Proof.
  intros Hcache absent excluded too_slow.
  destruct (expert_scores_entries sv agent pattern context candidates sims w)
    as (recency & relevance & w1 & w' & _ & Hrel & es & Hrun
        & E1 & E2 & E3 & E4 & E5 & E6 & E7 & E8).
  pose proof (weighted_sum_run es _ _ _ _ _ _ _ _ E1 E2 E3 E4 E5 E6 E7 E8) as Hsum.
  assert (Habsent : absent ->
            CLAMP (ExcMonad.try_catch (EXPERT_SIMILARITY (agent_id agent) candidates sims) 0.5)
                  0 1 == 0).
  { intros Ha. unfold EXPERT_SIMILARITY.
    rewrite (find_candidate_absent (agent_id agent) candidates 0 Ha). reflexivity. }
  assert (Hexcluded : excluded -> CLAMP relevance 0 1 == 0).
  { intros He. unfold StateMonad.try_catch in Hrel.
    rewrite (context_relevance_excluded agent context pattern w1 He) in Hrel.
    injection Hrel as <- _. reflexivity. }
  assert (Hslow : too_slow ->
            CLAMP (ExcMonad.try_catch
                     (EXPERT_LATENCY_FIT agent (EXTRACT_PRIORITY (metadata pattern))
                        (requested_ceiling pattern)) 0.5) 0 1 == 0).
  { intros (tier & ceiling & Htier & Hceiling & Hover).
    rewrite Hceiling, (latency_fit_over_ceiling agent _ tier ceiling Htier Hover).
    reflexivity. }
  repeat match type of Hsum with
  | context [CLAMP ?v 0 1] =>
      let s := fresh "s" in
      pose proof (CLAMP_unit v);
      set (s := CLAMP v 0 1) in *; clearbody s
  end.
  match type of Hsum with _ = Ok ?t => set (total := t) in * end.
  assert (Hrange : 0 <= total <= 1) by (unfold total; lra).
  exists total, w'. split.
  - rewrite (compute_expert_score_run sv _ _ _ _ _ _ _ _ _ Hrun Hsum Hrange).
    now rewrite Hcache.
  - split; [exact Hrange |].
    split; [intros Ha; specialize (Habsent Ha); unfold total; lra |].
    split; [intros He; specialize (Hexcluded He); unfold total; lra |].
    split; [intros Hs; specialize (Hslow Hs); unfold total; lra |].
    intros Ha He Hs. specialize (Habsent Ha). specialize (Hexcluded He).
    specialize (Hslow Hs). unfold total. lra.
Qed.

End ScoreCaps.

(** ** The consensus step *)

Section ConsensusStep.

Variable sv : Services.

Lemma COUNT_TRUE_le results : (COUNT_TRUE results <= length results)%nat.
Proof. unfold COUNT_TRUE. apply List.filter_length_le. Qed.

Lemma all_votes_length tasks : forall validatorId,
  length (all_votes sv validatorId tasks) = length tasks.
Proof.
  induction tasks as [| task rest IH]; intros validatorId; simpl; [reflexivity |].
  now rewrite IH.
Qed.

(** The collection loop run to its end or to the early return: the votes
    recorded in the world are those of the first [k] tasks, the cache, the
    identifiers are untouched. *)
Lemma collect_votes_run start tasks : forall validatorId results w,
  validatorResults w = results ->
  exists outcome k w',
    collect_votes sv start tasks validatorId results w = (Ok outcome, w')
    /\ (k <= length tasks)%nat
    /\ validatorResults w' = results ++ firstn k (all_votes sv validatorId tasks)
    /\ (forall votes, outcome = Some votes ->
          votes = results ++ all_votes sv validatorId tasks /\ validatorResults w' = votes)
    /\ decision_cache w' = decision_cache w
    /\ uuids_issued w' = uuids_issued w.
Proof.
  induction tasks as [| task rest IH]; intros validatorId results w Hw; cbn [collect_votes].
  - exists (Some results), 0%nat, w. unfold StateMonad.ret.
    split; [reflexivity |]. split; [simpl; lia |].
    split; [simpl; now rewrite app_nil_r |].
    split; [| split; reflexivity].
    intros votes [= <-]. simpl. rewrite app_nil_r. now split.
  - unfold StateMonad.bind, SET_VALIDATOR_RESULTS, CURRENT_TIME_MS. cbn [tick record_votes].
    destruct (50 <? _)%Z.
    + exists None, 1%nat. eexists. unfold StateMonad.ret.
      split; [reflexivity |]. split; [simpl; lia |].
      split; [reflexivity |]. split; [discriminate |]. split; reflexivity.
    + destruct (IH (S validatorId) (results ++ [vote_of sv validatorId task])
                  (advance_clock (record_votes (results ++ [vote_of sv validatorId task]) w))
                  eq_refl)
        as (outcome & k & w' & Hrun & Hk & Hvotes & Hsome & Hcache & Huuid).
      exists outcome, (S k), w'.
      split; [exact Hrun |]. split; [simpl; lia |].
      split; [rewrite Hvotes; cbn [all_votes firstn]; now rewrite <- app_assoc |].
      split; [| split; [exact Hcache | exact Huuid]].
      intros votes Hv. destruct (Hsome votes Hv) as [E1 E2].
      split; [| exact E2]. rewrite E1. cbn [all_votes]. now rewrite <- app_assoc.
Qed.

(** The consensus step always returns.  The agreement count it reports is
    the number of [true] votes among those recorded, which are the votes of
    the first [k] validators; APPROVE and ESCALATE are reached only with all
    five votes in. *)
Lemma run_consensus_shape primaryAgent alternativeAgents patternRequest executionContext w :
  let votes :=
    all_votes sv 0
      (validatorTasks sv primaryAgent alternativeAgents patternRequest executionContext) in
  exists consensusResult consensusLatency k w',
    run_consensus sv primaryAgent alternativeAgents patternRequest executionContext w
    = (Ok (consensusResult, COUNT_TRUE (firstn k votes), consensusLatency), w')
    /\ (k <= 5)%nat
    /\ validatorResults w' = firstn k votes
    /\ decision_cache w' = decision_cache w
    /\ (consensusResult = APPROVE \/ consensusResult = ESCALATE \/ consensusResult = TIMEOUT)
    /\ (consensusResult = APPROVE -> k = 5%nat /\ (3 <= COUNT_TRUE votes)%nat)
    /\ (consensusResult = ESCALATE ->
        k = 5%nat /\ (COUNT_TRUE votes < 3)%nat /\ (COUNT_NULL votes < 2)%nat).
Proof.
  intros votes.
  unfold run_consensus, VALIDATE_BYZANTINE.
  unfold StateMonad.bind at 1. unfold CURRENT_TIME_MS at 1.
  unfold StateMonad.try_catch.
  unfold StateMonad.bind at 1. unfold StateMonad.bind at 1. unfold CURRENT_TIME_MS at 1.
  unfold StateMonad.bind at 1. unfold SET_VALIDATOR_RESULTS at 1.
  unfold StateMonad.bind at 1.
  set (tasks := validatorTasks sv primaryAgent alternativeAgents patternRequest executionContext)
    in *.
  set (w0 := record_votes [] (advance_clock (advance_clock w))).
  destruct (collect_votes_run (SYSTEM_CLOCK_MILLISECONDS sv (tick (advance_clock w))) tasks 0 []
              w0 eq_refl)
    as (outcome & k & w1 & Hrun & Hk & Hvotes & Hsome & Hcache & _).
  rewrite Hrun. cbn [app] in Hvotes. fold votes in Hvotes.
  assert (Hlen : length votes = 5%nat) by (unfold votes; now rewrite all_votes_length).
  assert (Hk5 : (k <= 5)%nat) by exact Hk.
  assert (Hfull : forall all, outcome = Some all -> all = votes /\ k = 5%nat).
  { intros all Hall. destruct (Hsome all Hall) as [E1 E2]. cbn [app] in E1. fold votes in E1.
    split; [exact E1 |].
    rewrite Hvotes, E1 in E2. apply (f_equal (@length _)) in E2.
    rewrite length_firstn, Hlen in E2. lia. }
  destruct outcome as [all |].
  - destruct (Hfull all eq_refl) as [-> ->].
    assert (Hall : firstn 5 votes = votes) by (apply firstn_all2; lia).
    destruct (3 <=? Z.of_nat (COUNT_TRUE votes))%Z eqn:Happrove.
    + cbv beta iota delta [StateMonad.bind StateMonad.ret CURRENT_TIME_MS
                                 GET_VALIDATOR_AGREEMENT_COUNT].
      exists APPROVE. eexists _, 5%nat, _.
      cbn [validatorResults advance_clock decision_cache]. rewrite Hvotes.
      split; [reflexivity |]. split; [lia |]. split; [exact Hvotes |]. split; [exact Hcache |].
      split; [now left |].
      split; [intros _; split; [reflexivity | apply Z.leb_le in Happrove; lia] |].
      discriminate.
    + destruct ((Z.of_nat (COUNT_TRUE votes) <? 3)%Z
                && (Z.of_nat (COUNT_NULL votes) <? 5 - 3)%Z)%bool eqn:Hescalate.
      * cbv beta iota delta [StateMonad.bind StateMonad.ret CURRENT_TIME_MS
                                   GET_VALIDATOR_AGREEMENT_COUNT].
        exists ESCALATE. eexists _, 5%nat, _.
        cbn [validatorResults advance_clock decision_cache]. rewrite Hvotes.
        split; [reflexivity |]. split; [lia |]. split; [exact Hvotes |]. split; [exact Hcache |].
        split; [right; now left |]. split; [discriminate |].
        intros _. apply andb_true_iff in Hescalate as [H1 H2].
        apply Z.ltb_lt in H1, H2. split; [reflexivity | lia].
      * cbv beta iota delta [StateMonad.bind StateMonad.ret CURRENT_TIME_MS
                                   GET_VALIDATOR_AGREEMENT_COUNT].
        exists TIMEOUT. eexists _, 5%nat, _.
        cbn [validatorResults advance_clock decision_cache]. rewrite Hvotes.
        split; [reflexivity |]. split; [lia |]. split; [exact Hvotes |]. split; [exact Hcache |].
        split; [right; now right |]. split; discriminate.
  - cbv beta iota delta [StateMonad.bind StateMonad.ret CURRENT_TIME_MS
                             GET_VALIDATOR_AGREEMENT_COUNT].
    exists TIMEOUT. eexists _, k, _.
    cbn [validatorResults advance_clock decision_cache]. rewrite Hvotes.
    split; [reflexivity |]. split; [exact Hk5 |]. split; [exact Hvotes |]. split; [exact Hcache |].
    split; [right; now right |]. split; discriminate.
Qed.

Lemma COUNT_TRUE_firstn k votes : (COUNT_TRUE (firstn k votes) <= COUNT_TRUE votes)%nat.
Proof.
  unfold COUNT_TRUE. revert k. induction votes as [| v votes IH]; intros [| k]; simpl; try lia.
  specialize (IH k). destruct v as [[|] |]; simpl; lia.
Qed.

(** X10: VALIDATE_SEMANTIC_SIMILARITY without a runner-up.  When the primary
    agent has no alternative, the first validator abstains (its vote is NULL),
    so at most four validators can agree; and when the step ends in ESCALATE
    with every vote in, that abstention is the only one. *)
Theorem similarity_validator_abstains_without_runner_up (primaryAgent : Agent)
    (patternRequest : Request) (executionContext : Context) (w : World) :
  let votes :=
    all_votes sv 0 (validatorTasks sv primaryAgent [] patternRequest executionContext) in
  votes !! 0%nat = Some None
  /\ exists consensusResult consensusValidatorsAgreed consensusLatency w',
       run_consensus sv primaryAgent [] patternRequest executionContext w
       = (Ok (consensusResult, consensusValidatorsAgreed, consensusLatency), w')
       /\ (consensusValidatorsAgreed <= 4)%nat
       /\ (consensusResult = ESCALATE -> COUNT_NULL votes = 1%nat).
Proof.
  intros votes.
  assert (Hfirst : exists others, votes = None :: others /\ length others = 4%nat).
  { exists (all_votes sv 1
              (tail (validatorTasks sv primaryAgent [] patternRequest executionContext))).
    split; [| reflexivity].
    unfold votes, validatorTasks. cbn [all_votes tail]. f_equal.
    unfold vote_of, WAIT_FOR_TASK, VALIDATE_SEMANTIC_SIMILARITY.
    destruct (TASK_COMPLETES sv 0 50); [| reflexivity].
    destruct (GET_AGENT_SIMILARITY_SCORE sv (agent_id primaryAgent)); reflexivity. }
  destruct Hfirst as (others & Hvotes & Hothers).
  split; [now rewrite Hvotes |].
  destruct (run_consensus_shape primaryAgent [] patternRequest executionContext w)
    as (result & latency & k & w' & Hrun & Hk & _ & _ & _ & _ & Hescalate).
  fold votes in Hrun, Hescalate.
  exists result, (COUNT_TRUE (firstn k votes)), latency, w'.
  split; [exact Hrun |]. split.
  - etransitivity; [apply COUNT_TRUE_firstn |]. rewrite Hvotes.
    unfold COUNT_TRUE. cbn [List.filter].
    etransitivity; [apply List.filter_length_le |]. lia.
  - intros E. destruct (Hescalate E) as (_ & _ & Hnull).
    rewrite Hvotes in *. unfold COUNT_NULL in *. cbn [List.filter length] in *. lia.
Qed.

End ConsensusStep.

(** ** The phases of SemanticRoute *)

Ltac run_pipeline :=
  cbv beta iota zeta delta
    [StateMonad.bind StateMonad.try_catch StateMonad.lift StateMonad.ret StateMonad.throw
     CURRENT_TIME_MS CURRENT_ISO8601_TIMESTAMP GENERATE_UUID CACHE_GET].

Section RoutePhases.

Variable sv : Services.

(** X11: phases 1 and 2 of SemanticRoute.  A request or a context that
    fails validation is answered with HTTP error 400 and leaves the decision
    cache as it was.  A valid request whose cache entry has not expired at the
    second clock reading is answered with the cached decision: the clock has
    been read twice, one identifier has been drawn, nothing else has been
    called and the cache is unchanged. *)
Theorem semantic_route_validates_then_serves_cache (patternRequest : Request)
    (executionContext : Context) (routingConstraints : RoutingConstraints) (w : World) :
  let served := {| tick := S (S (tick w));
                   uuids_issued := S (uuids_issued w);
                   decision_cache := decision_cache w;
                   validatorResults := validatorResults w |} in
  let hitTime := SYSTEM_CLOCK_MILLISECONDS sv (S (tick w)) in
  let startTime := SYSTEM_CLOCK_MILLISECONDS sv (tick w) in
  (VALIDATE_PATTERN_REQUEST sv patternRequest = Throw ValidationError
   \/ (VALIDATE_PATTERN_REQUEST sv patternRequest = Ok tt
       /\ VALIDATE_EXECUTION_CONTEXT sv executionContext = Throw ValidationError) ->
   exists w',
     SemanticRoute sv patternRequest executionContext routingConstraints w
     = (Throw (HttpError 400 "Invalid routing request"), w')
     /\ decision_cache w' = decision_cache w)
  /\ (forall cached expiry,
        VALIDATE_PATTERN_REQUEST sv patternRequest = Ok tt ->
        VALIDATE_EXECUTION_CONTEXT sv executionContext = Ok tt ->
        decision_cache w !! COMPUTE_CACHE_KEY sv patternRequest executionContext
        = Some (cached, expiry) ->
        (hitTime < expiry)%Z ->
        SemanticRoute sv patternRequest executionContext routingConstraints w
        = (Ok (Routed cached, Some (hitTime - startTime)%Z), served)).
Proof.
  intros served hitTime startTime. split.
  - intros [H1 | [H1 H2]]; unfold SemanticRoute; run_pipeline; rewrite H1; [| rewrite H2];
      eexists; (split; [reflexivity |]); reflexivity.
  - intros cached expiry H1 H2 Hcached Hfresh.
    unfold SemanticRoute. run_pipeline. rewrite H1, H2.
    cbn [tick advance_clock issue_uuid decision_cache]. rewrite Hcached.
    apply Z.ltb_lt in Hfresh. fold hitTime. rewrite Hfresh.
    reflexivity.
Qed.

End RoutePhases.

Section CandidateSearch.

Variable sv : Services.

(** X12: phase 4 of SemanticRoute.  A non-empty result of the index search
    is used as it is.  An empty result and a failure of the index (HnsError)
    both lead to the metadata fallback search, whose result is used instead;
    any other error of the index is passed on before the clock is read. *)
Theorem search_candidates_falls_back_to_metadata (patternRequest : Request)
    (patternEmbedding : list Q) (w : World) :
  (forall found,
     HNSW_SEARCH sv patternEmbedding 10 40 = Ok found -> found <> [] ->
     search_candidates sv patternRequest patternEmbedding w = (Ok found, advance_clock w))
  /\ (forall fallback,
        METADATA_FALLBACK_SEARCH sv patternRequest 10 = Ok fallback ->
        HNSW_SEARCH sv patternEmbedding 10 40 = Ok []
        \/ HNSW_SEARCH sv patternEmbedding 10 40 = Throw HnsError ->
        search_candidates sv patternRequest patternEmbedding w = (Ok fallback, advance_clock w))
  /\ (forall e,
        HNSW_SEARCH sv patternEmbedding 10 40 = Throw e -> e <> HnsError ->
        search_candidates sv patternRequest patternEmbedding w = (Throw e, w)).
Proof.
  split; [| split].
  - intros found Hfound Hne. unfold search_candidates. run_pipeline. rewrite Hfound.
    destruct found; [congruence | reflexivity].
  - intros fallback Hfallback [Hempty | Hfail]; unfold search_candidates; run_pipeline.
    + rewrite Hempty. cbn [length Nat.eqb]. rewrite Hfallback. reflexivity.
    + rewrite Hfail, Hfallback. reflexivity.
  - intros e He Hne. unfold search_candidates. run_pipeline. rewrite He.
    destruct e; try reflexivity. congruence.
Qed.

Ltac enter_search H :=
  let H1 := fresh "H1" in let H2 := fresh "H2" in let Hmiss := fresh "Hmiss" in
  let Hembedding := fresh "Hembedding" in let Hlength := fresh "Hlength" in
  destruct H as (H1 & H2 & Hmiss & Hembedding & Hlength);
  unfold SemanticRoute;
  cbv beta iota zeta delta
    [StateMonad.bind StateMonad.try_catch StateMonad.lift StateMonad.ret StateMonad.throw
     CURRENT_TIME_MS CURRENT_ISO8601_TIMESTAMP GENERATE_UUID CACHE_GET obtain_embedding
     search_candidates];
  rewrite H1, H2; cbn [tick advance_clock issue_uuid decision_cache]; rewrite Hmiss;
  rewrite Hembedding, Hlength, Nat.eqb_refl;
  cbv beta iota delta [ASSERT].

(** X13: SemanticRoute with nobody to choose from, for a request that is
    valid, not cached and brings its own embedding.  If the search and its
    metadata fallback find nobody, the answer is NoAgentsAvailableError; if the
    profile store fails, RoutingServiceError; if it knows none of the
    candidates, NoAgentsAvailableError again.  Only when profiles were loaded
    and the constraints filtered every one of them out is the fallback manager
    called, with the reason "No agents match constraints"; the outcome of the
    manager is the answer, and its decision is not cached. *)
Theorem semantic_route_without_eligible_agents (patternRequest : Request)
    (executionContext : Context) (routingConstraints : RoutingConstraints) (w : World)
    (patternEmbedding : list Q) :
  reaches_search sv patternRequest executionContext w patternEmbedding ->
  (* the search and its metadata fallback find nobody *)
  ((HNSW_SEARCH sv patternEmbedding 10 40 = Ok []
    \/ HNSW_SEARCH sv patternEmbedding 10 40 = Throw HnsError) ->
   METADATA_FALLBACK_SEARCH sv patternRequest 10 = Ok [] ->
   SemanticRoute sv patternRequest executionContext routingConstraints w
   = (Throw (NoAgentsAvailableError "Cannot route pattern - no candidates found"),
      later 3 (issue_uuid w)))
  /\ (forall candidates,
        HNSW_SEARCH sv patternEmbedding 10 40 = Ok candidates -> candidates <> [] ->
        (* the profile store fails or knows none of the candidates *)
        (BATCH_GET_PROFILES sv (EXTRACT_AGENT_IDS candidates) true = Throw DatabaseError ->
         SemanticRoute sv patternRequest executionContext routingConstraints w
         = (Throw (RoutingServiceError "Cannot load agent profiles"), later 4 (issue_uuid w)))
        /\ (BATCH_GET_PROFILES sv (EXTRACT_AGENT_IDS candidates) true = Ok [] ->
            SemanticRoute sv patternRequest executionContext routingConstraints w
            = (Throw (NoAgentsAvailableError "No agent profiles found"),
               later 5 (issue_uuid w)))
        (* the constraints filter every profile out *)
        /\ (forall agentProfiles,
              BATCH_GET_PROFILES sv (EXTRACT_AGENT_IDS candidates) true = Ok agentProfiles ->
              agentProfiles <> [] ->
              FILTER_AGENTS sv agentProfiles routingConstraints
                (excluded_agents patternRequest) (preferred_agents patternRequest) = [] ->
              SemanticRoute sv patternRequest executionContext routingConstraints w
              = match
                  APPLY_FALLBACK_STRATEGY sv patternRequest executionContext
                    "No agents match constraints"
                    (SYSTEM_CLOCK_MILLISECONDS sv (7 + tick w)
                     - SYSTEM_CLOCK_MILLISECONDS sv (tick w))
                    (later 8 (issue_uuid w))
                with
                | (Ok d, w') => (Ok (Routed d, None), w')
                | (Throw e, w') => (Throw e, w')
                end)).
Proof.
  intros Hready. split.
  - intros Hsearch Hfallback. enter_search Hready.
    destruct Hsearch as [-> | ->]; cbn [length Nat.eqb]; rewrite Hfallback; reflexivity.
  - intros candidates Hsearch Hne.
    assert (Hlen : (length candidates =? 0)%nat = false)
      by (destruct candidates; [congruence | reflexivity]).
    split; [| split].
    + intros Hstore. enter_search Hready. rewrite Hsearch, Hlen.
      cbn [tick advance_clock]. rewrite Hlen, Hstore. reflexivity.
    + intros Hstore. enter_search Hready. rewrite Hsearch, Hlen.
      cbn [tick advance_clock]. rewrite Hlen, Hstore. reflexivity.
    + intros agentProfiles Hstore Hsome Hfilter.
      assert (Hlen' : (length agentProfiles =? 0)%nat = false)
        by (destruct agentProfiles; [congruence | reflexivity]).
      enter_search Hready. rewrite Hsearch, Hlen.
      cbn [tick advance_clock]. rewrite Hlen, Hstore.
      cbn [tick advance_clock]. rewrite Hlen', Hfilter.
      cbn [length Nat.eqb tick advance_clock]. reflexivity.
Qed.

End CandidateSearch.

Section Persistence.

Variable sv : Services.

(** X14: phases 13 to 15 of SemanticRoute.  When the decision is logged and
    cached, it is stored under the cache key with an expiry 300 seconds after
    the clock reading taken for it, and returned.  When the log or the cache
    write fails with PersistError, the same decision is returned all the same
    and the cache is left as it was.  Any other error of the two is passed on,
    again with the cache as it was. *)
Theorem persist_failure_keeps_decision (startTime : Z) (decisionId cacheKey : string)
    (patternRequest : Request) (executionContext : Context) (primaryAgent : Agent)
    (primaryScore : Q) (alternativeAgents : list Agent) (agentScores : gmap string Q)
    (consensusRequired : bool) (consensusResult : ConsensusResult)
    (consensusValidatorsAgreed : nat) (consensusLatency : Z) (w : World)
    (secondaryScore confidenceScore entropy : Q) (alternatives : list Alternative) :
  runner_up_score agentScores alternativeAgents = Ok secondaryScore ->
  CALIBRATE_CONFIDENCE sv primaryScore secondaryScore consensusValidatorsAgreed
    consensusRequired patternRequest executionContext agentScores = Ok confidenceScore ->
  BUILD_ALTERNATIVES alternativeAgents agentScores = Ok alternatives ->
  COMPUTE_ENTROPY sv (EXTRACT_SCORES sv agentScores) = Ok entropy ->
  let clock := SYSTEM_CLOCK_MILLISECONDS sv in
  let decision :=
    primary_decision decisionId (clock (2 + tick w)%nat) primaryAgent primaryScore alternatives
      confidenceScore consensusRequired consensusResult consensusValidatorsAgreed
      consensusLatency in
  let run :=
    finish_primary sv startTime decisionId cacheKey patternRequest executionContext
      primaryAgent primaryScore alternativeAgents agentScores consensusRequired
      consensusResult consensusValidatorsAgreed consensusLatency w in
  (LOG_ROUTING_DECISION sv decision = Ok tt -> CACHE_WRITE sv cacheKey = Ok tt ->
   exists w',
     run = (Ok (Routed decision, Some (clock (6 + tick w)%nat - startTime)%Z), w')
     /\ decision_cache w'
        = <[cacheKey := (decision, (clock (5 + tick w)%nat + 300 * 1000)%Z)]> (decision_cache w))
  /\ (LOG_ROUTING_DECISION sv decision = Throw PersistError
      \/ (LOG_ROUTING_DECISION sv decision = Ok tt
          /\ CACHE_WRITE sv cacheKey = Throw PersistError) ->
      exists w',
        run = (Ok (Routed decision, Some (clock (5 + tick w)%nat - startTime)%Z), w')
        /\ decision_cache w' = decision_cache w)
  /\ (forall e, e <> PersistError ->
        LOG_ROUTING_DECISION sv decision = Throw e
        \/ (LOG_ROUTING_DECISION sv decision = Ok tt /\ CACHE_WRITE sv cacheKey = Throw e) ->
        exists w', run = (Throw e, w') /\ decision_cache w' = decision_cache w).
Proof.
  intros Hsecond Hconfidence Halternatives Hentropy clock decision run.
  assert (Hrun : run
    = (let w5 := later 5 w in
       match
         match LOG_ROUTING_DECISION sv decision with
         | Ok _ =>
             match CACHE_SET sv cacheKey decision 300 w5 with
             | (Ok _, w6) => (Ok tt, advance_clock w6)
             | (Throw e, w6) => (Throw e, w6)
             end
         | Throw e => (Throw e, w5)
         end
       with
       | (Ok _, w7) => (Ok (Routed decision, Some (clock (tick w7) - startTime)%Z),
                        advance_clock w7)
       | (Throw PersistError, w7) =>
           (Ok (Routed decision, Some (clock (tick w7) - startTime)%Z), advance_clock w7)
       | (Throw e, w7) => (Throw e, w7)
       end)).
  { unfold run, finish_primary. unfold runner_up_score in Hsecond.
    cbv beta iota zeta delta
      [StateMonad.bind StateMonad.try_catch StateMonad.lift StateMonad.ret StateMonad.throw
       CURRENT_TIME_MS CURRENT_ISO8601_TIMESTAMP].
    destruct alternativeAgents as [| runnerUp others];
      [injection Hsecond as <- | rewrite Hsecond];
      rewrite Hconfidence; cbn [tick advance_clock].
    all: rewrite Halternatives, Hentropy; cbn [tick advance_clock].
    all: fold clock; change (clock (S (S (tick w)))) with (clock (2 + tick w)%nat).
    all: fold (primary_decision decisionId (clock (2 + tick w)%nat) primaryAgent primaryScore
            alternatives confidenceScore consensusRequired consensusResult
            consensusValidatorsAgreed consensusLatency).
    all: fold decision.
    all: (destruct (LOG_ROUTING_DECISION sv decision) as [[] | e];
          [| destruct e; reflexivity]).
    all: unfold CACHE_SET; cbn [tick advance_clock later].
    all: (destruct (CACHE_WRITE sv cacheKey) as [[] | e];
          [reflexivity | destruct e; reflexivity]). }
  rewrite Hrun. clear Hrun. cbv zeta.
  split; [| split].
  - intros -> Hwrite. unfold CACHE_SET. rewrite Hwrite. eexists. split; reflexivity.
  - intros [-> | [-> Hwrite]].
    + eexists. split; reflexivity.
    + unfold CACHE_SET. rewrite Hwrite. eexists. split; reflexivity.
  - intros e Hne [-> | [-> Hwrite]].
    + destruct e; try congruence; eexists; split; reflexivity.
    + unfold CACHE_SET. rewrite Hwrite.
      destruct e; try congruence; eexists; split; reflexivity.
Qed.

End Persistence.

(** ** Ranking and alternatives *)

Section Ranking.

Local Open Scope Q_scope.

(** The descending ranking of agents that all have a score. *)
Lemma sort_by_score_ranked (agents : list Agent) (scores : gmap string Q) :
  (forall a, In a agents -> is_Some (scores !! agent_id a)) ->
  exists ranked,
    SORT_BY_SCORE agents scores true = Ok ranked
    /\ Permutation agents ranked
    /\ StronglySorted (ranks_before scores) ranked.
Proof.
  intros Hall.
  destruct (make_pairs_total scores agents Hall) as [pairs Hpairs].
  destruct (make_pairs_spec scores agents pairs Hpairs) as [Hfst Hlook].
  unfold SORT_BY_SCORE. rewrite Hpairs. simpl.
  eexists. split; [reflexivity |].
  assert (Hlook' : Forall (fun p => scores !! agent_id (fst p) = Some (snd p))
                          (SORT_BY true pairs)).
  { rewrite List.Forall_forall in *. intros p Hp. apply Hlook.
    eapply Permutation_in; [symmetry; apply SORT_BY_perm | exact Hp]. }
  split.
  - rewrite <- Hfst. apply Permutation_map. apply SORT_BY_perm.
  - apply sorted_map_fst; [exact Hlook' | apply SORT_BY_sorted].
Qed.

Lemma make_pairs_fails (agents : list Agent) (scores : gmap string Q) :
  (exists a, In a agents /\ scores !! agent_id a = None) ->
  make_pairs agents scores = Throw RuntimeError.
Proof.
  intros (a & Hin & Hnone).
  induction agents as [| b rest IH]; [destruct Hin |].
  cbn [make_pairs]. unfold score_of.
  destruct (scores !! agent_id b) eqn:Eb; [| reflexivity].
  cbn [ExcMonad.bind]. destruct Hin as [-> | Hin]; [congruence |].
  now rewrite (IH Hin).
Qed.

Lemma build_alternatives_from_spec scores agents : forall i alts,
  build_alternatives_from i agents scores = Ok alts ->
  length alts = length agents
  /\ forall k alt, alts !! k = Some alt ->
       alt_rank alt = (i + k)%nat
       /\ exists a, agents !! k = Some a
                    /\ alt_agent_id alt = agent_id a
                    /\ scores !! agent_id a = Some (alt_score alt).
Proof.
  induction agents as [| agent rest IH]; intros i alts; cbn [build_alternatives_from].
  - intros [= <-]. split; [reflexivity |]. intros k alt Hk. discriminate.
  - unfold score_of. destruct (scores !! agent_id agent) as [s |] eqn:Es; [| discriminate].
    cbn [ExcMonad.bind].
    destruct (build_alternatives_from (S i) rest scores) as [more | e] eqn:Emore;
      [| discriminate].
    cbn [ExcMonad.bind]. intros [= <-].
    destruct (IH (S i) more Emore) as [Hlen Hentries].
    split; [simpl; now rewrite Hlen |].
    intros [| k] alt Hk; simpl in Hk.
    + injection Hk as <-. simpl. split; [lia |].
      exists agent. split; [reflexivity |]. split; [reflexivity | exact Es].
    + destruct (Hentries k alt Hk) as (Hrank & a & Ha & Hid & Hs).
      split; [lia |]. exists a. split; [exact Ha |]. split; [exact Hid | exact Hs].
Qed.

Lemma build_alternatives_from_total scores agents : forall i,
  (forall a, In a agents -> is_Some (scores !! agent_id a)) ->
  exists alts, build_alternatives_from i agents scores = Ok alts.
Proof.
  induction agents as [| agent rest IH]; intros i Hall; cbn [build_alternatives_from].
  - eexists. reflexivity.
  - destruct (Hall agent (or_introl eq_refl)) as [s Hs]. unfold score_of. rewrite Hs.
    cbn [ExcMonad.bind].
    destruct (IH (S i) (fun a Ha => Hall a (or_intror Ha))) as [more ->].
    eexists. reflexivity.
Qed.

Lemma build_alternatives_from_fails scores agents : forall i,
  (exists a, In a agents /\ scores !! agent_id a = None) ->
  build_alternatives_from i agents scores = Throw RuntimeError.
Proof.
  induction agents as [| agent rest IH]; intros i (a & Hin & Hnone); [destruct Hin |].
  cbn [build_alternatives_from]. unfold score_of.
  destruct (scores !! agent_id agent) eqn:Es; [| reflexivity].
  cbn [ExcMonad.bind]. destruct Hin as [-> | Hin]; [congruence |].
  rewrite (IH (S i)); [reflexivity | eauto].
Qed.

Lemma In_take {A} (x : A) (n : nat) (l : list A) : In x (firstn n l) -> In x l.
Proof.
  intros H. apply list_elem_of_In in H. apply elem_of_take in H as (i & Hi & _).
  apply list_elem_of_In. eapply list_elem_of_lookup_2. exact Hi.
Qed.

Lemma first_three {A} (l : list A) : firstn (Nat.min 3 (length l)) l = firstn 3 l.
Proof.
  destruct l as [| a [| b [| c l]]]; reflexivity.
Qed.

Lemma build_alternatives_first_three_run (agents : list Agent) (scores : gmap string Q) :
  (forall a, In a (firstn 3 agents) -> is_Some (scores !! agent_id a)) ->
  exists alternatives,
    BUILD_ALTERNATIVES agents scores = Ok alternatives
    /\ length alternatives = length (firstn 3 agents)
    /\ forall i alt, alternatives !! i = Some alt ->
         alt_rank alt = i
         /\ exists a, firstn 3 agents !! i = Some a
                      /\ alt_agent_id alt = agent_id a
                      /\ scores !! agent_id a = Some (alt_score alt).
Proof.
  intros Hall. unfold BUILD_ALTERNATIVES. rewrite first_three.
  destruct (build_alternatives_from_total scores (firstn 3 agents) 0 Hall) as [alts Hrun].
  destruct (build_alternatives_from_spec scores _ 0 alts Hrun) as [Hlen Hentries].
  exists alts. split; [exact Hrun |]. split; [exact Hlen | exact Hentries].
Qed.


End Ranking.

Section RankingSelection.

Local Open Scope Q_scope.

Lemma sorted_lookup {A} (R : A -> A -> Prop) (l : list A) :
  StronglySorted R l ->
  forall i j x y, (i < j)%nat -> l !! i = Some x -> l !! j = Some y -> R x y.
Proof.
  induction 1 as [| a l Hsorted IH Hall]; intros i j x y Hij Hi Hj; [discriminate |].
  destruct j as [| j]; [lia |]. simpl in Hj.
  destruct i as [| i]; simpl in Hi.
  - injection Hi as <-. rewrite List.Forall_forall in Hall. apply Hall.
    apply list_elem_of_In. eapply list_elem_of_lookup_2. exact Hj.
  - apply (IH i j); [lia | exact Hi | exact Hj].
Qed.

(** X16: phase 8 of SemanticRoute (SORT_BY_SCORE, TAKE, BUILD_ALTERNATIVES).
    For a non-empty list of eligible agents that all have a score, the ranking
    is a rearrangement of the list; its first agent, the primary agent, has a
    score that no eligible agent exceeds; the alternatives are the up to three
    agents that follow it, ranked 0, 1, 2, none of them scoring above the
    primary agent and each scoring at most as much as the one before. *)
Theorem ranking_selects_best (eligibleAgents : list Agent) (agentScores : gmap string Q) :
  (forall a, In a eligibleAgents -> is_Some (agentScores !! agent_id a)) ->
  eligibleAgents <> [] ->
  exists primaryAgent others primaryScore alternatives,
    SORT_BY_SCORE eligibleAgents agentScores true = Ok (primaryAgent :: others)
    /\ Permutation eligibleAgents (primaryAgent :: others)
    /\ score_of agentScores primaryAgent = Ok primaryScore
    /\ (forall a s, In a eligibleAgents -> agentScores !! agent_id a = Some s ->
          s <= primaryScore)
    /\ BUILD_ALTERNATIVES (TAKE (primaryAgent :: others) 1 3) agentScores = Ok alternatives
    /\ length alternatives = Nat.min 3 (length eligibleAgents - 1)
    /\ (forall i alt, alternatives !! i = Some alt ->
          alt_rank alt = i
          /\ alt_score alt <= primaryScore
          /\ exists a, others !! i = Some a /\ alt_agent_id alt = agent_id a)
    /\ (forall i j alt alt', (i < j)%nat ->
          alternatives !! i = Some alt -> alternatives !! j = Some alt' ->
          alt_score alt' <= alt_score alt).
Proof.
  intros Hall Hne.
  destruct (sort_by_score_ranked eligibleAgents agentScores Hall)
    as (ranked & Hrun & Hperm & Hsorted).
  destruct ranked as [| primaryAgent others].
  { apply Permutation_sym, Permutation_nil in Hperm. contradiction. }
  assert (Hscored : forall a, In a (primaryAgent :: others) -> is_Some (agentScores !! agent_id a)).
  { intros a Ha. apply Hall. eapply Permutation_in; [symmetry; exact Hperm | exact Ha]. }
  destruct (Hscored primaryAgent (or_introl eq_refl)) as [primaryScore Hprimary].
  inversion Hsorted as [| ? ? Hsorted' Hbelow]; subst.
  assert (Hmax : forall a s, In a (primaryAgent :: others) ->
                   agentScores !! agent_id a = Some s -> s <= primaryScore).
  { intros a s [<- | Ha] Hs.
    - rewrite Hprimary in Hs. injection Hs as <-. lra.
    - rewrite List.Forall_forall in Hbelow.
      destruct (Hbelow a Ha) as (sa & sb & Ea & Eb & Hle).
      rewrite Hprimary in Ea. injection Ea as <-.
      rewrite Hs in Eb. injection Eb as <-. exact Hle. }
  assert (Htake : TAKE (primaryAgent :: others) 1 3 = firstn 3 others) by reflexivity.
  destruct (build_alternatives_first_three_run (firstn 3 others) agentScores)
    as (alternatives & Hbuild & Hlen & Hentries).
  { intros a Ha. apply Hscored. right.
    apply (In_take a 3). apply (In_take a 3). exact Ha. }
  rewrite firstn_firstn in Hlen, Hentries. change (Nat.min 3 3) with 3%nat in Hlen, Hentries.
  exists primaryAgent, others, primaryScore, alternatives.
  split; [exact Hrun |]. split; [exact Hperm |].
  split; [unfold score_of; now rewrite Hprimary |].
  split.
  { intros a s Ha. apply Hmax. eapply Permutation_in; [exact Hperm | exact Ha]. }
  split; [rewrite Htake; exact Hbuild |].
  assert (Hothers : forall i alt, alternatives !! i = Some alt ->
            exists a, others !! i = Some a /\ alt_agent_id alt = agent_id a
                      /\ agentScores !! agent_id a = Some (alt_score alt)).
  { intros i alt Hi. destruct (Hentries i alt Hi) as (_ & a & Ha & Hid & Hs).
    exists a. split; [| split; [exact Hid | exact Hs]].
    assert (Hlt : (i < 3)%nat).
    { apply lookup_lt_Some in Ha. rewrite length_firstn in Ha. lia. }
    rewrite <- Ha. symmetry. apply lookup_take_lt. exact Hlt. }
  split.
  { rewrite Hlen, length_firstn. apply Permutation_length in Hperm.
    rewrite Hperm. cbn [length]. lia. }
  split.
  - intros i alt Hi. destruct (Hentries i alt Hi) as (Hrank & _).
    destruct (Hothers i alt Hi) as (a & Ha & Hid & Hs).
    split; [exact Hrank |]. split; [| exists a; split; assumption].
    apply (Hmax a); [| exact Hs]. right.
    apply list_elem_of_In. eapply list_elem_of_lookup_2. exact Ha.
  - intros i j alt alt' Hij Hi Hj.
    destruct (Hothers i alt Hi) as (a & Ha & _ & Hs).
    destruct (Hothers j alt' Hj) as (a' & Ha' & _ & Hs').
    destruct (sorted_lookup _ _ Hsorted' i j a a' Hij Ha Ha') as (sa & sb & Ea & Eb & Hle).
    rewrite Hs in Ea. injection Ea as <-. rewrite Hs' in Eb. injection Eb as <-. exact Hle.
Qed.

End RankingSelection.

(** ** Routing by metadata *)

Section MetadataRouting.

Variable sv : Services.
Local Open Scope Q_scope.

(** The scoring loop of ROUTE_BY_METADATA: every candidate gets the success
    rate the store reports for it, and nothing else enters the table. *)
Lemma success_rate_scores_spec patternType candidates : forall agentScores,
  (forall a, In a candidates -> exists r, GET_SUCCESS_RATE sv (agent_id a) patternType = Ok r) ->
  (forall id r, agentScores !! id = Some r -> GET_SUCCESS_RATE sv id patternType = Ok r) ->
  exists scores,
    success_rate_scores sv candidates patternType agentScores = Ok scores
    /\ (forall id r, scores !! id = Some r -> GET_SUCCESS_RATE sv id patternType = Ok r)
    /\ (forall a, In a candidates -> is_Some (scores !! agent_id a))
    /\ (forall id, is_Some (agentScores !! id) -> is_Some (scores !! id)).
Proof.
  induction candidates as [| agent rest IH]; intros agentScores Hrates Hacc;
    cbn [success_rate_scores].
  - exists agentScores. split; [reflexivity |]. split; [exact Hacc |].
    split; [intros a [] | auto].
  - destruct (Hrates agent (or_introl eq_refl)) as [r Hr]. rewrite Hr. cbn [ExcMonad.bind].
    destruct (IH (<[agent_id agent := r]> agentScores)) as (scores & Hrun & Hsound & Hin & Hkeep).
    + intros a Ha. apply Hrates. now right.
    + intros id r'. destruct (decide (agent_id agent = id)) as [<- | Hne].
      * rewrite lookup_insert_eq. intros [= <-]. exact Hr.
      * rewrite lookup_insert_ne by exact Hne. apply Hacc.
    + exists scores. split; [exact Hrun |]. split; [exact Hsound |]. split.
      * intros a [<- | Ha]; [| now apply Hin].
        apply Hkeep. rewrite lookup_insert_eq. eexists. reflexivity.
      * intros id Hid. apply Hkeep.
        destruct (decide (agent_id agent = id)) as [<- | Hne].
        -- rewrite lookup_insert_eq. eexists. reflexivity.
        -- now rewrite lookup_insert_ne by exact Hne.
Qed.

(** X17: ROUTE_BY_METADATA.  Without an active agent that has the required
    skills the result is the error decision "ROUTING_FAILED".  With such
    agents, whose success rates can all be read, the decision names one of
    them whose success rate for the pattern type is the highest, gives that
    rate as score, a confidence of 0.5, no alternatives and no consensus
    record, is marked "metadata_routing" and carries a fresh identifier. *)
Theorem route_by_metadata_picks_best_success_rate (pattern : Request) (context : Context)
    (previousLatency : Z) (w : World) :
  let requiredSkills := EXTRACT_SKILLS (metadata pattern) in
  let patternType := EXTRACT_PATTERN_TYPE (metadata pattern) in
  (FIND_AGENTS_BY_SKILLS sv requiredSkills "active" = Ok [] ->
   ROUTE_BY_METADATA sv pattern context previousLatency w
   = (Ok (ErrorDecision "ROUTING_FAILED" "No agents match required skills"), advance_clock w))
  /\ (forall candidates,
        FIND_AGENTS_BY_SKILLS sv requiredSkills "active" = Ok candidates ->
        candidates <> [] ->
        (forall a, In a candidates ->
           exists r, GET_SUCCESS_RATE sv (agent_id a) patternType = Ok r) ->
        exists d primaryAgent,
          ROUTE_BY_METADATA sv pattern context previousLatency w = (Ok (Routed d), issue_uuid w)
          /\ In primaryAgent candidates
          /\ primary_agent_id d = agent_id primaryAgent
          /\ GET_SUCCESS_RATE sv (agent_id primaryAgent) patternType = Ok (primary_score d)
          /\ (forall a r, In a candidates ->
                GET_SUCCESS_RATE sv (agent_id a) patternType = Ok r -> r <= primary_score d)
          /\ decision_id d = UUID_V4 sv (uuids_issued w)
          /\ confidence_score d = 0.5
          /\ alternatives d = []
          /\ consensus d = None
          /\ fallback_applied d = Some "metadata_routing"%string).
Proof.
  intros requiredSkills patternType. split.
  - intros Hnone. unfold ROUTE_BY_METADATA, BUILD_ERROR_DECISION. run_pipeline.
    fold requiredSkills. rewrite Hnone. reflexivity.
  - intros candidates Hfound Hne Hrates.
    destruct (success_rate_scores_spec patternType candidates ∅ Hrates)
      as (scores & Hscores & Hsound & Hin & _).
    { intros id r Hid. rewrite lookup_empty in Hid. discriminate. }
    destruct (sort_by_score_ranked candidates scores Hin) as (ranked & Hsort & Hperm & Hsorted).
    destruct ranked as [| primaryAgent others].
    { apply Permutation_sym, Permutation_nil in Hperm. contradiction. }
    assert (Hprimary_in : In primaryAgent candidates)
      by (eapply Permutation_in; [symmetry; exact Hperm | now left]).
    destruct (Hin primaryAgent Hprimary_in) as [primaryScore Hprimary].
    eexists _, primaryAgent. split.
    { unfold ROUTE_BY_METADATA. run_pipeline. fold requiredSkills patternType.
      rewrite Hfound.
      assert (Hlen : (length candidates =? 0)%nat = false)
        by (destruct candidates; [congruence | reflexivity]).
      rewrite Hlen, Hscores, Hsort. cbn [first_of].
      unfold score_of. rewrite Hprimary. reflexivity. }
    cbn [primary_agent_id primary_score decision_id confidence_score alternatives consensus
         fallback_applied].
    split; [exact Hprimary_in |]. split; [reflexivity |].
    split; [apply Hsound; exact Hprimary |].
    split; [| repeat split].
    intros a r Ha Hr.
    assert (Ha' : In a (primaryAgent :: others))
      by (eapply Permutation_in; [exact Hperm | exact Ha]).
    destruct (Hin a Ha) as [s Hs].
    pose proof (Hsound _ _ Hs) as Hs'. rewrite Hr in Hs'. injection Hs' as <-.
    destruct Ha' as [<- | Hothers].
    + rewrite Hprimary in Hs. injection Hs as <-. lra.
    + inversion Hsorted as [| ? ? _ Hbelow]; subst.
      rewrite List.Forall_forall in Hbelow.
      destruct (Hbelow a Hothers) as (sa & sb & Ea & Eb & Hle).
      rewrite Hprimary in Ea. injection Ea as <-.
      rewrite Hs in Eb. injection Eb as <-. exact Hle.
Qed.

End MetadataRouting.

Section EmbeddingPhase.

Variable sv : Services.

Lemma route_by_metadata_keeps_cache pattern context previousLatency w :
  decision_cache (snd (ROUTE_BY_METADATA sv pattern context previousLatency w))
  = decision_cache w.
Proof.
  unfold ROUTE_BY_METADATA, BUILD_ERROR_DECISION. run_pipeline.
  destruct (FIND_AGENTS_BY_SKILLS sv _ _) as [candidates |]; [| reflexivity].
  destruct (length candidates =? 0)%nat; [reflexivity |].
  destruct (success_rate_scores sv _ _ _) as [scores |]; [| reflexivity].
  destruct (SORT_BY_SCORE _ _ _) as [ranked |]; [| reflexivity].
  destruct (first_of ranked) as [primaryAgent |]; [| reflexivity].
  cbn [tick advance_clock issue_uuid decision_cache snd].
  destruct (score_of scores primaryAgent); reflexivity.
Qed.

(** X18: phase 3 of SemanticRoute, for a valid request that is not cached.
    An embedding of another length than 1536, provided or generated, is an
    assertion failure and not an EmbeddingError: the routing fails and does not
    fall back.  An EmbeddingError of the embedding service leads to
    ROUTE_BY_METADATA, whose outcome is the answer, and the decision cache is
    left as it was; any other error of the service is passed on. *)
Theorem semantic_route_embedding_failures (patternRequest : Request)
    (executionContext : Context) (routingConstraints : RoutingConstraints) (w : World) :
  VALIDATE_PATTERN_REQUEST sv patternRequest = Ok tt ->
  VALIDATE_EXECUTION_CONTEXT sv executionContext = Ok tt ->
  decision_cache w !! COMPUTE_CACHE_KEY sv patternRequest executionContext = None ->
  let clock := SYSTEM_CLOCK_MILLISECONDS sv in
  let run := SemanticRoute sv patternRequest executionContext routingConstraints w in
  let embed := EMBED_PATTERN sv (pattern_query patternRequest) (metadata patternRequest) in
  (* a wrong dimension is an assertion failure, not an EmbeddingError *)
  (forall provided,
     pattern_embedding patternRequest = Some provided -> length provided <> 1536%nat ->
     run = (Throw RuntimeError, later 1 (issue_uuid w)))
  /\ (pattern_embedding patternRequest = None ->
      (forall generated,
         embed = Ok generated -> length generated <> 1536%nat ->
         run = (Throw RuntimeError, later 3 (issue_uuid w)))
      (* the embedding service is down: route by metadata, cache nothing *)
      /\ (embed = Throw EmbeddingError ->
          run = match
                  ROUTE_BY_METADATA sv patternRequest executionContext
                    (clock (2 + tick w)%nat - clock (tick w)) (later 3 (issue_uuid w))
                with
                | (Ok d, w') => (Ok (d, None), w')
                | (Throw e, w') => (Throw e, w')
                end
          /\ decision_cache (snd run) = decision_cache w)
      /\ (forall e, embed = Throw e -> e <> EmbeddingError ->
          run = (Throw e, later 2 (issue_uuid w)))).
Proof.
  intros H1 H2 Hmiss clock run embed.
  assert (Hneq : forall l : list Q, length l <> 1536%nat -> (length l =? 1536)%nat = false)
    by (intros l Hl; now apply Nat.eqb_neq).
  unfold run. split; [| intros Hnone; split; [| split]].
  - intros provided Hprovided Hlength. unfold SemanticRoute, obtain_embedding. run_pipeline.
    rewrite H1, H2. cbn [tick advance_clock issue_uuid decision_cache]. rewrite Hmiss.
    rewrite Hprovided, (Hneq _ Hlength). reflexivity.
  - intros generated Hgenerated Hlength. unfold SemanticRoute, obtain_embedding. run_pipeline.
    rewrite H1, H2. cbn [tick advance_clock issue_uuid decision_cache]. rewrite Hmiss.
    rewrite Hnone. fold embed. rewrite Hgenerated, (Hneq _ Hlength). reflexivity.
  - intros Hdown.
    assert (Hrun :
      SemanticRoute sv patternRequest executionContext routingConstraints w
      = match
          ROUTE_BY_METADATA sv patternRequest executionContext
            (clock (2 + tick w)%nat - clock (tick w)) (later 3 (issue_uuid w))
        with
        | (Ok d, w') => (Ok (d, None), w')
        | (Throw e, w') => (Throw e, w')
        end).
    { unfold SemanticRoute, obtain_embedding. run_pipeline.
      rewrite H1, H2. cbn [tick advance_clock issue_uuid decision_cache]. rewrite Hmiss.
      rewrite Hnone. fold embed. rewrite Hdown. reflexivity. }
    split; [exact Hrun |]. rewrite Hrun.
    pose proof (route_by_metadata_keeps_cache patternRequest executionContext
                  (clock (2 + tick w)%nat - clock (tick w)) (later 3 (issue_uuid w))) as Hkeep.
    destruct (ROUTE_BY_METADATA sv patternRequest executionContext _ _) as [[d | e] w'];
      exact Hkeep.
  - intros e He Hne. unfold SemanticRoute, obtain_embedding. run_pipeline.
    rewrite H1, H2. cbn [tick advance_clock issue_uuid decision_cache]. rewrite Hmiss.
    rewrite Hnone. fold embed. rewrite He. destruct e; try reflexivity. congruence.
Qed.

End EmbeddingPhase.

(** ** The shape of routed decisions *)

Section Anywhere.

(** With the trivial invariant a triple only speaks about results. *)
Lemma hoare_anything {A} (c : M A) : hoare (fun _ => True) c (fun _ => True).
Proof. intros w _. destruct (c w) as [[a | e] w']; auto. Qed.

Lemma hoare_results {A} (c : M A) (Q : A -> Prop) :
  hoare (fun _ => True) c Q <-> forall w a w', c w = (Ok a, w') -> Q a.
Proof.
  split.
  - intros H w a w' Hrun. specialize (H w I). rewrite Hrun in H. apply H.
  - intros H w _. destruct (c w) as [[a | e] w'] eqn:E; [| exact I].
    split; [exact (H w a w' E) | exact I].
Qed.

End Anywhere.

Ltac results_step tac :=
  first
    [ apply hoare_throw
    | apply hoare_ret; tac
    | apply hoare_try; [ | intros ? ]
    | match goal with
      | |- hoare _ (match ?x with _ => _ end) _ => destruct x
      | |- hoare _ (if ?x then _ else _) _ => destruct x
      end
    | apply hoare_bind with (P := fun _ => True); [ apply hoare_anything | intros ? _ ] ].

Section DegradedDecisions.

Variable sv : Services.
Local Open Scope Q_scope.

Lemma build_fallback_degraded agent strategy confidence reason :
  0 <= confidence <= 0.7 ->
  hoare (fun _ => True) (BUILD_FALLBACK_DECISION sv agent strategy confidence reason) degraded.
Proof.
  intros Hc. apply hoare_results. intros w d w' Hrun.
  rewrite build_fallback_run in Hrun.
  destruct (GET_SUCCESS_RATE sv (agent_id agent) "unknown"); [| discriminate].
  injection Hrun as <- _. repeat split; simpl; apply Hc.
Qed.

Lemma attempt_degraded strategy pattern reason :
  hoare (fun _ => True) (attempt_strategy sv strategy pattern reason)
        (fun outcome => forall d, outcome = Some d -> degraded d).
Proof.
  unfold attempt_strategy.
  repeat case_bool_decide;
    repeat first
      [ (apply hoare_bind with (P := degraded);
         [ apply build_fallback_degraded; lra
         | intros d Hd; apply hoare_ret; intros d' [= <-]; exact Hd ])
      | results_step ltac:(discriminate) ].
Qed.

Lemma run_chain_degraded chain pattern reason :
  hoare (fun _ => True) (run_chain sv chain pattern reason) degraded.
Proof.
  induction chain as [| item rest IH]; cbn [run_chain]; [apply hoare_throw |].
  apply hoare_bind with (P := fun outcome => forall d, outcome = Some d -> degraded d);
    [apply attempt_degraded | intros [d |] Hd].
  - apply hoare_ret. now apply Hd.
  - exact IH.
Qed.

Lemma route_by_metadata_degraded pattern context previousLatency :
  hoare (fun _ => True) (ROUTE_BY_METADATA sv pattern context previousLatency)
        (fun r => match r with Routed d => degraded d | ErrorDecision _ _ => True end).
Proof.
  unfold ROUTE_BY_METADATA, BUILD_ERROR_DECISION.
  repeat results_step
    ltac:(first [exact I | repeat split; simpl; try reflexivity; lra]).
Qed.

Lemma degraded_well_formed d : degraded d -> well_formed d.
Proof.
  intros (Halt & Hcons & Hconf). unfold well_formed. rewrite Halt, Hcons.
  split; [simpl; lia |]. split; [intros i alt Hi; discriminate |].
  split; [lra |]. split; [discriminate |].
  intros strategy _. split; [reflexivity |]. split; [reflexivity | lra].
Qed.

End DegradedDecisions.

Ltac keeps_cache :=
  repeat first
    [ apply hoare_ret; exact I
    | apply hoare_throw
    | apply hoare_lift; intros; exact I
    | apply hoare_clock | apply hoare_timestamp | apply hoare_iso | apply hoare_uuid
    | apply hoare_set_votes | apply hoare_agreement
    | apply hoare_run_consensus | apply hoare_obtain_embedding
    | apply hoare_search_candidates | apply hoare_run_chain
    | (eapply hoare_weaken; [apply hoare_cache_get | intros; exact I])
    | apply hoare_bind with (P := fun _ => True); [ | intros ? _ ]
    | apply hoare_try; [ | intros ? ]
    | match goal with |- hoare _ (match ?x with _ => _ end) _ => destruct x end ].

Section WellFormedDecisions.

Variable sv : Services.
Local Open Scope Q_scope.

Lemma sort_by_score_inv agents scores ranked :
  SORT_BY_SCORE agents scores true = Ok ranked ->
  Permutation agents ranked /\ StronglySorted (ranks_before scores) ranked.
Proof.
  unfold SORT_BY_SCORE.
  destruct (make_pairs agents scores) as [pairs |] eqn:Hpairs; [| discriminate].
  cbn [ExcMonad.bind]. intros [= <-].
  destruct (make_pairs_spec scores agents pairs Hpairs) as [Hfst Hlook].
  assert (Hlook' : Forall (fun p => scores !! agent_id (fst p) = Some (snd p))
                          (SORT_BY true pairs)).
  { rewrite List.Forall_forall in *. intros p Hp. apply Hlook.
    eapply Permutation_in; [symmetry; apply SORT_BY_perm | exact Hp]. }
  split.
  - rewrite <- Hfst. apply Permutation_map. apply SORT_BY_perm.
  - apply sorted_map_fst; [exact Hlook' | apply SORT_BY_sorted].
Qed.

Lemma fallback_well_formed pattern context reason latencySoFar :
  hoare (cache_all well_formed) (APPLY_FALLBACK_STRATEGY sv pattern context reason latencySoFar) well_formed.
Proof.
  apply hoare_with_run; [apply hoare_run_chain |].
  intros w d w' Hrun. apply degraded_well_formed.
  exact (proj1 (hoare_results _ _) (run_chain_degraded sv _ pattern reason) w d w' Hrun).
Qed.

Lemma metadata_well_formed pattern context previousLatency :
  hoare (cache_all well_formed) (ROUTE_BY_METADATA sv pattern context previousLatency)
        (fun r => match r with Routed d => well_formed d | ErrorDecision _ _ => True end).
Proof.
  apply hoare_with_run.
  - eapply hoare_weaken; [apply hoare_route_by_metadata | intros; exact I].
  - intros w r w' Hrun.
    pose proof (proj1 (hoare_results _ _)
                  (route_by_metadata_degraded sv pattern context previousLatency) w r w' Hrun)
      as Hr.
    destruct r; [now apply degraded_well_formed | exact I].
Qed.

Lemma finish_primary_well_formed startTime decisionId cacheKey pattern context primaryAgent
    primaryScore alternativeAgents agentScores consensusRequired consensusResult agreed latency :
  (forall a s, In a alternativeAgents -> agentScores !! agent_id a = Some s ->
     s <= primaryScore) ->
  (consensusRequired = true ->
   (consensusResult = APPROVE \/ consensusResult = TIMEOUT)
   /\ (agreed <= 5)%nat
   /\ (consensusResult = APPROVE -> (3 <= agreed)%nat)) ->
  hoare (cache_all well_formed)
    (finish_primary sv startTime decisionId cacheKey pattern context primaryAgent primaryScore
       alternativeAgents agentScores consensusRequired consensusResult agreed latency)
    (fun r => match fst r with Routed d => well_formed d | ErrorDecision _ _ => True end).
Proof.
  intros Hbelow Hconsensus. unfold finish_primary.
  apply hoare_bind with (P := fun _ => True); [keeps_cache | intros confidenceStart _].
  apply hoare_bind with (P := fun _ => True); [keeps_cache | intros secondaryScore _].
  apply hoare_bind with (P := fun c => 0 <= c <= 1).
  { apply hoare_try.
    - apply hoare_bind with (P := fun c => 0 <= c <= 1).
      + apply hoare_lift. intros c Hc. exact (calibrate_in_range _ _ _ _ _ _ _ _ _ Hc).
      + intros c Hc. apply hoare_bind with (P := fun _ => True); [keeps_cache | intros ? _].
        apply hoare_ret. exact Hc.
    - intros e. destruct e; try apply hoare_throw.
      apply hoare_bind with (P := fun _ => True); [keeps_cache | intros ? _].
      apply hoare_ret. lra. }
  intros confidenceScore Hconf.
  apply hoare_bind with (P := fun _ => True); [keeps_cache | intros now _].
  apply hoare_bind
    with (P := fun alts => BUILD_ALTERNATIVES alternativeAgents agentScores = Ok alts).
  { apply hoare_lift. auto. }
  intros alts Halts.
  apply hoare_bind with (P := fun _ => True); [keeps_cache | intros entropy _].
  apply hoare_bind with (P := fun _ => True); [keeps_cache | intros snapshotTime _].
  cbv zeta.
  match goal with
  | |- hoare _ (StateMonad.bind _ (fun _ => StateMonad.bind _ (fun _ => StateMonad.bind _
         (fun _ => StateMonad.ret (Routed ?d, _))))) _ => set (decision := d)
  end.
  assert (Hwf : well_formed decision).
  { assert (Hall : forall a, In a (firstn 3 alternativeAgents) ->
              is_Some (agentScores !! agent_id a)).
    { intros a Ha. destruct (agentScores !! agent_id a) eqn:E; [eauto |].
      exfalso. unfold BUILD_ALTERNATIVES in Halts. rewrite first_three in Halts.
      rewrite build_alternatives_from_fails in Halts by eauto. discriminate. }
    destruct (build_alternatives_first_three_run alternativeAgents agentScores Hall)
      as (alts' & Hrun & Hlen & Hentries).
    rewrite Halts in Hrun. injection Hrun as <-.
    unfold well_formed. subst decision.
    cbn [alternatives primary_score confidence_score consensus fallback_applied].
    split; [rewrite Hlen, length_firstn; lia |].
    split.
    { intros i alt Hi. destruct (Hentries i alt Hi) as (Hrank & a & Ha & _ & Hs).
      split; [exact Hrank |]. apply (Hbelow a); [| exact Hs].
      apply (In_take a 3). apply list_elem_of_In. eapply list_elem_of_lookup_2. exact Ha. }
    split; [exact Hconf |].
    split; [| discriminate].
    intros r Hr. destruct consensusRequired; [| discriminate].
    injection Hr as <-. destruct (Hconsensus eq_refl) as (H1 & H2 & H3).
    repeat split; assumption. }
  apply hoare_bind with (P := fun _ => True); [keeps_cache | intros persistStart _].
  apply hoare_bind with (P := fun _ => True).
  { apply hoare_try.
    - apply hoare_bind with (P := fun _ => True); [keeps_cache | intros ? _].
      apply hoare_bind with (P := fun _ => True); [| intros ? _; keeps_cache].
      apply hoare_cache_set. exact Hwf.
    - intros e. destruct e; keeps_cache. }
  intros _ _.
  apply hoare_bind with (P := fun _ => True); [keeps_cache | intros ? _].
  apply hoare_ret. exact Hwf.
Qed.

Lemma semantic_route_well_formed pattern context routingConstraints :
  hoare (cache_all well_formed) (SemanticRoute sv pattern context routingConstraints)
        (fun r => match fst r with Routed d => well_formed d | ErrorDecision _ _ => True end).
Proof.
  unfold SemanticRoute.
  apply hoare_bind with (P := fun _ => True); [keeps_cache | intros startTime _].
  apply hoare_bind with (P := fun _ => True); [keeps_cache | intros decisionId _].
  apply hoare_bind with (P := fun _ => True).
  { apply hoare_try; [keeps_cache | intros e; destruct e; keeps_cache]. }
  intros _ _.
  apply hoare_bind with (P := fun r => forall d, r = Some d -> well_formed d);
    [apply hoare_cache_get | intros cached Hcached].
  destruct cached as [d |].
  { apply hoare_bind with (P := fun _ => True); [keeps_cache | intros ? _].
    apply hoare_ret. exact (Hcached d eq_refl). }
  apply hoare_bind with (P := fun _ => True); [keeps_cache | intros embedded _].
  destruct embedded as [patternEmbedding |].
  2:{ apply hoare_bind with (P := fun _ => True); [keeps_cache | intros ? _].
      eapply hoare_bind; [apply metadata_well_formed | intros d Hd].
      apply hoare_ret. exact Hd. }
  apply hoare_bind with (P := fun _ => True); [keeps_cache | intros hnsStart _].
  apply hoare_bind with (P := fun _ => True); [keeps_cache | intros candidates _].
  destruct (length candidates =? 0)%nat; [apply hoare_throw |].
  apply hoare_bind with (P := fun _ => True); [keeps_cache | intros profileStart _].
  apply hoare_bind with (P := fun _ => True).
  { apply hoare_try; [keeps_cache | intros e; destruct e; keeps_cache]. }
  intros agentProfiles _.
  destruct (length agentProfiles =? 0)%nat; [apply hoare_throw |].
  apply hoare_bind with (P := fun _ => True); [keeps_cache | intros filterStart _].
  apply hoare_bind with (P := fun _ => True); [keeps_cache | intros filterEnd _].
  set (eligibleAgents := FILTER_AGENTS sv agentProfiles routingConstraints _ _).
  destruct (length eligibleAgents =? 0)%nat.
  { apply hoare_bind with (P := fun _ => True); [keeps_cache | intros ? _].
    eapply hoare_bind; [apply fallback_well_formed | intros d Hd].
    apply hoare_ret. exact Hd. }
  apply hoare_bind with (P := fun _ => True); [keeps_cache | intros scoringStart _].
  apply hoare_bind with (P := fun _ => True).
  { eapply hoare_weaken; [apply hoare_score_agents | intros; exact I].
    intros id s Hs. rewrite lookup_empty in Hs. discriminate. }
  intros agentScores _.
  apply hoare_bind with (P := fun _ => True); [keeps_cache | intros scoringEnd _].
  apply hoare_bind
    with (P := fun ranked => SORT_BY_SCORE eligibleAgents agentScores true = Ok ranked).
  { apply hoare_lift. auto. }
  intros rankedAgents Hranked.
  destruct rankedAgents as [| primaryAgent others]; [apply hoare_throw |].
  apply hoare_bind with (P := fun s => score_of agentScores primaryAgent = Ok s).
  { apply hoare_lift. auto. }
  intros primaryScore Hprimary.
  assert (Hbelow : forall a s, In a (TAKE (primaryAgent :: others) 1 3) ->
            agentScores !! agent_id a = Some s -> s <= primaryScore).
  { intros a s Ha Hs. destruct (sort_by_score_inv _ _ _ Hranked) as [_ Hsorted].
    inversion Hsorted as [| ? ? _ Hall]; subst.
    rewrite List.Forall_forall in Hall.
    destruct (Hall a (In_take a 3 others Ha)) as (sa & sb & Ea & Eb & Hle).
    unfold score_of in Hprimary. rewrite Ea in Hprimary. injection Hprimary as <-.
    rewrite Hs in Eb. injection Eb as <-. exact Hle. }
  destruct (require_consensus routingConstraints || IS_CRITICAL_PATTERN sv pattern)%bool.
  - apply hoare_bind
      with (P := fun verdict : ConsensusResult * nat * Z =>
                   (snd (fst verdict) <= 5)%nat
                   /\ (fst (fst verdict) = APPROVE -> (3 <= snd (fst verdict))%nat)
                   /\ (fst (fst verdict) = APPROVE \/ fst (fst verdict) = ESCALATE
                       \/ fst (fst verdict) = TIMEOUT)).
    { apply hoare_with_run; [apply hoare_run_consensus |].
      intros w verdict w' Hrun.
      destruct (run_consensus_shape sv primaryAgent (TAKE (primaryAgent :: others) 1 3)
                  pattern context w)
        as (result & latency & k & w1 & Hshape & Hk & _ & _ & Hres & Happrove & _).
      rewrite Hshape in Hrun. injection Hrun as <- _. cbn [fst snd].
      split.
      { etransitivity; [apply COUNT_TRUE_le |]. rewrite length_firstn. lia. }
      split; [| exact Hres].
      intros E. destruct (Happrove E) as [-> H3].
      rewrite firstn_all2; [exact H3 |]. cbn [length]. lia. }
    intros [[consensusResult agreed] latency] (Hagreed & Happrove & Hres). cbn [fst snd] in *.
    destruct (bool_decide (consensusResult = ESCALATE) || bool_decide (consensusResult = ERROR))%bool
      eqn:Hfail.
    + apply hoare_bind with (P := fun _ => True); [keeps_cache | intros ? _].
      eapply hoare_bind; [apply fallback_well_formed | intros d Hd].
      apply hoare_ret. exact Hd.
    + apply finish_primary_well_formed; [exact Hbelow |].
      intros _. apply orb_false_iff in Hfail as [Hne _].
      apply bool_decide_eq_false in Hne.
      split; [destruct Hres as [? | [? | ?]]; [now left | contradiction | now right] |].
      split; assumption.
  - apply finish_primary_well_formed; [exact Hbelow | discriminate].
Qed.

End WellFormedDecisions.

(** X19: every decision SemanticRoute hands out is well formed, and so is
    every decision it caches.  Starting from a cache of well-formed decisions
    (the empty cache is one), whatever the collaborators do: a routed decision
    has at most three alternatives, ranked by position and none scoring above
    the primary agent, a confidence in [0, 1], a consensus record only with
    result APPROVE or TIMEOUT (APPROVE with at least three of five validators),
    and, when a fallback was applied, no alternatives, no consensus record and
    a confidence of at most 0.7; and the cache holds only such decisions
    afterwards, also when the routing fails. *)
Theorem routed_decisions_are_well_formed (sv : Services) (patternRequest : Request)
    (executionContext : Context) (routingConstraints : RoutingConstraints) (w : World) :
  cache_all well_formed initial_world
  /\ (cache_all well_formed w ->
      match SemanticRoute sv patternRequest executionContext routingConstraints w with
      | (Ok (Routed d, _), w') => well_formed d /\ cache_all well_formed w'
      | (_, w') => cache_all well_formed w'
      end).
Proof.
  split.
  - intros key d expiry Hk. simpl in Hk. rewrite lookup_empty in Hk. discriminate.
  - intros Hw.
    pose proof (semantic_route_well_formed sv patternRequest executionContext
                  routingConstraints w Hw) as H.
    destruct (SemanticRoute sv patternRequest executionContext routingConstraints w)
      as [[[[d | code message] latency] | e] w'].
    + exact H.
    + apply H.
    + exact H.
Qed.

(** ** The scoring phase *)

Section ScoringPhase.

Variable sv : Services.
Local Open Scope Q_scope.

(** COMPUTE_EXPERT_SCORE comes to a score in [0, 1], unless the write of the
    breakdown fails. *)
Lemma compute_expert_score_outcome agent pattern context candidates sims w :
  exists total w',
    0 <= total <= 1
    /\ COMPUTE_EXPERT_SCORE sv agent pattern context candidates sims w
       = (match CACHE_WRITE sv ("expert_scores:" ++ agent_id agent) with
          | Ok _ => Ok total
          | Throw e => Throw e
          end, w').
Proof.
  destruct (expert_scores_entries sv agent pattern context candidates sims w)
    as (recency & relevance & w1 & w' & _ & _ & es & Hrun
        & E1 & E2 & E3 & E4 & E5 & E6 & E7 & E8).
  pose proof (weighted_sum_run es _ _ _ _ _ _ _ _ E1 E2 E3 E4 E5 E6 E7 E8) as Hsum.
  repeat match type of Hsum with
  | context [CLAMP ?v 0 1] =>
      let s := fresh "s" in
      pose proof (CLAMP_unit v);
      set (s := CLAMP v 0 1) in *; clearbody s
  end.
  match type of Hsum with _ = Ok ?t => set (total := t) in * end.
  assert (Hrange : 0 <= total <= 1) by (unfold total; lra).
  exists total, w'. split; [exact Hrange |].
  exact (compute_expert_score_run sv _ _ _ _ _ _ _ _ _ Hrun Hsum Hrange).
Qed.

(** The scoring loop, from a table [scored] on: it either fills in a score
    for every agent, or stops at a cache write that failed with another error
    than ScoringError. *)
Lemma score_agents_outcome pattern context candidates eligible : forall scored w,
  match score_agents sv eligible pattern context candidates scored w with
  | (Ok agentScores, _) =>
      (forall id, is_Some (agentScores !! id)
                  <-> is_Some (scored !! id) \/ exists a, In a eligible /\ agent_id a = id)
      /\ (forall id s, agentScores !! id = Some s -> scored !! id = Some s \/ 0 <= s <= 1)
  | (Throw e, _) =>
      e <> ScoringError
      /\ exists a, In a eligible /\ CACHE_WRITE sv ("expert_scores:" ++ agent_id a) = Throw e
  end.
Proof.
  induction eligible as [| agent rest IH]; intros scored w.
  - cbn. split; [| auto]. intros id. split; [auto |]. intros [H | (a & [] & _)]. exact H.
  - cbn [score_agents]. unfold StateMonad.bind at 1. unfold StateMonad.try_catch at 1.
    destruct (compute_expert_score_outcome agent pattern context candidates
                (EXTRACT_SIMILARITY_SCORES candidates) w) as (total & w' & Hrange & ->).
    assert (Hstep : forall score, 0 <= score <= 1 ->
      match score_agents sv rest pattern context candidates
              (<[agent_id agent := score]> scored) w' with
      | (Ok agentScores, _) =>
          (forall id, is_Some (agentScores !! id)
                      <-> is_Some (scored !! id)
                          \/ exists a, In a (agent :: rest) /\ agent_id a = id)
          /\ (forall id s, agentScores !! id = Some s -> scored !! id = Some s \/ 0 <= s <= 1)
      | (Throw e, _) =>
          e <> ScoringError
          /\ exists a, In a (agent :: rest)
                       /\ CACHE_WRITE sv ("expert_scores:" ++ agent_id a) = Throw e
      end).
    { intros score Hscore. specialize (IH (<[agent_id agent := score]> scored) w').
      destruct (score_agents sv rest pattern context candidates _ w') as [[agentScores | e] w''].
      - destruct IH as [Hkeys Hvalues]. split.
        + intros id. rewrite Hkeys. destruct (decide (agent_id agent = id)) as [<- | Hne].
          * rewrite lookup_insert_eq. split; [| eauto]. intros _. right. exists agent. now split; [left |].
          * rewrite lookup_insert_ne by exact Hne. split.
            -- intros [H | (a & Ha & Hid)]; [now left |]. right. exists a. split; [now right | exact Hid].
            -- intros [H | (a & [-> | Ha] & Hid)]; [now left | contradiction |].
               right. now exists a.
        + intros id s Hs. destruct (Hvalues id s Hs) as [Hin | Hok]; [| now right].
          destruct (decide (agent_id agent = id)) as [<- | Hne].
          * rewrite lookup_insert_eq in Hin. injection Hin as <-. now right.
          * rewrite lookup_insert_ne in Hin by exact Hne. now left.
      - destruct IH as (Hne & a & Ha & Hwrite). split; [exact Hne |].
        exists a. split; [now right | exact Hwrite]. }
    destruct (CACHE_WRITE sv ("expert_scores:" ++ agent_id agent)) as [[] | e] eqn:Hwrite.
    + apply Hstep. exact Hrange.
    + destruct e; try (split; [discriminate | exists agent; split; [now left | exact Hwrite]]).
      unfold StateMonad.ret. apply Hstep. lra.
Qed.

(** X29: phase 7 of SemanticRoute scores every eligible agent.  The scoring
    loop fails only when a write of a score breakdown fails with another error
    than ScoringError, which is then the error of the loop.  Otherwise the
    score table has an entry for every eligible agent and for nobody else, and
    every score is in [0, 1]; so the ranking of phase 8 cannot fail: for a
    non-empty list of eligible agents it gives a primary agent whose score is
    in the table, and "No agents could be ranked" is never thrown. *)
Theorem scoring_covers_every_eligible_agent (eligibleAgents : list Agent) (pattern : Request)
    (context : Context) (candidates : list Candidate) (w : World) :
  match score_agents sv eligibleAgents pattern context candidates ∅ w with
  | (Ok agentScores, _) =>
      (forall id, is_Some (agentScores !! id)
                  <-> exists a, In a eligibleAgents /\ agent_id a = id)
      /\ (forall id s, agentScores !! id = Some s -> 0 <= s <= 1)
      /\ exists rankedAgents,
           SORT_BY_SCORE eligibleAgents agentScores true = Ok rankedAgents
           /\ Permutation eligibleAgents rankedAgents
           /\ (eligibleAgents <> [] ->
               exists primaryAgent others primaryScore,
                 rankedAgents = primaryAgent :: others
                 /\ score_of agentScores primaryAgent = Ok primaryScore)
  | (Throw e, _) =>
      e <> ScoringError
      /\ exists a, In a eligibleAgents
                   /\ CACHE_WRITE sv ("expert_scores:" ++ agent_id a) = Throw e
  end.
Proof.
  pose proof (score_agents_outcome pattern context candidates eligibleAgents ∅ w) as Hrun.
  destruct (score_agents sv eligibleAgents pattern context candidates ∅ w)
    as [[agentScores | e] w']; [| exact Hrun].
  destruct Hrun as [Hkeys Hvalues].
  assert (Hall : forall a, In a eligibleAgents -> is_Some (agentScores !! agent_id a)).
  { intros a Ha. apply Hkeys. right. now exists a. }
  split; [| split].
  - intros id. rewrite Hkeys. split; [| auto].
    intros [[s Hs] | H]; [rewrite lookup_empty in Hs; discriminate | exact H].
  - intros id s Hs. destruct (Hvalues id s Hs) as [Hempty | Hok]; [| exact Hok].
    rewrite lookup_empty in Hempty. discriminate.
  - destruct (sort_by_score_ranked eligibleAgents agentScores Hall)
      as (rankedAgents & Hsort & Hperm & _).
    exists rankedAgents. split; [exact Hsort |]. split; [exact Hperm |].
    intros Hsome. destruct rankedAgents as [| primaryAgent others].
    + apply Permutation_sym, Permutation_nil in Hperm. contradiction.
    + assert (Hin : In primaryAgent eligibleAgents).
      { apply (Permutation_in _ (Permutation_sym Hperm)). now left. }
      destruct (Hall primaryAgent Hin) as [primaryScore Hscore].
      exists primaryAgent, others, primaryScore. split; [reflexivity |].
      unfold score_of. now rewrite Hscore.
Qed.

End ScoringPhase.

(** ** The routing theorems on the sample data *)

Lemma expert_team_diversity_falls_with_load_witness :
  exists s1 s2,
    EXPERT_TEAM_DIVERSITY auth_services auth_agent sample_context [] = Ok s1
    /\ EXPERT_TEAM_DIVERSITY auth_services loaded_agent sample_context [] = Ok s2
    /\ (s2 <= s1)%Q
    /\ (s1 == 1)%Q.
Proof.
  destruct (expert_team_diversity_falls_with_load auth_services auth_agent loaded_agent
              sample_context [] [] false 0 eq_refl eq_refl eq_refl)
    as (s1 & s2 & H1 & H2 & Hle & Hfree & _).
  - vm_compute. discriminate.
  - vm_compute. discriminate.
  - vm_compute. discriminate.
  - exists s1, s2. split; [exact H1 |]. split; [exact H2 |]. split; [exact Hle |].
    apply Hfree; [reflexivity | lia | vm_compute; discriminate].
Defined.

Lemma expert_confidence_calibration_rises_with_accuracy_witness :
  exists s1 s2,
    EXPERT_CONFIDENCE_CALIBRATION accuracy_services slow_agent = Ok s1
    /\ EXPERT_CONFIDENCE_CALIBRATION accuracy_services fast_agent = Ok s2
    /\ (s1 <= s2)%Q
    /\ (s1 < 0.5)%Q.
Proof.
  destruct (expert_confidence_calibration_rises_with_accuracy accuracy_services
              slow_agent fast_agent 0.80 0.96 eq_refl eq_refl)
    as (s1 & s2 & H1 & H2 & Hle & _ & Hlow & _).
  - vm_compute. discriminate.
  - vm_compute. discriminate.
  - exists s1, s2. split; [exact H1 |]. split; [exact H2 |]. split; [exact Hle |].
    apply Hlow. reflexivity.
Defined.

Lemma expert_score_caps_witness :
  exists score w',
    COMPUTE_EXPERT_SCORE auth_services auth_agent auth_request sample_context [] []
      initial_world = (Ok score, w')
    /\ (score <= 0.75)%Q.
Proof.
  destruct (expert_score_caps auth_services auth_agent auth_request sample_context [] []
              initial_world eq_refl) as (score & w' & Hrun & _ & Habsent & _).
  exists score, w'. split; [exact Hrun |]. apply Habsent. intros c [].
Defined.

Lemma semantic_route_without_eligible_agents_witness :
  SemanticRoute empty_services embedded_request sample_context no_constraints initial_world
  = (Throw (NoAgentsAvailableError "Cannot route pattern - no candidates found"),
     later 3 (issue_uuid initial_world)).
Proof.
  refine (proj1 (semantic_route_without_eligible_agents empty_services embedded_request
                   sample_context no_constraints initial_world (repeat 0%Q 1536) _) _ _).
  - repeat split.
  - left. reflexivity.
  - reflexivity.
Defined.

Lemma persist_failure_keeps_decision_witness :
  exists d latency w',
    finish_primary auth_services 0 "uuid-0" "p1" auth_request sample_context auth_agent 0.9
      [] single_score false APPROVE 0 0 initial_world
    = (Ok (Routed d, Some latency), w')
    /\ decision_cache w' = <["p1"%string := (d, 300000%Z)]> ∅.
Proof.
  edestruct (persist_failure_keeps_decision auth_services 0 "uuid-0" "p1" auth_request
               sample_context auth_agent 0.9 [] single_score false APPROVE 0 0 initial_world
               0%Q) as [Hstored _].
  - reflexivity.
  - vm_compute. reflexivity.
  - reflexivity.
  - reflexivity.
  - destruct (Hstored eq_refl eq_refl) as (w' & Hrun & Hcache).
    eexists _, _, w'. split; [exact Hrun | exact Hcache].
Defined.

Lemma ranking_selects_best_witness :
  exists primaryAgent others,
    SORT_BY_SCORE [agent_a; agent_b] tie_scores true = Ok (primaryAgent :: others)
    /\ Permutation [agent_a; agent_b] (primaryAgent :: others).
Proof.
  destruct (ranking_selects_best [agent_a; agent_b] tie_scores)
    as (primaryAgent & others & primaryScore & alternatives & Hsort & Hperm & _).
  - intros a [<- | [<- | []]]; eexists; vm_compute; reflexivity.
  - discriminate.
  - exists primaryAgent, others. split; [exact Hsort | exact Hperm].
Defined.

Lemma semantic_route_embedding_failures_witness :
  decision_cache
    (snd (SemanticRoute embedding_down_services auth_request sample_context no_constraints
            initial_world))
  = decision_cache initial_world.
Proof.
  destruct (semantic_route_embedding_failures embedding_down_services auth_request
              sample_context no_constraints initial_world eq_refl eq_refl eq_refl)
    as (_ & Hgenerated).
  destruct (Hgenerated eq_refl) as (_ & Hdown & _).
  exact (proj2 (Hdown eq_refl)).
Defined.

(** ** The pattern embedding script *)

Lemma pretty_N_char_nonzero (d : N) : (0 < d)%N -> pretty_N_char d <> "0"%char.
Proof.
  intros Hd. destruct d as [| d]; [lia |].
  do 4 (destruct d as [d | d |]; try discriminate).
Qed.

Lemma pretty_N_go_leading (x : N) : forall s,
  (0 < x)%N -> exists c rest, pretty_N_go x s = String c rest /\ c <> "0"%char.
Proof.
  induction (N.lt_wf_0 x) as [x _ IH]. intros s Hx.
  rewrite pretty_N_go_step by exact Hx.
  destruct (N.eq_dec (x `div` 10)%N 0%N) as [Hq | Hq].
  - rewrite Hq, pretty_N_go_0. eexists _, _. split; [reflexivity |].
    apply pretty_N_char_nonzero. apply N.div_small_iff in Hq; [| lia].
    rewrite N.mod_small by exact Hq. exact Hx.
  - apply IH; [apply N.div_lt; lia | now apply N.neq_0_lt_0].
Qed.

Lemma pretty_nat_leading (n : nat) :
  exists c rest, pretty (S n) = String c rest /\ c <> "0"%char.
Proof.
  unfold pretty, pretty_nat, pretty, pretty_N.
  destruct (decide (N.of_nat (S n) = 0%N)) as [H0 | _]; [lia |].
  apply pretty_N_go_leading. lia.
Qed.

Lemma zeros_prefix_inj (k k' : nat) (c c' : ascii) (rest rest' : string) :
  c <> "0"%char -> c' <> "0"%char ->
  (string_of_list_ascii (repeat "0"%char k) ++ String c rest
   = string_of_list_ascii (repeat "0"%char k') ++ String c' rest')%string ->
  String c rest = String c' rest'.
Proof.
  intros Hc Hc'. revert k'. induction k as [| k IH]; intros [| k'] Heq; cbn in Heq.
  - exact Heq.
  - injection Heq as -> _. now destruct Hc.
  - injection Heq as <- _. now destruct Hc'.
  - injection Heq as Heq. now apply IH with k'.
Qed.

Lemma append_inv_head (prefix a b : string) :
  (prefix ++ a)%string = (prefix ++ b)%string -> a = b.
Proof.
  induction prefix as [| c prefix IH]; intros Heq; [exact Heq |].
  apply IH. change (String c (prefix ++ a) = String c (prefix ++ b))%string in Heq.
  now injection Heq.
Qed.

Lemma pattern_name_at_inj (i j : nat) : pattern_name_at i = pattern_name_at j -> i = j.
Proof.
  unfold pattern_name_at, EmbedScript.padStart. intros Heq.
  apply append_inv_head in Heq.
  rewrite !Nat.add_1_r in Heq.
  destruct (pretty_nat_leading i) as (c & rest & Ei & Hc).
  destruct (pretty_nat_leading j) as (c' & rest' & Ej & Hc').
  rewrite Ei, Ej in Heq. apply zeros_prefix_inj in Heq; [| assumption ..].
  rewrite <- Ei, <- Ej in Heq. apply (inj pretty) in Heq. lia.
Qed.

Section EmbedScriptFacts.

Import EmbedScript.

Variable host : Host.
Variable apiKey : string.

Lemma below_number_of_nat i n :
  below i (Finite (inject_Z (Z.of_nat n))) = (i <? n)%nat.
Proof.
  unfold below, Qltb. destruct (i <? n)%nat eqn:E.
  - apply Nat.ltb_lt in E. apply negb_true_iff.
    destruct (Qle_bool _ _) eqn:Q; [| reflexivity].
    apply Qle_bool_iff in Q. rewrite <- Zle_Qle in Q. lia.
  - apply Nat.ltb_ge in E. apply negb_false_iff. apply Qle_bool_iff.
    rewrite <- Zle_Qle. lia.
Qed.

Lemma below_minus_one i n :
  below i (minus_one (Finite (inject_Z (Z.of_nat n)))) = (i <? n - 1)%nat.
Proof.
  unfold below, minus_one, Qltb. destruct (i <? n - 1)%nat eqn:E.
  - apply Nat.ltb_lt in E. apply negb_true_iff.
    destruct (Qle_bool _ _) eqn:Q; [| reflexivity].
    apply Qle_bool_iff in Q.
    assert (H : (inject_Z (Z.of_nat n) - 1 == inject_Z (Z.of_nat n - 1))%Q)
      by (unfold Qeq; simpl; lia).
    rewrite H in Q. rewrite <- Zle_Qle in Q. lia.
  - apply Nat.ltb_ge in E. apply negb_false_iff. apply Qle_bool_iff.
    assert (H : (inject_Z (Z.of_nat n) - 1 == inject_Z (Z.of_nat n - 1))%Q)
      by (unfold Qeq; simpl; lia).
    rewrite H. rewrite <- Zle_Qle. lia.
Qed.

Lemma indexed_from_cons i p rest :
  indexed_from i (p :: rest) = (i, p) :: indexed_from (S i) rest.
Proof. reflexivity. Qed.

(** The loop over an array: it goes through the elements in front of the
    first one that is [null] or [undefined], and is rejected at that one. *)
Lemma insert_from_array (front rest : list Value) : forall fuel results events,
  (length rest < fuel)%nat ->
  insert_from host fuel (Arr (front ++ rest)) (length front) apiKey results events
  = Some
      (let done := collected host apiKey (length (front ++ rest)) (length front) (reached rest) in
       let results' :=
         {| embedded := embedded results ++ embedded (fst done);
            failed := failed results ++ failed (fst done);
            total := total results |} in
       (match List.find nullish rest with
        | Some p => Rejected (type_error host "p.description" p)
        | None => Resolved results'
        end,
        events ++ snd done)).
Proof.
  revert front. induction rest as [| p rest IH]; intros front fuel results events Hfuel.
  - destruct fuel as [| fuel]; [inversion Hfuel |].
    cbn [insert_from length_of ToNumber number_of_nat].
    rewrite below_number_of_nat, app_nil_r, Nat.ltb_irrefl. cbn [negb].
    cbn. rewrite !app_nil_r. now destruct results.
  - destruct fuel as [| fuel]; [inversion Hfuel |].
    cbn [insert_from length_of ToNumber number_of_nat].
    rewrite below_number_of_nat.
    assert (Hlt : (length front <? length (front ++ p :: rest))%nat = true).
    { apply Nat.ltb_lt. rewrite length_app. cbn [length]. lia. }
    rewrite Hlt. cbn [negb at_index].
    rewrite list_lookup_middle by reflexivity.
    cbn [reached List.find].
    destruct (nullish p) eqn:Enull.
    { cbn. now rewrite !app_nil_r. }
    fold (pattern_name_at (length front)). fold (embedded_text p).
    fold (attempt_at host apiKey (length front) p).
    assert (Hnext : front ++ p :: rest = (front ++ [p]) ++ rest)
      by now rewrite <- app_assoc.
    assert (Hlen : S (length front) = length (front ++ [p]))
      by (rewrite length_app; cbn [length]; lia).
    rewrite below_minus_one.
    unfold collected. rewrite indexed_from_cons. cbn [omap list_omap flat_map fst snd].
    change (list_omap _ _ (embedded_at host apiKey)) with (omap (embedded_at host apiKey)).
    change (list_omap _ _ (failed_at host apiKey)) with (omap (failed_at host apiKey)).
    assert (Hemb : embedded_at host apiKey (length front, p)
                   = match attempt_at host apiKey (length front) p with
                     | Resolved e => Some e
                     | Rejected _ => None
                     end) by reflexivity.
    assert (Hfail : failed_at host apiKey (length front, p)
                    = match attempt_at host apiKey (length front) p with
                      | Resolved e =>
                          if converts (dimensions e) then None
                          else Some {| failed_pattern_name := pattern_name_at (length front);
                                       error := type_error host "${embedding.length}"
                                                  (dimensions e) |}
                      | Rejected message =>
                          Some {| failed_pattern_name := pattern_name_at (length front);
                                  error := message |}
                      end) by reflexivity.
    rewrite Hemb, Hfail. clear Hemb Hfail. unfold events_at at 1, completes at 1.
    destruct (attempt_at host apiKey (length front) p) as [entry | message].
    + destruct (converts (dimensions entry)).
      * rewrite Hnext at 1. rewrite Hlen at 1. rewrite IH by (cbn [length] in Hfuel; lia).
        unfold collected. cbn [fst snd embedded failed total andb].
        rewrite <- Hnext, <- Hlen.
        destruct (List.find nullish rest);
          destruct (length front <? length (front ++ p :: rest) - 1)%nat;
          rewrite <- ?app_assoc; cbn [app]; reflexivity.
      * rewrite Hnext at 1. rewrite Hlen at 1. rewrite IH by (cbn [length] in Hfuel; lia).
        unfold collected. cbn [fst snd embedded failed total andb].
        rewrite <- Hnext, <- Hlen.
        destruct (List.find nullish rest); rewrite <- ?app_assoc; cbn [app]; reflexivity.
    + rewrite Hnext at 1. rewrite Hlen at 1. rewrite IH by (cbn [length] in Hfuel; lia).
      unfold collected. cbn [fst snd embedded failed total andb].
      rewrite <- Hnext, <- Hlen.
      destruct (List.find nullish rest); rewrite <- ?app_assoc; cbn [app]; reflexivity.
Qed.

Lemma insertPatterns_array (patterns : list Value) :
  insertPatterns host (Arr patterns) apiKey
  = Some (match List.find nullish patterns with
          | Some p => Rejected (type_error host "p.description" p)
          | None => Resolved (fst (collected host apiKey (length patterns) 0 (reached patterns)))
          end,
          snd (collected host apiKey (length patterns) 0 (reached patterns))).
Proof.
  unfold insertPatterns. cbn [nullish enough].
  rewrite (insert_from_array [] patterns) by (cbn; lia).
  cbn [app length embedded failed total length_of]. reflexivity.
Qed.

End EmbedScriptFacts.

Section EmbedScriptLoop.

Import EmbedScript.

Variable host : Host.
Variable apiKey : string.

Lemma js_inj (a b : string) : js a = js b -> a = b.
Proof.
  unfold js. intros H.
  rewrite <- (string_of_list_ascii_of_string a), <- (string_of_list_ascii_of_string b).
  f_equal. revert H. generalize (list_ascii_of_string a) (list_ascii_of_string b).
  induction l as [| x l IH]; intros [| y l'] H; try discriminate; [reflexivity |].
  cbn [List.map] in H. injection H as Hx Hl. f_equal; [| now apply IH].
  rewrite <- (ascii_N_embedding x), <- (ascii_N_embedding y). now f_equal.
Qed.

Lemma own_present name properties v :
  own name properties = Some v -> In name (List.map fst properties).
Proof.
  induction properties as [| [key value] rest IH]; cbn [own List.map fst]; [discriminate |].
  destruct (own name rest) as [later |].
  - intros E. right. now apply IH.
  - case_bool_decide; [| discriminate]. intros _. now left.
Qed.

(** The loop cannot go on for ever: in front of an index [i] that it gets
    to, no element is [undefined]. *)
Lemma visited_bound (patterns : Value) (i : nat) :
  (forall j, (j < i)%nat -> nullish (at_index patterns j) = false) ->
  (i < enough patterns)%nat.
Proof.
  intros Hvisited. destruct (lt_dec i (enough patterns)) as [Hlt | Hge]; [exact Hlt |].
  exfalso. destruct patterns as [| | b | x | s | elements | properties]; cbn [enough] in Hge.
  1-4: assert (H0 : (0 < i)%nat) by lia; specialize (Hvisited 0%nat H0); discriminate.
  - assert (Hs : (length s < i)%nat) by lia. specialize (Hvisited (length s) Hs).
    unfold at_index in Hvisited.
    rewrite lookup_ge_None_2 in Hvisited by lia. discriminate.
  - assert (He : (length elements < i)%nat) by lia.
    specialize (Hvisited (length elements) He). unfold at_index in Hvisited.
    rewrite lookup_ge_None_2 in Hvisited by lia. discriminate.
  - set (keys := List.map (fun j => js (pretty j)) (seq 0 i)).
    assert (Hnodup : List.NoDup keys).
    { unfold keys. apply Finite.Injective_map_NoDup; [| apply seq_NoDup].
      intros a b Hab. apply js_inj in Hab. now apply (inj pretty) in Hab. }
    assert (Hincl : incl keys (List.map fst properties)).
    { intros key Hkey. unfold keys in Hkey. apply in_map_iff in Hkey as (j & <- & Hj).
      apply in_seq in Hj. assert (Hji : (j < i)%nat) by lia.
      specialize (Hvisited j Hji). unfold at_index in Hvisited.
      destruct (own (js (pretty j)) properties) as [v |] eqn:Eown; [| discriminate].
      now apply own_present with v. }
    pose proof (NoDup_incl_length Hnodup Hincl) as Hlen.
    unfold keys in Hlen. rewrite !length_map, length_seq in Hlen. lia.
Qed.

Lemma insert_from_ends (patterns : Value) : forall fuel i results events,
  (forall j, (j < i)%nat -> nullish (at_index patterns j) = false) ->
  (enough patterns <= i + fuel)%nat ->
  is_Some (insert_from host fuel patterns i apiKey results events).
Proof.
  induction fuel as [| fuel IH]; intros i results events Hvisited Hfuel.
  - pose proof (visited_bound patterns i Hvisited). lia.
  - cbn [insert_from].
    destruct (ToNumber host (length_of patterns)) as [patternCount |]; [| eauto].
    destruct (below i patternCount); cbn [negb]; [| eauto].
    destruct (nullish (at_index patterns i)) eqn:Enull; [eauto |].
    assert (Hnext : forall j, (j < S i)%nat -> nullish (at_index patterns j) = false).
    { intros j Hj. destruct (decide (j = i)) as [-> | Hne]; [exact Enull |].
      apply Hvisited. lia. }
    destruct (embed_pattern host i _ _ _ apiKey) as [entry | message];
      [destruct (converts (dimensions entry)) |]; apply IH; try exact Hnext; lia.
Qed.

(** insertPatterns comes to an end whatever it is given. *)
Lemma insertPatterns_ends (patterns : Value) : is_Some (insertPatterns host patterns apiKey).
Proof.
  unfold insertPatterns. destruct (nullish patterns); [eauto |].
  apply insert_from_ends; [intros j Hj; lia | lia].
Qed.

(** A promise that insertPatterns resolves has gone through the whole
    array. *)
Lemma reached_all (patterns : list Value) :
  List.find nullish patterns = None -> reached patterns = patterns.
Proof.
  induction patterns as [| p rest IH]; [reflexivity |]. cbn [List.find reached].
  destruct (nullish p); [discriminate |]. intros H. now rewrite IH.
Qed.

Lemma reached_prefix (patterns : list Value) :
  exists rest, patterns = reached patterns ++ rest.
Proof.
  induction patterns as [| p rest IH]; [now exists [] |]. cbn [reached].
  destruct (nullish p); [now exists (p :: rest) |].
  destruct IH as [more E]. exists more. cbn [app]. now rewrite <- E.
Qed.

Lemma reached_lookup (patterns : list Value) i p :
  reached patterns !! i = Some p -> patterns !! i = Some p.
Proof.
  destruct (reached_prefix patterns) as [rest E]. intros H.
  rewrite E. now apply lookup_app_l_Some.
Qed.

Lemma indexed_from_lookup (patterns : list Value) : forall i k p,
  patterns !! k = Some p -> indexed_from i patterns !! k = Some ((i + k)%nat, p).
Proof.
  induction patterns as [| q rest IH]; intros i k p Hk; [discriminate |].
  unfold indexed_from. cbn [length seq zip zip_with]. destruct k as [| k]; simpl in Hk.
  - injection Hk as <-. simpl. now rewrite Nat.add_0_r.
  - simpl. fold (indexed_from (S i) rest). rewrite (IH (S i) k p Hk). do 2 f_equal. lia.
Qed.

Lemma indexed_from_length i (patterns : list Value) :
  length (indexed_from i patterns) = length patterns.
Proof.
  unfold indexed_from. rewrite length_zip_with, length_seq. lia.
Qed.

Lemma indexed_from_origin (patterns : list Value) i p :
  (i, p) ∈ indexed_from 0 patterns -> patterns !! i = Some p.
Proof.
  intros Hin. apply list_elem_of_lookup_1 in Hin as [k Hk].
  unfold indexed_from in Hk. apply lookup_zip_Some in Hk as [Hi Hp].
  apply lookup_seq in Hi as [-> _]. exact Hp.
Qed.

Lemma omap_length_le {A B} (f : A -> option B) (l : list A) :
  (length (omap f l) <= length l)%nat.
Proof.
  unfold omap. induction l as [| a l IH]; [reflexivity |].
  cbn [list_omap length]. destruct (f a); cbn [length]; lia.
Qed.

Lemma omap_cover_length {A B C} (f : A -> option B) (g : A -> option C) (l : list A) :
  (forall a, f a = None -> is_Some (g a)) ->
  (length l <= length (omap f l) + length (omap g l))%nat.
Proof.
  intros Hfg. unfold omap. induction l as [| a l IH]; [reflexivity |].
  cbn [list_omap length]. pose proof (Hfg a) as Ha.
  destruct (f a) as [b |]; destruct (g a) as [c |]; cbn [length]; try lia.
  destruct (Ha eq_refl). discriminate.
Qed.

Lemma omap_split_length {A B C} (f : A -> option B) (g : A -> option C) (l : list A) :
  (forall a, In a l -> is_Some (f a) <-> g a = None) ->
  (length (omap f l) + length (omap g l) = length l)%nat.
Proof.
  unfold omap. induction l as [| a l IH]; intros Hfg; [reflexivity |].
  cbn [list_omap length]. pose proof (Hfg a (or_introl eq_refl)) as Ha.
  specialize (IH (fun x Hx => Hfg x (or_intror Hx))).
  destruct (f a) as [b |] eqn:Ef; destruct (g a) as [c |] eqn:Eg; cbn [length].
  - destruct Ha as [Ha _]. specialize (Ha (ex_intro _ b eq_refl)). discriminate.
  - lia.
  - lia.
  - destruct Ha as [_ Ha]. destruct (Ha eq_refl). discriminate.
Qed.

Lemma embedded_entry_origin (patterns : list Value) entry :
  In entry (omap (embedded_at host apiKey) (indexed_from 0 patterns)) ->
  exists i p, patterns !! i = Some p /\ attempt_at host apiKey i p = Resolved entry.
Proof.
  intros Hentry. apply list_elem_of_In, list_elem_of_omap in Hentry as ([i p] & Hin & Hat).
  apply indexed_from_origin in Hin.
  unfold embedded_at in Hat. cbn [fst snd] in Hat.
  destruct (attempt_at host apiKey i p) as [e |] eqn:Eat; [| discriminate].
  injection Hat as ->. now exists i, p.
Qed.

Lemma failed_entry_origin (patterns : list Value) f :
  In f (omap (failed_at host apiKey) (indexed_from 0 patterns)) ->
  exists i p, patterns !! i = Some p
              /\ failed_pattern_name f = pattern_name_at i
              /\ (attempt_at host apiKey i p = Rejected (error f)
                  \/ exists entry,
                       attempt_at host apiKey i p = Resolved entry
                       /\ converts (dimensions entry) = false
                       /\ error f = type_error host "${embedding.length}" (dimensions entry)).
Proof.
  intros Hf. apply list_elem_of_In, list_elem_of_omap in Hf as ([i p] & Hin & Hat).
  apply indexed_from_origin in Hin.
  unfold failed_at in Hat. cbn [fst snd] in Hat.
  destruct (attempt_at host apiKey i p) as [entry | message] eqn:Eat.
  - destruct (converts (dimensions entry)) eqn:Econv; [discriminate |].
    injection Hat as <-. exists i, p. split; [exact Hin |]. split; [reflexivity |].
    right. exists entry. auto.
  - injection Hat as <-. exists i, p. split; [exact Hin |]. split; [reflexivity |]. now left.
Qed.

Lemma resolved_pattern_lands (patterns : list Value) i p entry :
  patterns !! i = Some p -> attempt_at host apiKey i p = Resolved entry ->
  In entry (omap (embedded_at host apiKey) (indexed_from 0 patterns)).
Proof.
  intros Hp E. pose proof (indexed_from_lookup patterns 0 i p Hp) as Hi.
  apply list_elem_of_In. apply list_elem_of_omap. exists (i, p).
  split; [eapply list_elem_of_lookup_2; exact Hi |].
  unfold embedded_at. cbn [fst snd]. now rewrite E.
Qed.

Lemma rejected_pattern_lands (patterns : list Value) i p message :
  patterns !! i = Some p -> attempt_at host apiKey i p = Rejected message ->
  In {| failed_pattern_name := pattern_name_at i; error := message |}
     (omap (failed_at host apiKey) (indexed_from 0 patterns)).
Proof.
  intros Hp E. pose proof (indexed_from_lookup patterns 0 i p Hp) as Hi.
  apply list_elem_of_In. apply list_elem_of_omap. exists (i, p).
  split; [eapply list_elem_of_lookup_2; exact Hi |].
  unfold failed_at. cbn [fst snd]. now rewrite E.
Qed.

Lemma unprinted_pattern_lands (patterns : list Value) i p entry :
  patterns !! i = Some p -> attempt_at host apiKey i p = Resolved entry ->
  converts (dimensions entry) = false ->
  In {| failed_pattern_name := pattern_name_at i;
        error := type_error host "${embedding.length}" (dimensions entry) |}
     (omap (failed_at host apiKey) (indexed_from 0 patterns)).
Proof.
  intros Hp E Hconv. pose proof (indexed_from_lookup patterns 0 i p Hp) as Hi.
  apply list_elem_of_In. apply list_elem_of_omap. exists (i, p).
  split; [eapply list_elem_of_lookup_2; exact Hi |].
  unfold failed_at. cbn [fst snd]. now rewrite E, Hconv.
Qed.

Lemma resolved_entry_name i p entry :
  attempt_at host apiKey i p = Resolved entry -> pattern_name entry = pattern_name_at i.
Proof.
  unfold attempt_at, embed_pattern. intros Eat.
  destruct (embedText host i _ apiKey) as [embedding |]; [| discriminate].
  destruct (spread (get p "tags")); [| discriminate].
  destruct (embedded_text p); try discriminate.
  destruct (nullish embedding); [discriminate |]. injection Eat as <-. reflexivity.
Qed.

(** X20: insertPatterns given an array.  It comes to an end.  When an element
    of the array is [null] or [undefined] the promise is rejected at the
    first such element, with the type error of reading its description, and
    the results collected so far are lost.  Otherwise the promise is resolved
    and the results account for every element: [total] is the length of the
    array, the element at index [i] leaves the entry of its attempt in
    [embedded] when the attempt resolves and an entry with its name and the
    error message in [failed] when it is rejected, and neither list holds
    anything else, except that an embedded pattern whose dimension cannot be
    printed is listed as failed as well.  So the two lists together have at
    least as many entries as the array has elements, and exactly as many
    when every dimension can be printed.  The names tell the elements apart:
    two indices never share one. *)
Theorem insert_patterns_accounts_for_every_pattern (patterns : list Value) :
  (forall i j, pattern_name_at i = pattern_name_at j -> i = j)
  /\ exists outcome events,
       insertPatterns host (Arr patterns) apiKey = Some (outcome, events)
       /\ (forall missing, List.find nullish patterns = Some missing ->
             outcome = Rejected (type_error host "p.description" missing))
       /\ (List.find nullish patterns = None ->
           exists results,
             outcome = Resolved results
             /\ total results = number_of_nat (length patterns)
             /\ (length (embedded results) <= length patterns)%nat
             /\ (length (failed results) <= length patterns)%nat
             /\ (length patterns <= length (embedded results) + length (failed results))%nat
             /\ ((forall entry, In entry (embedded results) ->
                    converts (dimensions entry) = true) ->
                 (length (embedded results) + length (failed results) = length patterns)%nat)
             /\ (forall i p, patterns !! i = Some p ->
                   match attempt_at host apiKey i p with
                   | Resolved entry =>
                       In entry (embedded results)
                       /\ (converts (dimensions entry) = false ->
                           In {| failed_pattern_name := pattern_name_at i;
                                 error := type_error host "${embedding.length}"
                                            (dimensions entry) |}
                              (failed results))
                   | Rejected message =>
                       In {| failed_pattern_name := pattern_name_at i; error := message |}
                          (failed results)
                   end)
             /\ (forall entry, In entry (embedded results) ->
                   exists i p, patterns !! i = Some p
                               /\ attempt_at host apiKey i p = Resolved entry
                               /\ pattern_name entry = pattern_name_at i)
             /\ (forall f, In f (failed results) ->
                   exists i p,
                     patterns !! i = Some p
                     /\ failed_pattern_name f = pattern_name_at i
                     /\ (attempt_at host apiKey i p = Rejected (error f)
                         \/ exists entry,
                              attempt_at host apiKey i p = Resolved entry
                              /\ converts (dimensions entry) = false
                              /\ error f = type_error host "${embedding.length}"
                                             (dimensions entry)))).
Proof.
  split; [exact pattern_name_at_inj |].
  rewrite insertPatterns_array. eexists _, _. split; [reflexivity |]. split.
  { intros missing ->. reflexivity. }
  intros Hall. rewrite Hall, (reached_all patterns Hall).
  eexists. split; [reflexivity |]. unfold collected. cbn [fst embedded failed total].
  split; [reflexivity |].
  split; [etransitivity; [apply omap_length_le | now rewrite indexed_from_length] |].
  split; [etransitivity; [apply omap_length_le | now rewrite indexed_from_length] |].
  split; [| split; [| split; [| split]]].
  - rewrite <- (indexed_from_length 0 patterns) at 1. apply omap_cover_length.
    intros [i p]. unfold embedded_at, failed_at. cbn [fst snd].
    destruct (attempt_at host apiKey i p); [discriminate | eauto].
  - intros Hprinted. rewrite <- (indexed_from_length 0 patterns) at 1.
    apply omap_split_length. intros [i p] Hin.
    apply list_elem_of_In, indexed_from_origin in Hin.
    unfold embedded_at, failed_at. cbn [fst snd].
    destruct (attempt_at host apiKey i p) as [entry | message] eqn:E.
    + rewrite (Hprinted entry (resolved_pattern_lands patterns i p entry Hin E)).
      split; [reflexivity | eauto].
    + split; [intros [e He]; discriminate | discriminate].
  - intros i p Hp. destruct (attempt_at host apiKey i p) as [entry | message] eqn:E.
    + split; [now apply (resolved_pattern_lands patterns i p) |].
      now apply (unprinted_pattern_lands patterns i p).
    + now apply (rejected_pattern_lands patterns i p).
  - intros entry Hentry. destruct (embedded_entry_origin _ _ Hentry) as (i & p & Hp & Eat).
    exists i, p. split; [exact Hp |]. split; [exact Eat |].
    now apply (resolved_entry_name i p).
  - intros f Hf. now apply failed_entry_origin.
Qed.

End EmbedScriptLoop.

Section EmbedScriptPacing.

Import EmbedScript.

Variable host : Host.
Variable apiKey : string.

(** The events of the loop over the elements [patterns], the first of them
    at index [i], of an array of [patternCount] elements. *)
Lemma events_cons patternCount i p rest :
  snd (collected host apiKey patternCount i (p :: rest))
  = events_at host apiKey patternCount i p
    ++ snd (collected host apiKey patternCount (S i) rest).
Proof. reflexivity. Qed.

Lemma embedded_cons patternCount i p rest :
  embedded (fst (collected host apiKey patternCount i (p :: rest)))
  = match attempt_at host apiKey i p with
    | Resolved e => e :: embedded (fst (collected host apiKey patternCount (S i) rest))
    | Rejected _ => embedded (fst (collected host apiKey patternCount (S i) rest))
    end.
Proof.
  unfold collected. rewrite indexed_from_cons. cbn [fst embedded omap list_omap].
  unfold embedded_at at 1. cbn [fst snd]. now destruct (attempt_at host apiKey i p).
Qed.

Lemma events_requests patternCount patterns : forall i,
  omap requested_index (snd (collected host apiKey patternCount i patterns))
  = seq i (length patterns).
Proof.
  induction patterns as [| p rest IH]; intros i; [reflexivity |].
  rewrite events_cons, omap_app, IH. unfold events_at.
  destruct (completes _ _ _ _ && _)%bool; reflexivity.
Qed.

Lemma events_waits patternCount patterns : forall i,
  (length (waits (snd (collected host apiKey patternCount i patterns)))
   <= length (embedded (fst (collected host apiKey patternCount i patterns))))%nat
  /\ Forall (fun e => is_wait e = true -> e = Waited RATE_LIMIT_MS)
            (snd (collected host apiKey patternCount i patterns)).
Proof.
  induction patterns as [| p rest IH]; intros i.
  { cbn. split; [lia | constructor]. }
  destruct (IH (S i)) as (Hcount & Hall).
  rewrite events_cons, embedded_cons. unfold waits in *. rewrite List.filter_app, length_app.
  remember (collected host apiKey patternCount (S i) rest) as done eqn:Edone. clear Edone.
  unfold events_at, completes. split.
  - destruct (attempt_at host apiKey i p) as [entry | message].
    + destruct (converts (dimensions entry) && _)%bool; cbn; lia.
    + cbn. lia.
  - apply Forall_app. split; [| exact Hall].
    destruct (_ && _)%bool; repeat constructor; discriminate.
Qed.

(** Within the whole array the loop never ends on a pause, and it pauses
    after every embedded pattern but the last one of the array. *)
Lemma events_whole patterns : forall i,
  let done := collected host apiKey (i + length patterns) i patterns in
  (forall ms, last (snd done) <> Some (Waited ms))
  /\ (patterns <> [] -> snd done <> [])
  /\ ((forall entry, In entry (embedded (fst done)) -> converts (dimensions entry) = true) ->
      (length (embedded (fst done)) <= S (length (waits (snd done))))%nat).
Proof.
  induction patterns as [| p rest IH]; intros i done.
  { cbn. repeat split; try lia; try discriminate. congruence. }
  unfold done. clear done.
  replace (i + length (p :: rest))%nat with (S i + length rest)%nat by (cbn [length]; lia).
  destruct (IH (S i)) as (Hlast & Hsome & Hcount).
  rewrite events_cons, embedded_cons. unfold waits in *. rewrite List.filter_app, length_app.
  remember (collected host apiKey (S i + length rest) (S i) rest) as done eqn:Edone.
  unfold events_at, completes.
  assert (Hlt : (i <? S i + length rest - 1)%nat = (0 <? length rest)%nat).
  { destruct rest; cbn [length].
    - rewrite (proj2 (Nat.ltb_ge _ _)) by lia. reflexivity.
    - rewrite (proj2 (Nat.ltb_lt _ _)) by lia. reflexivity. }
  rewrite Hlt. split; [| split].
  - intros ms. rewrite last_app.
    destruct (last (snd done)) as [e |] eqn:El.
    + apply Hlast.
    + destruct rest as [| q rest].
      * cbn [length Nat.ltb Nat.leb]. rewrite andb_false_r. cbn. discriminate.
      * exfalso. apply (Hsome ltac:(discriminate)). now apply last_None.
  - intros _. discriminate.
  - destruct (attempt_at host apiKey i p) as [entry | message].
    + intros Hprinted. rewrite (Hprinted entry (or_introl eq_refl)).
      specialize (Hcount (fun e He => Hprinted e (or_intror He))).
      destruct rest as [| q rest]; cbn [length Nat.ltb Nat.leb andb].
      * subst done. cbn. lia.
      * cbn [List.filter is_wait length app]. lia.
    + intros Hprinted. specialize (Hcount Hprinted). cbn. lia.
Qed.

Lemma events_all_rejected patternCount patterns : forall i,
  embedded (fst (collected host apiKey patternCount i patterns)) = [] ->
  snd (collected host apiKey patternCount i patterns)
  = List.map Requested (seq i (length patterns)).
Proof.
  induction patterns as [| p rest IH]; intros i Hnone; [reflexivity |].
  rewrite events_cons. rewrite embedded_cons in Hnone. unfold events_at, completes.
  destruct (attempt_at host apiKey i p); [discriminate |].
  cbn [andb app length seq List.map]. now rewrite IH.
Qed.

(** X21: the requests and pauses of insertPatterns given an array.  The
    embedding of every element in front of the first one that is [null] or
    [undefined] is requested once, in the order of the array, whatever
    happens to the earlier ones, and nothing is requested from that element
    on.  A request is followed by a pause exactly when the [try] block of its
    element got to its end and the element is not the last of the array;
    every pause lasts RATE_LIMIT_MS = 200 ms.  When the promise is resolved
    the loop does not end on a pause, the pauses are not more than the
    embedded patterns, at most one fewer when every dimension can be printed,
    and a run that embeds nothing never pauses. *)
Theorem insert_patterns_paces_requests (patterns : list Value) :
  exists outcome events,
    insertPatterns host (Arr patterns) apiKey = Some (outcome, events)
    /\ events
       = flat_map
           (fun entry =>
              Requested (fst entry)
              :: (if (completes host apiKey (fst entry) (snd entry)
                      && (fst entry <? length patterns - 1)%nat)%bool
                  then [Waited 200] else []))
           (indexed_from 0 (reached patterns))
    /\ omap requested_index events = seq 0 (length (reached patterns))
    /\ (forall e, In e events -> is_wait e = true -> e = Waited 200)
    /\ (forall results,
          outcome = Resolved results ->
          reached patterns = patterns
          /\ (forall ms, last events <> Some (Waited ms))
          /\ (length (waits events) <= length (embedded results))%nat
          /\ ((forall entry, In entry (embedded results) ->
                 converts (dimensions entry) = true) ->
              (length (embedded results) <= S (length (waits events)))%nat)
          /\ (embedded results = [] -> events = List.map Requested (seq 0 (length patterns)))).
Proof.
  rewrite insertPatterns_array. eexists _, _. split; [reflexivity |].
  split; [reflexivity |]. split; [apply events_requests |].
  destruct (events_waits (length patterns) (reached patterns) 0) as (Hcount & Hall).
  split.
  { intros e He. rewrite Forall_forall in Hall. apply Hall. now apply list_elem_of_In. }
  intros results. destruct (List.find nullish patterns) eqn:Efind; [discriminate |].
  intros [= <-]. rewrite (reached_all patterns Efind).
  rewrite (reached_all patterns Efind) in Hcount.
  destruct (events_whole patterns 0) as (Hlast & _ & Hmost). cbn [Nat.add] in Hlast, Hmost.
  split; [reflexivity |]. split; [exact Hlast |]. split; [exact Hcount |].
  split; [exact Hmost | apply events_all_rejected].
Qed.

End EmbedScriptPacing.

Section EmbedScriptRun.

Import EmbedScript.

Variable host : Host.

Lemma or_else_first_nonempty a b :
  or_string (or_else a b) EmptyString
  = match first_nonempty a b with Some s => s | None => EmptyString end.
Proof.
  destruct a as [[| c s] |], b as [[| c' s'] |]; reflexivity.
Qed.

Lemma first_nonempty_truthy a b :
  truthy (Some (match first_nonempty a b with Some s => s | None => EmptyString end))
  = match first_nonempty a b with Some _ => true | None => false end.
Proof.
  destruct a as [[| c s] |], b as [[| c' s'] |]; reflexivity.
Qed.

(** X22: parseEnv takes the database URL from DATABASE_URL, or from
    DAXIOM_DATABASE_URL when that one is unset or empty, and the key from
    GOOGLE_API_KEY, then GEMINI_API_KEY, in the same way. It exits with code 1
    when either is missing, before the URL is parsed; a URL that [new URL]
    refuses is thrown. Otherwise the fields of the URL are copied, with port
    5432 when the URL names none and the path without its leading slash as
    database name. *)
Theorem parse_env_takes_first_nonempty_variable :
  match first_nonempty (DATABASE_URL (env host)) (DAXIOM_DATABASE_URL (env host)),
        first_nonempty (GOOGLE_API_KEY (env host)) (GEMINI_API_KEY (env host)) with
  | None, _ | Some _, None => parseEnv host = inl (Exit 1)
  | Some dbUrl, Some key =>
      match new_URL host dbUrl with
      | None => parseEnv host = inl Thrown
      | Some url =>
          exists config,
            parseEnv host = inr config
            /\ apiKey config = key
            /\ db_host (db config) = hostname url
            /\ db_user (db config) = username url
            /\ db_password (db config) = password url
            /\ (port url = EmptyString -> db_port (db config) = Some 5432%N)
            /\ (forall name, pathname url = ("/" ++ name)%string ->
                  db_database (db config) = name)
      end
  end.
Proof.
  unfold parseEnv. rewrite !or_else_first_nonempty, !first_nonempty_truthy.
  destruct (first_nonempty (DATABASE_URL (env host)) (DAXIOM_DATABASE_URL (env host)))
    as [dbUrl |]; [| reflexivity].
  destruct (first_nonempty (GOOGLE_API_KEY (env host)) (GEMINI_API_KEY (env host)))
    as [key |]; [| reflexivity].
  cbn [negb]. destruct (new_URL host dbUrl) as [url |]; [| reflexivity].
  eexists. split; [reflexivity |]. cbn [apiKey db db_host db_user db_password db_port db_database].
  repeat split.
  - intros ->. reflexivity.
  - intros name ->. reflexivity.
Qed.

Lemma nothing_embedded apiKey (patterns : list Value) :
  embedded (fst (collected host apiKey (length patterns) 0 patterns)) = [] <->
  forall i p, patterns !! i = Some p -> resolves (attempt_at host apiKey i p) = false.
Proof.
  unfold collected. cbn [fst embedded]. split.
  - intros Hnone i p Hp. destruct (attempt_at host apiKey i p) as [entry |] eqn:E; [| reflexivity].
    pose proof (resolved_pattern_lands host apiKey patterns i p entry Hp E) as Hin.
    rewrite Hnone in Hin. destruct Hin.
  - intros Hall. destruct (omap _ _) as [| entry rest] eqn:El; [reflexivity |].
    destruct (embedded_entry_origin host apiKey patterns entry) as (i & p & Hp & E).
    { rewrite El. now left. }
    specialize (Hall i p Hp). rewrite E in Hall. discriminate.
Qed.

Lemma collected_cover apiKey (patterns : list Value) :
  (length patterns
   <= length (embedded (fst (collected host apiKey (length patterns) 0 patterns)))
      + length (failed (fst (collected host apiKey (length patterns) 0 patterns))))%nat.
Proof.
  unfold collected. cbn [fst embedded failed].
  rewrite <- (indexed_from_length 0 patterns) at 1. apply omap_cover_length.
  intros [i p]. unfold embedded_at, failed_at. cbn [fst snd].
  destruct (attempt_at host apiKey i p); [discriminate | eauto].
Qed.

Lemma exit_decision (results : Results) (events : list Event) :
  exists code,
    (if negb (forallb joins (firstn 3 (embedded results))) then Some (1%nat, events)
     else if ((0 <? length (failed results))%nat
              && (length (embedded results) =? 0)%nat)%bool
          then Some (1%nat, events) else Some (0%nat, events)) = Some (code, events)
    /\ (code = 0%nat \/ code = 1%nat)
    /\ (code = 0%nat <->
          forallb joins (firstn 3 (embedded results)) = true
          /\ (failed results = [] \/ embedded results <> [])).
Proof.
  destruct (forallb joins _); cbn [negb].
  - destruct (failed results) as [| f fs], (embedded results) as [| e es];
      cbn [length Nat.ltb Nat.leb Nat.eqb andb]; eexists; (split; [reflexivity |]);
      (split; [auto |]);
      (split;
       [ intros E;
         first [ discriminate E
               | split; [reflexivity | first [now left | right; discriminate]] ]
       | intros [_ [H | H]]; first [reflexivity | discriminate H | now destruct H] ]).
  - exists 1%nat. split; [reflexivity |]. split; [auto |].
    split; [discriminate | intros [[=] _]].
Qed.

(** X23: the exit code of the script.  It is 0 or 1, and 1 with nothing
    requested when the environment or the pattern file cannot be read.  With
    both read, it is 0 exactly when the length of the patterns can be
    printed, insertPatterns resolves, the tags of the first three embedded
    patterns can be joined, and no pattern failed or at least one was
    embedded.  For a pattern file that holds an array this means: no element
    of the array is [null] or [undefined], the array is empty or the attempt
    of at least one element resolves, however many fail, and the tags of the
    first three embedded patterns can be joined. *)
Theorem main_exit_code :
  exists code events,
    main host = Some (code, events)
    /\ (code = 0%nat \/ code = 1%nat)
    /\ ((forall config, parseEnv host <> inr config)
        \/ (forall patterns, loadPatterns host <> inr patterns) ->
        code = 1%nat /\ events = [])
    /\ (forall config patterns,
          parseEnv host = inr config -> loadPatterns host = inr patterns ->
          (code = 0%nat <->
             converts (length_of patterns) = true
             /\ exists results,
                  insertPatterns host patterns (apiKey config)
                  = Some (Resolved results, events)
                  /\ forallb joins (firstn 3 (embedded results)) = true
                  /\ (failed results = [] \/ embedded results <> [])))
    /\ (forall config patterns,
          parseEnv host = inr config -> loadPatterns host = inr (Arr patterns) ->
          (exists outcome,
             insertPatterns host (Arr patterns) (apiKey config) = Some (outcome, events))
          /\ (code = 0%nat <->
                List.find nullish patterns = None
                /\ (patterns = []
                    \/ exists i p, patterns !! i = Some p
                                   /\ resolves (attempt_at host (apiKey config) i p) = true)
                /\ forallb joins
                     (firstn 3 (omap (embedded_at host (apiKey config))
                                     (indexed_from 0 patterns))) = true)).
Proof.
  assert (Henv : forall stop, parseEnv host = inl stop -> stop = Exit 1 \/ stop = Thrown).
  { unfold parseEnv. intros stop. repeat destruct (negb _); try destruct (new_URL host _);
      intros [= <-]; auto. }
  assert (Hfile : forall stop, loadPatterns host = inl stop -> stop = Exit 1 \/ stop = Thrown).
  { unfold loadPatterns. intros stop. destruct (PATTERNS_FILE host) as [| | data];
      [| | destruct (nullish data)]; intros [= <-]; auto. }
  unfold main.
  destruct (parseEnv host) as [stop | config].
  { destruct (Henv stop eq_refl) as [-> | ->]; exists 1%nat, [];
      (split; [reflexivity |]); (split; [now right |]); (split; [auto |]);
      split; intros ? ? [=]. }
  destruct (loadPatterns host) as [stop | patterns].
  { destruct (Hfile stop eq_refl) as [-> | ->]; exists 1%nat, [];
      (split; [reflexivity |]); (split; [now right |]); (split; [auto |]);
      split; intros ? ? _ [=]. }
  assert (Hstop : (forall config', @inr Stop Config config <> inr config')
                  \/ (forall patterns', @inr Stop Value patterns <> inr patterns') ->
                  forall code events, code = 1%nat /\ events = @nil Event).
  { intros [Hno | Hno]; [destruct (Hno config eq_refl) | destruct (Hno patterns eq_refl)]. }
  assert (Harray : forall entries, patterns = Arr entries -> converts (length_of patterns) = true).
  { intros entries ->. reflexivity. }
  destruct (converts (length_of patterns)) eqn:Eprint; cbn [negb].
  2:{ exists 1%nat, []. split; [reflexivity |]. split; [now right |].
      split; [intros H; now apply Hstop |]. split.
      - intros config' patterns' [= <-] [= <-]. split; [discriminate |].
        intros [Hprint _]. congruence.
      - intros config' entries [= <-] [= ->]. specialize (Harray entries eq_refl).
        discriminate. }
  destruct (insertPatterns_ends host (apiKey config) patterns) as [[outcome events] Hrun].
  rewrite Hrun.
  destruct outcome as [results | message].
  2:{ exists 1%nat, events. split; [reflexivity |]. split; [now right |].
      split; [intros H; now apply Hstop |]. split.
      - intros config' patterns' [= <-] [= <-]. split; [discriminate |].
        intros (_ & results & Hresolved & _). congruence.
      - intros config' entries [= <-] [= ->]. split; [now exists (Rejected message) |].
        split; [discriminate |]. intros (Hall & _).
        rewrite insertPatterns_array, Hall in Hrun. discriminate. }
  destruct (exit_decision results events) as (code & -> & Hrange & Hzero).
  exists code, events. split; [reflexivity |]. split; [exact Hrange |].
  split; [intros H; now apply Hstop |]. split.
  - intros config' patterns' [= <-] [= <-]. rewrite Hzero. split.
    + intros [Hjoin Hsome]. split; [exact Eprint |]. exists results. auto.
    + intros (_ & results' & Hresolved & Hjoin & Hsome).
      rewrite Hrun in Hresolved. injection Hresolved as <-. auto.
  - intros config' entries [= <-] [= ->]. split; [now exists (Resolved results) |].
    rewrite insertPatterns_array in Hrun.
    destruct (List.find nullish entries) eqn:Efind; [discriminate |].
    rewrite (reached_all entries Efind) in Hrun. injection Hrun as <- _.
    rewrite Hzero. clear Hzero.
    pose proof (nothing_embedded (apiKey config) entries) as Hnone.
    pose proof (collected_cover (apiKey config) entries) as Hcover.
    unfold collected in *. cbn [fst embedded failed] in *.
    split.
    + intros [Hjoin Hsome]. split; [reflexivity |]. split; [| exact Hjoin].
      destruct (omap (embedded_at host (apiKey config)) (indexed_from 0 entries))
        as [| entry others] eqn:El.
      * destruct Hsome as [Hfailed | Hne]; [| congruence]. left.
        rewrite Hfailed in Hcover. cbn [length] in Hcover.
        destruct entries; [reflexivity | cbn [length] in Hcover; lia].
      * right. destruct (embedded_entry_origin host (apiKey config) entries entry)
          as (i & p & Hp & E); [rewrite El; now left |].
        exists i, p. split; [exact Hp |]. now rewrite E.
    + intros (_ & Hsome & Hjoin). split; [exact Hjoin |].
      destruct Hsome as [-> | (i & p & Hp & Hres)]; [now left |]. right.
      intros Hempty. rewrite (proj1 Hnone Hempty i p Hp) in Hres. discriminate.
Qed.

End EmbedScriptRun.

Section EmbedScriptEntries.

Import EmbedScript.

Variable host : Host.
Variable apiKey : string.

Lemma embedText_resolved n text embedding :
  embedText host n text apiKey = Resolved embedding ->
  exists data, https_request host n text apiKey = Response 200 data
               /\ embedding_values host data = Resolved embedding.
Proof.
  unfold embedText. destruct (https_request host n text apiKey) as [| | statusCode data];
    try discriminate.
  destruct (statusCode =? 429)%nat; [discriminate |].
  destruct (statusCode =? 200)%nat eqn:Estatus; [| discriminate]. cbn [negb].
  apply Nat.eqb_eq in Estatus. subst statusCode.
  destruct (embedding_values host data) as [values |] eqn:Evalues; [| discriminate].
  intros [= <-]. now exists data.
Qed.

Lemma firstn_short {A} (l : list A) n : (length l <= n)%nat -> firstn n l = l.
Proof. intros H. now apply firstn_all2. Qed.

(** X24: what an embedded pattern is stored as.  A pattern is embedded only
    if its description, or its title when the description is falsy, is a
    string, its tags can be spread (they are an array or a string) and the
    request was answered with status 200 and a body that holds an embedding
    other than [null].  The entry then carries the name of the index, the
    first 100 UTF-16 code units of the text, the length of the embedding
    whatever it is (it is not compared with EMBEDDING_DIMS), the pattern's
    tags followed by "openclaw" and "mission-control-source", and a truthy
    source file: the first related file when that is truthy, "unknown" when
    the pattern lists no related file. *)
Theorem embedded_entry_content (i : nat) (p : Value) (entry : EmbeddedPattern) :
  attempt_at host apiKey i p = Resolved entry ->
  exists text data embedding patternTags,
    embedded_text p = Str text
    /\ (ToBoolean (get p "description") = true -> get p "description" = Str text)
    /\ (ToBoolean (get p "description") = false -> get p "title" = Str text)
    /\ https_request host i (Str text) apiKey = Response 200 data
    /\ embedding_values host data = Resolved embedding
    /\ nullish embedding = false
    /\ spread (get p "tags") = Some patternTags
    /\ pattern_name entry = pattern_name_at i
    /\ stored_description entry = firstn 100 text
    /\ (length (stored_description entry) <= 100)%nat
    /\ ((length text <= 100)%nat -> stored_description entry = text)
    /\ dimensions entry = length_of embedding
    /\ stored_tags entry
       = patternTags ++ [Str (js "openclaw"); Str (js "mission-control-source")]
    /\ ToBoolean (source_file (metadata entry)) = true
    /\ (nullish (get p "related_files") = true \/ get p "related_files" = Arr [] ->
        source_file (metadata entry) = Str (js "unknown"))
    /\ (forall first others,
          get p "related_files" = Arr (first :: others) -> ToBoolean first = true ->
          source_file (metadata entry) = first)
    /\ original_id (metadata entry) = get p "id".
Proof.
  unfold attempt_at, embed_pattern.
  destruct (embedText host i (embedded_text p) apiKey) as [embedding |] eqn:Eembed;
    [| discriminate].
  destruct (spread (get p "tags")) as [patternTags |] eqn:Etags; [| discriminate].
  destruct (embedded_text p) as [| | | | text | |] eqn:Etext; try discriminate.
  destruct (nullish embedding) eqn:Enull; [discriminate |].
  intros [= <-]. destruct (embedText_resolved _ _ _ Eembed) as (data & Hresponse & Hvalues).
  exists text, data, embedding, patternTags.
  cbn [pattern_name stored_description dimensions stored_tags metadata source_file original_id].
  split; [reflexivity |].
  split; [intros Hd; unfold embedded_text, or_value in Etext; now rewrite Hd in Etext |].
  split; [intros Hd; unfold embedded_text, or_value in Etext; now rewrite Hd in Etext |].
  split; [exact Hresponse |]. split; [exact Hvalues |]. split; [exact Enull |].
  split; [reflexivity |]. split; [reflexivity |]. split; [reflexivity |].
  split; [rewrite length_firstn; lia |]. split; [apply firstn_short |].
  split; [reflexivity |]. split; [reflexivity |].
  split.
  { match goal with
    | |- ToBoolean (or_value ?x _) = true =>
        unfold or_value; destruct (ToBoolean x) eqn:E; [exact E | reflexivity]
    end. }
  split; [| split; [| reflexivity]].
  - intros [Hnone | ->]; [now rewrite Hnone | reflexivity].
  - intros first others -> Hfirst. cbn [nullish at_index]. unfold or_value.
    cbn [lookup list_lookup]. now rewrite Hfirst.
Qed.

Lemma requested_in_events (patterns : list Value) i p :
  patterns !! i = Some p ->
  In (Requested i) (snd (collected host apiKey (length patterns) 0 patterns)).
Proof.
  intros Hp. pose proof (events_requests host apiKey (length patterns) patterns 0) as Hreq.
  assert (Hi : i ∈ omap requested_index
                     (snd (collected host apiKey (length patterns) 0 patterns))).
  { rewrite Hreq. apply list_elem_of_lookup_2 with i. apply lookup_seq.
    split; [reflexivity |]. now apply lookup_lt_Some with p. }
  apply list_elem_of_omap in Hi as (e & He & Hidx). apply list_elem_of_In.
  destruct e; [| discriminate]. injection Hidx as ->. exact He.
Qed.

(** X25: in an array without [null] and [undefined], a pattern whose tags
    cannot be spread, or whose description or title is not a string, is never
    embedded: no embedded entry bears its name.  The request for its
    embedding is made all the same, and whatever the answer the pattern ends
    among the failed ones; when the request did succeed, the recorded error
    is the type error of the expression that met the unusable property. *)
Theorem incomplete_pattern_fails_after_request (patterns : list Value) (i : nat) (p : Value) :
  patterns !! i = Some p ->
  List.find nullish patterns = None ->
  spread (get p "tags") = None \/ (forall text, embedded_text p <> Str text) ->
  exists results events,
    insertPatterns host (Arr patterns) apiKey = Some (Resolved results, events)
    /\ In (Requested i) events
    /\ (forall entry, In entry (embedded results) -> pattern_name entry <> pattern_name_at i)
    /\ exists message,
         In {| failed_pattern_name := pattern_name_at i; error := message |} (failed results)
         /\ (forall embedding,
               embedText host i (embedded_text p) apiKey = Resolved embedding ->
               message = match spread (get p "tags") with
                         | Some _ => type_error host "description.substring" (embedded_text p)
                         | None => type_error host "p.tags" (get p "tags")
                         end).
Proof.
  intros Hp Hall Hmissing.
  assert (Hrejected : exists message,
             attempt_at host apiKey i p = Rejected message
             /\ (forall embedding,
                   embedText host i (embedded_text p) apiKey = Resolved embedding ->
                   message = match spread (get p "tags") with
                             | Some _ =>
                                 type_error host "description.substring" (embedded_text p)
                             | None => type_error host "p.tags" (get p "tags")
                             end)).
  { unfold attempt_at, embed_pattern.
    destruct (embedText host i (embedded_text p) apiKey) as [embedding | message].
    - destruct Hmissing as [Htags | Htext].
      + rewrite Htags. eexists. split; reflexivity.
      + destruct (spread (get p "tags")); [| eexists; split; reflexivity].
        destruct (embedded_text p) as [| | | | text | |] eqn:Etext;
          try (eexists; split; reflexivity).
        now destruct (Htext text).
    - exists message. split; [reflexivity |]. discriminate. }
  destruct Hrejected as (message & Hattempt & Hmessage).
  rewrite insertPatterns_array, Hall, (reached_all patterns Hall).
  eexists _, _. split; [reflexivity |].
  split; [now apply requested_in_events with p |]. split.
  - intros entry Hentry Hname. unfold collected in Hentry. cbn [fst embedded] in Hentry.
    destruct (embedded_entry_origin host apiKey patterns entry Hentry) as (j & q & Hq & E).
    rewrite (resolved_entry_name host apiKey j q entry E) in Hname.
    apply pattern_name_at_inj in Hname. subst j. rewrite Hp in Hq. injection Hq as <-.
    rewrite Hattempt in E. discriminate.
  - exists message. split; [| exact Hmessage].
    unfold collected. cbn [fst failed].
    now apply (rejected_pattern_lands host apiKey patterns i p).
Qed.

End EmbedScriptEntries.

Lemma main_exit_code_witness :
  exists events,
    EmbedScript.main interrupted_host = Some (1%nat, events)
    /\ events = [EmbedScript.Requested 0; EmbedScript.Waited 200].
Proof.
  destruct (main_exit_code interrupted_host) as (code & events & Hmain & Hrange & _ & _ & Harray).
  destruct (Harray _ [tagged_pattern; EmbedScript.Null] eq_refl eq_refl) as [_ Hzero].
  destruct Hrange as [-> | ->].
  - destruct (proj1 Hzero eq_refl) as [Hall _]. discriminate.
  - exists events. split; [exact Hmain |].
    vm_compute in Hmain. now injection Hmain as <-.
Defined.

Lemma embedded_entry_content_witness :
  exists entry,
    attempt_at sample_host "key" 0 tagged_pattern = EmbedScript.Resolved entry
    /\ EmbedScript.stored_description entry = EmbedScript.js "Mocking with vitest"
    /\ EmbedScript.source_file (EmbedScript.metadata entry)
       = EmbedScript.Str (EmbedScript.js "unknown").
Proof.
  eexists. split; [vm_compute; reflexivity |].
  destruct (embedded_entry_content sample_host "key" 0 tagged_pattern _ eq_refl)
    as (text & data & values & patternTags & _ & _ & _ & _ & _ & _ & _ & _ & _ & _ & _ & _ & _
        & _ & Hfile & _).
  split; [reflexivity | apply Hfile; now right].
Defined.

Lemma incomplete_pattern_fails_after_request_witness :
  exists results events message,
    EmbedScript.insertPatterns sample_host
      (EmbedScript.Arr [tagged_pattern; untagged_pattern]) "key"
    = Some (EmbedScript.Resolved results, events)
    /\ In (EmbedScript.Requested 1) events
    /\ In {| EmbedScript.failed_pattern_name := pattern_name_at 1;
             EmbedScript.error := message |}
          (EmbedScript.failed results).
Proof.
  destruct (incomplete_pattern_fails_after_request sample_host "key"
              [tagged_pattern; untagged_pattern] 1 untagged_pattern eq_refl eq_refl
              (or_introl eq_refl))
    as (results & events & Hrun & Hreq & _ & message & Hfailed & _).
  exists results, events, message. auto.
Defined.

(** ** The routing specification: index search and profile update *)

Section IndexSearch.

Import RoutingSpec.

Variable ix : Index.
Variable query_vector : list Q.
Variables top_k ef_search : nat.

Lemma filter_sublist {A} (f : A -> bool) (l : list A) : List.filter f l `sublist_of` l.
Proof.
  induction l as [| a l IH]; cbn; [constructor |].
  destruct (f a); [now apply sublist_skip | now apply sublist_cons].
Qed.

Lemma filter_everything {A} (f : A -> bool) (l : list A) :
  Forall (fun a => f a = true) l -> List.filter f l = l.
Proof.
  induction 1 as [| a l Ha _ IH]; cbn; [reflexivity |]. now rewrite Ha, IH.
Qed.

(** After [n] corrupted answers, each followed by a rebuild, the run goes on
    with query [queries + n]. *)
Lemma hnsw_search_skips_corruption : forall n fuel queries,
  length query_vector = 1536%nat ->
  (forall k, (k < n)%nat ->
     SQL_QUERY ix (queries + k) query_vector top_k = IndexCorruptionError
     /\ REBUILD_HNSW_INDEX ix (queries + k) = Ok tt) ->
  HNSW_SEARCH (n + fuel) ix queries query_vector top_k ef_search
  = HNSW_SEARCH fuel ix (queries + n) query_vector top_k ef_search.
Proof.
  induction n as [| n IH]; intros fuel queries Hdim Hcorrupt.
  - now rewrite Nat.add_0_r.
  - cbn [Nat.add HNSW_SEARCH]. rewrite Hdim. cbn [Nat.eqb ASSERT].
    change (ASSERT (1536 =? 1536)%nat) with (Ok tt : Exc unit).
    destruct (Hcorrupt 0%nat ltac:(lia)) as [Hq Hr]. rewrite Nat.add_0_r in Hq, Hr.
    rewrite Hq, Hr. rewrite IH; [f_equal; lia | exact Hdim |].
    intros k Hk. replace (S queries + k)%nat with (queries + S k)%nat by lia.
    apply Hcorrupt. lia.
Qed.

(** X26: HNSW_SEARCH of the routing specification.  For a query vector of
    1536 dimensions, when the first [n] queries report a corrupted index and
    each rebuild succeeds, the search returns after [n] rebuilds with what the
    next answer gives: of the rows of the index, those with a similarity above
    0.1, in the order of the index and at most [top_k] of them (all rows, when
    there are at most [top_k] and all are above 0.1); when the index is not
    found, the result of the metadata fallback search as it is; when the query
    times out, the cached results, or the empty list when none are cached. *)
Theorem hnsw_search_settles_after_rebuilds (n fuel : nat) :
  length query_vector = 1536%nat ->
  (forall k, (k < n)%nat ->
     SQL_QUERY ix k query_vector top_k = IndexCorruptionError
     /\ REBUILD_HNSW_INDEX ix k = Ok tt) ->
  SQL_QUERY ix n query_vector top_k <> IndexCorruptionError ->
  (n < fuel)%nat ->
  exists result,
    HNSW_SEARCH fuel ix 0 query_vector top_k ef_search = Some (result, n)
    /\ match SQL_QUERY ix n query_vector top_k with
       | Rows rows =>
           exists results,
             result = Ok results
             /\ results = firstn top_k (List.filter above_threshold rows)
             /\ (length results <= top_k)%nat
             /\ Forall (fun r => (0.1 < similarity r)%Q) results
             /\ results `sublist_of` rows
             /\ ((length rows <= top_k)%nat ->
                 Forall (fun r => (0.1 < similarity r)%Q) rows -> results = rows)
       | IndexNotFoundError => result = METADATA_FALLBACK_SEARCH ix query_vector top_k
       | QueryTimeoutError =>
           match CACHE_GET_TOP_K_RESULTS ix query_vector top_k with
           | Ok (Some cached) => result = Ok cached
           | Ok None => result = Ok []
           | Throw e => result = Throw e
           end
       | QueryError e => result = Throw e
       | IndexCorruptionError => False
       end.
Proof.
  intros Hdim Hcorrupt Hanswer Hfuel.
  replace fuel with (n + S (fuel - S n))%nat by lia.
  rewrite hnsw_search_skips_corruption; [| exact Hdim | exact Hcorrupt].
  cbn [Nat.add HNSW_SEARCH]. rewrite Hdim.
  change (ASSERT (1536 =? 1536)%nat) with (Ok tt : Exc unit).
  destruct (SQL_QUERY ix n query_vector top_k) as [rows | | | | e].
  - eexists. split; [reflexivity |]. eexists. split; [reflexivity |].
    fold above_threshold. split; [reflexivity |].
    split; [apply firstn_le_length |]. split; [| split].
    + apply Forall_forall. intros r Hr. apply elem_of_take in Hr as (i & Hr & _).
      apply list_elem_of_lookup_2, list_elem_of_In, filter_In in Hr as [_ Hr].
      unfold above_threshold in Hr. now apply Qltb_lt in Hr.
    + etransitivity; [apply sublist_take | apply filter_sublist].
    + intros Hlen Hall. rewrite filter_everything.
      * apply firstn_all2. exact Hlen.
      * eapply Forall_impl; [exact Hall |]. intros r Hr. now apply Qltb_lt.
  - eexists. split; reflexivity.
  - now destruct Hanswer.
  - destruct (CACHE_GET_TOP_K_RESULTS ix query_vector top_k) as [[cached |] | e];
      eexists; split; reflexivity.
  - eexists. split; reflexivity.
Qed.

End IndexSearch.

Lemma hnsw_search_settles_after_rebuilds_witness :
  exists results,
    RoutingSpec.HNSW_SEARCH 5 recovering_index 0 (repeat 0%Q 1536) 10 40
    = Some (Ok results, 2%nat)
    /\ List.map c_agent_id results = ["agent1"; "agent3"]%string.
Proof.
  destruct (hnsw_search_settles_after_rebuilds recovering_index (repeat 0%Q 1536) 10 40 2 5)
    as (result & Hrun & Hrows).
  - apply repeat_length.
  - intros k Hk. destruct k as [| [| k]]; [split; reflexivity .. | lia].
  - discriminate.
  - lia.
  - cbn in Hrows. destruct Hrows as (results & -> & -> & _).
    exists (firstn 10 (List.filter above_threshold
                         [ {| c_agent_id := "agent1"; similarity := 0.9 |};
                           {| c_agent_id := "agent2"; similarity := 0.05 |};
                           {| c_agent_id := "agent3"; similarity := 0.4 |} ])).
    split; [exact Hrun | reflexivity].
Defined.

Section ProfileUpdate.

Import RoutingSpec.

Variable st : ProfileStore.
Variables agent_id pattern_id pattern_type : string.
Variable success : bool.
Variable latency_ms : Q.
Variable tick : nat.

(** The run, once the reads have succeeded: the profile that is handed to
    UPSERT_AGENT_PROFILE and what the two writes make of it. *)
Lemma profile_update_run (profile : Profile) (new_rate : Q) (latencies : LatencyProfile)
    (failures : nat) :
  GET_AGENT_PROFILE st agent_id = Ok profile ->
  COMPUTE_NEW_SUCCESS_RATE st pattern_type (success_rate_by_type profile !! pattern_type)
    success 30 = Ok new_rate ->
  UPDATE_PERCENTILES st (latency_profile profile) latency_ms 100 = Ok latencies ->
  CONSECUTIVE_FAILURES st agent_id = Ok failures ->
  exists available until reason readings,
    let updated :=
      {| RoutingSpec.agent_id := RoutingSpec.agent_id profile;
         success_rate_by_type := <[pattern_type := new_rate]> (success_rate_by_type profile);
         recent_wins :=
           firstn 10 ({| win_pattern_id := pattern_id;
                         win_pattern_type := pattern_type;
                         win_timestamp := CURRENT_TIMESTAMP st tick;
                         win_success := success |} :: recent_wins profile);
         latency_profile := latencies;
         is_available := available;
         unavailable_until := until;
         unavailability_reason := reason;
         updated_at := Some (CURRENT_TIMESTAMP st readings);
         last_executed_at := Some (CURRENT_TIMESTAMP st (S readings)) |} in
    (available, until, reason, readings)
    = (if (negb success && (3 <? failures)%nat)%bool then
         (false, Some (CURRENT_TIMESTAMP st (S tick) + 300)%Z,
          Some "Consecutive failures threshold exceeded"%string, S (S tick))
       else if (failures <=? 3)%nat then (true, None, unavailability_reason profile, S tick)
       else (is_available profile, unavailable_until profile,
             unavailability_reason profile, S tick))
    /\ UPDATE_AGENT_PROFILE_ON_EXECUTION st agent_id pattern_id pattern_type success
         latency_ms tick
       = match UPSERT_AGENT_PROFILE st updated with
         | Throw e => (Throw e, [])
         | Ok _ =>
             match CACHE_INVALIDATE st ("profile:" ++ agent_id) with
             | Throw e => (Throw e, [Upserted updated])
             | Ok _ => (Ok tt, [Upserted updated; Invalidated ("profile:" ++ agent_id)])
             end
         end.
Proof.
  intros Hget Hrate Hlatency Hfailures.
  unfold UPDATE_AGENT_PROFILE_ON_EXECUTION. rewrite Hget, Hrate, Hlatency, Hfailures.
  destruct (negb success && (3 <? failures)%nat)%bool;
    [| destruct (failures <=? 3)%nat]; eexists _, _, _, _; split; reflexivity.
Qed.

(** X27: UPDATE_AGENT_PROFILE_ON_EXECUTION keeps the ten most recent
    executions.  When the profile and the new figures can be read, the profile
    that is written has the new execution, dated with the first clock reading,
    at the head of [recent_wins], followed by the first nine entries it had, in
    their order: never more than ten entries, and one more than before until
    there are ten.  The success rate of the pattern type is replaced by the
    new rate and those of the other types are left alone.  The profile is
    written before the cache entry "profile:<agent_id>" is invalidated: when
    the invalidation fails the profile is written all the same, and when the
    write fails nothing is invalidated. *)
Theorem profile_update_keeps_ten_recent_wins (profile : Profile) (new_rate : Q)
    (latencies : LatencyProfile) (failures : nat) :
  GET_AGENT_PROFILE st agent_id = Ok profile ->
  COMPUTE_NEW_SUCCESS_RATE st pattern_type (success_rate_by_type profile !! pattern_type)
    success 30 = Ok new_rate ->
  UPDATE_PERCENTILES st (latency_profile profile) latency_ms 100 = Ok latencies ->
  CONSECUTIVE_FAILURES st agent_id = Ok failures ->
  let execution :=
    {| win_pattern_id := pattern_id;
       win_pattern_type := pattern_type;
       win_timestamp := CURRENT_TIMESTAMP st tick;
       win_success := success |} in
  let run :=
    UPDATE_AGENT_PROFILE_ON_EXECUTION st agent_id pattern_id pattern_type success latency_ms
      tick in
  exists updated,
    RoutingSpec.agent_id updated = RoutingSpec.agent_id profile
    /\ recent_wins updated = execution :: firstn 9 (recent_wins profile)
    /\ length (recent_wins updated) = Nat.min 10 (S (length (recent_wins profile)))
    /\ (forall i win, (i < 9)%nat -> recent_wins profile !! i = Some win ->
          recent_wins updated !! S i = Some win)
    /\ success_rate_by_type updated !! pattern_type = Some new_rate
    /\ (forall other, other <> pattern_type ->
          success_rate_by_type updated !! other = success_rate_by_type profile !! other)
    /\ latency_profile updated = latencies
    /\ match UPSERT_AGENT_PROFILE st updated, CACHE_INVALIDATE st ("profile:" ++ agent_id) with
       | Throw e, _ => run = (Throw e, [])
       | Ok _, Throw e => run = (Throw e, [Upserted updated])
       | Ok _, Ok _ => run = (Ok tt, [Upserted updated; Invalidated ("profile:" ++ agent_id)])
       end.
Proof.
  intros Hget Hrate Hlatency Hfailures execution run.
  destruct (profile_update_run profile new_rate latencies failures Hget Hrate Hlatency
              Hfailures) as (available & until & reason & readings & _ & Hrun).
  cbv zeta in Hrun.
  match type of Hrun with context [UPSERT_AGENT_PROFILE st ?u] => exists u end.
  cbn [RoutingSpec.agent_id recent_wins success_rate_by_type latency_profile].
  split; [reflexivity |]. split; [reflexivity |]. split; [| split; [| split; [| split]]].
  - cbn [firstn length]. rewrite length_firstn. lia.
  - intros i win Hi Hwin. cbn [firstn]. rewrite lookup_cons.
    rewrite lookup_take_lt by exact Hi. exact Hwin.
  - apply lookup_insert_eq.
  - intros other Hother. now apply lookup_insert_ne.
  - split; [reflexivity |]. unfold run. rewrite Hrun.
    destruct (UPSERT_AGENT_PROFILE st _); [| reflexivity].
    destruct (CACHE_INVALIDATE st _); reflexivity.
Qed.

(** X28: the availability rule of UPDATE_AGENT_PROFILE_ON_EXECUTION.  After a
    failed execution with more than three consecutive failures the agent is
    written as unavailable until 300 seconds after the second clock reading,
    with the reason "Consecutive failures threshold exceeded".  With at most
    three consecutive failures it is written as available with no
    [unavailable_until], whatever it was before, and the reason it may have had
    stays in the profile.  After a successful execution with more than three
    consecutive failures its availability is written as it was read.  In every
    case an agent written as unavailable has an [unavailable_until], if that
    held for the profile read. *)
Theorem profile_update_availability (profile : Profile) (new_rate : Q)
    (latencies : LatencyProfile) (failures : nat) :
  GET_AGENT_PROFILE st agent_id = Ok profile ->
  COMPUTE_NEW_SUCCESS_RATE st pattern_type (success_rate_by_type profile !! pattern_type)
    success 30 = Ok new_rate ->
  UPDATE_PERCENTILES st (latency_profile profile) latency_ms 100 = Ok latencies ->
  CONSECUTIVE_FAILURES st agent_id = Ok failures ->
  (forall written, UPSERT_AGENT_PROFILE st written = Ok tt) ->
  exists updated result,
    UPDATE_AGENT_PROFILE_ON_EXECUTION st agent_id pattern_id pattern_type success latency_ms
      tick = (result, Upserted updated :: match result with
                                          | Ok _ => [Invalidated ("profile:" ++ agent_id)]
                                          | Throw _ => []
                                          end)
    /\ (success = false -> (3 < failures)%nat ->
        is_available updated = false
        /\ unavailable_until updated = Some (CURRENT_TIMESTAMP st (S tick) + 300)%Z
        /\ unavailability_reason updated
           = Some "Consecutive failures threshold exceeded"%string
        /\ updated_at updated = Some (CURRENT_TIMESTAMP st (S (S tick))))
    /\ ((failures <= 3)%nat ->
        is_available updated = true
        /\ unavailable_until updated = None
        /\ unavailability_reason updated = unavailability_reason profile
        /\ updated_at updated = Some (CURRENT_TIMESTAMP st (S tick)))
    /\ (success = true -> (3 < failures)%nat ->
        is_available updated = is_available profile
        /\ unavailable_until updated = unavailable_until profile
        /\ unavailability_reason updated = unavailability_reason profile)
    /\ (unavailability_dated profile -> unavailability_dated updated).
Proof.
  intros Hget Hrate Hlatency Hfailures Hupsert.
  destruct (profile_update_run profile new_rate latencies failures Hget Hrate Hlatency
              Hfailures) as (available & until & reason & readings & Hrule & Hrun).
  cbv zeta in Hrun. rewrite Hupsert in Hrun.
  match type of Hrun with context [Upserted ?u] => exists u end.
  exists (match CACHE_INVALIDATE st ("profile:" ++ agent_id) with
          | Ok _ => Ok tt
          | Throw e => Throw e
          end).
  split.
  { rewrite Hrun. destruct (CACHE_INVALIDATE st _); reflexivity. }
  cbn [is_available unavailable_until unavailability_reason updated_at].
  unfold unavailability_dated. cbn [is_available unavailable_until].
  destruct success; cbn [negb andb] in Hrule.
  - destruct (failures <=? 3)%nat eqn:Hle; injection Hrule as -> -> -> ->;
      [apply Nat.leb_le in Hle | apply Nat.leb_gt in Hle].
    + split; [discriminate |]. split; [auto |]. split; [lia |]. discriminate.
    + split; [discriminate |]. split; [lia |]. split; [auto |]. auto.
  - destruct (3 <? failures)%nat eqn:Hlt.
    + injection Hrule as -> -> -> ->. apply Nat.ltb_lt in Hlt.
      split; [auto |]. split; [lia |]. split; [discriminate |]. eauto.
    + apply Nat.ltb_ge in Hlt. rewrite (proj2 (Nat.leb_le _ _) Hlt) in Hrule.
      injection Hrule as -> -> -> ->.
      split; [lia |]. split; [auto |]. split; [discriminate |]. discriminate.
Qed.

End ProfileUpdate.

Lemma profile_update_keeps_ten_recent_wins_witness :
  exists updated,
    RoutingSpec.UPDATE_AGENT_PROFILE_ON_EXECUTION (sample_store 0) "agent1" "p2" "deploy" true
      120 0
    = (Ok tt, [RoutingSpec.Upserted updated; RoutingSpec.Invalidated "profile:agent1"])
    /\ List.map RoutingSpec.win_timestamp (RoutingSpec.recent_wins updated)
       = [1000; 10; 9; 8; 7; 6; 5; 4; 3; 2]%Z.
Proof.
  destruct (profile_update_keeps_ten_recent_wins (sample_store 0) "agent1" "p2" "deploy" true
              120 0 full_profile _ _ 0 eq_refl eq_refl eq_refl eq_refl)
    as (updated & _ & Hwins & _ & _ & _ & _ & _ & Hrun).
  exists updated. split; [exact Hrun |]. rewrite Hwins. reflexivity.
Defined.

Lemma profile_update_availability_witness :
  exists updated,
    RoutingSpec.UPDATE_AGENT_PROFILE_ON_EXECUTION (sample_store 2) "agent1" "p2" "deploy" false
      120 0
    = (Ok tt, [RoutingSpec.Upserted updated; RoutingSpec.Invalidated "profile:agent1"])
    /\ RoutingSpec.is_available updated = true
    /\ RoutingSpec.unavailability_reason updated = Some "maintenance"%string.
Proof.
  destruct (profile_update_availability (sample_store 2) "agent1" "p2" "deploy" false
              120 0 full_profile _ _ 2 eq_refl eq_refl eq_refl eq_refl (fun _ => eq_refl))
    as (updated & result & Hrun & _ & Hfew & _).
  destruct (Hfew ltac:(lia)) as (Havailable & _ & Hreason & _).
  exists updated. split; [| split; [exact Havailable | exact Hreason]].
  rewrite Hrun. vm_compute in Hrun. injection Hrun as <- _. reflexivity.
Defined.
